(* ===== verification/_CoqProject ===== *)
-Q . S2P
Prelude.v
Sha256.v
PyJson.v
PyStrings.v
JsonText.v
JsonScan.v
Instants.v
DurableModels.v
DurableRetry.v
DurableResults.v
DurablePlans.v
DurableInventory.v
DurableTables.v
DurableOutbox.v
DurableWorkflow.v
DurableLeases.v
DurableCompletion.v
DurableAdmission.v
DurableMaterialize.v
DurableReuse.v
DurableFacts.v
DurableRanking.v
DurableSweeps.v
DurableSystem.v
DurableFrames.v
LeaseProtocol.v
WorkloadProtocol.v
DurableRefinement.v
DurableAudit.v
DurableFixture.v
LeaseGuarantees.v
ClaimGuarantees.v
LeaseProperties.v
CompletionGuarantees.v
CompletionProperties.v
FrozenFacts.v
DurableCommands.v
DurableOwners.v
DurableLineage.v
DurableHomes.v
RevisionLayout.v
RevisionInvariant.v
WorkloadProperties.v
OwnerProperties.v
ReuseGuarantees.v
ReuseProperties.v
FactsProperties.v
JsonScanProperties.v
DurablePlanGraph.v
DurablePlanSpec.v
DurablePlanProperties.v
DurableInventoryProperties.v
RevisionFixture.v
RevisionProperties.v
RankingGuarantees.v
QuietSteps.v
RankingProperties.v
SettleProperties.v
MaterializeEffects.v
MaterializeInvariant.v
MaterializeProperties.v
Isolation.v
IsolationProperties.v
FairGate.v
FairGateProperties.v
GateTickets.v
SchedulerPolicy.v
SchedulerPolicyProperties.v
SchedulerAdmission.v
AdmissionSlots.v
AdmissionTickets.v
AdmissionGate.v
AdmissionInvariant.v
AdmissionProgress.v
AdmissionProperties.v
ScheduleTriggers.v
ScheduleStore.v
ScheduleDaemon.v
ScheduleCountdown.v
ScheduleProperties.v
