(* ===== verification/Prelude.v ===== *)
(** * Verification development of Metnos

    Metnos (src/runtime/) is an agent runtime in Python.  This library models
    the parts of it on which the safety of background work rests and proves
    the theorems that make them correct.

    ** The program's parts

    - The durable-workload kernel (src/runtime/durable_workloads/): an SQLite
      store of workloads, revisions, stages, units, attempts and results.
      Workers claim a unit under a lease with a fencing token, run it, extend
      the lease by heartbeats and commit one result; a recovery daemon
      reconciles expired leases; the owner pauses, resumes, cancels and grants
      retries; every change of a workload's state appends an event, and
      notifications leave through an outbox with leases of its own.  Plans
      and inventories are validated before they enter (schema.py).
    - Execution isolation (src/runtime/execution_isolation.py): tickets of the
      running invocations of an executor and the file targets they touch.
    - The executor scheduler (src/runtime/executor_scheduler.py): every
      executor call passes three bounded admissions (global, per executor, per
      device context) of fair gates, which serve the owners in turn, and a
      signed concurrency policy says how wide each of them is.
    - The recurring task scheduler (src/runtime/scheduler_v2/): a table of
      schedules with textual triggers, the daemon's tick that claims and runs
      the ones that are due, retries with a delay, timers that end after a
      number of runs, and a run history.

    The store is the contract between workers that may die, be slow or come
    back late: its theorems quantify over every sequence of its operations,
    with any arguments, any clock and any identifiers.  Isolation and the executor scheduler are
    objects shared by threads, modelled as interleavings of the bodies that
    run under their locks.  The recurring scheduler is one thread over a
    table the owner's commands write too.

    ** Files

    - Prelude: record update, the [result] type, the transaction monad [txn]
      with its two program logics ([post]: what a transaction establishes,
      [guar]: a relation between the stores before and after), tactics and
      hint databases.
    - Sha256, PyJson, Instants, PyStrings: the parts of Python's
      language and standard library the code uses: [hashlib.sha256], JSON
      values with [canonical_json], instants and their texts, the order of
      [str] and [bisect_left], [str.strip], [str.split], [int] and the
      comparisons of texts.
    - JsonScan: the scanner that cuts the entries of a result's payload out of
      its text (storage.py), and JsonScanProperties: it reads back what the
      canonical text was made of.
    - JsonText: the canonical text does not depend on the order of fields, and
      determines the value up to that order.
    - DurablePlans (schema.py): every check of a plan, the search for cycles.
      DurablePlanGraph: what the search decides.  DurablePlanSpec: the
      specification of accepted plans.  DurablePlanProperties.
    - DurableInventory (schema.py): the validation of inventories that writes
      and hashes while it reads.  DurableInventoryProperties.
    - DurableModels (models.py): state vocabularies, transition tables.
      DurableRetry and DurableResults (coordinator.py, domain_outcome.py):
      policies, the retry decision, leases, results and errors.
    - DurableTables (migrations.py, storage.py): a record per row, a finite map
      per table, [Store] the whole database, the primitives SQL statements are
      made of.  DurableOutbox, DurableWorkflow, DurableLeases (storage.py) and
      DurableCompletion (the evaluation of terminal criteria there): one
      definition per operation, each under the name of the Python method
      without its leading underscore and [_in_transaction] suffix.  The
      [rollback] of a raised exception is the [Err] of [txn].
    - DurableReuse (storage.py, [adopt_reusable_results]): a unit takes over the
      result of an earlier unit under an equal contract.  DurableFacts
      ([record_execution_facts], [record_attempt_usage]): what a worker records
      about an attempt.  DurableRanking (the model reservations and the
      candidate query of [claim_next]): which unit a worker is given.
    - DurableSweeps: the loops over all workloads that materialize, complete,
      reuse and settle, a transaction for each workload.
    - DurableSystem: [op_step], one committed public operation;
      [reachable_from], any number of them.  The candidate query of a claim is
      an argument: [op_step_under] restricts it, [op_step] allows any.
    - LeaseProtocol: an abstract specification of units, attempts and results
      (ten moves), its invariant [core_inv] and what one unit can observe
      ([evolves]).  DurableRefinement: every operation is a sequence of moves.
      LeaseGuarantees, ClaimGuarantees, LeaseProperties: what follows.
    - FrozenFacts, FactsProperties: recorded facts stay, usage is charged once.
      ReuseGuarantees, ReuseProperties: one step of the reuse of results.
    - RankingGuarantees: what a ranked claim grants.  QuietSteps: the
      operations that start no unit.  RankingProperties: concurrency, budgets
      and turns under the store's own query.
    - SettleProperties: the query of the settlement sweep against the
      settlement of one workload.
    - WorkloadProtocol: an abstract specification of the state column and the
      event log.  DurableAudit: every operation follows it.  DurableCommands:
      recorded commands are kept.  WorkloadProperties: what follows.
    - DurableAdmission: [admit_revision], from the validated plan and inventory
      to the rows of a revision.  RevisionLayout: the rows a plan and an
      inventory call for, and that the transaction writes exactly those.
      DurableLineage, RevisionInvariant: revisions are written once and belong
      to one workload.  RevisionFixture: runs from the empty database, one to
      committed results and one of two owners.  RevisionProperties: what
      follows, with the usage row and the budgets of every revision.
    - DurableMaterialize: [_materialize_ready_units_batch], the units of the
      stages that wait for others, with its query for the next stage, its
      cursor, the three cardinalities, the entries of a payload and the
      hierarchical reduction.
      DurableHomes: what only admission and materialization write.
      MaterializeEffects, MaterializeInvariant: one step of a batch, the
      invariant of cursors and bindings.  MaterializeProperties: what follows.
    - CompletionGuarantees, CompletionProperties: when a workload is completed
      and what stays true of it afterwards.
    - DurableFrames: operations and the tables they leave alone, shared by the
      three refinements.  DurableOwners, OwnerProperties: owners are isolated,
      erasure, deliveries.  DurableFixture: the database of the witnesses.
    - Isolation, IsolationProperties: the registry of running invocations, its
      invariant and properties.
    - FairGate, FairGateProperties, GateTickets: one gate, its invariant, what
      happens to each ticket.
    - SchedulerPolicy, SchedulerPolicyProperties: the slots a signed manifest
      grants an executor, and the budget of the workers.
    - SchedulerAdmission: [invoke_call] and [context_call] as programs of
      [acquire] and [release], a [System] of any number of calls over all the
      gates, [sys_step].  AdmissionSlots, AdmissionTickets, AdmissionGate:
      what one step does to the slots held, to the tickets and to each gate.
      AdmissionInvariant, AdmissionProgress, AdmissionProperties: capacity is
      conserved, every call ends.
    - ScheduleTriggers (schedule_parser.py), ScheduleStore (storage.py, the tables and
      statements), ScheduleDaemon (daemon.py, runner and tick),
      ScheduleCountdown (timers along a history of ticks), ScheduleProperties.

    ** Theorems

    - Leases (LeaseProperties, ClaimGuarantees): the store refines the lease
      protocol; a unit has at most one open attempt; fences and attempt numbers
      are never reused; a superseded lease can change nothing; a result is
      committed once, by a live lease before its deadline, and for ever; claims
      and heartbeats stay within the frozen policy; units follow their graph.
    - Workloads (WorkloadProperties, DurableModels): the log numbers the events
      without a gap and ends with the current state; states follow the table;
      commands are idempotent; the graph leads to terminal states.
    - Admission of plans (RevisionProperties): every store reachable from the
      empty database is sound; an admission writes what the plan and the
      inventory call for, and is idempotent as long as the usage flag stands.
    - Materialization (MaterializeProperties): units of reachable stores are
      bound to exactly the results they expect, committed by declared parents
      ([reachable_units_are_bound]); a batch creates what it reports, within
      the caps, and stops early only when nothing can advance
      ([batch_creates_what_it_reports]).  The entry scanner is exact
      ([entries_are_read_back]).
    - Owners and deliveries (OwnerProperties): isolation, erasure, the outbox
      hands a delivery out once it cannot have been started.
    - Facts and usage (FactsProperties): recorded facts are frozen, model usage
      is charged to its revision exactly once and adds up to its calls.
    - Reuse (ReuseProperties): [reuse_is_sound] says when a result is taken
      over and what is stored.
    - Ranking (RankingProperties): [concurrency_is_bounded] holds from the
      empty database on as long as units are claimed with the store's own
      query; a ranked lease is within every budget and reservation
      ([ranked_lease_is_justified]); owners take turns
      ([nobody_is_overtaken_twice]), and a candidate always has a unit.
    - Settlement (SettleProperties): [sweep_is_exact], the sweep selects what a
      settlement would change and nothing else, in every reachable store where
      SQLite and Python read the instants alike.
    - Values (DurableRetry, JsonText): bounds of the retry delay, the decision
      table, the reader of policies, exactness of the canonical text.
    - Plans and inventories (DurablePlanProperties,
      DurableInventoryProperties): what validation guarantees the rest of the
      kernel, the search for cycles is exact and ends, the streaming encoding
      of an inventory is its canonical text and its digest that of all its
      sources.
    - Completion (CompletionProperties): [completion_is_exact] says what
      evaluation decides, [completion_is_once_and_for_ever] that it is decided
      once.
    - Isolation and gate: mutual exclusion of conflicting invocations, first
      come first served, progress, exactness of the conflict test; capacity,
      work conservation, round-robin, bounded bursts.
    - Admission of calls: slots are conserved over all the gates through any
      interleaving, and no mixture of the three admissions deadlocks
      ([admission_terminates]); parallel execution needs a signature
      ([parallel_authority_is_signed]).
    - Recurring tasks (ScheduleProperties): the next fire is in the future, a
      timer runs exactly its number of times, failures only delay.
    - Divergences: the theorems [manual_retry_leaves_unit_table],
      [release_blocked_by_newer_progress], [timeout_leaks_a_slot],
      [daily_may_fire_in_the_past], [unhashable_mode_is_a_type_error],
      [optional_stage_exceeds_its_cap], [conflict_is_retried_unasked],
      [a_pause_gives_back_the_turn] and [cancelled_timer_takes_the_next_one]
      exhibit behaviours the code or its comments do not mean to have.

    ** Conventions, bounds and fuel

    Instants and durations are integers of microseconds, which is the
    resolution of [datetime]; the stored texts have the same order.  Python
    integers are unbounded, so [Z] is exact; where the code bounds a counter by
    SQLite's 64-bit range the bound is written out.  Python strings are the
    bytes of their UTF-8 encoding.  A JSON column holds the parsed value.
    [Host] supplies the clock, the identifiers of [uuid4] and SQLite's
    comparisons of [julianday] ([julian_after], [julian_reached]), which is
    floating-point arithmetic; theorems hold for every host, and those that
    compare with Python's arithmetic say where both have to agree.  Fuel occurs in
    SHA-256 (the number of blocks, bounded by the padded length), in the binary
    search (the length of the list) and in the grant loop of the gate (the free
    slots and the owners; [grant_loop_inv] shows the loop has ended when the
    fuel has), in the text functions of PyStrings (the length of the text) and in the search
    for cycles (one more than the stages: the path holds different stages, so
    [acyclicity_check_is_exact] shows the fuel never ends).
    Epochs of the recurring scheduler are integers of 2^-22 s, the resolution
    of a double at present dates.  Calendar arithmetic in the local time zone,
    the installation's settings and the libraries outside src/ are parameters
    of the definitions that use them ([Libraries], [Zone], [Settings]).  The
    progress theorem of the admission assumes that a running call returns,
    which is the executor's own time limit.

    ** Not modelled

    Within the store: the dismissal of terminal workloads, which goes with the
    removal of their report files, and the read-only queries for callers (lists,
    progress, [service_lane_demand]).  [claim_next] takes its candidate query as an
    argument, so the theorems on leases hold whatever candidate it picks; the
    query of the code is [claim_candidate] of DurableRanking.  The reachability
    theorems speak of the operations of [op_step].  In
    the executor scheduler: metrics, the thread pool and the validation of
    execution contexts.  In the recurring scheduler: the loop's sleep, its
    health file and the bodies of the jobs, which are a parameter.  The
    rest of Metnos (the turn engine, language models, channels, HTTP, the
    executors and the certification of generated code, the Rust clients) is
    not part of this development. *)
From Stdlib Require Export ZArith Lia.
From stdpp Require Export base tactics numbers strings list sorting fin_maps gmap.

(** ** Scope, hint databases *)

Declare Scope metnos_scope.
Open Scope metnos_scope.
Create Rewrite HintDb durable.
Create HintDb guar.

(** ** Record update

    [r <| f := v |>] is the record with one field replaced: the columns a SQL
    [UPDATE] names, or a dataclass [replace].  An instance of [Settable] lists
    the fields of a record once; the setter of each field is derived. *)
Class Settable (R : Type) := settable : R -> R.
Class Setter {R T} (proj : R -> T) := set_field : (T -> T) -> R -> R.
Arguments set_field {R T} proj {_} _ _ /.

Ltac derive_setter :=
  lazymatch goal with
  | |- @Setter ?R ?T ?p =>
      let inst := constr:(_ : Settable R) in
      let eta := eval hnf in inst in
      lazymatch eval pattern p in eta with
      | ?f _ =>
          let t := eval cbv beta in (fun g : T -> T => f (fun r => g (p r))) in
          exact t
      end
  end.
#[export] Hint Extern 1 (Setter _) => derive_setter : typeclass_instances.

Notation "r <| f := v |>" := (set_field f (fun _ => v) r)
  (at level 1, left associativity, f at level 0, v at level 200) : metnos_scope.

(** ** Results: a computation returns a value or raises *)

Inductive result (E A : Type) : Type :=
| Ok (a : A)
| Err (e : E).
Arguments Ok {E A} a.
Arguments Err {E A} e.

(** A writer transaction over a store [S].  It yields a value and the new
    store, or raises; when it raises the caller keeps the old store, which is
    the [ROLLBACK] of the code. *)
Definition txn (E S A : Type) : Type := S -> result E (A * S).

#[export] Instance txn_ret {E S} : MRet (txn E S) :=
  fun A (a : A) s => Ok (a, s).
#[export] Instance txn_bind {E S} : MBind (txn E S) :=
  fun A B (k : A -> txn E S B) (m : txn E S A) s =>
    match m s with
    | Ok (a, s') => k a s'
    | Err e => Err e
    end.

#[export] Instance result_ret {E} : MRet (result E) := fun A a => Ok a.
#[export] Instance result_bind {E} : MBind (result E) :=
  fun A B k m => match m with Ok a => k a | Err e => Err e end.

Section Txn.
Context {E S : Type}.

Definition raise {A} (e : E) : txn E S A := fun _ => Err e.
Definition gets {A} (f : S -> A) : txn E S A := fun s => Ok (f s, s).
Definition modify (f : S -> S) : txn E S unit := fun s => Ok (tt, f s).
Definition check (b : bool) (e : E) : txn E S unit :=
  fun s => if b then Ok (tt, s) else Err e.
Definition of_option {A} (e : E) (o : option A) : txn E S A :=
  fun s => match o with Some a => Ok (a, s) | None => Err e end.
Definition lift_result {A} (r : result E A) : txn E S A :=
  fun s => match r with Ok a => Ok (a, s) | Err e => Err e end.

(** Partial correctness over a transaction: what holds of the value and the
    store whenever it commits. *)
Definition post {A} (m : txn E S A) (s : S) (Q : A -> S -> Prop) : Prop :=
  forall a s', m s = Ok (a, s') -> Q a s'.

Definition preserves {A} (I : S -> Prop) (m : txn E S A) : Prop :=
  forall s, I s -> post m s (fun _ s' => I s').

Lemma post_ret {A} (a : A) s (Q : A -> S -> Prop) :
  Q a s -> post (mret a) s Q.
Proof. intros H a' s' [=<- <-]. exact H. Qed.

Lemma post_bind {A B} (m : txn E S A) (k : A -> txn E S B) s Q :
  post m s (fun a s' => post (k a) s' Q) -> post (m ≫= k) s Q.
Proof.
  intros H b s'. unfold mbind, txn_bind.
  destruct (m s) as [[a s1]|e] eqn:Hm; [|done].
  intros Hk. exact (H a s1 Hm b s' Hk).
Qed.

Lemma post_raise {A} (e : E) s (Q : A -> S -> Prop) : post (raise e) s Q.
Proof. intros a s'. done. Qed.

Lemma post_gets {A} (f : S -> A) s (Q : A -> S -> Prop) :
  Q (f s) s -> post (gets f) s Q.
Proof. intros H a s' [=<- <-]. exact H. Qed.

Lemma post_modify (f : S -> S) s (Q : unit -> S -> Prop) :
  Q tt (f s) -> post (modify f) s Q.
Proof. intros H a s' [=<- <-]. exact H. Qed.

Lemma post_check b (e : E) s (Q : unit -> S -> Prop) :
  (b = true -> Q tt s) -> post (check b e) s Q.
Proof. intros H a s'. unfold check. destruct b; [|done]. intros [=<- <-]. auto. Qed.

Lemma post_of_option {A} (e : E) (o : option A) s (Q : A -> S -> Prop) :
  (forall a, o = Some a -> Q a s) -> post (of_option e o) s Q.
Proof. intros H a s'. unfold of_option. destruct o; [|done]. intros [=<- <-]. auto. Qed.

Lemma post_lift_result {A} (r : result E A) s (Q : A -> S -> Prop) :
  (forall a, r = Ok a -> Q a s) -> post (lift_result r) s Q.
Proof. intros H a s'. unfold lift_result. destruct r; [|done]. intros [=<- <-]. auto. Qed.

Lemma post_mono {A} (m : txn E S A) s (Q Q' : A -> S -> Prop) :
  post m s Q -> (forall a s', Q a s' -> Q' a s') -> post m s Q'.
Proof. intros H HQ a s' Hm. exact (HQ _ _ (H _ _ Hm)). Qed.

Lemma preserves_bind {A B} I (m : txn E S A) (k : A -> txn E S B) :
  preserves I m -> (forall a, preserves I (k a)) -> preserves I (m ≫= k).
Proof.
  intros Hm Hk s Hs. apply post_bind. eapply post_mono; [exact (Hm s Hs)|].
  intros a s' Hs'. exact (Hk a s' Hs').
Qed.

(** A sub-transaction of known guarantee, inside a larger one. *)
Lemma post_total {A} (m : txn E S A) s (Q : A -> S -> Prop) :
  (forall a s', m s = Ok (a, s') -> Q a s') -> post m s Q.
Proof. done. Qed.

(** A relation every committed run of a transaction lies in.  For a
    preorder the guarantees of a sequence follow from those of its parts. *)
Definition guar {A} (R : relation S) (m : txn E S A) : Prop :=
  forall s a s', m s = Ok (a, s') -> R s s'.

Lemma guar_ret {A} R `{!Reflexive R} (a : A) : guar R (mret a).
Proof. by intros s b s' [= <- <-]. Qed.

Lemma guar_raise {A} R (e : E) : guar R (@raise A e).
Proof. by intros s b s'. Qed.

Lemma guar_gets {A} R `{!Reflexive R} (f : S -> A) : guar R (gets f).
Proof. by intros s b s' [= <- <-]. Qed.

Lemma guar_check R `{!Reflexive R} b (e : E) : guar R (check b e).
Proof. intros s a s'. unfold check. destruct b; [|done]. by intros [= <- <-]. Qed.

Lemma guar_of_option {A} R `{!Reflexive R} (e : E) (o : option A) : guar R (of_option e o).
Proof. intros s a s'. unfold of_option. destruct o; [|done]. by intros [= <- <-]. Qed.

Lemma guar_lift_result {A} R `{!Reflexive R} (r : result E A) : guar R (lift_result r).
Proof. intros s a s'. unfold lift_result. destruct r; [|done]. by intros [= <- <-]. Qed.

Lemma guar_modify (R : relation S) f : (forall s, R s (f s)) -> guar R (modify f).
Proof. by intros H s b s' [= <- <-]. Qed.

Lemma guar_bind {A B} R `{!Transitive R} (m : txn E S A) (k : A -> txn E S B) :
  guar R m -> (forall a, guar R (k a)) -> guar R (m ≫= k).
Proof.
  intros Hm Hk s b s'. unfold mbind, txn_bind.
  destruct (m s) as [[a s1]|e] eqn:He; [|done].
  intros H. etrans; [exact (Hm _ _ _ He) | exact (Hk _ _ _ _ H)].
Qed.

Lemma post_guar {A} (R : relation S) (m : txn E S A) s (Q : A -> S -> Prop) :
  guar R m -> (forall a s', R s s' -> Q a s') -> post m s Q.
Proof. intros Hm HQ a s' H. exact (HQ a s' (Hm s a s' H)). Qed.

Lemma guar_mono {A} (R R' : relation S) (m : txn E S A) :
  guar R m -> (forall s s', R s s' -> R' s s') -> guar R' m.
Proof. intros Hm HR s a s' H. exact (HR s s' (Hm s a s' H)). Qed.

Lemma guar_post {A} (R : relation S) (m : txn E S A) :
  (forall s, post m s (fun _ s' => R s s')) -> guar R m.
Proof. intros H s a s' Hm. exact (H s a s' Hm). Qed.

(** What every returned value satisfies, whatever the store. *)
Definition yields {A} (P : A -> Prop) (m : txn E S A) : Prop :=
  forall s a s', m s = Ok (a, s') -> P a.

Lemma yields_ret {A} (P : A -> Prop) a : P a -> yields P (mret a).
Proof. by intros Ha s b s' [= <- <-]. Qed.

Lemma yields_bind {A B} (P : B -> Prop) (m : txn E S A) (k : A -> txn E S B) :
  (forall a, yields P (k a)) -> yields P (m ≫= k).
Proof.
  intros Hk s b s'. unfold mbind, txn_bind.
  destruct (m s) as [[a s1]|e]; [|done]. apply Hk.
Qed.

Lemma post_guar_yields {A} (R : relation S) (P : A -> Prop) (m : txn E S A) s Q :
  guar R m -> yields P m -> (forall a s', R s s' -> P a -> Q a s') -> post m s Q.
Proof. intros Hm HP HQ a s' H. exact (HQ a s' (Hm s a s' H) (HP s a s' H)). Qed.

(** A computation that neither reads nor writes the store. *)
Definition storeless {A} (m : txn E S A) : Prop :=
  forall s a s', m s = Ok (a, s') -> s' = s /\ forall t, m t = Ok (a, t).

Lemma storeless_ret {A} (a : A) : storeless (mret a).
Proof. by intros s b s' [= <- <-]. Qed.
Lemma storeless_raise {A} (e : E) : storeless (@raise A e).
Proof. by intros s b s'. Qed.
Lemma storeless_check b (e : E) : storeless (check b e).
Proof. intros s a s'. unfold check. destruct b; [|done]. by intros [= <- <-]. Qed.
Lemma storeless_of_option {A} (e : E) (o : option A) : storeless (of_option e o).
Proof. intros s a s'. unfold of_option. destruct o; [|done]. by intros [= <- <-]. Qed.
Lemma storeless_lift_result {A} (r : result E A) : storeless (lift_result r).
Proof. intros s a s'. unfold lift_result. destruct r; [|done]. by intros [= <- <-]. Qed.

Lemma storeless_bind {A B} (m : txn E S A) (k : A -> txn E S B) :
  storeless m -> (forall a, storeless (k a)) -> storeless (m ≫= k).
Proof.
  intros Hm Hk s b s'. unfold mbind, txn_bind.
  destruct (m s) as [[a s1]|e] eqn:He; [|done]. destruct (Hm _ _ _ He) as [-> Ht].
  intros H. destruct (Hk a _ _ _ H) as [-> Hk']. split; [done|]. intros t. by rewrite Ht.
Qed.

(** [for x in l: body]: the loop over a list of rows. *)
Fixpoint for_each {A} (l : list A) (body : A -> txn E S unit) : txn E S unit :=
  match l with
  | [] => mret tt
  | x :: rest => body x ≫= fun _ => for_each rest body
  end.

(** The loop that appends what its body yields to a list of results. *)
Fixpoint collect {A B} (l : list A) (body : A -> txn E S (option B)) : txn E S (list B) :=
  match l with
  | [] => mret []
  | x :: rest =>
      body x ≫= fun o =>
      collect rest body ≫= fun bs =>
      mret (match o with Some b => b :: bs | None => bs end)
  end.

(** The loop that carries a value from one element to the next. *)
Fixpoint fold_steps {A B} (l : list A) (body : B -> A -> txn E S B) (b : B) : txn E S B :=
  match l with
  | [] => mret b
  | x :: rest => body b x ≫= fold_steps rest body
  end.

Lemma guar_fold_steps {A B} R `{!PreOrder R} (l : list A) (body : B -> A -> txn E S B) b :
  (forall b x, guar R (body b x)) -> guar R (fold_steps l body b).
Proof.
  intros H. revert b. induction l as [|x l IH]; intros b; simpl; [apply guar_ret; apply _ |].
  apply guar_bind; [apply _ | apply H | exact IH].
Qed.

Lemma storeless_fold_steps {A B} (l : list A) (body : B -> A -> txn E S B) b :
  (forall b x, storeless (body b x)) -> storeless (fold_steps l body b).
Proof.
  intros H. revert b. induction l as [|x l IH]; intros b; simpl; [apply storeless_ret|].
  by apply storeless_bind.
Qed.

(** What a loop establishes: an invariant of the elements done so far. *)
Lemma post_fold_steps {A B} (l : list A) (body : B -> A -> txn E S B)
    (I : list A -> B -> S -> Prop) b s :
  I [] b s ->
  (forall done x rest b s, l = done ++ x :: rest -> I done b s ->
     post (body b x) s (fun b' s' => I (done ++ [x]) b' s')) ->
  post (fold_steps l body b) s (I l).
Proof.
  intros H0 Hstep. assert (forall rest done b s, l = done ++ rest -> I done b s ->
    post (fold_steps rest body b) s (I l)) as H; [|exact (H l [] b s eq_refl H0)].
  clear b s H0. induction rest as [|x rest IH]; intros ds b s -> Hs; simpl.
  - rewrite app_nil_r in *. by apply post_ret.
  - apply post_bind. eapply post_mono; [by eapply Hstep|]. intros b' s' Hs'.
    apply (IH (ds ++ [x])); [by rewrite <- app_assoc | exact Hs'].
Qed.

Lemma guar_collect_in {A B} R `{!PreOrder R} (l : list A) (body : A -> txn E S (option B)) :
  (forall x, x ∈ l -> guar R (body x)) -> guar R (collect l body).
Proof.
  induction l as [|x l IH]; intros H; simpl; [apply guar_ret; apply _ |].
  apply guar_bind; [apply _ | apply H; left |]. intros o.
  apply guar_bind; [apply _ | apply IH; intros y Hy; apply H; by right |].
  intros bs. apply guar_ret; apply _.
Qed.

Lemma guar_collect {A B} R `{!PreOrder R} (l : list A) (body : A -> txn E S (option B)) :
  (forall x, guar R (body x)) -> guar R (collect l body).
Proof. intros H. apply guar_collect_in; auto. Qed.

Lemma guar_for_each_in {A} R `{!PreOrder R} (l : list A) body :
  (forall x, x ∈ l -> guar R (body x)) -> guar R (for_each l body).
Proof.
  induction l as [|x l IH]; intros H; simpl; [apply guar_ret; apply _ |].
  apply guar_bind; [apply _ | apply H; left | intros _].
  apply IH. intros y Hy. apply H. by right.
Qed.

Lemma guar_for_each {A} R `{!PreOrder R} (l : list A) body :
  (forall x, guar R (body x)) -> guar R (for_each l body).
Proof. intros H. apply guar_for_each_in; auto. Qed.

(** A loop over selected rows: what the selection tells of each. *)
Lemma guar_gets_bind {A B} R (f : S -> A) (k : A -> txn E S B) :
  (forall s, guar R (k (f s))) -> guar R (gets f ≫= k).
Proof. intros H s b s' Hrun. exact (H s s b s' Hrun). Qed.

Lemma post_for_each {A} (l : list A) body (I : S -> Prop) s :
  I s -> (forall x s0, x ∈ l -> I s0 -> post (body x) s0 (fun _ s1 => I s1)) ->
  post (for_each l body) s (fun _ s1 => I s1).
Proof.
  revert s. induction l as [|x l IH]; intros s Hs Hb; simpl.
  - by apply post_ret.
  - apply post_bind. eapply post_mono; [apply Hb; [left | done] |].
    intros a s1 H1. apply IH; [exact H1|]. intros y s2 Hy. apply Hb. by right.
Qed.

(** The same with what the elements done so far have established. *)
Lemma post_for_each_done {A} (l : list A) body (I : list A -> S -> Prop) s :
  I [] s ->
  (forall done x s, I done s -> post (body x) s (fun _ s' => I (done ++ [x]) s')) ->
  post (for_each l body) s (fun _ s' => I l s').
Proof.
  intros H0 Hstep. assert (forall done s, I done s ->
    post (for_each l body) s (fun _ s' => I (done ++ l) s')) as H; [|exact (H [] s H0)].
  clear s H0. induction l as [|x l IH]; intros ds s Hs; simpl.
  - rewrite app_nil_r. by apply post_ret.
  - apply post_bind. eapply post_mono; [by apply Hstep|]. intros a s' Hs'.
    specialize (IH (ds ++ [x]) s' Hs'). by rewrite <- app_assoc in IH.
Qed.
End Txn.

#[export] Hint Resolve guar_ret guar_raise guar_gets guar_check guar_of_option
  guar_lift_result : guar.
#[export] Hint Extern 2 (Reflexive _) => apply _ : guar.

(** Split a transaction at its binds and branches, close the leaves from the
    hint database of guarantees. *)
Ltac guar_step :=
  match goal with
  | |- guar _ (_ ≫= _) => apply guar_bind; [apply _ | | intros ?]
  | |- guar _ (collect _ _) => apply guar_collect; [apply _ | intros ?]
  | |- guar _ (for_each _ _) => apply guar_for_each; [apply _ | intros ?]
  | |- guar _ (fold_steps _ _ _) => apply guar_fold_steps; [apply _ | intros ? ?]
  | |- guar _ (let '(_, _) := ?x in _) => destruct x
  | |- guar _ (if ?b then _ else _) => destruct b
  | |- guar _ (match ?x with _ => _ end) => destruct x
  | |- guar _ _ => solve [auto with guar typeclass_instances]
  end.
Ltac guar := repeat guar_step.

#[export] Hint Resolve storeless_ret storeless_raise storeless_check storeless_of_option
  storeless_lift_result : guar.

(** The same walk for a computation that does not touch the store. *)
Ltac storeless_step :=
  cbv zeta;
  match goal with
  | |- storeless (_ ≫= _) => apply storeless_bind; [| intros ?]
  | |- storeless (fold_steps _ _ _) => apply storeless_fold_steps; intros ? ?
  | |- storeless (if ?b then _ else _) => destruct b
  | |- storeless (match ?x with _ => _ end) => destruct x
  | |- storeless _ => solve [auto with guar]
  end.
Ltac storeless := repeat storeless_step.

(** Symbolic execution of a transaction from a known store: one primitive at
    a time, naming what its success tells. *)
Ltac post_step :=
  cbv beta;
  match goal with
  | |- post (mret _) _ _ => apply post_ret
  | |- post (_ ≫= _) _ _ => apply post_bind
  | |- post (gets _) _ _ => apply post_gets; cbv beta
  | |- post (check _ _) _ _ => apply post_check; intros ?
  | |- post (raise _) _ _ => apply post_raise
  | |- post (of_option _ _) _ _ => apply post_of_option; intros ? ?
  | |- post (lift_result _) _ _ => apply post_lift_result; intros ? ?
  | |- post (if ?b then _ else _) _ _ => destruct b eqn:?
  | |- post (match ?x with _ => _ end) _ _ => destruct x eqn:?
  end.

(** ** Lists and results *)

Lemma bind_ok {E A B} (m : result E A) (k : A -> result E B) b :
  m ≫= k = Ok b -> exists a, m = Ok a /\ k a = Ok b.
Proof. destruct m as [a|e]; [|done]. intros H. by exists a. Qed.

Lemma mapM_ok {E A B} (f : A -> result E B) l k :
  mapM f l = Ok k -> Forall2 (fun x y => f x = Ok y) l k.
Proof.
  revert k. induction l as [|x l IH]; simpl; intros k H.
  - injection H as <-. constructor.
  - apply bind_ok in H as (y & Hy & H). apply bind_ok in H as (ys & Hys & H).
    injection H as <-. constructor; auto.
Qed.

Lemma forallb_false {A} (f : A -> bool) l :
  forallb f l = false -> exists x, x ∈ l /\ f x = false.
Proof.
  induction l as [|x l IH]; simpl; [done|]. intros [H|H]%andb_false_iff.
  - exists x. split; [left | done].
  - destruct (IH H) as (y & ? & ?). exists y. split; [by right | done].
Qed.

Lemma existsb_false {A} (f : A -> bool) l x : existsb f l = false -> x ∈ l -> f x = false.
Proof.
  intros H Hin. destruct (f x) eqn:E; [|done]. rewrite <- H. symmetry. apply existsb_exists.
  exists x. split; [by apply list_elem_of_In | done].
Qed.

Lemma forallb_Forall {A} (f : A -> bool) l : forallb f l = true -> Forall (fun x => f x = true) l.
Proof.
  rewrite forallb_forall. intros H. apply Forall_forall. intros x Hx. by apply H, list_elem_of_In.
Qed.
