(* ===== verification/Sha256.v ===== *)
(** * SHA-256

    [hashlib.sha256] of Python's standard library, executable, on lists of
    bytes given as integers in 0..255.  The durable kernel uses it for content
    digests and for the deterministic retry jitter. *)
From S2P Require Import Prelude.
Local Open Scope Z_scope.

Definition w32 (z : Z) : Z := z mod 4294967296.
Definition add32 (a b : Z) : Z := w32 (a + b).
Definition rotr (n x : Z) : Z :=
  Z.lor (Z.shiftr x n) (w32 (Z.shiftl x (32 - n))).
Definition not32 (x : Z) : Z := 4294967295 - x.

Definition ch x y z := Z.lxor (Z.land x y) (Z.land (not32 x) z).
Definition maj x y z := Z.lxor (Z.lxor (Z.land x y) (Z.land x z)) (Z.land y z).
Definition bsig0 x := Z.lxor (Z.lxor (rotr 2 x) (rotr 13 x)) (rotr 22 x).
Definition bsig1 x := Z.lxor (Z.lxor (rotr 6 x) (rotr 11 x)) (rotr 25 x).
Definition ssig0 x := Z.lxor (Z.lxor (rotr 7 x) (rotr 18 x)) (Z.shiftr x 3).
Definition ssig1 x := Z.lxor (Z.lxor (rotr 17 x) (rotr 19 x)) (Z.shiftr x 10).

(** The constants of FIPS 180-4 are not a table: they are the first 32 bits of
    the fractional parts of the cube roots (rounds) and of the square roots
    (initial hash) of the first primes. *)
Definition is_prime (n : Z) : bool :=
  forallb (fun k => negb (n mod Z.of_nat k =? 0)) (seq 2 (Z.to_nat n - 2)).

Definition primes (count : nat) : list Z :=
  take count (List.filter is_prime (map Z.of_nat (seq 2 310))).

(** The largest [r] below [2 ^ bits] added to [acc] with [r ^ 3 <= n]. *)
Fixpoint cube_root (bits : nat) (acc n : Z) : Z :=
  match bits with
  | O => acc
  | S k =>
      let trial := acc + 2 ^ Z.of_nat k in
      cube_root k (if trial ^ 3 <=? n then trial else acc) n
  end.

Definition round_constants : list Z :=
  Eval vm_compute in map (fun p => w32 (cube_root 36 0 (p * 2 ^ 96))) (primes 64).

Definition initial_hash : list Z :=
  Eval vm_compute in map (fun p => w32 (Z.sqrt (p * 2 ^ 64))) (primes 8).

(** Big-endian bytes of [n] on [k] bytes, and the inverse. *)
Fixpoint be_bytes (k : nat) (n : Z) : list Z :=
  match k with
  | O => []
  | S k' => be_bytes k' (n / 256) ++ [n mod 256]
  end.

Definition from_be (l : list Z) : Z := fold_left (fun acc b => acc * 256 + b) l 0.

Definition pad (m : list Z) : list Z :=
  let len := Z.of_nat (length m) in
  let zeros := Z.to_nat ((55 - len) mod 64) in
  m ++ [128] ++ replicate zeros 0 ++ be_bytes 8 (len * 8).

Fixpoint chunks (k : nat) (fuel : nat) (l : list Z) : list (list Z) :=
  match fuel, l with
  | O, _ | _, [] => []
  | S n, _ => take k l :: chunks k n (drop k l)
  end.

(** The message schedule, kept newest first while it grows. *)
Fixpoint schedule (fuel : nat) (rev_w : list Z) : list Z :=
  match fuel with
  | O => reverse rev_w
  | S n =>
      let nth i := nth i rev_w 0 in
      schedule n (add32 (add32 (ssig1 (nth 1%nat)) (nth 6%nat))
                        (add32 (ssig0 (nth 14%nat)) (nth 15%nat)) :: rev_w)
  end.

Definition round (st : list Z) (kw : Z * Z) : list Z :=
  match st with
  | [a; b; c; d; e; f; g; h] =>
      let t1 := add32 (add32 (add32 h (bsig1 e)) (ch e f g)) (add32 kw.1 kw.2) in
      let t2 := add32 (bsig0 a) (maj a b c) in
      [add32 t1 t2; a; b; c; add32 d t1; e; f; g]
  | _ => st
  end.

Definition compress (h : list Z) (block : list Z) : list Z :=
  let w := schedule 48 (reverse (map from_be (chunks 4 16 block))) in
  zip_with add32 h (fold_left round (zip round_constants w) h).

(** The 32 bytes of [hashlib.sha256(m).digest()]. *)
Definition sha256 (m : list Z) : list Z :=
  let padded := pad m in
  concat (map (be_bytes 4)
    (fold_left compress (chunks 64 (length padded) padded) initial_hash)).

(** The FIPS 180-4 vector of the message abc. *)
Example sha256_abc :
  from_be (take 8 (sha256 [97; 98; 99])) = 0xba7816bf8f01cfea.
Proof. vm_compute. reflexivity. Qed.
