(* ===== verification/PyJson.v ===== *)
(** * Python values at the JSON boundary

    The JSON values the durable kernel stores and hashes, the dictionary
    operations it applies to them, and [canonical_json]/[digest_json] of
    src/runtime/durable_workloads/schema.py.  A Python [str] is modelled by
    the bytes of its UTF-8 encoding, so [.encode("utf-8")] is the identity and
    [py_len] counts code points.  Floats do not occur in the modelled columns
    and have no constructor. *)
From S2P Require Import Prelude.
From Stdlib Require Import Strings.Ascii Strings.String.
From S2P Require Import Sha256.
Local Open Scope Z_scope.

(** ** Strings *)

Definition byte_of (c : ascii) : Z := Z.of_N (N_of_ascii c).

(** [len(s)] of Python: UTF-8 continuation bytes are not code points. *)
Fixpoint py_len (s : string) : Z :=
  match s with
  | EmptyString => 0
  | String c s' =>
      (if (128 <=? byte_of c) && (byte_of c <? 192) then 0 else 1) + py_len s'
  end.

(** [len(s.encode("utf-8"))]. *)
Definition byte_len (s : string) : Z := Z.of_nat (String.length s).

(** Python orders [str] by code points; on UTF-8 text that is the order of
    the bytes. *)
Fixpoint str_leb (a b : string) : bool :=
  match a, b with
  | EmptyString, _ => true
  | String _ _, EmptyString => false
  | String c a', String d b' =>
      (byte_of c <? byte_of d) || ((byte_of c =? byte_of d) && str_leb a' b')
  end.

Definition str_eqb (a b : string) : bool := bool_decide (a = b).

Lemma str_eqb_true a b : str_eqb a b = true <-> a = b.
Proof. unfold str_eqb. apply bool_decide_eq_true. Qed.

Lemma str_eqb_refl a : str_eqb a a = true.
Proof. by apply str_eqb_true. Qed.

Fixpoint forall_chars (p : Z -> bool) (s : string) : bool :=
  match s with
  | EmptyString => true
  | String c s' => p (byte_of c) && forall_chars p s'
  end.

(** [value == value.strip()]: no Unicode white space at either end.  The
    characters [str.strip] removes, in UTF-8. *)
Fixpoint bytes_string (l : list Z) : string :=
  match l with
  | [] => EmptyString
  | z :: rest => String (ascii_of_N (Z.to_N z)) (bytes_string rest)
  end.

Definition py_spaces : list string :=
  map bytes_string
    ([[9]; [10]; [11]; [12]; [13]; [28]; [29]; [30]; [31]; [32];
      [194; 133]; [194; 160]; [225; 154; 128]]
     ++ map (fun z => [226; 128; z]) [128; 129; 130; 131; 132; 133; 134; 135; 136; 137; 138;
                                      168; 169; 175]
     ++ [[226; 129; 159]; [227; 128; 128]]).

Definition has_suffix (w s : string) : bool :=
  let n := String.length s in let m := String.length w in
  (m <=? n)%nat && String.eqb (String.substring (n - m) m s) w.

Definition stripped (s : string) : bool :=
  negb (existsb (fun w => String.prefix w s || has_suffix w s) py_spaces).

Definition is_digit (z : Z) : bool := (48 <=? z) && (z <=? 57).
Definition is_lower (z : Z) : bool := (97 <=? z) && (z <=? 122).
Definition is_upper (z : Z) : bool := (65 <=? z) && (z <=? 90).

(** ["\x00" in s]. *)
Fixpoint has_nul (s : string) : bool :=
  match s with
  | EmptyString => false
  | String c s' => (byte_of c =? 0) || has_nul s'
  end.

(** ** JSON values; an object keeps Python's insertion order *)

Inductive json : Type :=
| JNull
| JBool (b : bool)
| JInt (z : Z)
| JStr (s : string)
| JArr (l : list json)
| JObj (kvs : list (string * json)).

(** [d.get(k)] and [d[k] = v] of a dict. *)
Fixpoint obj_get (k : string) (kvs : list (string * json)) : option json :=
  match kvs with
  | [] => None
  | (k', v) :: rest => if str_eqb k k' then Some v else obj_get k rest
  end.

Fixpoint obj_set (k : string) (v : json) (kvs : list (string * json))
  : list (string * json) :=
  match kvs with
  | [] => [(k, v)]
  | (k', v') :: rest =>
      if str_eqb k k' then (k', v) :: rest else (k', v') :: obj_set k v rest
  end.

(** [d.update(other)]. *)
Definition obj_update (kvs other : list (string * json)) : list (string * json) :=
  fold_left (fun acc kv => obj_set kv.1 kv.2 acc) other kvs.

(** A value that is this string. *)
Definition json_is_str (v : option json) (s : string) : bool :=
  match v with Some (JStr t) => str_eqb t s | _ => false end.

(** ** Canonical text *)

Fixpoint pos_digits (fuel : nat) (z : Z) (acc : string) : string :=
  match fuel with
  | O => acc
  | S n =>
      let acc' := String (ascii_of_N (Z.to_N (48 + z mod 10))) acc in
      if z / 10 =? 0 then acc' else pos_digits n (z / 10) acc'
  end.

(** Decimal text of an integer; the fuel bounds the number of digits. *)
Definition int_text (z : Z) : string :=
  let fuel := S (Z.to_nat (Z.log2 (Z.abs z) + 1)) in
  if z <? 0 then String "-" (pos_digits fuel (- z) EmptyString)
  else pos_digits fuel z EmptyString.

Definition chr (z : Z) : ascii := ascii_of_N (Z.to_N z).
Definition hex_digit (z : Z) : ascii := chr (if z <? 10 then 48 + z else 87 + z).

(** [json.dumps(..., ensure_ascii=False)] of one character. *)
Definition escape_char (c : ascii) (rest : string) : string :=
  let z := byte_of c in
  let esc d := String (chr 92) (String (chr d) rest) in
  if z =? 34 then esc 34
  else if z =? 92 then esc 92
  else if z =? 10 then esc 110
  else if z =? 13 then esc 114
  else if z =? 9 then esc 116
  else if z =? 12 then esc 102
  else if z =? 8 then esc 98
  else if z <? 32 then
    String (chr 92) (String (chr 117) (String (chr 48) (String (chr 48)
      (String (hex_digit (z / 16)) (String (hex_digit (z mod 16)) rest)))))
  else String c rest.

Fixpoint escape (s : string) : string :=
  match s with
  | EmptyString => EmptyString
  | String c s' => escape_char c (escape s')
  end.

Definition quoted (s : string) : string :=
  String (chr 34) (escape s +:+ String (chr 34) EmptyString).

Fixpoint join_comma (l : list string) : string :=
  match l with
  | [] => EmptyString
  | [x] => x
  | x :: rest => x +:+ String "," (join_comma rest)
  end.

Definition key_le (a b : string * string) : Prop := str_leb a.1 b.1 = true.
#[export] Instance key_le_dec a b : Decision (key_le a b).
Proof. unfold key_le. apply _. Defined.

(** [json.dumps(value, ensure_ascii=False, sort_keys=True,
    separators=(",", ":"))]. *)
Fixpoint dumps (v : json) : string :=
  match v with
  | JNull => "null"
  | JBool b => if b then "true" else "false"
  | JInt z => int_text z
  | JStr s => quoted s
  | JArr l => String "[" (join_comma (map dumps l) +:+ "]")
  | JObj kvs =>
      let fields := merge_sort key_le (map (fun kv => (kv.1, dumps kv.2)) kvs) in
      String "{" (join_comma (map (fun kv => quoted kv.1 +:+ String ":" kv.2) fields)
                  +:+ "}")
  end.

(** The byte caps of the boundaries. *)
Definition MAX_PLAN_JSON_BYTES : Z := 1048576.
Definition MAX_SNAPSHOT_JSON_BYTES : Z := 4194304.
Definition MAX_EVENT_JSON_BYTES : Z := 65536.

Inductive schema_error : Type := SchemaValidationError (what : string).

(** Deterministic UTF-8 text under the boundary's byte cap. *)
Definition canonical_json (value : json) (max_bytes : Z) : result schema_error string :=
  let encoded := dumps value in
  if max_bytes <? byte_len encoded
  then Err (SchemaValidationError "canonical JSON over the limit")
  else Ok encoded.

Fixpoint string_bytes (s : string) : list Z :=
  match s with
  | EmptyString => []
  | String c s' => byte_of c :: string_bytes s'
  end.

Definition hexdigest (bytes : list Z) : string :=
  fold_right (fun b acc => String (hex_digit (b / 16)) (String (hex_digit (b mod 16)) acc))
    EmptyString bytes.

Definition digest_json (domain : string) (value : json) (max_bytes : Z)
  : result schema_error string :=
  if str_eqb domain EmptyString || has_nul domain
  then Err (SchemaValidationError "digest domain must be a non-empty string")
  else
    canonical ← canonical_json value max_bytes;
    let payload := "metnos:" +:+ domain +:+ ":1" +:+ String (chr 0) canonical in
    Ok ("sha256:" +:+ hexdigest (sha256 (string_bytes payload))).

(** ** Conversions *)

(** [str] of a scalar; on a container the text is its JSON and not Python's
    [repr], which no caller relies on. *)
Definition py_str (v : json) : string :=
  match v with
  | JNull => "None"
  | JBool b => if b then "True" else "False"
  | JInt z => int_text z
  | JStr s => s
  | JArr _ | JObj _ => dumps v
  end.

(** [bool] of a value, absent being [None]. *)
Definition truthy (v : option json) : bool :=
  match v with
  | None | Some JNull | Some (JBool false) | Some (JInt 0) | Some (JStr EmptyString)
  | Some (JArr []) | Some (JObj []) => false
  | Some _ => true
  end.
