(* ===== verification/PyStrings.v ===== *)
(** * Python strings: order, prefixes, [bisect] and text functions

    [str] comparison is a total order (PyJson.v compares UTF-8 bytes); this
    file has its lemmas, [str.startswith], [str.rstrip("/")], the binary
    search of the standard library's [bisect_left], and the text functions
    the schedulers read settings with. *)
From Stdlib Require Import Strings.Ascii Strings.String.
From S2P Require Import Prelude.
From S2P Require Import PyJson.
Local Open Scope Z_scope.

(** ** The order *)

Lemma byte_of_inj c d : byte_of c = byte_of d -> c = d.
Proof.
  unfold byte_of. intros H%N2Z.inj. by rewrite <- (ascii_N_embedding c), H, ascii_N_embedding.
Qed.

Lemma str_leb_refl a : str_leb a a = true.
Proof. induction a as [|c a IH]; [done|]. simpl. by rewrite Z.eqb_refl, IH, orb_true_r. Qed.

Lemma str_leb_cons c a d b :
  str_leb (String c a) (String d b) = true <->
  byte_of c < byte_of d \/ (c = d /\ str_leb a b = true).
Proof.
  simpl. rewrite orb_true_iff, andb_true_iff, Z.ltb_lt, Z.eqb_eq.
  split; (intros [H|[H1 H2]]; [by left | right]); [by apply byte_of_inj in H1 | by subst].
Qed.

Lemma str_leb_trans a b c : str_leb a b = true -> str_leb b c = true -> str_leb a c = true.
Proof.
  revert b c. induction a as [|x a IH]; [done|]. intros [|y b] [|z c]; try done.
  rewrite !str_leb_cons. intros [H1|[-> H1]] [H2|[-> H2]]; [left; lia | by left..|right].
  split; [done | by eapply IH].
Qed.

Lemma str_leb_antisym a b : str_leb a b = true -> str_leb b a = true -> a = b.
Proof.
  revert b. induction a as [|x a IH]; intros [|y b]; try done.
  rewrite !str_leb_cons. intros [H1|[-> H1]] [H2|[H2 H2']]; subst; try lia. f_equal. by apply IH.
Qed.

Lemma str_leb_total a b : str_leb a b = true \/ str_leb b a = true.
Proof.
  revert b. induction a as [|x a IH]; intros [|y b]; [by left | by left | by right |].
  rewrite !str_leb_cons. destruct (Z.lt_total (byte_of x) (byte_of y)) as [H|[H|H]].
  - by left; left.
  - apply byte_of_inj in H as ->. destruct (IH b); [left | right]; by right.
  - by right; left.
Qed.

(** [a < b]. *)
Definition str_ltb (a b : string) : bool := negb (str_leb b a).

Lemma str_ltb_leb a b : str_ltb a b = true -> str_leb a b = true.
Proof. unfold str_ltb. intros H%negb_true_iff. destruct (str_leb_total a b); congruence. Qed.

Lemma str_leb_ltb_trans a b c : str_leb a b = true -> str_ltb b c = true -> str_ltb a c = true.
Proof.
  unfold str_ltb. intros H1 H2%negb_true_iff. apply negb_true_iff.
  destruct (str_leb c a) eqn:E; [|done]. rewrite <- H2. symmetry. by eapply str_leb_trans.
Qed.

(** ** Prefixes *)

(** [s.startswith(p)]. *)
Fixpoint startswith (s p : string) : bool :=
  match p, s with
  | EmptyString, _ => true
  | String _ _, EmptyString => false
  | String d p', String c s' => Ascii.eqb c d && startswith s' p'
  end.

Lemma startswith_leb s p : startswith s p = true -> str_leb p s = true.
Proof.
  revert s. induction p as [|d p IH]; [by destruct s|]. intros [|c s]; [done|]. simpl.
  intros [->%Ascii.eqb_eq H]%andb_true_iff. by rewrite Z.eqb_refl, (IH s H), orb_true_r.
Qed.

(** The strings with a given prefix are an interval of the order. *)
Lemma startswith_between p x s :
  str_leb p x = true -> str_leb x s = true -> startswith s p = true -> startswith x p = true.
Proof.
  revert x s. induction p as [|d p IH]; [by intros [|] |]. intros [|c x] [|e s]; try done.
  intros H1%str_leb_cons H2%str_leb_cons. simpl.
  intros [->%Ascii.eqb_eq H3]%andb_true_iff.
  destruct H1 as [H1|[E1 H1]]; destruct H2 as [H2|[E2 H2]]; subst; try lia.
  rewrite Ascii.eqb_refl. simpl. by eapply IH.
Qed.

(** [s.rstrip("/")]. *)
Fixpoint rstrip_slash (s : string) : string :=
  match s with
  | EmptyString => EmptyString
  | String c s' =>
      match rstrip_slash s' with
      | EmptyString => if byte_of c =? 47 then EmptyString else String c EmptyString
      | t => String c t
      end
  end.

(** ** [bisect_left] *)

(** The loop [while lo < hi]; the fuel bounds the width of the interval. *)
Fixpoint bisect_loop (fuel : nat) (a : list string) (x : string) (lo hi : nat) : nat :=
  match fuel with
  | O => lo
  | S n =>
      if (lo <? hi)%nat then
        let mid := ((lo + hi) / 2)%nat in
        match a !! mid with
        | Some y => if str_ltb y x then bisect_loop n a x (S mid) hi else bisect_loop n a x lo mid
        | None => lo
        end
      else lo
  end.

Definition bisect_left (a : list string) (x : string) : nat :=
  bisect_loop (S (length a)) a x 0 (length a).

Definition str_sorted (a : list string) : Prop :=
  StronglySorted (fun x y => str_leb x y = true) a.

Lemma sorted_lookup a i j x y :
  str_sorted a -> (i <= j)%nat -> a !! i = Some x -> a !! j = Some y -> str_leb x y = true.
Proof.
  intros Hs. revert i j. induction Hs as [|z a Hs IH Hz]; intros [|i] [|j] Hij; simpl; try done; try lia.
  - intros [= ->] [= ->]. apply str_leb_refl.
  - intros [= ->] Hy. rewrite Forall_forall in Hz. apply Hz. by eapply list_elem_of_lookup_2.
  - apply IH. lia.
Qed.

Lemma bisect_loop_spec fuel a x : forall lo hi,
  str_sorted a -> (lo <= hi <= length a)%nat -> (hi - lo < fuel)%nat ->
  (forall i y, (i < lo)%nat -> a !! i = Some y -> str_ltb y x = true) ->
  (forall i y, (hi <= i)%nat -> a !! i = Some y -> str_ltb y x = false) ->
  forall i y, a !! i = Some y ->
    (i < bisect_loop fuel a x lo hi)%nat <-> str_ltb y x = true.
Proof.
  induction fuel as [|n IH]; intros lo hi Hs Hlh Hf H1 H2 i y Hi; [lia|].
  cbn [bisect_loop].
  destruct (Nat.ltb_spec lo hi) as [Hlt|Hge].
  - set (mid := ((lo + hi) / 2)%nat).
    assert (lo <= mid < hi)%nat as Hmid.
    { unfold mid. split; [apply Nat.div_le_lower_bound; lia | apply Nat.div_lt_upper_bound; lia]. }
    destruct (a !! mid) as [z|] eqn:Hz.
    2:{ apply lookup_ge_None in Hz. lia. }
    destruct (str_ltb z x) eqn:Hzx.
    + apply IH; try done; [lia | lia |].
      intros j w Hj Hw. eapply str_leb_ltb_trans; [|exact Hzx].
      eapply (sorted_lookup a j mid); eauto. lia.
    + apply IH; try done; [lia | lia |].
      intros j w Hj Hw. destruct (str_ltb w x) eqn:Hwx; [|done]. rewrite <- Hzx. symmetry.
      eapply str_leb_ltb_trans; [|exact Hwx]. by eapply (sorted_lookup a mid j).
  - assert (lo = hi) as -> by lia. split; [by intros; eapply H1|].
    intros Hy. destruct (Nat.lt_ge_cases i hi) as [|Hle]; [done|].
    rewrite (H2 i y Hle Hi) in Hy. done.
Qed.

(** In a sorted list the position returned splits the smaller elements from
    the others. *)
Lemma bisect_left_spec a x i y :
  str_sorted a -> a !! i = Some y -> (i < bisect_left a x)%nat <-> str_ltb y x = true.
Proof.
  intros Hs Hi. apply bisect_loop_spec; try done; [lia | lia | lia |].
  intros j w Hj Hw. apply lookup_lt_Some in Hw. lia.
Qed.

(** The element found is the least one not below [x]. *)
Lemma bisect_left_least a x y :
  str_sorted a -> y ∈ a -> str_leb x y = true ->
  exists z, a !! bisect_left a x = Some z /\ str_leb x z = true /\ str_leb z y = true.
Proof.
  intros Hs Hy Hxy. apply list_elem_of_lookup_1 in Hy as [j Hj].
  assert (~ (j < bisect_left a x)%nat) as Hge.
  { rewrite (bisect_left_spec a x j y Hs Hj). unfold str_ltb. by rewrite Hxy. }
  destruct (a !! bisect_left a x) as [z|] eqn:Hz.
  - exists z. split; [done|]. split; [|eapply (sorted_lookup a (bisect_left a x) j); eauto; lia].
    destruct (str_leb x z) eqn:E; [done|]. exfalso.
    assert (bisect_left a x < bisect_left a x)%nat; [|lia].
    apply (bisect_left_spec a x _ z Hs Hz). unfold str_ltb. by rewrite E.
  - apply lookup_ge_None in Hz. apply lookup_lt_Some in Hj. lia.
Qed.

(** ** Text functions on settings

    [str.strip], [str.lower], [str.split], [str.partition] and [int] of a
    text.  Strings are UTF-8 bytes (PyJson.v); [lower] changes ASCII letters,
    which decides every comparison with an ASCII word made here, and [int]
    reads ASCII digits. *)

Fixpoint drop_bytes (n : nat) (s : string) : string :=
  match n, s with
  | S m, String _ rest => drop_bytes m rest
  | _, _ => s
  end.

Definition take_bytes (n : nat) (s : string) : string := String.substring 0 n s.

(** The white space character a text starts (ends) with. *)
Definition leading_space (s : string) : option string :=
  List.find (fun w => String.prefix w s) py_spaces.
Definition trailing_space (s : string) : option string :=
  List.find (fun w => has_suffix w s) py_spaces.

(** The fuel is the length of the text: every turn removes a character. *)
Fixpoint lstrip (fuel : nat) (s : string) : string :=
  match fuel, leading_space s with
  | S n, Some w => lstrip n (drop_bytes (String.length w) s)
  | _, _ => s
  end.
Fixpoint rstrip (fuel : nat) (s : string) : string :=
  match fuel, trailing_space s with
  | S n, Some w => rstrip n (take_bytes (String.length s - String.length w) s)
  | _, _ => s
  end.
Definition strip (s : string) : string :=
  let t := lstrip (String.length s) s in rstrip (String.length t) t.

Definition lower_char (c : ascii) : ascii :=
  if is_upper (byte_of c) then chr (byte_of c + 32) else c.
Fixpoint lower (s : string) : string :=
  match s with EmptyString => EmptyString | String c rest => String (lower_char c) (lower rest) end.

(** [text.partition(sep)] and [text.split(sep)] for a one-byte separator. *)
Fixpoint partition_at (sep : ascii) (s : string) : string * option string :=
  match s with
  | EmptyString => (EmptyString, None)
  | String c rest =>
      if Ascii.eqb c sep then (EmptyString, Some rest)
      else let '(head, tail) := partition_at sep rest in (String c head, tail)
  end.

Fixpoint split_at (sep : ascii) (s : string) : list string :=
  match s with
  | EmptyString => [EmptyString]
  | String c rest =>
      if Ascii.eqb c sep then EmptyString :: split_at sep rest
      else match split_at sep rest with
           | item :: items => String c item :: items
           | [] => [String c EmptyString]
           end
  end.

(** Digits, single underscores allowed between them. *)
Fixpoint digits (s : string) (acc : Z) (after_digit : bool) : option Z :=
  match s with
  | EmptyString => if after_digit then Some acc else None
  | String c rest =>
      let b := byte_of c in
      if is_digit b then digits rest (acc * 10 + (b - 48)) true
      else if (b =? 95) && after_digit then digits rest acc false
      else None
  end.

(** [int(text)]; [None] is the [ValueError]. *)
Definition py_int (s : string) : option Z :=
  match strip s with
  | EmptyString => None
  | String c rest =>
      if byte_of c =? 45 then Z.opp <$> digits rest 0 false
      else if byte_of c =? 43 then digits rest 0 false
      else digits (String c rest) 0 false
  end.

Example py_int_examples :
  map py_int ["8"; " -1_0 "; "+7"; "1__0"; ""; "x"] =
  [Some 8; Some (-10); Some 7; None; None; None].
Proof. vm_compute. reflexivity. Qed.

Example strip_example : strip "  on " = "on".
Proof. vm_compute. reflexivity. Qed.
