(* ===== verification/JsonText.v ===== *)
(** * Canonical text and the value it stands for

    [json.dumps(..., sort_keys=True)] of src/runtime/durable_workloads/schema.py
    gives one text to all the objects that differ in the order of their fields
    only: the text of an object is that of its fields in any sorted order, and
    [dumps] is constant on the classes of [same_json].  Conversely two JSON
    values with the same canonical text are the same value up to the order of
    fields, so the digests the kernel compares ([digest_json]) differ whenever
    the values do, unless SHA-256 itself collides.  Numbers and quoted texts
    are read back by functions, arrays and objects are taken apart element by
    element. *)
From stdpp Require Import sorting.
From Stdlib Require Import Strings.Ascii Strings.String.
From S2P Require Import Prelude.
From S2P Require Import PyJson.
From S2P Require Import PyStrings.
Local Open Scope Z_scope.

(** ** Concatenation *)

Lemma string_app_cons x a b : String x a +:+ b = String x (a +:+ b).
Proof. reflexivity. Qed.

Lemma string_app_assoc (a b c : string) : (a +:+ b) +:+ c = a +:+ (b +:+ c).
Proof. induction a as [|x a IH]; [done|]. rewrite !string_app_cons. by rewrite IH. Qed.

Lemma string_app_empty (a : string) : a +:+ EmptyString = a.
Proof. induction a as [|x a IH]; [done|]. rewrite !string_app_cons. by rewrite IH. Qed.

(** ** Sorted fields *)

#[export] Instance key_le_trans : Transitive key_le.
Proof. intros a b c. apply str_leb_trans. Qed.
#[export] Instance key_le_total : Total key_le.
Proof. intros a b. apply str_leb_total. Qed.

Definition field_text (kv : string * string) : string := quoted kv.1 +:+ String ":" kv.2.
Definition object_text (fields : list (string * string)) : string :=
  String "{" (join_comma (map field_text fields) +:+ "}").

Definition dumped (kvs : list (string * json)) : list (string * string) :=
  map (fun kv => (kv.1, dumps kv.2)) kvs.

Lemma dumps_object kvs : dumps (JObj kvs) = object_text (merge_sort key_le (dumped kvs)).
Proof. reflexivity. Qed.

Lemma dumped_keys kvs : (dumped kvs).*1 = kvs.*1.
Proof. unfold dumped. by rewrite <- list_fmap_compose. Qed.

(** Fields of different names have one sorted order. *)
Lemma same_key_same_field (l : list (string * string)) a b :
  NoDup l.*1 -> a ∈ l -> b ∈ l -> a.1 = b.1 -> a = b.
Proof.
  destruct a as [k x], b as [k' y]. simpl. intros Hn Ha Hb <-. f_equal.
  apply (elem_of_list_to_map_1 (M := gmap string)) in Ha, Hb; congruence.
Qed.

Lemma sorted_fields_unique (l l' : list (string * string)) :
  NoDup l.*1 -> l ≡ₚ l' -> merge_sort key_le l = merge_sort key_le l'.
Proof.
  intros Hn Hp. apply StronglySorted_unique_strong with (R := key_le).
  - intros a b Ha Hb Hab Hba. rewrite merge_sort_Permutation in Ha, Hb. rewrite <- Hp in Hb.
    apply (same_key_same_field l); auto. by apply str_leb_antisym.
  - apply StronglySorted_merge_sort; apply _.
  - apply StronglySorted_merge_sort; apply _.
  - by rewrite !merge_sort_Permutation.
Qed.

Lemma sort_sorted_fields (l : list (string * string)) :
  NoDup l.*1 -> StronglySorted key_le l -> merge_sort key_le l = l.
Proof.
  intros Hn Hs. apply StronglySorted_unique_strong with (R := key_le).
  - intros a b Ha Hb Hab Hba. rewrite merge_sort_Permutation in Ha.
    apply (same_key_same_field l); auto. by apply str_leb_antisym.
  - apply StronglySorted_merge_sort; apply _.
  - done.
  - apply merge_sort_Permutation.
Qed.

Lemma dumps_permuted kvs kvs' : NoDup kvs.*1 -> kvs ≡ₚ kvs' ->
  dumps (JObj kvs) = dumps (JObj kvs').
Proof.
  intros Hn Hp. rewrite !dumps_object. f_equal. apply sorted_fields_unique.
  - by rewrite dumped_keys.
  - unfold dumped. by apply Permutation_map.
Qed.

(** ** Values up to the order of fields *)

Definition is_atom (v : json) : bool :=
  match v with JArr _ | JObj _ => false | _ => true end.

(** Objects are dictionaries: no name occurs twice. *)
Inductive same_json : json -> json -> Prop :=
| same_atom v : is_atom v = true -> same_json v v
| same_array l l' : Forall2 same_json l l' -> same_json (JArr l) (JArr l')
| same_object kvs mid kvs' :
    NoDup kvs.*1 -> Forall2 (fun a b => a.1 = b.1 /\ same_json a.2 b.2) kvs mid ->
    mid ≡ₚ kvs' -> same_json (JObj kvs) (JObj kvs').

(** Induction through the lists of a value. *)
Lemma same_json_induction (P : json -> json -> Prop) :
  (forall v, is_atom v = true -> P v v) ->
  (forall l l', Forall2 P l l' -> P (JArr l) (JArr l')) ->
  (forall kvs mid kvs', NoDup kvs.*1 -> Forall2 (fun a b => a.1 = b.1 /\ P a.2 b.2) kvs mid ->
     mid ≡ₚ kvs' -> P (JObj kvs) (JObj kvs')) ->
  forall v w, same_json v w -> P v w.
Proof.
  intros Hatom Harr Hobj. fix rec 3. intros v w [u Hu | l l' Hl | kvs mid kvs' Hn Hf Hp].
  - by apply Hatom.
  - apply Harr. induction Hl as [|x y l l' Hxy Hl IH]; constructor; [by apply rec | exact IH].
  - apply (Hobj kvs mid); [done | | done]. clear Hn Hp.
    induction Hf as [|a b l l' [Hk Hab] Hl IH]; constructor; [|exact IH].
    split; [done | by apply rec].
Qed.

Lemma dumps_same v w : same_json v w -> dumps v = dumps w.
Proof.
  intros H. induction H as [v Hv | l l' Hl | kvs mid kvs' Hn Hf Hp] using same_json_induction.
  - done.
  - simpl. do 3 f_equal. induction Hl; simpl; congruence.
  - assert (E : dumped kvs = dumped mid).
    { clear Hn Hp. unfold dumped. induction Hf as [|[k x] [k' y] l l' [Hk Hd] Hl IH]; [done|].
      cbn [fst snd map] in *. subst k'. by rewrite Hd, IH. }
    assert (Hm : NoDup mid.*1) by (by rewrite <- dumped_keys, <- E, dumped_keys).
    rewrite <- (dumps_permuted mid kvs' Hm Hp), !dumps_object. by rewrite E.
Qed.

#[export] Instance dumps_proper : Proper (same_json ==> eq) dumps.
Proof. intros v w. apply dumps_same. Qed.

#[export] Instance canonical_json_proper : Proper (same_json ==> eq ==> eq) canonical_json.
Proof. intros v w H m ? <-. unfold canonical_json. by rewrite (dumps_same v w H). Qed.

#[export] Instance digest_json_proper : Proper (eq ==> same_json ==> eq ==> eq) digest_json.
Proof. intros d ? <- v w H m ? <-. unfold digest_json. by rewrite (canonical_json_proper v w H m m eq_refl). Qed.

(** ** Reading the text back *)

(** ** Numbers *)

Fixpoint read_digits (acc : Z) (s : string) : Z * string :=
  match s with
  | EmptyString => (acc, EmptyString)
  | String c rest =>
      if is_digit (byte_of c) then read_digits (acc * 10 + (byte_of c - 48)) rest
      else (acc, s)
  end.

Definition read_int (s : string) : Z * string :=
  match s with
  | EmptyString => (0, EmptyString)
  | String c rest =>
      if byte_of c =? 45 then let '(z, r) := read_digits 0 rest in (- z, r)
      else read_digits 0 s
  end.

Definition digit (d : Z) : ascii := ascii_of_N (Z.to_N (48 + d)).

Lemma byte_of_ascii n : (n < 256)%N -> byte_of (ascii_of_N n) = Z.of_N n.
Proof. intros H. unfold byte_of. by rewrite N_ascii_embedding. Qed.

Lemma byte_of_digit d : 0 <= d < 10 -> byte_of (digit d) = 48 + d.
Proof. intros H. unfold digit. rewrite byte_of_ascii; lia. Qed.

Lemma is_digit_digit d : 0 <= d < 10 -> is_digit (byte_of (digit d)) = true.
Proof. intros H. rewrite byte_of_digit by done. unfold is_digit. lia. Qed.

Lemma read_digit a d rest : 0 <= d < 10 ->
  read_digits a (String (digit d) rest) = read_digits (a * 10 + d) rest.
Proof.
  intros H. cbn [read_digits]. rewrite is_digit_digit, byte_of_digit by done. f_equal. lia.
Qed.

Lemma pos_digits_app fuel z acc r :
  pos_digits fuel z acc +:+ r = pos_digits fuel z (acc +:+ r).
Proof.
  revert z acc. induction fuel as [|n IH]; intros z acc; [done|]. cbn [pos_digits].
  destruct (_ =? _); [apply string_app_cons|]. rewrite IH. by rewrite string_app_cons.
Qed.

Lemma read_pos_digits fuel z acc : 0 <= z < 10 ^ Z.of_nat fuel ->
  forall a, exists p, read_digits a (pos_digits fuel z acc) = read_digits (a * p + z) acc.
Proof.
  revert z acc. induction fuel as [|n IH]; intros z acc Hz a.
  - exists 1. simpl in *. f_equal. lia.
  - cbn [pos_digits]. fold (digit (z mod 10)).
    pose proof (Z.mod_pos_bound z 10 ltac:(lia)) as Hm. pose proof (Z.div_mod z 10 ltac:(lia)) as Hd.
    destruct (z / 10 =? 0) eqn:E.
    + exists 10. rewrite read_digit by done. f_equal. lia.
    + rewrite Nat2Z.inj_succ, Z.pow_succ_r in Hz by lia.
      destruct (IH (z / 10) (String (digit (z mod 10)) acc)
        ltac:(split; [apply Z.div_pos; lia | apply Z.div_lt_upper_bound; lia]) a) as (p & ->).
      exists (p * 10). rewrite read_digit by done. f_equal. lia.
Qed.

Lemma pos_digits_head n z acc :
  exists c rest, pos_digits (S n) z acc = String c rest /\ is_digit (byte_of c) = true.
Proof.
  revert z acc. induction n as [|n IH]; intros z acc; cbn [pos_digits]; fold (digit (z mod 10));
    pose proof (is_digit_digit (z mod 10) (Z.mod_pos_bound z 10 ltac:(lia))) as Hd.
  - destruct (_ =? _); eauto.
  - destruct (_ =? _); eauto.
Qed.

Lemma digits_enough z : 0 <= z -> 0 <= z < 10 ^ Z.of_nat (S (Z.to_nat (Z.log2 z + 1))).
Proof.
  intros Hz. split; [done|]. pose proof (Z.log2_nonneg z).
  destruct (decide (z = 0)) as [->|Hn]; [by vm_compute|].
  pose proof (Z.log2_spec z ltac:(lia)) as [_ Hs].
  eapply Z.lt_le_trans; [exact Hs|]. trans (10 ^ Z.succ (Z.log2 z)).
  - apply Z.pow_le_mono_l. lia.
  - apply Z.pow_le_mono_r; lia.
Qed.

(** What may follow a value. *)
Definition delimited (r : string) : Prop :=
  match r with EmptyString => True | String c _ => byte_of c = 44 \/ byte_of c = 93 \/ byte_of c = 125 end.

Lemma read_delimited z r : delimited r -> read_digits z r = (z, r).
Proof.
  destruct r as [|c r]; [done|]. intros H. cbn [read_digits].
  replace (is_digit (byte_of c)) with false; [done|]. unfold is_digit. cbn in H. lia.
Qed.

Lemma read_int_text z r : delimited r -> read_int (int_text z +:+ r) = (z, r).
Proof.
  intros Hr. unfold int_text. rewrite <- (read_delimited z r Hr).
  pose proof (digits_enough (Z.abs z) ltac:(lia)) as Hb. destruct (z <? 0) eqn:E.
  - rewrite string_app_cons, pos_digits_app. cbn [read_int]. change (byte_of "-" =? 45) with true.
    cbv iota. replace (- z) with (Z.abs z) by lia.
    destruct (read_pos_digits _ (Z.abs z) (EmptyString +:+ r) Hb 0) as (p & ->).
    change (EmptyString +:+ r) with r. rewrite !read_delimited by done. f_equal. lia.
  - replace (Z.abs z) with z in * by lia. rewrite pos_digits_app.
    destruct (pos_digits_head (Z.to_nat (Z.log2 z + 1)) z (EmptyString +:+ r)) as (c & rest & Ec & Hc).
    unfold read_int. rewrite Ec.
    replace (byte_of c =? 45) with false by (unfold is_digit in Hc; lia). rewrite <- Ec.
    destruct (read_pos_digits _ z (EmptyString +:+ r) Hb 0) as (p & ->).
    change (EmptyString +:+ r) with r. done.
Qed.

(** ** Quoted texts *)

Definition hex_value (z : Z) : Z := if z <? 97 then z - 48 else z - 87.

Definition unescape (z : Z) : Z :=
  if z =? 110 then 10 else if z =? 114 then 13 else if z =? 116 then 9
  else if z =? 102 then 12 else if z =? 98 then 8 else z.

Definition push (c : ascii) (p : string * string) : string * string := (String c p.1, p.2).

(** The text up to the closing quote, and the rest. *)
Fixpoint read_chars (s : string) : string * string :=
  match s with
  | EmptyString => (EmptyString, EmptyString)
  | String c rest =>
      if byte_of c =? 34 then (EmptyString, rest)
      else if byte_of c =? 92 then
        match rest with
        | EmptyString => (EmptyString, EmptyString)
        | String e rest' =>
            if byte_of e =? 117 then
              match rest' with
              | String _ (String _ (String h (String l rest''))) =>
                  push (chr (16 * hex_value (byte_of h) + hex_value (byte_of l))) (read_chars rest'')
              | _ => (EmptyString, EmptyString)
              end
            else push (chr (unescape (byte_of e))) (read_chars rest')
        end
      else push c (read_chars rest)
  end.

Lemma read_escape_char c s : read_chars (escape_char c s) = push c (read_chars s).
Proof. destruct c as [[] [] [] [] [] [] [] []]; reflexivity. Qed.

Lemma escape_char_app c s r : escape_char c s +:+ r = escape_char c (s +:+ r).
Proof.
  unfold escape_char. repeat (destruct (_ =? _); [by rewrite !string_app_cons|]).
  destruct (_ <? _); by rewrite !string_app_cons.
Qed.

Lemma read_escape s r : read_chars (escape s +:+ String (chr 34) r) = (s, r).
Proof.
  induction s as [|c s IH]; [reflexivity|]. cbn [escape].
  rewrite escape_char_app, read_escape_char, IH. done.
Qed.

Lemma quoted_inj s s' r r' : quoted s +:+ r = quoted s' +:+ r' -> s = s' /\ r = r'.
Proof.
  unfold quoted. rewrite !string_app_cons, !string_app_assoc, !string_app_cons.
  intros [= H]. apply (f_equal read_chars) in H. change (EmptyString +:+ ?x) with x in H.
  rewrite !read_escape in H. by injection H as -> ->.
Qed.

(** ** Elements separated by commas *)

Definition closes (c : ascii) : Prop := byte_of c = 93 \/ byte_of c = 125.

Lemma comma_delimits r : delimited (String "," r).
Proof. by left. Qed.

Lemma close_delimits c r : closes c -> delimited (String c r).
Proof. intros [H|H]; cbn; auto. Qed.
#[local] Hint Resolve comma_delimits close_delimits : core.

Section Elements.
Context {A : Type} (pr : A -> string) (R : A -> A -> Prop) (good : A -> Prop).
Context (head : forall y, exists c rest, pr y = String c rest /\ ~ closes c).

(** The text of [x] can be told from any other text. *)
Definition readable (x : A) : Prop := forall y r r', good y -> delimited r -> delimited r' ->
  pr x +:+ r = pr y +:+ r' -> R x y /\ r = r'.

(** The elements after the first, then the closing bracket. *)
Fixpoint tails (ys : list A) (rest : string) : string :=
  match ys with [] => rest | y :: ys' => String "," (pr y +:+ tails ys' rest) end.

Lemma join_tails x xs rest :
  join_comma (map pr (x :: xs)) +:+ rest = pr x +:+ tails xs rest.
Proof.
  revert x. induction xs as [|y xs IH]; intros x; [done|].
  change (join_comma (map pr (x :: y :: xs)))
    with (pr x +:+ String "," (join_comma (map pr (y :: xs)))).
  rewrite string_app_assoc, string_app_cons, IH. done.
Qed.

Lemma tails_delimited ys c r : closes c -> delimited (tails ys (String c r)).
Proof. destruct ys; simpl; auto. Qed.

Lemma tails_inj xs ys c r r' : closes c -> Forall readable xs -> Forall good ys ->
  tails xs (String c r) = tails ys (String c r') -> Forall2 R xs ys /\ r = r'.
Proof.
  intros Hc Hx. revert ys. induction Hx as [|x xs Hx Hxs IH]; intros ys Hy Heq.
  - destruct ys as [|y ys]; cbn [tails] in Heq.
    + injection Heq as ->. by split.
    + injection Heq as -> _. by destruct Hc.
  - destruct Hy as [|y ys Hy Hys]; cbn [tails] in Heq.
    + injection Heq as <- _. by destruct Hc.
    + injection Heq as Heq.
      apply Hx in Heq as [Hxy Heq]; [|done | by apply tails_delimited..].
      apply IH in Heq as [HF ->]; [|done]. split; [by constructor | done].
Qed.

Lemma elements_inj xs ys c r r' : closes c -> Forall readable xs -> Forall good ys ->
  join_comma (map pr xs) +:+ String c r = join_comma (map pr ys) +:+ String c r' ->
  Forall2 R xs ys /\ r = r'.
Proof.
  assert (Hempty : forall y ys r r', closes c ->
    String c r <> join_comma (map pr (y :: ys)) +:+ String c r').
  { intros y l s s' Hc. rewrite join_tails. destruct (head y) as (d & rest & -> & Hd).
    rewrite string_app_cons. by intros [= ->]. }
  intros Hc Hx Hy Heq. destruct Hx as [|x xs Hx Hxs], Hy as [|y ys Hy Hys].
  - injection Heq as ->. by split.
  - by apply Hempty in Heq.
  - symmetry in Heq. by apply Hempty in Heq.
  - rewrite !join_tails in Heq.
    apply Hx in Heq as [Hxy Heq]; [|done | by apply tails_delimited..].
    apply tails_inj in Heq as [HF ->]; [|done..]. split; [by constructor | done].
Qed.
End Elements.

(** ** Values *)

(** Every object is a dictionary: no name occurs twice. *)
Fixpoint well_formed (v : json) : bool :=
  match v with
  | JArr l => forallb well_formed l
  | JObj kvs => bool_decide (NoDup kvs.*1) && forallb (fun kv => well_formed kv.2) kvs
  | _ => true
  end.

Lemma json_induction (P : json -> Prop) :
  P JNull -> (forall b, P (JBool b)) -> (forall z, P (JInt z)) -> (forall s, P (JStr s)) ->
  (forall l, Forall P l -> P (JArr l)) -> (forall kvs, Forall (fun kv => P kv.2) kvs -> P (JObj kvs)) ->
  forall v, P v.
Proof.
  intros Hn Hb Hz Hs Ha Ho. fix rec 1. intros [|b|z|s|l|kvs];
    [exact Hn | apply Hb | apply Hz | apply Hs | |].
  - apply Ha. induction l as [|x l IH]; constructor; [apply rec | exact IH].
  - apply Ho. induction kvs as [|[k x] kvs IH]; constructor; [apply rec | exact IH].
Qed.

(** The first character of a value tells its kind. *)
Definition kind_head (v : json) (z : Z) : Prop :=
  match v with
  | JNull => z = 110
  | JBool b => z = if b then 116 else 102
  | JInt _ => z = 45 \/ is_digit z = true
  | JStr _ => z = 34
  | JArr _ => z = 91
  | JObj _ => z = 123
  end.

Lemma dumps_head v : exists c rest, dumps v = String c rest /\ kind_head v (byte_of c).
Proof.
  destruct v as [|[]|z|s|l|kvs]; cbn [dumps]; try by (do 2 eexists; split; [reflexivity|]).
  unfold int_text. destruct (z <? 0).
  - do 2 eexists. split; [reflexivity|]. by left.
  - destruct (pos_digits_head (Z.to_nat (Z.log2 (Z.abs z) + 1)) z EmptyString) as (c & rest & E & Hc).
    exists c, rest. split; [exact E | by right].
Qed.

Lemma dumps_head_not_closing v : exists c rest, dumps v = String c rest /\ ~ closes c.
Proof.
  destruct (dumps_head v) as (c & rest & E & Hk). exists c, rest. split; [done|]. unfold closes.
  destruct v as [|[]|z|s|l|kvs]; cbn in Hk; unfold is_digit in *; lia.
Qed.

(** Equal texts begin with the same character. *)
Lemma same_kind v w r r' : dumps v +:+ r = dumps w +:+ r' ->
  exists z, kind_head v z /\ kind_head w z.
Proof.
  destruct (dumps_head v) as (c & rest & -> & Hv), (dumps_head w) as (d & rest' & -> & Hw).
  rewrite !string_app_cons. intros [= <- _]. eauto.
Qed.

Definition dump_field (kv : string * json) : string := field_text (kv.1, dumps kv.2).

(** The text of an object is that of some order of its fields. *)
Lemma dumps_object_in_order kvs : exists ks, ks ≡ₚ kvs /\
  dumps (JObj kvs) = String "{" (join_comma (map dump_field ks) +:+ "}").
Proof.
  rewrite dumps_object. unfold object_text.
  destruct (Permutation_map_inv (fun kv => (kv.1, dumps kv.2)) kvs
    (merge_sort_Permutation key_le (dumped kvs))) as (ks & E & Hp).
  exists ks. split; [by symmetry|]. rewrite E. do 2 f_equal. rewrite map_map. reflexivity.
Qed.

Lemma dumps_object_head kvs : exists text, dumps (JObj kvs) = String "{" text.
Proof. rewrite dumps_object. by eexists. Qed.

Definition readable_json (v : json) : Prop :=
  readable dumps same_json (fun w => well_formed w = true) v.

Lemma readable_field (kv : string * json) : readable_json kv.2 ->
  readable dump_field (fun a b => a.1 = b.1 /\ same_json a.2 b.2)
    (fun kv => well_formed kv.2 = true) kv.
Proof.
  intros Hv [k w] r r' Hw Hr Hr'. destruct kv as [k0 v]. unfold dump_field, field_text. cbn [fst snd] in *.
  rewrite !string_app_assoc, !string_app_cons. intros Heq.
  apply quoted_inj in Heq as [-> Heq]. injection Heq as Heq.
  apply Hv in Heq as [Hs ->]; [|done..]. done.
Qed.

Lemma dump_field_head kv : exists c rest, dump_field kv = String c rest /\ ~ closes c.
Proof.
  unfold dump_field, field_text, quoted. do 2 eexists. split; [by rewrite string_app_cons|].
  by intros [H|H].
Qed.

Lemma same_object_in_order kvs ks ls kvs' : NoDup kvs.*1 -> ks ≡ₚ kvs -> ls ≡ₚ kvs' ->
  Forall2 (fun a b => a.1 = b.1 /\ same_json a.2 b.2) ks ls -> same_json (JObj kvs) (JObj kvs').
Proof.
  intros Hn Hk Hl HF. destruct (Permutation_Forall2 Hk HF) as (mid & Hm & HF').
  apply (same_object kvs mid kvs' Hn HF'). by rewrite <- Hm.
Qed.

Lemma string_app_inj a r r' : a +:+ r = a +:+ r' -> r = r'.
Proof. induction a as [|c a IH]; [done|]. rewrite !string_app_cons. intros [= H]. auto. Qed.

Lemma read_json v : well_formed v = true -> readable_json v.
Proof.
  induction v as [|b|z|s|l IH|kvs IH] using json_induction; intros Hv w r r' Hw Hr Hr' Heq;
    destruct (same_kind _ _ _ _ Heq) as (k & Hk1 & Hk2);
    destruct w as [|b'|z'|s'|l'|kvs']; cbn [kind_head] in Hk1, Hk2;
    try (exfalso; unfold is_digit in *; repeat case_match; lia).
  - apply string_app_inj in Heq. split; [by constructor | done].
  - assert (b = b') as <- by (destruct b, b'; first [reflexivity | lia]).
    apply string_app_inj in Heq. split; [by constructor | done].
  - cbn [dumps] in Heq. apply (f_equal read_int) in Heq. rewrite !read_int_text in Heq by done.
    injection Heq as -> ->. split; [by constructor | done].
  - apply quoted_inj in Heq as [-> ->]. split; [by constructor | done].
  - cbn [dumps well_formed] in *. rewrite !string_app_cons, !string_app_assoc in Heq.
    injection Heq as Heq. apply forallb_Forall in Hv, Hw.
    apply (elements_inj dumps same_json (fun w => well_formed w = true)) in Heq as [HF ->];
      [split; [by constructor | done] | apply dumps_head_not_closing | by left | | done].
    apply Forall_forall. intros x Hx. rewrite Forall_forall in IH, Hv. apply IH; auto.
  - destruct (dumps_object_in_order kvs) as (ks & Hks & E), (dumps_object_in_order kvs') as (ls & Hls & E').
    rewrite E, E', !string_app_cons, !string_app_assoc in Heq. injection Heq as Heq.
    cbn [well_formed] in *. apply andb_true_iff in Hv as [Hn Hv], Hw as [_ Hw].
    apply bool_decide_eq_true in Hn. apply forallb_Forall in Hv, Hw.
    apply (elements_inj dump_field (fun a b => a.1 = b.1 /\ same_json a.2 b.2)
      (fun kv => well_formed kv.2 = true)) in Heq as [HF ->];
      [split; [by eapply same_object_in_order | done] | apply dump_field_head | by right | |].
    + rewrite Hks. apply Forall_forall. intros x Hx. rewrite Forall_forall in IH, Hv.
      apply readable_field, IH; auto.
    + by rewrite Hls.
Qed.

(** C29: the canonical text of a value determines it up to the order of the
    fields of its objects, and does not depend on that order: on dictionaries
    [canonical_json] gives one text to two values exactly when they are the
    same JSON value, and so does the text [digest_json] hashes. *)
Theorem canonical_text_is_exact (v w : json) (max_bytes : Z) (text text' : string) :
  well_formed v = true -> well_formed w = true ->
  canonical_json v max_bytes = Ok text -> canonical_json w max_bytes = Ok text' ->
  (text = text' <-> same_json v w)
  /\ (same_json v w -> forall domain, digest_json domain v max_bytes = digest_json domain w max_bytes).
Proof.
  intros Hv Hw Ht Ht'. unfold canonical_json in Ht, Ht'.
  destruct (_ <? _) in Ht; [done|]. destruct (_ <? _) in Ht'; [done|].
  injection Ht as <-. injection Ht' as <-. split.
  - split; [|apply dumps_same]. intros Heq.
    apply (read_json v Hv w EmptyString EmptyString Hw I I). by rewrite Heq.
  - intros Hs domain. by apply digest_json_proper.
Qed.

Lemma canonical_text_is_exact_witness :
  canonical_json (JObj [("b", JInt (-10)); ("a", JArr [JNull; JStr "x"])]) 100
    = canonical_json (JObj [("a", JArr [JNull; JStr "x"]); ("b", JInt (-10))]) 100
  /\ same_json (JObj [("b", JInt (-10)); ("a", JArr [JNull; JStr "x"])])
       (JObj [("a", JArr [JNull; JStr "x"]); ("b", JInt (-10))]).
Proof.
  split; [vm_compute; reflexivity|].
  eapply (canonical_text_is_exact _ _ 100); [vm_compute; reflexivity.. | reflexivity].
Defined.
