(* ===== verification/JsonScan.v ===== *)
(** * Reading the entries of a committed payload

    The scanner of src/runtime/durable_workloads/storage.py that walks the
    [entries] of a stored payload one at a time, without decoding the rest of
    it, and [JSONDecoder.raw_decode] of the standard library, which it uses on
    each entry.  A position in the text is the rest of the text from there on;
    the offsets the database keeps count characters.

    Every character the scanner looks for is ASCII, so it finds the same
    positions on the UTF-8 bytes as Python does on the characters.  Numbers
    with a fraction or an exponent and surrogate code points have no value in
    [json]; reading them fails. *)
From Stdlib Require Import Strings.Ascii Strings.String.
From S2P Require Import Prelude.
From S2P Require Import PyJson.
Local Open Scope Z_scope.

(** ** Positions *)

Definition is_continuation (z : Z) : bool := (128 <=? z) && (z <? 192).

(** The text from its [n]-th character on, and its first [n] characters: a
    character is a byte and the continuation bytes after it. *)
Fixpoint drop_chars (n : nat) (s : string) : string :=
  match s with
  | EmptyString => EmptyString
  | String c rest =>
      if is_continuation (byte_of c) then drop_chars n rest
      else match n with O => s | S n => drop_chars n rest end
  end.
Fixpoint take_chars (n : nat) (s : string) : string :=
  match s with
  | EmptyString => EmptyString
  | String c rest =>
      if is_continuation (byte_of c) then String c (take_chars n rest)
      else match n with O => EmptyString | S n => String c (take_chars n rest) end
  end.

Definition text_at (s : string) (offset : Z) : string := drop_chars (Z.to_nat offset) s.
Definition offset_of (s rest : string) : Z := py_len s - py_len rest.

(** [substr(text, offset + 1, length)] of SQLite: the slice of the payload a
    unit bound to one entry reads. *)
Definition entry_slice (payload_json : string) (entry_offset entry_length : Z) : string :=
  take_chars (Z.to_nat entry_length) (text_at payload_json entry_offset).

(** ** White space *)

Fixpoint strip_prefix (w s : string) : option string :=
  match w, s with
  | EmptyString, _ => Some s
  | String a w, String c s => if Ascii.eqb a c then strip_prefix w s else None
  | String _ _, EmptyString => None
  end.

(** [_json_space_end]: the characters that [isspace], one by one. *)
Fixpoint json_space_end (fuel : nat) (s : string) : string :=
  match fuel with
  | O => s
  | S n =>
      match omap (fun w => strip_prefix w s) py_spaces with
      | rest :: _ => json_space_end n rest
      | [] => s
      end
  end.
Definition space_end (s : string) : string := json_space_end (String.length s) s.

(** The white space of JSON itself. *)
Definition is_json_space (z : Z) : bool := (z =? 32) || (z =? 9) || (z =? 10) || (z =? 13).
Fixpoint skip_space (s : string) : string :=
  match s with
  | String c rest => if is_json_space (byte_of c) then skip_space rest else s
  | EmptyString => s
  end.

(** ** [JSONDecoder.raw_decode] *)

Definition hex_of (z : Z) : option Z :=
  if is_digit z then Some (z - 48)
  else if (97 <=? z) && (z <=? 102) then Some (z - 87)
  else if (65 <=? z) && (z <=? 70) then Some (z - 55)
  else None.

(** The four digits of an escape. *)
Definition hex4 (s : string) : option (Z * string) :=
  match s with
  | String a (String b (String c (String d rest))) =>
      w ← hex_of (byte_of a); x ← hex_of (byte_of b); y ← hex_of (byte_of c); z ← hex_of (byte_of d);
      Some (4096 * w + 256 * x + 16 * y + z, rest)
  | _ => None
  end.

Definition utf8 (cp : Z) : string :=
  bytes_string
    (if cp <? 128 then [cp]
     else if cp <? 2048 then [192 + cp / 64; 128 + cp mod 64]
     else if cp <? 65536 then [224 + cp / 4096; 128 + cp / 64 mod 64; 128 + cp mod 64]
     else [240 + cp / 262144; 128 + cp / 4096 mod 64; 128 + cp / 64 mod 64; 128 + cp mod 64]).

Definition is_high (cp : Z) : bool := (55296 <=? cp) && (cp <? 56320).
Definition is_low (cp : Z) : bool := (56320 <=? cp) && (cp <? 57344).

(** An escape of a code point, of a surrogate pair where two follow. *)
Definition unicode_escape (s : string) : option (string * string) :=
  first ← hex4 s;
  let (cp, rest) := (first : Z * string) in
  if is_low cp then None
  else if is_high cp then
    match rest with
    | String b (String u more) =>
        if (byte_of b =? 92) && (byte_of u =? 117) then
          second ← hex4 more;
          let (lo, rest) := (second : Z * string) in
          if is_low lo then Some (utf8 (65536 + (cp - 55296) * 1024 + (lo - 56320)), rest)
          else None
        else None
    | _ => None
    end
  else Some (utf8 cp, rest).

Definition simple_escape (z : Z) : option Z :=
  if (z =? 34) || (z =? 92) || (z =? 47) then Some z
  else if z =? 98 then Some 8 else if z =? 102 then Some 12 else if z =? 110 then Some 10
  else if z =? 114 then Some 13 else if z =? 116 then Some 9 else None.

(** The text of a string after its opening quote. *)
Fixpoint scan_string (fuel : nat) (s : string) : option (string * string) :=
  match fuel, s with
  | S n, String c rest =>
      let z := byte_of c in
      if z =? 34 then Some (EmptyString, rest)
      else if z <? 32 then None
      else if z =? 92 then
        match rest with
        | String e rest =>
            if byte_of e =? 117 then
              p ← unicode_escape rest;
              let (u, rest) := (p : string * string) in
              q ← scan_string n rest; Some (u +:+ q.1, q.2)
            else
              x ← simple_escape (byte_of e);
              q ← scan_string n rest; Some (String (chr x) q.1, q.2)
        | EmptyString => None
        end
      else q ← scan_string n rest; Some (String c q.1, q.2)
  | _, _ => None
  end.

Fixpoint scan_digits (acc : Z) (s : string) : Z * string :=
  match s with
  | String c rest =>
      if is_digit (byte_of c) then scan_digits (acc * 10 + (byte_of c - 48)) rest else (acc, s)
  | EmptyString => (acc, s)
  end.

(** What follows an integer makes it a float. *)
Definition is_float_tail (s : string) : bool :=
  match s with
  | String a (String b rest) =>
      let x := byte_of a in let y := byte_of b in
      if x =? 46 then is_digit y
      else if (x =? 101) || (x =? 69) then
        is_digit y || (((y =? 43) || (y =? 45))
                       && match rest with String d _ => is_digit (byte_of d) | _ => false end)
      else false
  | _ => false
  end.

(** [-?(0|[1-9][0-9]* )], not followed by a fraction or an exponent. *)
Definition scan_natural (s : string) : option (Z * string) :=
  match s with
  | String c rest =>
      let z := byte_of c in
      let '(n, rest) := if z =? 48 then (0, rest) else scan_digits 0 s in
      if is_digit z && negb (is_float_tail rest) then Some (n, rest) else None
  | EmptyString => None
  end.
Definition scan_number (s : string) : option (json * string) :=
  match s with
  | String c rest =>
      if byte_of c =? 45 then p ← scan_natural rest; Some (JInt (- p.1), p.2)
      else p ← scan_natural s; Some (JInt p.1, p.2)
  | EmptyString => None
  end.

Definition scan_word (s : string) : option (json * string) :=
  match strip_prefix "null" s, strip_prefix "true" s, strip_prefix "false" s with
  | Some rest, _, _ => Some (JNull, rest)
  | _, Some rest, _ => Some (JBool true, rest)
  | _, _, Some rest => Some (JBool false, rest)
  | _, _, _ => scan_number s
  end.

(** A value, the elements of an array and the members of an object. *)
Fixpoint scan_value (fuel : nat) (s : string) : option (json * string) :=
  match fuel, s with
  | S n, String c rest =>
      let z := byte_of c in
      if z =? 34 then p ← scan_string (S (String.length rest)) rest; Some (JStr p.1, p.2)
      else if z =? 91 then
        match skip_space rest with
        | String d more =>
            if byte_of d =? 93 then Some (JArr [], more)
            else p ← scan_elements n (String d more); Some (JArr p.1, p.2)
        | EmptyString => None
        end
      else if z =? 123 then
        match skip_space rest with
        | String d more =>
            if byte_of d =? 125 then Some (JObj [], more)
            else p ← scan_members n [] (String d more); Some (JObj p.1, p.2)
        | EmptyString => None
        end
      else scan_word s
  | _, _ => None
  end
with scan_elements (fuel : nat) (s : string) : option (list json * string) :=
  match fuel with
  | O => None
  | S n =>
      p ← scan_value n s;
      let (v, rest) := (p : json * string) in
      match skip_space rest with
      | String d more =>
          if byte_of d =? 93 then Some ([v], more)
          else if byte_of d =? 44 then
            q ← scan_elements n (skip_space more); Some (v :: q.1, q.2)
          else None
      | EmptyString => None
      end
  end
with scan_members (fuel : nat) (acc : list (string * json)) (s : string)
  : option (list (string * json) * string) :=
  match fuel, s with
  | S n, String c rest =>
      if byte_of c =? 34 then
        k ← scan_string (S (String.length rest)) rest;
        match skip_space k.2 with
        | String d more =>
            if byte_of d =? 58 then
              p ← scan_value n (skip_space more);
              let acc := obj_set k.1 p.1 acc in
              match skip_space p.2 with
              | String e more =>
                  if byte_of e =? 125 then Some (acc, more)
                  else if byte_of e =? 44 then scan_members n acc (skip_space more)
                  else None
              | EmptyString => None
              end
            else None
        | EmptyString => None
        end
      else None
  | _, _ => None
  end.

(** Each call reads a character or hands the text to one that does. *)
Definition raw_decode (s : string) : option (json * string) :=
  scan_value (S (2 * String.length s)) s.

(** ** Skipping a value *)

(** A failure of the scanner carries the message of its [DurableStoreError]. *)
Fixpoint string_end (escaped : bool) (s : string) : result string string :=
  match s with
  | EmptyString => Err "committed dependency string is unterminated"
  | String c rest =>
      let z := byte_of c in
      if escaped then string_end false rest
      else if z =? 92 then string_end true rest
      else if z =? 34 then Ok rest
      else string_end false rest
  end.

(** [closers] is the stack of brackets still open, innermost first. *)
Fixpoint nest_end (closers : list Z) (in_string escaped : bool) (s : string)
  : result string string :=
  match s with
  | EmptyString => Err "committed dependency payload is unterminated"
  | String c rest =>
      let z := byte_of c in
      if in_string then
        if escaped then nest_end closers true false rest
        else if z =? 92 then nest_end closers true true rest
        else nest_end closers (negb (z =? 34)) false rest
      else if z =? 34 then nest_end closers true false rest
      else if z =? 91 then nest_end (93 :: closers) false false rest
      else if z =? 123 then nest_end (125 :: closers) false false rest
      else if (z =? 93) || (z =? 125) then
        match closers with
        | top :: outer =>
            if z =? top then
              match outer with [] => Ok rest | _ => nest_end outer false false rest end
            else Err "committed dependency payload has invalid nesting"
        | [] => Err "committed dependency payload has invalid nesting"
        end
      else nest_end closers false false rest
  end.

Definition ends_scalar (z : Z) : bool :=
  (z =? 44) || (z =? 93) || (z =? 125) || is_json_space z.
Fixpoint scalar_end (s : string) : string :=
  match s with
  | String c rest => if ends_scalar (byte_of c) then s else scalar_end rest
  | EmptyString => s
  end.

Definition json_value_end (s : string) : result string string :=
  match space_end s with
  | EmptyString => Err "committed dependency payload ended unexpectedly"
  | String c rest =>
      let z := byte_of c in
      if z =? 34 then string_end false rest
      else if z =? 91 then nest_end [93] false false rest
      else if z =? 123 then nest_end [125] false false rest
      else if ends_scalar z then Err "committed dependency payload has an empty value"
      else Ok (scalar_end rest)
  end.

(** ** The entries of a payload *)

Definition head_is (z : Z) (s : string) : bool :=
  match s with String c _ => byte_of c =? z | EmptyString => false end.
Definition tail_of (s : string) : string :=
  match s with String _ rest => rest | EmptyString => EmptyString end.

Definition expect {A} (what : string) (o : option A) : result string A :=
  match o with Some a => Ok a | None => Err what end.
Definition require (b : bool) (what : string) : result string unit := if b then Ok tt else Err what.

Definition no_entries {A} : result string A := Err "entry identity fan-out requires dependency entries".

(** The members of the object, up to the one called entries. *)
Fixpoint find_entries (fuel : nat) (s : string) : result string string :=
  match fuel with
  | O => no_entries
  | S n =>
      if bool_decide (s = EmptyString) || head_is 125 s then no_entries
      else
        k ← expect "committed dependency payload has an invalid object key" (raw_decode s);
        let (key, rest) := (k : json * string) in
        match key with
        | JStr key =>
            let s := space_end rest in
            require (head_is 58 s) "committed dependency payload has an invalid object member" ;;
            let s := space_end (tail_of s) in
            if str_eqb key "entries" then
              require (head_is 91 s) "entry identity fan-out requires dependency entries" ;;
              Ok (space_end (tail_of s))
            else
              rest ← json_value_end s;
              let s := space_end rest in
              if head_is 44 s then find_entries n (space_end (tail_of s))
              else if head_is 125 s then no_entries
              else Err "committed dependency payload has an invalid object separator"
        | _ => Err "committed dependency payload has a non-string object key"
        end
  end.

Definition entry_array_offset (payload_json : string) : result string Z :=
  let s := space_end payload_json in
  require (head_is 123 s) "committed dependency payload is not an object" ;;
  rest ← find_entries (String.length payload_json) (space_end (tail_of s));
  Ok (offset_of payload_json rest).

Record Entry : Type := mkEntry {
  en_entry : option (list (string * json));
  en_next : Z;
  en_finished : bool;
  en_start : Z;
  en_end : Z }.

Definition next_entry (payload_json : string) (offset : Z) : result string Entry :=
  let at_ := offset_of payload_json in
  let s := space_end (text_at payload_json offset) in
  require (negb (bool_decide (s = EmptyString))) "dependency entries ended unexpectedly" ;;
  if head_is 93 s then Ok (mkEntry None (at_ s + 1) true (at_ s) (at_ s))
  else
    p ← expect "dependency entry is not valid JSON" (raw_decode s);
    let (value, rest) := (p : json * string) in
    match value with
    | JObj entry =>
        let e := space_end rest in
        require (negb (bool_decide (e = EmptyString))) "dependency entries ended unexpectedly" ;;
        if head_is 44 e then
          Ok (mkEntry (Some entry) (at_ (space_end (tail_of e))) false (at_ s) (at_ e))
        else if head_is 93 e then Ok (mkEntry (Some entry) (at_ e + 1) true (at_ s) (at_ e))
        else Err "dependency entries have an invalid separator"
    | _ => Err "entry identity fan-out found a non-object entry"
    end.

(** The entries a stage fans out on: the items from the first one on, until
    the scanner reports the end of the array. *)
Fixpoint entries_from (fuel : nat) (payload_json : string) (offset : Z) : result string (list Entry) :=
  match fuel with
  | O => Err "dependency entries ended unexpectedly"
  | S n =>
      e ← next_entry payload_json offset;
      if en_finished e then Ok (if en_entry e then [e] else [])
      else es ← entries_from n payload_json (en_next e); Ok (e :: es)
  end.
