(* ===== verification/Instants.v ===== *)
(** * Instants and their stored text

    [normalize_instant], [instant_text] and [parse_instant] of
    src/runtime/durable_workloads/coordinator.py and [utc_now] of
    src/runtime/durable_workloads/migrations.py.  An aware [datetime] is the
    integer of microseconds since the Unix epoch; its calendar fields are
    computed as Python's [datetime] does.  The store compares the texts as
    strings, which is why their order and their round trip matter. *)
From Stdlib Require Import Strings.Ascii Strings.String.
From S2P Require Import Prelude.
From S2P Require Import PyJson.
Local Open Scope Z_scope.

(** ** Calendar *)

Definition is_leap (y : Z) : bool :=
  (y mod 4 =? 0) && (negb (y mod 100 =? 0) || (y mod 400 =? 0)).

(** Days before January 1st of a year, and before the first of a month. *)
Definition days_before_year (y : Z) : Z :=
  let y := y - 1 in y * 365 + y / 4 - y / 100 + y / 400.

Definition days_before_month (y m : Z) : Z :=
  nth (Z.to_nat (m - 1)) [0; 31; 59; 90; 120; 151; 181; 212; 243; 273; 304; 334] 0
  + (if (2 <? m) && is_leap y then 1 else 0).

Definition days_in_month (y m : Z) : Z :=
  if m =? 2 then (if is_leap y then 29 else 28)
  else if bool_decide (m ∈ [4; 6; 9; 11]) then 30 else 31.

(** The proleptic ordinal of a date: January 1st of year 1 is day 1. *)
Definition ymd2ord (y m d : Z) : Z := days_before_year y + days_before_month y m + d.

(** Python's [_ord2ymd]: peel off 400-, 100-, 4- and 1-year cycles, then
    estimate the month and correct the estimate downwards. *)
Definition ord2ymd (n : Z) : Z * Z * Z :=
  let n := n - 1 in
  let n400 := n / 146097 in
  let n := n mod 146097 in
  let n100 := n / 36524 in
  let n := n mod 36524 in
  let n4 := n / 1461 in
  let n := n mod 1461 in
  let n1 := n / 365 in
  let n := n mod 365 in
  let year := n400 * 400 + 1 + n100 * 100 + n4 * 4 + n1 in
  if (n1 =? 4) || (n100 =? 4) then (year - 1, 12, 31)
  else
    let month := Z.shiftr (n + 50) 5 in
    let preceding := days_before_month year month in
    if n <? preceding
    then (year, month - 1, n - days_before_month year (month - 1) + 1)
    else (year, month, n - preceding + 1).

Definition EPOCH_ORDINAL : Z := 719163.
Definition US_PER_DAY : Z := 86400000000.

(** ** Text *)

Fixpoint padded (width : nat) (z : Z) (rest : string) : string :=
  match width with
  | O => rest
  | S w => padded w (z / 10) (String (chr (48 + z mod 10)) rest)
  end.

Definition instant_text (z : Z) : string :=
  let '(y, m, d) := ord2ymd (z / US_PER_DAY + EPOCH_ORDINAL) in
  let us := z mod US_PER_DAY in
  padded 4 y (String "-" (padded 2 m (String "-" (padded 2 d (String "T"
    (padded 2 (us / 3600000000) (String ":"
    (padded 2 (us / 60000000 mod 60) (String ":"
    (padded 2 (us / 1000000 mod 60) (String "."
    (padded 6 (us mod 1000000) (String "Z" EmptyString))))))))))))).

(** A run of [width] decimal digits. *)
Fixpoint digits (width : nat) (acc : Z) (s : string) : option (Z * string) :=
  match width with
  | O => Some (acc, s)
  | S w =>
      match s with
      | String c s' =>
          if is_digit (byte_of c) then digits w (acc * 10 + (byte_of c - 48)) s' else None
      | EmptyString => None
      end
  end.

Definition lit (c : ascii) (s : string) : option string :=
  match s with
  | String d s' => if byte_of c =? byte_of d then Some s' else None
  | EmptyString => None
  end.

(** On the fixed-width texts the store holds, [parse_instant] reads the
    calendar fields back and validates their ranges. *)
Definition parse_instant (s : string) : option Z :=
  '(y, s) ← digits 4 0 s; s ← lit "-" s;
  '(m, s) ← digits 2 0 s; s ← lit "-" s;
  '(d, s) ← digits 2 0 s; s ← lit "T" s;
  '(hh, s) ← digits 2 0 s; s ← lit ":" s;
  '(mm, s) ← digits 2 0 s; s ← lit ":" s;
  '(ss, s) ← digits 2 0 s; s ← lit "." s;
  '(us, s) ← digits 6 0 s; s ← lit "Z" s;
  if str_eqb s EmptyString && (1 <=? y) && (1 <=? m) && (m <=? 12) && (1 <=? d)
     && (d <=? days_in_month y m) && (hh <? 24) && (mm <? 60) && (ss <? 60)
  then Some ((ymd2ord y m d - EPOCH_ORDINAL) * US_PER_DAY
             + (hh * 3600 + mm * 60 + ss) * 1000000 + us)
  else None.
