(* ===== verification/DurableModels.v ===== *)
(** * State vocabularies of the durable-workload kernel

    src/runtime/durable_workloads/models.py: the closed string enums, the
    declared transition tables of workloads and units, the control-command
    matrix, and the three query functions over them. *)
From S2P Require Import Prelude.
From S2P Require Import PyJson.

(** ** Closed vocabularies *)

Inductive WorkloadState : Type :=
| DRAFT | ADMITTED | QUEUED | RUNNING | PAUSE_REQUESTED | PAUSED
| CANCEL_REQUESTED | CANCELLED | NEEDS_ATTENTION | FAILED
| COMPLETED_WITH_ERRORS | COMPLETED.

Inductive UnitState : Type :=
| U_PENDING | U_LEASED | U_RUNNING | U_RETRY_WAIT | U_COMMITTED
| U_FAILED_PERMANENT | U_NEEDS_ATTENTION | U_CANCELLED | U_SKIPPED.

Inductive AttemptState : Type :=
| A_LEASED | A_RUNNING | A_SUCCEEDED | A_FAILED | A_TIMED_OUT
| A_LATE_REJECTED | A_ABANDONED.

Inductive RunnerKind : Type := R_INTERNAL | R_EXECUTOR | R_WORKLOAD.

Inductive DurableEffect : Type := PURE | IDEMPOTENT | RECONCILABLE | MANUAL_ONLY.

Inductive OutboxState : Type := O_PENDING | O_LEASED | O_SENT | O_FAILED | O_CANCELLED.

Inductive EventType : Type :=
| E_DRAFT_CREATED | E_REVISION_ADMITTED | E_QUEUED | E_RUNNING
| E_PAUSE_REQUESTED | E_PAUSED | E_RESUMED | E_CANCEL_REQUESTED | E_CANCELLED
| E_NEEDS_ATTENTION | E_ATTENTION_RESOLVED | E_FAILED
| E_COMPLETED_WITH_ERRORS | E_COMPLETED.

#[export] Instance WorkloadState_eq_dec : EqDecision WorkloadState.
Proof. solve_decision. Defined.
#[export] Instance UnitState_eq_dec : EqDecision UnitState.
Proof. solve_decision. Defined.
#[export] Instance AttemptState_eq_dec : EqDecision AttemptState.
Proof. solve_decision. Defined.
#[export] Instance RunnerKind_eq_dec : EqDecision RunnerKind.
Proof. solve_decision. Defined.
#[export] Instance DurableEffect_eq_dec : EqDecision DurableEffect.
Proof. solve_decision. Defined.
#[export] Instance OutboxState_eq_dec : EqDecision OutboxState.
Proof. solve_decision. Defined.
#[export] Instance EventType_eq_dec : EqDecision EventType.
Proof. solve_decision. Defined.

(** The stored values of the string enums. *)
Definition workload_value (s : WorkloadState) : string :=
  match s with
  | DRAFT => "draft" | ADMITTED => "admitted" | QUEUED => "queued"
  | RUNNING => "running" | PAUSE_REQUESTED => "pause_requested"
  | PAUSED => "paused" | CANCEL_REQUESTED => "cancel_requested"
  | CANCELLED => "cancelled" | NEEDS_ATTENTION => "needs_attention"
  | FAILED => "failed" | COMPLETED_WITH_ERRORS => "completed_with_errors"
  | COMPLETED => "completed"
  end.

Definition unit_value (s : UnitState) : string :=
  match s with
  | U_PENDING => "pending" | U_LEASED => "leased" | U_RUNNING => "running"
  | U_RETRY_WAIT => "retry_wait" | U_COMMITTED => "committed"
  | U_FAILED_PERMANENT => "failed_permanent"
  | U_NEEDS_ATTENTION => "needs_attention" | U_CANCELLED => "cancelled"
  | U_SKIPPED => "skipped"
  end.

Definition effect_value (e : DurableEffect) : string :=
  match e with
  | PURE => "pure" | IDEMPOTENT => "idempotent"
  | RECONCILABLE => "reconcilable" | MANUAL_ONLY => "manual_only"
  end.

Definition all_workload_states : list WorkloadState :=
  [DRAFT; ADMITTED; QUEUED; RUNNING; PAUSE_REQUESTED; PAUSED; CANCEL_REQUESTED;
   CANCELLED; NEEDS_ATTENTION; FAILED; COMPLETED_WITH_ERRORS; COMPLETED].

Definition all_unit_states : list UnitState :=
  [U_PENDING; U_LEASED; U_RUNNING; U_RETRY_WAIT; U_COMMITTED;
   U_FAILED_PERMANENT; U_NEEDS_ATTENTION; U_CANCELLED; U_SKIPPED].

(** [WorkloadState(text)] and [UnitState(text)]: [None] is the [ValueError]. *)
Definition workload_of (text : string) : option WorkloadState :=
  List.find (fun s => str_eqb (workload_value s) text) all_workload_states.

Definition unit_of (text : string) : option UnitState :=
  List.find (fun s => str_eqb (unit_value s) text) all_unit_states.

(** ** Declared transition tables *)

Definition WORKLOAD_TRANSITIONS (s : WorkloadState) : list WorkloadState :=
  match s with
  | DRAFT => [ADMITTED; CANCELLED; FAILED]
  | ADMITTED => [QUEUED; CANCEL_REQUESTED; CANCELLED; NEEDS_ATTENTION; FAILED]
  | QUEUED => [RUNNING; PAUSED; CANCEL_REQUESTED; CANCELLED; NEEDS_ATTENTION; FAILED]
  | RUNNING =>
      [PAUSE_REQUESTED; CANCEL_REQUESTED; NEEDS_ATTENTION; FAILED;
       COMPLETED_WITH_ERRORS; COMPLETED]
  | PAUSE_REQUESTED => [PAUSED; CANCEL_REQUESTED; NEEDS_ATTENTION; FAILED]
  | PAUSED => [QUEUED; CANCEL_REQUESTED; CANCELLED; NEEDS_ATTENTION; FAILED]
  | CANCEL_REQUESTED => [CANCELLED; NEEDS_ATTENTION; FAILED]
  | NEEDS_ATTENTION => [QUEUED; RUNNING; CANCEL_REQUESTED; CANCELLED; FAILED]
  | CANCELLED | FAILED | COMPLETED_WITH_ERRORS | COMPLETED => []
  end.

(** [None] inside [Some] is the explicit idempotent no-op of the matrix; the
    outer [None] is an absent state/command pair. *)
Definition CONTROL_STATE_MATRIX (command : string)
  : option (WorkloadState -> option (option WorkloadState)) :=
  if str_eqb command "pause" then
    Some (fun s => match s with
                   | QUEUED => Some (Some PAUSED)
                   | RUNNING => Some (Some PAUSE_REQUESTED)
                   | PAUSE_REQUESTED => Some None
                   | PAUSED => Some None
                   | _ => None
                   end)
  else if str_eqb command "resume" then
    Some (fun s => match s with
                   | QUEUED => Some None
                   | PAUSED => Some (Some QUEUED)
                   | _ => None
                   end)
  else if str_eqb command "cancel" then
    Some (fun s => match s with
                   | DRAFT => Some (Some CANCELLED)
                   | ADMITTED => Some (Some CANCEL_REQUESTED)
                   | QUEUED => Some (Some CANCEL_REQUESTED)
                   | RUNNING => Some (Some CANCEL_REQUESTED)
                   | PAUSE_REQUESTED => Some (Some CANCEL_REQUESTED)
                   | PAUSED => Some (Some CANCEL_REQUESTED)
                   | CANCEL_REQUESTED => Some None
                   | CANCELLED => Some None
                   | NEEDS_ATTENTION => Some (Some CANCEL_REQUESTED)
                   | _ => None
                   end)
  else None.

Definition UNIT_TRANSITIONS (s : UnitState) : list UnitState :=
  match s with
  | U_PENDING => [U_LEASED; U_CANCELLED; U_SKIPPED]
  | U_LEASED => [U_RUNNING; U_PENDING; U_NEEDS_ATTENTION; U_CANCELLED]
  | U_RUNNING =>
      [U_COMMITTED; U_RETRY_WAIT; U_FAILED_PERMANENT; U_NEEDS_ATTENTION; U_CANCELLED]
  | U_RETRY_WAIT => [U_PENDING; U_CANCELLED]
  | U_NEEDS_ATTENTION => [U_PENDING; U_CANCELLED]
  | U_COMMITTED | U_FAILED_PERMANENT | U_CANCELLED | U_SKIPPED => []
  end.

Definition TERMINAL_WORKLOAD_STATES : list WorkloadState :=
  [CANCELLED; FAILED; COMPLETED_WITH_ERRORS; COMPLETED].

Definition TERMINAL_UNIT_STATES : list UnitState :=
  [U_COMMITTED; U_FAILED_PERMANENT; U_CANCELLED; U_SKIPPED].

(** ** Queries *)

Definition can_transition_workload (source destination : string) : bool :=
  match workload_of source, workload_of destination with
  | Some current, Some target => bool_decide (target ∈ WORKLOAD_TRANSITIONS current)
  | _, _ => false
  end.

Inductive control_error : Type :=
| InvalidSource
| IllegalCommand.

Definition control_transition (command source : string)
  : result control_error (option WorkloadState) :=
  match workload_of source with
  | None => Err InvalidSource
  | Some current =>
      match CONTROL_STATE_MATRIX command with
      | None => Err IllegalCommand
      | Some matrix =>
          match matrix current with
          | None => Err IllegalCommand
          | Some target => Ok target
          end
      end
  end.

Definition can_transition_unit (source destination : string) : bool :=
  match unit_of source, unit_of destination with
  | Some current, Some target => bool_decide (target ∈ UNIT_TRANSITIONS current)
  | _, _ => false
  end.

(** ** Facts the store relies on *)

Lemma workload_of_value s : workload_of (workload_value s) = Some s.
Proof. by destruct s. Qed.

Lemma unit_of_value s : unit_of (unit_value s) = Some s.
Proof. by destruct s. Qed.

Lemma workload_of_Some text s : workload_of text = Some s -> workload_value s = text.
Proof.
  unfold workload_of. intros [_ H]%List.find_some. by apply str_eqb_true.
Qed.

Lemma unit_of_Some text s : unit_of text = Some s -> unit_value s = text.
Proof.
  unfold unit_of. intros [_ H]%List.find_some. by apply str_eqb_true.
Qed.

Lemma can_transition_workload_value s t :
  can_transition_workload (workload_value s) (workload_value t)
  = bool_decide (t ∈ WORKLOAD_TRANSITIONS s).
Proof. unfold can_transition_workload. by rewrite !workload_of_value. Qed.

#[export] Hint Rewrite workload_of_value unit_of_value
  can_transition_workload_value str_eqb_refl : durable.

(** Reachability in the declared workload table. *)
Definition workload_step (s t : WorkloadState) : Prop := t ∈ WORKLOAD_TRANSITIONS s.
Definition unit_step (s t : UnitState) : Prop := t ∈ UNIT_TRANSITIONS s.

Lemma workload_terminal_sink s t : s ∈ TERMINAL_WORKLOAD_STATES -> ~ workload_step s t.
Proof.
  unfold TERMINAL_WORKLOAD_STATES, workload_step. intros Hs Ht.
  repeat (apply elem_of_cons in Hs as [-> | Hs]; [by apply elem_of_nil in Ht|]).
  by apply elem_of_nil in Hs.
Qed.

(** ** Properties *)

(** A control command never leaves the declared workload graph: whenever
    [control_transition] names a target, [can_transition_workload] accepts the
    move, so the guard [_control] repeats after it never fires. *)
Theorem control_within_graph (command source : string) (target : WorkloadState) :
  control_transition command source = Ok (Some target) ->
  can_transition_workload source (workload_value target) = true.
Proof.
  unfold control_transition.
  destruct (workload_of source) as [s|] eqn:Hs; [|done].
  apply workload_of_Some in Hs as <-. rewrite can_transition_workload_value.
  unfold CONTROL_STATE_MATRIX.
  destruct (str_eqb command "pause"), (str_eqb command "resume"),
    (str_eqb command "cancel"), s; intros; simplify_eq/=; reflexivity.
Qed.

Example control_within_graph_witness :
  can_transition_workload "queued" "paused" = true.
Proof. apply (control_within_graph "pause" "queued" PAUSED). reflexivity. Defined.

(** The declared graph decides exactly the enum strings: the function accepts
    a pair of texts iff they are the values of two states joined by an edge;
    a text outside the vocabulary is refused and never raises. *)
Theorem can_transition_workload_spec (source destination : string) :
  can_transition_workload source destination = true <->
  exists s t, source = workload_value s /\ destination = workload_value t /\
              t ∈ WORKLOAD_TRANSITIONS s.
Proof.
  split.
  - unfold can_transition_workload.
    destruct (workload_of source) as [s|] eqn:Hs; [|done].
    destruct (workload_of destination) as [t|] eqn:Ht; [|done].
    intros H%bool_decide_eq_true. exists s, t.
    apply workload_of_Some in Hs. apply workload_of_Some in Ht. done.
  - intros (s & t & -> & -> & H). rewrite can_transition_workload_value.
    by apply bool_decide_eq_true.
Qed.

(** Liveness of the declared graph: from every state a terminal state can be
    reached, and the terminal states are exactly the ones without successors. *)
Theorem workload_graph_terminates (s : WorkloadState) :
  (exists t, t ∈ TERMINAL_WORKLOAD_STATES /\ rtc workload_step s t) /\
  (WORKLOAD_TRANSITIONS s = [] <-> s ∈ TERMINAL_WORKLOAD_STATES).
Proof.
  split.
  - destruct (decide (s ∈ TERMINAL_WORKLOAD_STATES)) as [Hs|Hs].
    { exists s. split; [done | apply rtc_refl]. }
    exists FAILED. split; [by apply (bool_decide_unpack _); vm_compute|].
    apply rtc_once. unfold workload_step.
    destruct s; first [ apply (bool_decide_unpack _); by vm_compute
                      | exfalso; apply Hs; apply (bool_decide_unpack _); by vm_compute ].
  - destruct s; split; intros H; try done;
      first [ apply (bool_decide_unpack _); by vm_compute
            | apply (bool_decide_pack _) in H; by vm_compute in H ].
Qed.
