(* ===== verification/DurableRetry.v ===== *)
(** * Coordination contracts of the durable-workload kernel

    src/runtime/durable_workloads/coordinator.py: worker identities, lease
    durations, the frozen retry policy and the two functions that derive the
    retry decision and the retry delay from it, worker capabilities and the
    lease record.  Instants and durations are integers of microseconds. *)
From S2P Require Import Prelude.
From S2P Require Import Sha256.
From S2P Require Import PyJson.
From S2P Require Import DurableModels.
Local Open Scope Z_scope.

(** ** Closed statuses *)

Inductive LeaseMutationStatus : Type :=
| APPLIED | ALREADY_APPLIED | STALE_FENCE | LEASE_EXPIRED | INVALID_STATE | STOP_REQUESTED.

Inductive CommitStatus : Type :=
| C_COMMITTED | C_IDEMPOTENT_REPLAY | C_STALE_FENCE | C_LEASE_EXPIRED
| C_DEADLINE_EXPIRED | C_DIGEST_CONFLICT | C_INVALID_STATE.

Inductive RetryDecision : Type := RETRY | FAIL_PERMANENT | DECIDE_ATTENTION.

Inductive FailureStatus : Type :=
| F_RETRY_SCHEDULED | F_FAILED_PERMANENT | F_NEEDS_ATTENTION
| F_STALE_FENCE | F_LEASE_EXPIRED | F_INVALID_STATE.

#[export] Instance RetryDecision_eq_dec : EqDecision RetryDecision.
Proof. solve_decision. Defined.
#[export] Instance LeaseMutationStatus_eq_dec : EqDecision LeaseMutationStatus.
Proof. solve_decision. Defined.
#[export] Instance CommitStatus_eq_dec : EqDecision CommitStatus.
Proof. solve_decision. Defined.

Definition decision_value (d : RetryDecision) : string :=
  match d with
  | RETRY => "retry" | FAIL_PERMANENT => "fail_permanent"
  | DECIDE_ATTENTION => "needs_attention"
  end.

Inductive value_error : Type := ValueError (what : string).

(** ** Identities and durations *)

(** [_WORKER_RE], [_ERROR_CLASS_RE], [_RUNNER_RE]: full matches. *)
Definition worker_char (z : Z) : bool :=
  is_lower z || is_upper z || is_digit z
  || (z =? 95) || (z =? 46) || (z =? 58) || (z =? 45).

Definition worker_re (s : string) : bool :=
  match s with
  | EmptyString => false
  | String c rest =>
      let z := byte_of c in
      (is_lower z || is_upper z || is_digit z)
      && forall_chars worker_char rest && (byte_len rest <=? 127)
  end.

Definition label_char (z : Z) : bool :=
  is_lower z || is_digit z || (z =? 95) || (z =? 46) || (z =? 45).

Definition error_class_re (s : string) : bool :=
  match s with
  | EmptyString => false
  | String c rest =>
      is_lower (byte_of c) && forall_chars label_char rest
      && (1 <=? byte_len rest) && (byte_len rest <=? 63)
  end.

Definition runner_re (s : string) : bool :=
  match s with
  | EmptyString => false
  | String c rest =>
      (is_lower (byte_of c) || (byte_of c =? 95)) && forall_chars label_char rest
      && (1 <=? byte_len rest) && (byte_len rest <=? 95)
  end.

Definition require_worker_id (worker_id : string) : result value_error string :=
  if worker_re worker_id then Ok worker_id else Err (ValueError "worker_id").

Definition second : Z := 1000000.
Definition MAX_LEASE_DURATION : Z := 86400 * second.

Definition require_lease_duration (value : Z) : result value_error Z :=
  if (value <=? 0) || (MAX_LEASE_DURATION <? value)
  then Err (ValueError "lease_duration")
  else Ok value.

(** ** Retry policy *)

Record RetryPolicy : Type := {
  max_attempts : Z;
  base_delay_ms : Z;
  max_delay_ms : Z;
  retryable_error_classes : list string }.

#[export] Instance RetryPolicy_eq_dec : EqDecision RetryPolicy.
Proof. solve_decision. Defined.

Definition retry_keys : list string :=
  ["max_attempts"; "base_delay_ms"; "max_delay_ms"; "retryable_error_classes"].

(** [set(value) != expected] on the keys of the mapping. *)
Definition same_keys (kvs : list (string * json)) (expected : list string) : bool :=
  forallb (fun kv => bool_decide (kv.1 ∈ expected)) kvs
  && forallb (fun k => bool_decide (k ∈ kvs.*1)) expected.

Definition as_int (v : option json) : option Z :=
  match v with Some (JInt z) => Some z | _ => None end.

Definition as_str (v : json) : option string :=
  match v with JStr s => Some s | _ => None end.

(** [RetryPolicy.from_mapping]. *)
Definition from_mapping (value : json) : result value_error RetryPolicy :=
  match value with
  | JObj kvs =>
      if negb (same_keys kvs retry_keys)
      then Err (ValueError "retry policy fields do not match the v1 contract")
      else
        match as_int (obj_get "max_attempts" kvs) with
        | Some attempts =>
            if negb ((1 <=? attempts) && (attempts <=? 32))
            then Err (ValueError "retry max_attempts")
            else
              match as_int (obj_get "base_delay_ms" kvs),
                    as_int (obj_get "max_delay_ms" kvs) with
              | Some base, Some maximum =>
                  if negb ((0 <=? base) && (base <=? 86400000)
                           && (base <=? maximum) && (maximum <=? 86400000))
                  then Err (ValueError "retry delays are outside the v1 bounds")
                  else
                    match obj_get "retryable_error_classes" kvs with
                    | Some (JArr errors) =>
                        if 32 <? Z.of_nat (length errors)
                        then Err (ValueError "retryable_error_classes must be a bounded array")
                        else
                          match mapM as_str errors with
                          | Some normalized =>
                              if negb (forallb error_class_re normalized)
                              then Err (ValueError "retryable_error_classes contains an invalid class")
                              else if negb (bool_decide (NoDup normalized))
                              then Err (ValueError "retryable_error_classes contains duplicates")
                              else Ok {| max_attempts := attempts; base_delay_ms := base;
                                         max_delay_ms := maximum;
                                         retryable_error_classes := normalized |}
                          | None => Err (ValueError "retryable_error_classes contains an invalid class")
                          end
                    | _ => Err (ValueError "retryable_error_classes must be a bounded array")
                    end
              | _, _ => Err (ValueError "retry delays are outside the v1 bounds")
              end
        | None => Err (ValueError "retry max_attempts")
        end
  | _ => Err (ValueError "retry policy must be an object")
  end.

(** Capped exponential delay with stable 75..100% jitter. *)
Definition retry_nominal (attempt_number base max_delay : Z) : Z :=
  let exponent := Z.min (attempt_number - 1) 62 in
  Z.min max_delay (base * Z.shiftl 1 exponent).

Definition retry_jitter (unit_key : string) (attempt_number span : Z) : Z :=
  let material := unit_key +:+ String (chr 0) (int_text attempt_number) in
  from_be (take 8 (sha256 (string_bytes material))) mod span.

Definition deterministic_retry_delay_ms (unit_key : string) (attempt_number : Z)
    (base_delay max_delay : Z) : result value_error Z :=
  if str_eqb unit_key EmptyString
  then Err (ValueError "unit_key must be a non-empty string")
  else if attempt_number <? 1
  then Err (ValueError "attempt_number must be positive")
  else if negb ((0 <=? base_delay) && (base_delay <=? max_delay))
  then Err (ValueError "retry delay bounds are invalid")
  else if (base_delay =? 0) || (max_delay =? 0) then Ok 0
  else
    let nominal := retry_nominal attempt_number base_delay max_delay in
    let lower := nominal * 3 / 4 in
    let span := nominal - lower + 1 in
    Ok (lower + retry_jitter unit_key attempt_number span).

Definition attention_classes : list string :=
  ["budget_exhausted"; "capability_unavailable"; "publication_ambiguous";
   "source_missing"; "executor_unknown"].

Definition permanent_classes : list string :=
  ["executor_permanent"; "contract_violation"; "invalid_plan"].

(** Retry disposition derived only from the frozen stage contract. *)
Definition decide_retry (effect_profile : DurableEffect) (retry_policy : RetryPolicy)
    (attempt_number : Z) (error_class : string) (manual_retry : bool)
  : result value_error RetryDecision :=
  if negb (error_class_re error_class) then Err (ValueError "error_class is invalid")
  else if bool_decide (error_class ∈ attention_classes) then Ok DECIDE_ATTENTION
  else if bool_decide (effect_profile ∈ [RECONCILABLE; MANUAL_ONLY]) then Ok DECIDE_ATTENTION
  else if bool_decide (error_class ∈ permanent_classes) then Ok FAIL_PERMANENT
  else if bool_decide (error_class ∈ retryable_error_classes retry_policy) then
    if manual_retry || (max_attempts retry_policy <=? attempt_number)
    then Ok DECIDE_ATTENTION
    else Ok RETRY
  else Ok FAIL_PERMANENT.

(** ** Worker capabilities *)

(** The v1 resource vector, in the canonical key order of [RESOURCE_KEYS]. *)
Record resources : Type := {
  r_cpu : Z; r_device : Z; r_llm : Z; r_local_io : Z; r_network_io : Z; r_vlm : Z }.

#[export] Instance resources_eq_dec : EqDecision resources.
Proof. solve_decision. Defined.

Definition RESOURCE_KEYS : list string :=
  ["cpu"; "device"; "llm"; "local_io"; "network_io"; "vlm"].

Definition kind_value (k : RunnerKind) : string :=
  match k with
  | R_INTERNAL => "internal" | R_EXECUTOR => "executor" | R_WORKLOAD => "workload"
  end.

Record WorkerCapabilities : Type := {
  runner_bindings : list (RunnerKind * string);
  resource_limits : list (string * Z);
  effect_profiles : list DurableEffect }.

Definition binding_leb (a b : RunnerKind * string) : bool :=
  let ka := kind_value a.1 in let kb := kind_value b.1 in
  if str_eqb ka kb then str_leb a.2 b.2 else str_leb ka kb.

(** [tuple(sorted(l, key)) == l]: the stable sort is the identity exactly on
    lists whose neighbours are in order. *)
Fixpoint in_order {A} (leb : A -> A -> bool) (l : list A) : bool :=
  match l with
  | x :: ((y :: _) as rest) => leb x y && in_order leb rest
  | _ => true
  end.

(** [WorkerCapabilities.__post_init__]. *)
Definition capabilities_post_init (c : WorkerCapabilities)
  : result value_error WorkerCapabilities :=
  let n := Z.of_nat (length (runner_bindings c)) in
  if negb ((1 <=? n) && (n <=? 256)) then Err (ValueError "runner_bindings size")
  else if negb (in_order binding_leb (runner_bindings c))
  then Err (ValueError "runner_bindings must be sorted canonically")
  else if negb (bool_decide (NoDup (runner_bindings c)))
  then Err (ValueError "runner_bindings must not contain duplicates")
  else if negb (forallb (fun b => runner_re b.2) (runner_bindings c))
  then Err (ValueError "runner binding name is invalid")
  else if negb (in_order (fun a b => str_leb (effect_value a) (effect_value b))
                         (effect_profiles c))
          || bool_decide (effect_profiles c = [])
  then Err (ValueError "effect_profiles must be non-empty and canonical")
  else if negb (bool_decide (NoDup (effect_profiles c)))
  then Err (ValueError "effect_profiles must not contain duplicates")
  else if negb (bool_decide ((resource_limits c).*1 = RESOURCE_KEYS))
  then Err (ValueError "resource_limits must contain every v1 key canonically")
  else if negb (forallb (fun kv =>
            let maximum := if bool_decide (kv.1 ∈ ["llm"; "vlm"]) then 32 else 64 in
            (0 <=? kv.2) && (kv.2 <=? maximum)) (resource_limits c))
  then Err (ValueError "resource limit is outside the v1 bounds")
  else Ok c.

(** ** The lease handed to a worker *)

Record Lease : Type := {
  l_owner : string;
  l_workload : string;
  l_revision : string;
  l_stage : string;
  l_stage_key : string;
  l_unit : string;
  l_unit_key : string;
  l_attempt : string;
  l_attempt_number : Z;
  l_fence : Z;
  l_worker : string;
  l_expires : Z;
  l_runner_kind : RunnerKind;
  l_runner_name : string;
  l_effect : DurableEffect;
  l_output_schema : string;
  l_resources : resources;
  l_retry : RetryPolicy;
  l_timeout_s : Z;
  l_manual_retry : bool }.

#[export] Instance eta_Lease : Settable Lease := fun l =>
  Build_Lease (l_owner l) (l_workload l) (l_revision l) (l_stage l) (l_stage_key l) (l_unit l)
    (l_unit_key l) (l_attempt l) (l_attempt_number l) (l_fence l) (l_worker l) (l_expires l)
    (l_runner_kind l) (l_runner_name l) (l_effect l) (l_output_schema l) (l_resources l)
    (l_retry l) (l_timeout_s l) (l_manual_retry l).

#[export] Instance Lease_eq_dec : EqDecision Lease.
Proof. solve_decision. Defined.

(** [_SCHEMA_RE]: a name of 3..128 label characters, a slash, a positive
    decimal without leading zero. *)
Definition version_re (s : string) : bool :=
  match s with
  | EmptyString => false
  | String c rest =>
      (49 <=? byte_of c) && (byte_of c <=? 57) && forall_chars is_digit rest
  end.

Fixpoint schema_tail (count : Z) (s : string) : bool :=
  match s with
  | EmptyString => false
  | String c rest =>
      if byte_of c =? 47
      then (2 <=? count) && (count <=? 127) && version_re rest
      else label_char (byte_of c) && schema_tail (count + 1) rest
  end.

Definition schema_re (s : string) : bool :=
  match s with
  | EmptyString => false
  | String c rest => is_lower (byte_of c) && schema_tail 0 rest
  end.

(** [Lease.__post_init__]; the typed fields need no type test. *)
Definition lease_post_init (l : Lease) : result value_error Lease :=
  if negb (worker_re (l_worker l)) then Err (ValueError "worker_id")
  else if bool_decide (EmptyString ∈
      [l_owner l; l_workload l; l_revision l; l_stage l; l_stage_key l;
       l_unit l; l_unit_key l; l_attempt l; l_runner_name l])
  then Err (ValueError "lease identities must be non-empty strings")
  else if (l_attempt_number l <? 1) || (l_fence l <? 1)
  then Err (ValueError "lease attempt and fence must be positive")
  else if negb (schema_re (l_output_schema l))
  then Err (ValueError "lease output schema version is invalid")
  else if negb ((1 <=? l_timeout_s l) && (l_timeout_s l <=? 86400))
  then Err (ValueError "lease timeout_s must be an integer in 1..86400")
  else Ok l.

(** ** Lemmas *)

Lemma retry_nominal_bounds n b m :
  1 <= n -> 0 <= b <= m -> 0 <= retry_nominal n b m <= m.
Proof.
  intros Hn Hb. unfold retry_nominal.
  assert (0 < Z.shiftl 1 (Z.min (n - 1) 62)).
  { rewrite Z.shiftl_1_l. apply Z.pow_pos_nonneg; lia. }
  split; [apply Z.min_glb; nia | lia].
Qed.

Lemma retry_jitter_bounds k n span : 0 < span -> 0 <= retry_jitter k n span < span.
Proof. intros H. unfold retry_jitter. apply Z.mod_pos_bound. exact H. Qed.

Lemma same_keys_true kvs ks :
  same_keys kvs ks = true <-> (forall k, k ∈ kvs.*1 <-> k ∈ ks).
Proof.
  unfold same_keys. rewrite andb_true_iff, !forallb_forall. split.
  - intros [H1 H2] k. split.
    + intros ([k' v] & -> & Hin)%list_elem_of_fmap.
      apply list_elem_of_In in Hin. specialize (H1 _ Hin). by apply bool_decide_eq_true in H1.
    + intros Hin%list_elem_of_In. specialize (H2 _ Hin). by apply bool_decide_eq_true in H2.
  - intros H. split.
    + intros [k v] Hin%list_elem_of_In. apply bool_decide_eq_true, H.
      apply list_elem_of_fmap. by exists (k, v).
    + intros k Hin%list_elem_of_In. by apply bool_decide_eq_true, H.
Qed.

(** The mapping a policy is stored as. *)
Definition policy_mapping (p : RetryPolicy) : json :=
  JObj [("max_attempts", JInt (max_attempts p));
        ("base_delay_ms", JInt (base_delay_ms p));
        ("max_delay_ms", JInt (max_delay_ms p));
        ("retryable_error_classes", JArr (map JStr (retryable_error_classes p)))].

Definition valid_policy (p : RetryPolicy) : Prop :=
  1 <= max_attempts p <= 32 /\
  0 <= base_delay_ms p <= max_delay_ms p /\ max_delay_ms p <= 86400000 /\
  (length (retryable_error_classes p) <= 32)%nat /\
  Forall (fun c => error_class_re c = true) (retryable_error_classes p) /\
  NoDup (retryable_error_classes p).

Lemma mapM_as_str l : mapM as_str (map JStr l) = Some l.
Proof. induction l as [|x l IH]; [done|]. simpl. by rewrite IH. Qed.

Lemma mapM_as_str_inv l l' : mapM as_str l = Some l' -> l = map JStr l'.
Proof.
  intros H%mapM_Some. induction H as [|x y l l' Hx _ IH]; [done|].
  destruct x; simplify_eq/=. reflexivity.
Qed.

Lemma mapM_as_str_length l l' : mapM as_str l = Some l' -> length l = length l'.
Proof. intros ->%mapM_as_str_inv. by rewrite length_map. Qed.

(** ** Properties *)

(** Every accepted policy is inside the v1 bounds, and every policy inside
    them is accepted from its own mapping: parsing is sound, and a round trip
    on the valid policies. *)
Theorem from_mapping_spec :
  (forall v p, from_mapping v = Ok p -> valid_policy p) /\
  (forall p, from_mapping (policy_mapping p) = Ok p <-> valid_policy p).
Proof.
  assert (Hsound : forall v p, from_mapping v = Ok p -> valid_policy p).
  { intros v p. unfold from_mapping.
    destruct v as [| | | | |kvs]; try done.
    repeat (case_match; try done).
    intros [= <-]. unfold valid_policy; simpl.
    repeat match goal with
      | H : negb _ = false |- _ => apply negb_false_iff in H
      | H : _ && _ = true |- _ => apply andb_true_iff in H as [? ?]
      | H : bool_decide _ = true |- _ => apply bool_decide_eq_true in H
      end.
    match goal with H : mapM as_str ?l = Some ?k |- _ => pose proof (mapM_as_str_length l k H) end.
    repeat split; try lia; [|done].
    apply Forall_forall. intros c Hc.
    match goal with H : forallb error_class_re _ = true |- _ =>
      rewrite forallb_forall in H; apply H; by apply list_elem_of_In end. }
  split; [exact Hsound|]. intros p. split; [apply Hsound|].
  intros (Ha & Hb & Hm & Hl & Hc & Hd). unfold from_mapping, policy_mapping.
  cbn [same_keys obj_get]. simpl.
  assert (forallb error_class_re (retryable_error_classes p) = true) as Hre.
  { apply forallb_forall. intros c Hin%list_elem_of_In. rewrite Forall_forall in Hc. auto. }
  rewrite mapM_as_str, Hre, length_map, (bool_decide_eq_true_2 _ Hd); simpl.
  repeat match goal with
    | |- context [?a <=? ?b] => replace (a <=? b) with true by (symmetry; apply Z.leb_le; lia)
    end; simpl.
  replace (32 <? Z.of_nat _) with false by (symmetry; apply Z.ltb_ge; lia).
  by destruct p.
Qed.

(** On admissible inputs the delay exists, lies between three quarters and the
    whole of the capped exponential delay, and never exceeds the policy's
    maximum; a zero base retries at once. *)
Theorem retry_delay_bounds (unit_key : string) (attempt base maximum : Z) :
  unit_key <> EmptyString -> 1 <= attempt -> 0 <= base <= maximum ->
  exists d,
    deterministic_retry_delay_ms unit_key attempt base maximum = Ok d /\
    0 <= d <= maximum /\
    retry_nominal attempt base maximum * 3 / 4 <= d <= retry_nominal attempt base maximum.
Proof.
  intros Hk Ha Hb. unfold deterministic_retry_delay_ms.
  replace (str_eqb unit_key EmptyString) with false
    by (symmetry; by apply bool_decide_eq_false).
  replace (attempt <? 1) with false by (symmetry; apply Z.ltb_ge; lia).
  replace (0 <=? base) with true by (symmetry; apply Z.leb_le; lia).
  replace (base <=? maximum) with true by (symmetry; apply Z.leb_le; lia).
  simpl. pose proof (retry_nominal_bounds attempt base maximum Ha Hb) as Hn.
  destruct ((base =? 0) || (maximum =? 0)) eqn:Hz.
  - exists 0. split; [done|].
    assert (retry_nominal attempt base maximum = 0) as ->.
    { apply orb_true_iff in Hz as [->%Z.eqb_eq | ->%Z.eqb_eq]; [|lia].
      unfold retry_nominal. rewrite Z.mul_0_l. lia. }
    change (0 * 3 / 4) with 0. lia.
  - set (nom := retry_nominal attempt base maximum) in *.
    pose proof (retry_jitter_bounds unit_key attempt (nom - nom * 3 / 4 + 1)) as Hj.
    assert (nom * 3 / 4 <= nom) by (apply Z.div_le_upper_bound; lia).
    assert (0 <= nom * 3 / 4) by (apply Z.div_pos; lia).
    eexists. split; [reflexivity|]. lia.
Qed.

Example retry_delay_bounds_witness :
  exists d, deterministic_retry_delay_ms "unit-0001" 3 1000 60000 = Ok d /\
            0 <= d <= 60000 /\
            retry_nominal 3 1000 60000 * 3 / 4 <= d <= retry_nominal 3 1000 60000.
Proof. apply (retry_delay_bounds "unit-0001" 3 1000 60000); [done | lia | lia]. Defined.

(** An automatic retry is granted in exactly one situation: a well-formed,
    declared-retryable error class that is neither an attention nor a permanent
    class, on a pure or idempotent stage, in an automatic attempt below the
    frozen attempt budget. *)
Lemma decide_retry_grants (effect : DurableEffect) (policy : RetryPolicy)
    (attempt : Z) (error_class : string) (manual : bool) :
  decide_retry effect policy attempt error_class manual = Ok RETRY <->
  error_class_re error_class = true /\
  error_class ∉ attention_classes /\ error_class ∉ permanent_classes /\
  (effect = PURE \/ effect = IDEMPOTENT) /\
  error_class ∈ retryable_error_classes policy /\
  manual = false /\ attempt < max_attempts policy.
Proof.
  unfold decide_retry.
  destruct (error_class_re error_class); simpl; [|split; [done | by intros [? _]]].
  repeat case_bool_decide; try (split; [done | tauto]).
  - split; [done|]. intros (_ & _ & _ & [-> | ->] & _); set_solver.
  - destruct manual; simpl; [split; [done | naive_solver]|].
    destruct (max_attempts policy <=? attempt) eqn:Hle; (split; [|]); try done.
    + apply Z.leb_le in Hle. intros (_ & _ & _ & _ & _ & _ & ?). lia.
    + apply Z.leb_gt in Hle. intros _.
      repeat split; try done. destruct effect; try (by left); try (by right); set_solver.
Qed.
