(* ===== verification/DurableResults.v ===== *)
(** * Results, attempt errors and domain outcomes

    The value types a worker hands to the store: [ValidatedResult] and
    [StructuredAttemptError] of
    src/runtime/durable_workloads/coordinator.py, and the digest-bound domain
    facts of src/runtime/durable_workloads/domain_outcome.py. *)
From Stdlib Require Import Strings.String.
From S2P Require Import Prelude.
From S2P Require Import PyJson.
From S2P Require Import Instants.
From S2P Require Import DurableModels.
From S2P Require Import DurableRetry.
Local Open Scope Z_scope.

(** ** Domain outcomes *)

Definition MAX_DOMAIN_ERRORS : Z := 1000000.
Definition MAX_DOMAIN_ERROR_CODES : Z := 20.
Definition MAX_RESULT_JSON_BYTES : Z := 8388608.
Definition MAX_ERROR_JSON_BYTES : Z := 65536.

(** [_CODE] and [_ERROR_CODE_RE]. *)
Definition code_re (s : string) : bool :=
  match s with
  | EmptyString => false
  | String c rest =>
      is_lower (byte_of c) && forall_chars label_char rest
      && (2 <=? byte_len rest) && (byte_len rest <=? 95)
  end.

Definition completion_outcome (payload : list (string * json))
  : result schema_error (option string) :=
  match obj_get "completion_outcome" payload with
  | None => Ok None
  | Some (JStr v) =>
      if bool_decide (v ∈ ["no_changes"; "changes_applied"]) then Ok (Some v)
      else Err (SchemaValidationError "completion_outcome is invalid")
  | Some _ => Err (SchemaValidationError "completion_outcome is invalid")
  end.

Definition valid_count (kv : string * json) : bool :=
  code_re kv.1 && match kv.2 with
                  | JInt n => (1 <=? n) && (n <=? MAX_DOMAIN_ERRORS)
                  | _ => false
                  end.

Definition json_int (v : json) : Z := match v with JInt z => z | _ => 0 end.

Definition count_sum (counts : list (string * json)) : Z :=
  fold_right (fun kv acc => json_int kv.2 + acc) 0 counts.

(** The validated error counts; [None] is an absent field. *)
Definition domain_outcome (payload : list (string * json))
  : result schema_error (option (list (string * json))) :=
  match obj_get "domain_outcome" payload with
  | None => Ok None
  | Some (JObj value) =>
      match same_keys value ["version"; "error_counts"], obj_get "version" value,
            obj_get "error_counts" value with
      | true, Some (JInt 1), Some (JObj counts) =>
          if (MAX_DOMAIN_ERROR_CODES <? Z.of_nat (length counts))
             || negb (forallb valid_count counts) || (MAX_DOMAIN_ERRORS <? count_sum counts)
          then Err (SchemaValidationError "domain_outcome has invalid error counts")
          else Ok (Some counts)
      | true, Some (JInt 1), _ =>
          Err (SchemaValidationError "domain_outcome has invalid error counts")
      | _, _, _ => Err (SchemaValidationError "domain_outcome has an invalid version or shape")
      end
  | Some _ => Err (SchemaValidationError "domain_outcome has an invalid version or shape")
  end.

Definition domain_terminal_detail (payload : list (string * json))
  : result schema_error (option (list (string * json))) :=
  outcome ← domain_outcome payload;
  completion ← completion_outcome payload;
  let facts := match outcome with
               | Some ((_ :: _) as counts) =>
                   [("domain_outcome", JObj [("version", JInt 1); ("error_counts", JObj counts)])]
               | _ => []
               end in
  let detail := facts ++ match completion with
                         | Some v => [("completion_outcome", JStr v)]
                         | None => []
                         end in
  match detail with
  | [] => Ok None
  | _ =>
      let value := ("schema_version", JStr "metnos.durable-unit-terminal/1") :: detail in
      canonical_json (JObj value) 65536 ≫= fun _ => Ok (Some value)
  end.

(** ** Validated results *)

Record ValidatedResult : Type := mkValidatedResult {
  vr_schema : string; vr_payload : list (string * json); vr_digest : string }.

(** [_canonical_result]: the canonical text and the domain-separated digest. *)
Definition canonical_result (schema_version : string) (payload : list (string * json))
  : result schema_error (string * string) :=
  if negb (schema_re schema_version)
  then Err (SchemaValidationError "result schema_version is invalid")
  else
    text ← canonical_json (JObj payload) MAX_RESULT_JSON_BYTES;
    digest ← digest_json "durable-result"
      (JObj [("schema_version", JStr schema_version); ("payload", JObj payload)])
      MAX_RESULT_JSON_BYTES;
    Ok (text, digest).

(** [ValidatedResult.__post_init__]. *)
Definition validated_result_post_init (v : ValidatedResult)
  : result schema_error ValidatedResult :=
  domain_outcome (vr_payload v) ≫= fun _ =>
  completion_outcome (vr_payload v) ≫= fun _ =>
  rebuilt ← canonical_result (vr_schema v) (vr_payload v);
  if str_eqb rebuilt.2 (vr_digest v) then Ok v
  else Err (SchemaValidationError "validated result is not canonical or digest-bound").

Definition from_payload (schema_version : string) (payload : list (string * json))
  : result schema_error ValidatedResult :=
  canonical ← canonical_result schema_version payload;
  validated_result_post_init (mkValidatedResult schema_version payload canonical.2).

(** ** Structured attempt errors *)

Definition ERROR_SCHEMA_VERSION : string := "metnos.durable-error/1".

Definition ERROR_CLASSES : list string :=
  ["invalid_plan"; "inventory_unstable"; "source_missing"; "executor_transient";
   "executor_permanent"; "executor_unknown"; "contract_violation"; "budget_exhausted";
   "lease_lost"; "publication_ambiguous"; "capability_unavailable"; "cancelled"].

Definition ERROR_RETRY_MODES : list string := ["automatic"; "reconcile"; "manual"; "never"].

Definition upper_label (z : Z) : bool := is_upper z || is_digit z || (z =? 95).

Definition message_key_re (s : string) : bool :=
  match s with
  | EmptyString => false
  | String c rest =>
      is_upper (byte_of c) && forall_chars upper_label rest
      && (2 <=? byte_len rest) && (byte_len rest <=? 95)
  end.

Record StructuredAttemptError : Type := mkStructuredError {
  se_class : string; se_payload : list (string * json) }.

Definition error_fields : list string :=
  ["schema_version"; "error_class"; "code"; "message_key"; "retry"; "scope";
   "details_redacted"; "occurred_at"].

Definition str_field (k : string) (p : string -> bool) (payload : list (string * json)) : bool :=
  match obj_get k payload with Some (JStr s) => p s | _ => false end.

(** [StructuredAttemptError.__post_init__]. *)
Definition structured_error_post_init (e : StructuredAttemptError)
  : result schema_error StructuredAttemptError :=
  let payload := se_payload e in
  if negb (error_class_re (se_class e))
  then Err (SchemaValidationError "error_class is invalid")
  else if negb (same_keys payload error_fields)
       || negb (str_field "schema_version" (fun s => str_eqb s ERROR_SCHEMA_VERSION) payload)
       || negb (str_field "error_class" (fun s => str_eqb s (se_class e)) payload)
       || negb (bool_decide (se_class e ∈ ERROR_CLASSES))
       || negb (str_field "code" code_re payload)
       || negb (str_field "message_key" message_key_re payload)
       || negb (str_field "retry" (fun s => bool_decide (s ∈ ERROR_RETRY_MODES)) payload)
       || negb (str_field "scope" (fun s => str_eqb s "attempt") payload)
       || negb match obj_get "details_redacted" payload with
               | Some (JObj details) => Z.of_nat (length details) <=? 32
               | _ => false
               end
  then Err (SchemaValidationError "structured error is not canonical or class-bound")
  else
    canonical_json (JObj payload) MAX_ERROR_JSON_BYTES ≫= fun _ =>
    if str_field "occurred_at" (fun s => bool_decide (is_Some (parse_instant s))) payload
    then Ok e else Err (SchemaValidationError "occurred_at is not a valid timestamp").

Definition structured_error_create (error_class code message_key retry : string)
    (occurred_at : Z) (details : list (string * json))
  : result schema_error StructuredAttemptError :=
  if negb (bool_decide (error_class ∈ ERROR_CLASSES))
  then Err (SchemaValidationError "error_class is outside the frozen vocabulary")
  else if negb (code_re code) then Err (SchemaValidationError "error code is invalid")
  else if negb (message_key_re message_key)
  then Err (SchemaValidationError "error message_key is invalid")
  else if negb (bool_decide (retry ∈ ERROR_RETRY_MODES))
  then Err (SchemaValidationError "error retry mode is invalid")
  else if 32 <? Z.of_nat (length details)
  then Err (SchemaValidationError "details_redacted must be a bounded object")
  else structured_error_post_init (mkStructuredError error_class
    [("schema_version", JStr ERROR_SCHEMA_VERSION); ("error_class", JStr error_class);
     ("code", JStr code); ("message_key", JStr message_key); ("retry", JStr retry);
     ("scope", JStr "attempt"); ("details_redacted", JObj details);
     ("occurred_at", JStr (instant_text occurred_at))]).
