(* ===== verification/DurablePlans.v ===== *)
(** * Validation of durable plans

    src/runtime/durable_workloads/schema.py, lines 28-71 and 146-618: the
    closed patterns, the checks of objects, integers, strings and arrays, the
    validation of a plan with its stages, and the search for cycles in the
    graph of the stages.  A plan is a JSON value; what the code raises is a
    value of [plan_error].  The texts of the errors name the part that is
    wrong, without the indices the code adds. *)
From Stdlib Require Import Strings.Ascii Strings.String.
From S2P Require Import Prelude.
From S2P Require Import PyJson.
From S2P Require Import DurableModels.
From S2P Require Import DurableRetry.
Local Open Scope Z_scope.

(** ** Errors *)

(** [TypeError] is the test of a list or an object for membership in a set,
    [RecursionError] the end of the fuel of the search, [AssertionError] an
    [assert] of the inventory's set of identifiers. *)
Inductive plan_error : Type :=
| Invalid (e : schema_error)
| TypeError (what : string)
| RecursionError
| AssertionError.

Definition invalid {A} (what : string) : result plan_error A :=
  Err (Invalid (SchemaValidationError what)).

(** [if b: raise SchemaValidationError(what)]. *)
Definition reject_if (b : bool) (what : string) : result plan_error unit :=
  if b then invalid what else Ok tt.

Definition of_schema_result {A} (r : result schema_error A) : result plan_error A :=
  match r with Ok a => Ok a | Err e => Err (Invalid e) end.

(** ** Vocabularies (models.py) *)

Inductive StageType : Type := S_INVENTORY | S_MAP | S_REDUCE | S_VALIDATE | S_PUBLISH.

#[export] Instance StageType_eq_dec : EqDecision StageType.
Proof. solve_decision. Defined.

Definition stage_type_value (t : StageType) : string :=
  match t with
  | S_INVENTORY => "inventory" | S_MAP => "map" | S_REDUCE => "reduce"
  | S_VALIDATE => "validate" | S_PUBLISH => "publish"
  end.

(** [StageType(value)], [RunnerKind(value)], [DurableEffect(value)]: the
    member with this value; anything else raises. *)
Definition member_of {T} (all : list T) (value_of : T -> string) (v : json) : option T :=
  match v with
  | JStr s => List.find (fun t => str_eqb (value_of t) s) all
  | _ => None
  end.

Definition stage_type_of : json -> option StageType :=
  member_of [S_INVENTORY; S_MAP; S_REDUCE; S_VALIDATE; S_PUBLISH] stage_type_value.
Definition runner_kind_of : json -> option RunnerKind :=
  member_of [R_INTERNAL; R_EXECUTOR; R_WORKLOAD] kind_value.
Definition effect_of : json -> option DurableEffect :=
  member_of [PURE; IDEMPOTENT; RECONCILABLE; MANUAL_ONLY] effect_value.

Definition known {A} (o : option A) (what : string) : result plan_error A :=
  match o with Some a => Ok a | None => invalid what end.

(** ** Constants *)

Definition PLAN_SCHEMA_VERSION : string := "metnos.durable-plan/1".

Definition label_re (low high : Z) (s : string) : bool :=
  match s with
  | EmptyString => false
  | String c rest =>
      is_lower (byte_of c) && forall_chars label_char rest
      && (low <=? byte_len rest) && (byte_len rest <=? high)
  end.

(** [_KEY_RE] and [_PLAN_ID_RE]; [_ERROR_CLASS_RE], [_RUNNER_RE] and
    [_SCHEMA_REF_RE] are [error_class_re], [runner_re] and [schema_re] of
    DurableRetry, the same patterns. *)
Definition key_re : string -> bool := label_re 0 63.
Definition plan_id_re : string -> bool := label_re 2 63.

(** [[a-z][a-z0-9_]{0,63}], the names of bindings. *)
Definition name_char (z : Z) : bool := is_lower z || is_digit z || (z =? 95).
Definition name_re (s : string) : bool :=
  match s with
  | EmptyString => false
  | String c rest =>
      is_lower (byte_of c) && forall_chars name_char rest && (byte_len rest <=? 63)
  end.

(** [[A-Za-z0-9_.-]+]. *)
Definition field_re (s : string) : bool :=
  negb (str_eqb s EmptyString)
  && forall_chars (fun z => is_upper z || label_char z) s.

(** One side of [_MIME_RE], and the whole: neither class holds the slash. *)
Definition mime_char (z : Z) : bool :=
  is_lower z || is_digit z || (z =? 46) || (z =? 43) || (z =? 45).
Fixpoint mime_tail (some : bool) (s : string) : bool :=
  match s with
  | EmptyString => false
  | String c rest =>
      if byte_of c =? 47
      then some && negb (str_eqb rest EmptyString) && forall_chars mime_char rest
      else mime_char (byte_of c) && mime_tail true rest
  end.
Definition mime_re : string -> bool := mime_tail false.

(** [_ARTIFACT_SCHEMA_RE]: the prefix, a label and a version. *)
Fixpoint artifact_tail (some : bool) (s : string) : bool :=
  match s with
  | EmptyString => false
  | String c rest =>
      if byte_of c =? 47 then some && version_re rest
      else label_char (byte_of c) && artifact_tail true rest
  end.
Definition artifact_schema_re (s : string) : bool :=
  String.prefix "metnos." s
  && artifact_tail false (String.substring 7 (String.length s - 7) s).

Definition INTERNAL_RUNNERS : list string :=
  ["committed_entries"; "sealed_inventory"; "schema_and_coverage_validator";
   "artifact_store_publish"].
Definition REFERENCE_KINDS : list string :=
  ["literal"; "revision.inventory"; "source.path"; "source.record";
   "dependency.result"; "dependency.entries"].
Definition INVALIDATION_KEYS : list string :=
  ["source.digest"; "dependencies.digest"; "runner.contract_digest";
   "semantic_args.digest"; "model_binding.digest"; "prompt.digest";
   "reduction.order"; "reduction.fan_in"].

(** ** Checks of one value *)

(** [d[k]] for a key that [_object] has required. *)
Definition field (k : string) (kvs : list (string * json)) : json :=
  default JNull (obj_get k kvs).

Definition has_key (k : string) (kvs : list (string * json)) : bool :=
  bool_decide (k ∈ kvs.*1).

(** [d.get(k) is not None]. *)
Definition given (k : string) (kvs : list (string * json)) : bool :=
  match obj_get k kvs with None | Some JNull => false | Some _ => true end.

Definition object_ (value : json) (context : string) (required allowed : list string)
  : result plan_error (list (string * json)) :=
  match value with
  | JObj kvs =>
      reject_if (negb (forallb (fun k => has_key k kvs) required))
        (context +:+ " misses fields") ;;
      reject_if (negb (forallb (fun k => bool_decide (k ∈ allowed)) kvs.*1))
        (context +:+ " has unknown fields") ;;
      Ok kvs
  | _ => invalid (context +:+ " must be an object")
  end.

Definition within (z minimum : Z) (maximum : option Z) : bool :=
  (minimum <=? z) && match maximum with Some m => z <=? m | None => true end.

Definition integer_ (value : json) (context : string) (minimum : Z) (maximum : option Z)
  : result plan_error Z :=
  match value with
  | JInt z =>
      reject_if (negb (within z minimum maximum)) (context +:+ " is out of range") ;;
      Ok z
  | _ => invalid (context +:+ " must be an integer")
  end.

Definition string_ (value : json) (context : string) (minimum maximum : Z)
  : result plan_error string :=
  match value with
  | JStr s =>
      reject_if (negb ((minimum <=? py_len s) && (py_len s <=? maximum)))
        (context +:+ " must be a bounded string") ;;
      Ok s
  | _ => invalid (context +:+ " must be a bounded string")
  end.

Definition array_ (value : json) (context : string) : result plan_error (list json) :=
  match value with
  | JArr l => Ok l
  | _ => invalid (context +:+ " must be an array")
  end.

Definition closed_string (context : string) (item : json) : result plan_error string :=
  text ← string_ item context 1 96;
  reject_if (negb (key_re text)) (context +:+ " is not a closed key") ;;
  Ok text.

Definition closed_strings (value : json) (context : string) (maximum : Z)
  : result plan_error (list string) :=
  l ← array_ value context;
  reject_if (maximum <? Z.of_nat (length l)) (context +:+ " exceeds its limit") ;;
  items ← mapM (closed_string context) l;
  reject_if (negb (bool_decide (NoDup items))) (context +:+ " contains duplicates") ;;
  Ok items.

(** [value in {...}] of a set of strings: Python hashes the value first. *)
Definition in_set (value : json) (set : list string) : result plan_error bool :=
  match value with
  | JStr s => Ok (bool_decide (s ∈ set))
  | JArr _ | JObj _ => Err (TypeError "unhashable type")
  | _ => Ok false
  end.

(** [value is True], [value is False]. *)
Definition is_bool (value : json) (b : bool) : bool :=
  match value with JBool b' => Bool.eqb b' b | _ => false end.
Definition is_boolean (value : json) : bool :=
  match value with JBool _ => true | _ => false end.

(** [value == text]. *)
Definition is_text (value : json) (text : string) : bool :=
  json_is_str (Some value) text.

(** ** The inventory contract *)

Definition inventory_fields : list string :=
  ["mode"; "dynamic"; "max_sources"; "max_total_bytes"; "max_depth";
   "symlink_policy"; "unstable_policy"; "missing_policy"].

Definition validate_inventory_contract (value : json) : result plan_error unit :=
  contract ← object_ value "plan.inventory" inventory_fields inventory_fields;
  reject_if (negb (is_text (field "mode" contract) "sealed")
             || negb (is_bool (field "dynamic" contract) false))
    "v1 inventory must be sealed and non-dynamic" ;;
  integer_ (field "max_sources" contract) "inventory.max_sources" 0 (Some 1000000) ;;
  integer_ (field "max_total_bytes" contract) "inventory.max_total_bytes" 0 None ;;
  integer_ (field "max_depth" contract) "inventory.max_depth" 0 (Some 128) ;;
  reject_if (negb (is_text (field "symlink_policy" contract) "ignore"))
    "v1 symlink_policy must be ignore" ;;
  reject_if (negb (is_text (field "unstable_policy" contract) "reject"))
    "v1 unstable_policy must be reject" ;;
  reject_if (negb (is_text (field "missing_policy" contract) "needs_attention"))
    "v1 missing_policy must be needs_attention".

(** ** One stage *)

Definition stage_fields : list string :=
  ["key"; "type"; "depends_on"; "runner"; "effect_profile"; "cardinality";
   "input_bindings"; "output_schema"; "retry"; "timeout_s"; "invalidation_keys";
   "resources"; "required"].

(** The runner of a stage: its kind and name. *)
Definition validate_runner (value : json) : result plan_error (RunnerKind * string) :=
  runner ← object_ value "stage.runner" ["kind"; "name"] ["kind"; "name"];
  kind ← known (runner_kind_of (field "kind" runner)) "stage.runner.kind is unknown";
  name ← string_ (field "name" runner) "stage.runner.name" 1 96;
  reject_if (negb (runner_re name)) "stage.runner.name is invalid" ;;
  reject_if (bool_decide (kind = R_INTERNAL)
             && negb (bool_decide (name ∈ INTERNAL_RUNNERS)))
    "stage.runner.name is not a v1 internal runner" ;;
  Ok (kind, name).

(** The identity field of a per-dependency stage. *)
Definition validate_entry_identity (cardinality : list (string * json))
  : result plan_error unit :=
  if given "entry_identity_field" cardinality then
    reject_if (negb (is_text (field "mode" cardinality) "per_dependency"))
      "entry_identity_field requires per_dependency" ;;
    identity_name ← string_ (field "entry_identity_field" cardinality)
      "stage.cardinality.entry_identity_field" 1 64;
    reject_if (negb (name_re identity_name)) "entry_identity_field is invalid"
  else Ok tt.

(** The three fields of a hierarchical reduction, together or not at all. *)
Definition validate_reduction (stage_type : StageType) (cardinality : list (string * json))
  : result plan_error unit :=
  let reduction_fields := ["fan_in"; "reduction_input"; "max_input_bytes"] in
  if existsb (fun k => given k cardinality) reduction_fields then
    reject_if (existsb (fun k => negb (given k cardinality)) reduction_fields)
      "cardinality requires fan_in, reduction_input and max_input_bytes together" ;;
    reject_if (negb (bool_decide (stage_type = S_REDUCE))
               || negb (is_text (field "mode" cardinality) "singleton"))
      "hierarchical reduction requires a singleton reduce stage" ;;
    integer_ (field "fan_in" cardinality) "stage.cardinality.fan_in" 2 (Some 1024) ;;
    reduction_input ← string_ (field "reduction_input" cardinality)
      "stage.cardinality.reduction_input" 1 64;
    reject_if (negb (name_re reduction_input)) "reduction_input is invalid" ;;
    integer_ (field "max_input_bytes" cardinality) "stage.cardinality.max_input_bytes"
      1024 (Some 16777216) ;;
    Ok tt
  else Ok tt.

Definition validate_cardinality (stage_type : StageType) (value : json)
  : result plan_error (list (string * json)) :=
  cardinality ← object_ value "stage.cardinality" ["mode"; "max_units"]
    ["mode"; "max_units"; "entry_identity_field"; "fan_in"; "reduction_input";
     "max_input_bytes"];
  known_mode ← in_set (field "mode" cardinality)
    ["singleton"; "per_source"; "per_dependency"];
  reject_if (negb known_mode) "stage.cardinality.mode is unknown" ;;
  integer_ (field "max_units" cardinality) "stage.cardinality.max_units" 1 (Some 10000000) ;;
  validate_entry_identity cardinality ;;
  validate_reduction stage_type cardinality ;;
  Ok cardinality.

(** [dependency_stage in dependencies], of any value. *)
Definition is_one_of (value : option json) (dependencies : list string) : bool :=
  existsb (fun d => json_is_str value d) dependencies.

Definition validate_reference (dependencies : list string) (raw_reference : json)
  : result plan_error unit :=
  reference ← object_ raw_reference "stage.input_bindings" ["ref"]
    ["ref"; "stage"; "field"; "value"];
  let ref := field "ref" reference in
  known_ref ← in_set ref REFERENCE_KINDS;
  reject_if (negb known_ref) "reference is unknown" ;;
  (if is_text ref "literal" then
     reject_if (negb (has_key "value" reference)) "value is required for a literal" ;;
     reject_if (has_key "stage" reference || has_key "field" reference)
       "literal cannot use stage or field" ;;
     of_schema_result (canonical_json (field "value" reference) MAX_PLAN_JSON_BYTES) ;;
     Ok tt
   else if has_key "value" reference then invalid "value is only valid for a literal"
   else if String.prefix "dependency." (py_str ref) then
     reject_if (negb (is_one_of (obj_get "stage" reference) dependencies))
       "stage must be a direct dependency"
   else reject_if (has_key "stage" reference) "stage is only valid for dependencies") ;;
  if has_key "field" reference then
    field_name ← string_ (field "field" reference) "reference.field" 1 128;
    reject_if (negb (field_re field_name)) "reference.field is invalid"
  else Ok tt.

Definition validate_binding (dependencies : list string) (binding : string * json)
  : result plan_error unit :=
  reject_if (negb (name_re binding.1)) "stage.input_bindings has an invalid key" ;;
  validate_reference dependencies binding.2.

(** The binding of a reduction reads the entries of the only dependency. *)
Definition reduction_bound (dependencies : list string) (reference : option json) : bool :=
  match dependencies, reference with
  | [dependency], Some (JObj kvs) =>
      json_is_str (obj_get "ref" kvs) "dependency.entries"
      && json_is_str (obj_get "stage" kvs) dependency
      && negb (given "field" kvs)
  | _, _ => false
  end.

Definition validate_bindings (dependencies : list string) (cardinality : list (string * json))
    (value : json) : result plan_error unit :=
  match value with
  | JObj bindings =>
      reject_if (64 <? Z.of_nat (length bindings))
        "stage.input_bindings must be a bounded object" ;;
      mapM (validate_binding dependencies) bindings ;;
      reject_if
        (given "reduction_input" cardinality
         && negb (reduction_bound dependencies
                    (obj_get (py_str (field "reduction_input" cardinality)) bindings)))
        "reduction_input must bind the entries of the stage's sole dependency"
  | _ => invalid "stage.input_bindings must be a bounded object"
  end.

Definition validate_output_schema (value : json) : result plan_error unit :=
  output_schema ← object_ value "stage.output_schema" ["schema_version"; "name"]
    ["schema_version"; "name"];
  reject_if (negb (is_text (field "schema_version" output_schema)
                     "metnos.output-schema-ref/1"))
    "output_schema has an incompatible version" ;;
  reject_if (match field "name" output_schema with
             | JStr name => negb (schema_re name)
             | _ => true
             end) "output_schema.name is invalid".

Definition validate_retry (effect : DurableEffect) (value : json) : result plan_error unit :=
  retry ← object_ value "stage.retry" retry_keys retry_keys;
  attempts ← integer_ (field "max_attempts" retry) "retry.max_attempts" 1 (Some 32);
  base_delay ← integer_ (field "base_delay_ms" retry) "retry.base_delay_ms" 0 (Some 86400000);
  max_delay ← integer_ (field "max_delay_ms" retry) "retry.max_delay_ms" 0 (Some 86400000);
  reject_if (max_delay <? base_delay) "retry base delay exceeds maximum" ;;
  retryable_errors ← closed_strings (field "retryable_error_classes" retry)
    "retry.retryable_error_classes" 32;
  reject_if (negb (forallb error_class_re retryable_errors))
    "retry.retryable_error_classes contains an invalid class" ;;
  reject_if (bool_decide (effect = MANUAL_ONLY) && negb (attempts =? 1))
    "manual_only cannot retry automatically".

Definition resource_cap (name : string) : Z :=
  if bool_decide (name ∈ ["llm"; "vlm"]) then 32 else 64.

Definition validate_resources (value : json) : result plan_error unit :=
  resources ← object_ value "stage.resources" RESOURCE_KEYS RESOURCE_KEYS;
  mapM (fun kv => integer_ kv.2 "stage.resources" 0 (Some (resource_cap kv.1))) resources ;;
  Ok tt.

Definition validate_placement (item : list (string * json)) : result plan_error unit :=
  if has_key "placement" item then
    placement ← object_ (field "placement" item) "stage.placement" ["target"]
      ["target"; "device"];
    if is_text (field "target" placement) "server" then
      reject_if (has_key "device" placement) "placement.device is invalid for server"
    else if is_text (field "target" placement) "device" then
      device ← string_ (field "device" placement) "stage.placement.device" 1 128;
      reject_if (has_nul device) "placement.device contains NUL"
    else invalid "stage.placement.target is unknown"
  else Ok tt.

(** What the type of a stage demands of the rest of it. *)
Definition validate_role (stage_type : StageType) (dependencies : list string)
    (kind : RunnerKind) (name : string) (effect : DurableEffect)
    (cardinality : list (string * json)) : result plan_error unit :=
  (if bool_decide (stage_type = S_INVENTORY) then
     reject_if (negb (bool_decide (dependencies = []))
                || negb (bool_decide (kind = R_INTERNAL))
                || negb (str_eqb name "sealed_inventory"))
       "inventory stage must be a root sealed_inventory runner" ;;
     reject_if (negb (is_text (field "mode" cardinality) "singleton"))
       "inventory stage cardinality must be singleton"
   else Ok tt) ;;
  if bool_decide (stage_type = S_PUBLISH) && bool_decide (kind = R_INTERNAL) then
    reject_if (negb (str_eqb name "artifact_store_publish"))
      "internal publish must use artifact_store_publish" ;;
    reject_if (negb (bool_decide (effect = IDEMPOTENT)))
      "internal artifact publication must be idempotent"
  else Ok tt.

Definition validate_stage (stage : json) : result plan_error (list (string * json)) :=
  item ← object_ stage "stage" stage_fields ("placement" :: stage_fields);
  key ← string_ (field "key" item) "stage.key" 1 64;
  reject_if (negb (key_re key)) "stage.key is not a closed key" ;;
  stage_type ← known (stage_type_of (field "type" item)) "stage.type is unknown";
  dependencies ← closed_strings (field "depends_on" item) "stage.depends_on" 32;
  reject_if (bool_decide (key ∈ dependencies)) "stage cannot depend on itself" ;;
  runner ← validate_runner (field "runner" item);
  effect ← known (effect_of (field "effect_profile" item)) "effect_profile is unknown";
  cardinality ← validate_cardinality stage_type (field "cardinality" item);
  validate_bindings dependencies cardinality (field "input_bindings" item) ;;
  validate_output_schema (field "output_schema" item) ;;
  validate_retry effect (field "retry" item) ;;
  integer_ (field "timeout_s" item) "stage.timeout_s" 1 (Some 86400) ;;
  invalidation ← closed_strings (field "invalidation_keys" item) "stage.invalidation_keys" 16;
  reject_if (bool_decide (invalidation = [])
             || negb (forallb (fun k => bool_decide (k ∈ INVALIDATION_KEYS)) invalidation))
    "stage.invalidation_keys contains an unknown key" ;;
  validate_resources (field "resources" item) ;;
  reject_if (negb (is_boolean (field "required" item))) "stage.required must be boolean" ;;
  validate_placement item ;;
  validate_role stage_type dependencies runner.1 runner.2 effect cardinality ;;
  Ok item.

(** ** The graph of the stages *)

(** [str(stage["key"])] and [tuple(stage["depends_on"])]. *)
Definition stage_key (stage : list (string * json)) : string := py_str (field "key" stage).
Definition stage_deps (stage : list (string * json)) : list string :=
  match field "depends_on" stage with JArr l => omap as_str l | _ => [] end.

Definition graph : Type := list (string * list string).

(** [graph[k] = v] of a dict, and [graph[k]]. *)
Fixpoint graph_set (k : string) (ds : list string) (g : graph) : graph :=
  match g with
  | [] => [(k, ds)]
  | (k', ds') :: rest =>
      if str_eqb k k' then (k', ds) :: rest else (k', ds') :: graph_set k ds rest
  end.

Fixpoint graph_get (g : graph) (k : string) : list string :=
  match g with
  | [] => []
  | (k', ds) :: rest => if str_eqb k k' then ds else graph_get rest k
  end.

Definition stage_graph (stages : list (list (string * json))) : graph :=
  fold_left (fun g st => graph_set (stage_key st) (stage_deps st) g) stages [].

(** The two sets of the search: on the path to here, and done. *)
Record Visit : Type := mkVisit { visiting : gset string; visited : gset string }.

Fixpoint visit (fuel : nat) (g : graph) (node : string) (v : Visit) : result plan_error Visit :=
  match fuel with
  | O => Err RecursionError
  | S n =>
      if bool_decide (node ∈ visiting v) then invalid "stage graph contains a cycle"
      else if bool_decide (node ∈ visited v) then Ok v
      else
        v' ← foldl (fun acc dependency => acc ≫= visit n g dependency)
               (Ok (mkVisit ({[node]} ∪ visiting v) (visited v))) (graph_get g node);
        Ok (mkVisit (visiting v' ∖ {[node]}) ({[node]} ∪ visited v'))
  end.

(** The path holds different stages, so it is no longer than their number. *)
Definition assert_acyclic (stages : list (list (string * json))) : result plan_error unit :=
  let g := stage_graph stages in
  reject_if (negb (forallb (fun kv => forallb (fun d => bool_decide (d ∈ g.*1)) kv.2) g))
    "stage depends on unknown stages" ;;
  foldl (fun acc name => acc ≫= visit (S (length g)) g name) (Ok (mkVisit ∅ ∅)) g.*1 ;;
  Ok tt.

(** ** The plan *)

Definition plan_fields : list string :=
  ["schema_version"; "plan_id"; "objective_redacted"; "inventory";
   "terminal_criteria"; "error_policy"; "budgets"; "stages"; "required_artifacts"].

Definition validate_terminal (value : json) : result plan_error unit :=
  let criteria :=
    ["require_inventory_sealed"; "require_usage_complete"; "reject_unaccepted_truncation"] in
  terminal ← object_ value "plan.terminal_criteria" criteria criteria;
  reject_if (existsb (fun kv => negb (is_bool kv.2 true)) terminal)
    "all v1 terminal criteria must be enabled".

Definition validate_error_policy (value : json) : result plan_error unit :=
  error_policy ← object_ value "plan.error_policy" ["mode"; "allowed_error_classes"]
    ["mode"; "allowed_error_classes"];
  known_mode ← in_set (field "mode" error_policy) ["strict"; "declared"];
  reject_if (negb known_mode) "plan.error_policy.mode is unknown" ;;
  allowed_errors ← closed_strings (field "allowed_error_classes" error_policy)
    "plan.error_policy.allowed_error_classes" 32;
  reject_if (negb (forallb error_class_re allowed_errors))
    "plan.error_policy.allowed_error_classes contains an invalid class" ;;
  reject_if (is_text (field "mode" error_policy) "strict"
             && negb (bool_decide (allowed_errors = [])))
    "strict error policy cannot allow error classes" ;;
  reject_if (is_text (field "mode" error_policy) "declared"
             && bool_decide (allowed_errors = []))
    "declared error policy needs at least one class".

Definition budget_keys : list string :=
  ["max_units"; "max_attempts_per_unit"; "max_wall_time_s"; "max_bytes_read";
   "max_bytes_written"; "max_tokens"; "max_cost_micros"; "max_artifacts";
   "max_concurrency"].

Definition MAX_INT64 : Z := 9223372036854775807.

Definition validate_budgets (value : json) : result plan_error (list (string * json)) :=
  budgets ← object_ value "plan.budgets" budget_keys budget_keys;
  integer_ (field "max_units" budgets) "plan.budgets.max_units" 1 (Some 10000000) ;;
  integer_ (field "max_attempts_per_unit" budgets) "plan.budgets.max_attempts_per_unit"
    1 (Some 32) ;;
  integer_ (field "max_wall_time_s" budgets) "plan.budgets.max_wall_time_s"
    1 (Some 2592000) ;;
  mapM (fun name => integer_ (field name budgets) "plan.budgets" 0 (Some MAX_INT64))
    ["max_bytes_read"; "max_bytes_written"; "max_tokens"; "max_cost_micros"] ;;
  integer_ (field "max_artifacts" budgets) "plan.budgets.max_artifacts" 0 (Some 1024) ;;
  integer_ (field "max_concurrency" budgets) "plan.budgets.max_concurrency" 1 (Some 256) ;;
  Ok budgets.

(** [int(value)] of a field that has passed [integer_]. *)
Definition int_field (k : string) (kvs : list (string * json)) : Z :=
  match field k kvs with JInt z => z | _ => 0 end.

Definition obj_field (k : string) (kvs : list (string * json)) : list (string * json) :=
  match field k kvs with JObj o => o | _ => [] end.

Definition stage_max_units (stage : list (string * json)) : Z :=
  int_field "max_units" (obj_field "cardinality" stage).
Definition stage_max_attempts (stage : list (string * json)) : Z :=
  int_field "max_attempts" (obj_field "retry" stage).

Definition artifact_fields : list string :=
  ["name"; "mime_type"; "schema_version"; "publication"].

Definition matches (re : string -> bool) (value : json) : bool :=
  match value with JStr s => re s | _ => false end.

Definition validate_artifact (raw_artifact : json) : result plan_error string :=
  artifact ← object_ raw_artifact "plan.required_artifacts" artifact_fields artifact_fields;
  name ← string_ (field "name" artifact) "artifact.name" 1 64;
  reject_if (negb (key_re name)) "artifact.name is invalid" ;;
  reject_if (negb (matches mime_re (field "mime_type" artifact)))
    "artifact.mime_type is invalid" ;;
  reject_if (negb (matches artifact_schema_re (field "schema_version" artifact)))
    "artifact.schema_version is invalid" ;;
  reject_if (negb (is_text (field "publication" artifact) "internal_store"))
    "v1 permits only internal_store publication" ;;
  Ok name.

Definition validate_artifacts (budgets : list (string * json)) (value : json)
  : result plan_error unit :=
  artifacts ← array_ value "plan.required_artifacts";
  reject_if (32 <? Z.of_nat (length artifacts))
    "plan.required_artifacts must be a bounded array" ;;
  artifact_names ← mapM validate_artifact artifacts;
  reject_if (negb (bool_decide (NoDup artifact_names)))
    "required artifact names must be unique" ;;
  reject_if (int_field "max_artifacts" budgets <? Z.of_nat (length artifact_names))
    "required artifacts exceed max_artifacts".

Definition sum_list (l : list Z) : Z := foldr Z.add 0 l.

(** The stages of a plan against each other and against the budgets. *)
Definition validate_stages (budgets : list (string * json)) (value : json)
  : result plan_error (list (list (string * json))) :=
  raw_stages ← array_ value "plan.stages";
  reject_if (negb ((1 <=? Z.of_nat (length raw_stages)) && (Z.of_nat (length raw_stages) <=? 64)))
    "plan.stages must contain 1..64 stages" ;;
  stages ← mapM validate_stage raw_stages;
  reject_if (negb (bool_decide (NoDup (map stage_key stages))))
    "plan stage keys must be unique" ;;
  reject_if (negb (sum_list (map (fun st =>
               if is_text (field "type" st) (stage_type_value S_INVENTORY) then 1 else 0)
               stages) =? 1))
    "plan v1 requires exactly one inventory stage" ;;
  assert_acyclic stages ;;
  reject_if (int_field "max_units" budgets <? sum_list (map stage_max_units stages))
    "sum of stage max_units exceeds plan.budgets.max_units" ;;
  reject_if (existsb (fun st => int_field "max_attempts_per_unit" budgets
                                <? stage_max_attempts st) stages)
    "a stage retry limit exceeds plan.budgets.max_attempts_per_unit" ;;
  Ok stages.

Definition validate_plan (value : json) : result plan_error string :=
  plan ← object_ value "plan" plan_fields plan_fields;
  reject_if (negb (is_text (field "schema_version" plan) PLAN_SCHEMA_VERSION))
    "unsupported durable plan schema_version" ;;
  plan_id ← string_ (field "plan_id" plan) "plan.plan_id" 1 64;
  reject_if (negb (plan_id_re plan_id)) "plan.plan_id is invalid" ;;
  string_ (field "objective_redacted" plan) "plan.objective_redacted" 1 2048 ;;
  validate_inventory_contract (field "inventory" plan) ;;
  validate_terminal (field "terminal_criteria" plan) ;;
  validate_error_policy (field "error_policy" plan) ;;
  budgets ← validate_budgets (field "budgets" plan);
  validate_stages budgets (field "stages" plan) ;;
  validate_artifacts budgets (field "required_artifacts" plan) ;;
  of_schema_result (canonical_json (JObj plan) MAX_PLAN_JSON_BYTES).

Definition plan_digest (value : json) : result plan_error string :=
  validate_plan value ;;
  of_schema_result (digest_json "durable-plan" value MAX_PLAN_JSON_BYTES).
