(* ===== verification/DurableInventory.v ===== *)
(** * Sealed inventories

    src/runtime/durable_workloads/schema.py, lines 78-119 and 623-812: the
    exact uniqueness check that spills to a table ([BoundedUniqueValues]), the
    digest of an inventory, and [validate_inventory], which checks the sources
    one after the other while it hashes them and writes the canonical text of
    the whole inventory into a buffer it drops when the text grows too long. *)
From Stdlib Require Import Strings.Ascii Strings.String.
From S2P Require Import Prelude.
From S2P Require Import Sha256.
From S2P Require Import PyJson.
From S2P Require Import DurablePlans.
Local Open Scope Z_scope.

(** ** Exact uniqueness with bounded memory *)

(** The set in memory and the table of the temporary database: after the
    spill the first is [None]. *)
Record BoundedUniqueValues : Type := mkUnique {
  memory : option (gset string); connection : option (gset string) }.

Definition MEMORY_LIMIT : nat := 4096.

Definition no_values : BoundedUniqueValues := mkUnique (Some ∅) None.

(** [add]: whether the value is new. *)
Definition add_value (limit : nat) (b : BoundedUniqueValues) (value : string)
  : result plan_error (bool * BoundedUniqueValues) :=
  match memory b with
  | Some m =>
      if bool_decide (value ∈ m) then Ok (false, b)
      else
        let m' := {[value]} ∪ m in
        if (size m' <=? limit)%nat then Ok (true, mkUnique (Some m') (connection b))
        else Ok (true, mkUnique None (Some m'))
  | None =>
      match connection b with
      | None => Err AssertionError
      | Some table =>
          if bool_decide (value ∈ table) then Ok (false, b)
          else Ok (true, mkUnique None (Some ({[value]} ∪ table)))
      end
  end.

(** ** Digest *)

Definition INVENTORY_SCHEMA_VERSION : string := "metnos.durable-inventory/1".
Definition MAX_INVENTORY_JSON_BYTES : Z := 16777216.

Definition hex_char (z : Z) : bool := is_digit z || ((97 <=? z) && (z <=? 102)).

(** [_DIGEST_RE]. *)
Definition digest_re (s : string) : bool :=
  String.prefix "sha256:" s
  && forall_chars hex_char (String.substring 7 (String.length s - 7) s)
  && (byte_len s =? 71).

(** A hasher is the bytes it was given. *)
Definition inventory_hasher : string := "metnos:durable-inventory:1" +:+ String (chr 0) "[".

Definition hasher_digest (bytes : string) : string :=
  "sha256:" +:+ hexdigest (sha256 (string_bytes bytes)).

Definition inventory_source_json (source : json) : result plan_error string :=
  of_schema_result (canonical_json source MAX_INVENTORY_JSON_BYTES).

(** A comma before every element but the first. *)
Definition comma_before (index : Z) (text : string) : string :=
  if index =? 0 then text else String "," text.

Fixpoint hash_sources (sources : list json) (index : Z) (hasher : string)
  : result plan_error string :=
  match sources with
  | [] => Ok hasher
  | source :: rest =>
      text ← inventory_source_json source;
      hash_sources rest (index + 1) (hasher +:+ comma_before index text)
  end.

Definition inventory_digest (sources : list json) : result plan_error string :=
  hasher ← hash_sources sources 0 inventory_hasher;
  Ok (hasher_digest (hasher +:+ "]")).

(** ** Validation *)

(** [json.dumps(text, ensure_ascii=False)]. *)
Definition inline_prefix (declared_digest : string) : string :=
  "{" +:+ quoted "digest" +:+ ":" +:+ quoted declared_digest
  +:+ "," +:+ quoted "schema_version" +:+ ":" +:+ quoted INVENTORY_SCHEMA_VERSION
  +:+ "," +:+ quoted "sealed" +:+ ":true," +:+ quoted "sources" +:+ ":[".

Inductive SourceState : Type := SRC_READY | SRC_UNSTABLE | SRC_MISSING | SRC_SKIPPED.

Definition source_state_value (s : SourceState) : string :=
  match s with
  | SRC_READY => "ready" | SRC_UNSTABLE => "unstable"
  | SRC_MISSING => "missing" | SRC_SKIPPED => "skipped"
  end.

Definition source_state_of : json -> option SourceState :=
  member_of [SRC_READY; SRC_UNSTABLE; SRC_MISSING; SRC_SKIPPED] source_state_value.

Definition source_fields : list string :=
  ["source_id"; "ordinal"; "device_id"; "locator_redacted"; "kind"; "size_bytes";
   "mtime_ns"; "content_digest"; "state"; "accounted"].

(** [value == index]: the booleans are integers. *)
Definition equals_int (value : json) (index : Z) : bool :=
  match value with
  | JInt z => z =? index
  | JBool b => Z.b2z b =? index
  | _ => false
  end.

(** What the loop over the sources carries. *)
Record Stream : Type := mkStream {
  source_ids : BoundedUniqueValues;
  inline_buffer : option string;
  inline_bytes : Z;
  hasher : string }.

(** The checks of one source; its identifier enters the set. *)
Definition validate_source (index : Z) (ids : BoundedUniqueValues) (raw_source : json)
  : result plan_error BoundedUniqueValues :=
  source ← object_ raw_source "inventory.sources" source_fields source_fields;
  source_id ← string_ (field "source_id" source) "source.source_id" 8 160;
  added ← add_value MEMORY_LIMIT ids source_id;
  reject_if (negb added.1) "inventory source_id values must be unique" ;;
  reject_if (negb (equals_int (field "ordinal" source) index))
    "inventory ordinals must be contiguous from zero" ;;
  string_ (field "device_id" source) "source.device_id" 1 128 ;;
  string_ (field "locator_redacted" source) "source.locator_redacted" 1 1024 ;;
  string_ (field "kind" source) "source.kind" 1 64 ;;
  integer_ (field "size_bytes" source) "source.size_bytes" 0 None ;;
  integer_ (field "mtime_ns" source) "source.mtime_ns" 0 None ;;
  reject_if (negb (matches digest_re (field "content_digest" source)))
    "source.content_digest is invalid" ;;
  known (source_state_of (field "state" source)) "source.state is unknown" ;;
  reject_if (negb (is_boolean (field "accounted" source))) "source.accounted must be boolean" ;;
  Ok added.2.

(** The text of one source goes to the hasher and, while there is room, to
    the buffer. *)
Definition write_source (index : Z) (st : Stream) (ids : BoundedUniqueValues) (text : string)
  : Stream :=
  let separator_bytes := Z.b2z (0 <? index) in
  let fits := inline_bytes st + separator_bytes + byte_len text <=? MAX_INVENTORY_JSON_BYTES in
  match inline_buffer st with
  | Some buffer =>
      if fits
      then mkStream ids (Some (buffer +:+ comma_before index text))
             (inline_bytes st + (separator_bytes + byte_len text))
             (hasher st +:+ comma_before index text)
      else mkStream ids None (inline_bytes st) (hasher st +:+ comma_before index text)
  | None => mkStream ids None (inline_bytes st) (hasher st +:+ comma_before index text)
  end.

Fixpoint stream_sources (sources : list json) (index : Z) (st : Stream)
  : result plan_error Stream :=
  match sources with
  | [] => Ok st
  | raw_source :: rest =>
      ids ← validate_source index (source_ids st) raw_source;
      source_json ← inventory_source_json raw_source;
      stream_sources rest (index + 1) (write_source index st ids source_json)
  end.

Definition envelope_fields : list string := ["schema_version"; "sealed"; "digest"; "sources"].

(** [retain_inline]: the sources are a list or a tuple, and not a view the
    caller reads from a disk. *)
Definition validate_inventory (retain_inline : bool) (value : json)
  : result plan_error (option string * list json) :=
  inventory ← object_ value "inventory" envelope_fields envelope_fields;
  reject_if (negb (is_text (field "schema_version" inventory) INVENTORY_SCHEMA_VERSION))
    "unsupported inventory schema_version" ;;
  reject_if (negb (is_bool (field "sealed" inventory) true)) "inventory must be sealed" ;;
  sources ← array_ (field "sources" inventory) "inventory.sources";
  reject_if (1000000 <? Z.of_nat (length sources)) "inventory.sources exceeds the v1 limit" ;;
  reject_if (negb (matches digest_re (field "digest" inventory))) "inventory.digest is invalid" ;;
  let declared_digest := py_str (field "digest" inventory) in
  let prefix := inline_prefix declared_digest in
  st ← stream_sources sources 0
    (mkStream no_values (if retain_inline then Some prefix else None)
       (byte_len prefix + 2) inventory_hasher);
  reject_if (negb (str_eqb declared_digest (hasher_digest (hasher st +:+ "]"))))
    "inventory digest does not match canonical sources" ;;
  Ok ((fun buffer => buffer +:+ "]}") <$> inline_buffer st, sources).
