(* ===== verification/DurableTables.v ===== *)
(** * Tables of the durable-workload database

    The schema of src/runtime/durable_workloads/migrations.py, as far as the
    modelled operations of storage.py read or write it: a record per row, a
    finite map per table keyed by its primary key, the error values the store
    raises and the primitives its SQL statements are made of.  JSON columns
    hold the parsed value, instants are microseconds (Instants.v relates them
    to the stored text). *)
From S2P Require Import Prelude.
From S2P Require Import PyJson.
From S2P Require Import Instants.
From S2P Require Import DurableModels.
From S2P Require Import DurableRetry.
Local Open Scope Z_scope.

(** ** What the store takes from its host

    Successive readings of the wall clock and of [uuid.uuid4], and SQLite's
    [julianday(a) > julianday(b) + 5/86400.0] on two stored instants and
    [(julianday(now) - julianday(start)) * 86400 >= bound].  Every operation
    is run under an arbitrary host. *)
Class Host := {
  host_clock : nat -> Z;
  host_uuid : nat -> string;
  julian_after : Z -> Z -> bool;
  julian_reached : Z -> Z -> Z -> bool }.

(** ** Errors *)

Inductive store_error : Type :=
| OwnerRequiredError
| PyValueError (what : string)
| PyKeyError (what : string)
| WorkloadNotFoundError
| VersionConflictError
| IdempotencyConflictError
| IdentifierConflictError
| InvalidTransitionError (what : string)
| ReservedCompletionTransitionError
| ResultContractError (what : string)
| RetryDecisionConflictError
| BudgetExceededError (violation : list (string * json))
| RevisionNotFoundError
| PyTypeError (what : string)
| PyOverflowError (what : string)
| PyRuntimeError (what : string)
| ModelUsageContractError (what : string)
| DurableStoreError (what : string)
| StoreSchemaError (what : string)
| IntegrityError (what : string).

(** ** Rows *)

Abbreviation object := (list (string * json)) (only parsing).

Record Workload : Type := mkWorkload {
  w_request_key : string;
  w_request_digest : string;
  w_redacted_request : object;
  w_state : WorkloadState;
  w_priority : string;
  w_budget : object;
  w_active_revision : option string;
  w_version : Z;
  w_next_event : Z;
  w_created : Z;
  w_updated : Z;
  w_terminal_reason : option object }.

Record Revision : Type := mkRevision {
  r_workload : string;
  r_plan : object;
  r_catalog : object;
  r_usage_complete : bool;
  r_failure_policy : string;
  r_tolerated : list string;
  r_manual_generation : Z;
  r_sealed : bool;
  r_inventory_digest : option string;
  r_expected_sources : Z;
  r_caps_truncated : bool;
  r_partial_accepted : bool;
  r_required_artifacts : list object;
  r_number : Z;
  r_plan_digest : string;
  r_policy : object;
  r_inventory : option string;
  r_created : Z;
  r_admitted : option Z }.

Record Usage : Type := mkUsage {
  us_input_bytes : Z;
  us_output_bytes : Z;
  us_input_tokens : Z;
  us_output_tokens : Z;
  us_cost_micros : Z;
  us_unknown : bool;
  us_artifacts : Z;
  us_started : option Z;
  us_clock_high_water : option Z;
  us_updated : Z }.

Record Stage : Type := mkStage {
  s_revision : string;
  s_key : string;
  s_runner_kind : RunnerKind;
  s_runner_name : string;
  s_effect : DurableEffect;
  s_output_schema : object;
  s_retry : json;
  s_timeout_s : Z;
  s_resources : resources;
  s_reduction_fan_in : option Z;
  s_type : string;
  s_cardinality : string;
  s_required : bool;
  s_position : Z;
  s_max_units : Z;
  s_input_bindings : object;
  s_invalidation_keys : list string;
  s_invalidation_digest : string;
  s_reduction_input : option string;
  s_reduction_max_bytes : option Z;
  s_created : Z }.

Record Source : Type := mkSource {
  src_revision : string; src_state : string; src_accounted : bool;
  src_source_id : string; src_ordinal : Z; src_device : string; src_locator : string;
  src_kind : string; src_size_bytes : Z; src_mtime_ns : Z; src_digest : string;
  src_created : Z; src_updated : Z }.

Record Unit : Type := mkUnit {
  u_revision : string;
  u_stage : string;
  u_key : string;
  u_state : UnitState;
  u_attempt_count : Z;
  u_expected_deps : Z;
  u_next_attempt : option Z;
  u_worker : option string;
  u_active_attempt : option string;
  u_fence : Z;
  u_expires : option Z;
  u_result : option string;
  u_error : option string;
  u_partial : bool;
  u_detail : option object;
  u_created : Z;
  u_updated : Z;
  u_tokens : Z;
  u_generation : Z;
  u_level : option Z;
  u_source : option string;
  u_shard : option string;
  u_ordinal : option Z;
  u_root : bool }.

Record Attempt : Type := mkAttempt {
  a_unit : string;
  a_number : Z;
  a_fence : Z;
  a_worker : string;
  a_state : AttemptState;
  a_started : Z;
  a_ended : option Z;
  a_error : option object;
  a_executor : object;
  a_model : object;
  a_metrics : object;
  a_device : option string;
  a_invocation : option string }.

Record Result : Type := mkResult {
  res_revision : string;
  res_unit : string;
  res_attempt : string;
  res_fence : Z;
  res_digest : string;
  res_schema : string;
  res_payload : object;
  res_provenance : object;
  res_committed : Z }.

Record Event : Type := mkEvent {
  ev_type : EventType;
  ev_payload : object;
  ev_created : Z }.

Record Outbox : Type := mkOutbox {
  o_workload : string;
  o_event : Z;
  o_channel : string;
  o_recipient : string;
  o_state : OutboxState;
  o_attempts : Z;
  o_next_attempt : option Z;
  o_worker : option string;
  o_expires : option Z;
  o_fence : Z;
  o_ack : option object;
  o_coalesce : option string;
  o_created : Z;
  o_updated : Z }.

Record Credit : Type := mkCredit {
  c_deficit : Z; c_last_selected_seq : Z; c_quota : Z; c_updated : Z }.

(** What a caller gets back about a workload ([_row_to_workload]). *)
Record WorkloadRecord : Type := mkWorkloadRecord {
  wr_owner : string;
  wr_workload : string;
  wr_request_key : string;
  wr_state : WorkloadState;
  wr_priority : string;
  wr_active_revision : option string;
  wr_version : Z;
  wr_created : Z;
  wr_updated : Z;
  wr_terminal_reason : option object }.

Record Command : Type := mkCommand {
  cmd_command : string;
  cmd_digest : string;
  cmd_result : WorkloadRecord;
  cmd_created : Z }.

Record Resolution : Type := mkResolution {
  at_decision : string; at_note : option string; at_created : Z }.

Record Artifact : Type := mkArtifact {
  art_workload : string; art_revision : string; art_name : string; art_state : string;
  art_digest_verified : bool; art_schema_valid : bool; art_postconditions_valid : bool;
  art_schema_version : string; art_mime_type : string }.

Record Publication : Type := mkPublication {
  pub_artifact : string; pub_state : string }.

Record Materialization : Type := mkMaterialization {
  mat_completed : bool; mat_attention_code : option string;
  mat_source_ordinal : Z; mat_parent_position : Z; mat_parent_unit : option string;
  mat_entry_offset : Z; mat_unit_count : Z; mat_updated : Z; mat_legacy : bool;
  mat_level : Z; mat_ordinal : Z; mat_waiting : bool; mat_input_count : Z }.

(** The immutable execution target of a stage. *)
Record Placement : Type := mkPlacement {
  pl_revision : string; pl_target : string; pl_device : option string }.

Record UnitDependency : Type := mkUnitDependency {
  ud_ordinal : Z; ud_role : string; ud_offset : option Z; ud_length : option Z }.

Record Dependency : Type := mkDependency { dep_ordinal : Z }.

#[export] Instance eta_Workload : Settable Workload := fun w =>
  mkWorkload (w_request_key w) (w_request_digest w) (w_redacted_request w)
    (w_state w) (w_priority w) (w_budget w) (w_active_revision w) (w_version w)
    (w_next_event w) (w_created w) (w_updated w) (w_terminal_reason w).
#[export] Instance eta_Revision : Settable Revision := fun r =>
  mkRevision (r_workload r) (r_plan r) (r_catalog r) (r_usage_complete r)
    (r_failure_policy r) (r_tolerated r) (r_manual_generation r) (r_sealed r)
    (r_inventory_digest r) (r_expected_sources r) (r_caps_truncated r)
    (r_partial_accepted r) (r_required_artifacts r) (r_number r) (r_plan_digest r)
    (r_policy r) (r_inventory r) (r_created r) (r_admitted r).
#[export] Instance eta_Usage : Settable Usage := fun u =>
  mkUsage (us_input_bytes u) (us_output_bytes u) (us_input_tokens u)
    (us_output_tokens u) (us_cost_micros u) (us_unknown u) (us_artifacts u)
    (us_started u) (us_clock_high_water u) (us_updated u).
#[export] Instance eta_Unit : Settable Unit := fun u =>
  mkUnit (u_revision u) (u_stage u) (u_key u) (u_state u) (u_attempt_count u)
    (u_expected_deps u) (u_next_attempt u) (u_worker u) (u_active_attempt u)
    (u_fence u) (u_expires u) (u_result u) (u_error u) (u_partial u) (u_detail u)
    (u_created u) (u_updated u) (u_tokens u) (u_generation u) (u_level u) (u_source u)
    (u_shard u) (u_ordinal u) (u_root u).
#[export] Instance eta_Materialization : Settable Materialization := fun m =>
  mkMaterialization (mat_completed m) (mat_attention_code m) (mat_source_ordinal m)
    (mat_parent_position m) (mat_parent_unit m) (mat_entry_offset m) (mat_unit_count m)
    (mat_updated m) (mat_legacy m) (mat_level m) (mat_ordinal m) (mat_waiting m)
    (mat_input_count m).
#[export] Instance eta_Attempt : Settable Attempt := fun a =>
  mkAttempt (a_unit a) (a_number a) (a_fence a) (a_worker a) (a_state a)
    (a_started a) (a_ended a) (a_error a) (a_executor a) (a_model a) (a_metrics a)
    (a_device a) (a_invocation a).
#[export] Instance eta_Outbox : Settable Outbox := fun o =>
  mkOutbox (o_workload o) (o_event o) (o_channel o) (o_recipient o) (o_state o)
    (o_attempts o) (o_next_attempt o) (o_worker o) (o_expires o) (o_fence o)
    (o_ack o) (o_coalesce o) (o_created o) (o_updated o).
#[export] Instance eta_Credit : Settable Credit := fun c =>
  mkCredit (c_deficit c) (c_last_selected_seq c) (c_quota c) (c_updated c).

(** ** The database *)

Abbreviation key2 := (string * string)%type.
Abbreviation key3 := (string * string * string)%type.

Record Store : Type := mkStore {
  workloads : gmap key2 Workload;
  revisions : gmap key2 Revision;
  usages : gmap key2 Usage;
  stages : gmap key2 Stage;
  units : gmap key2 Unit;
  attempts : gmap key2 Attempt;
  results : gmap key2 Result;
  events : gmap (string * string * Z) Event;
  outbox : gmap key2 Outbox;
  credits : gmap key2 Credit;
  commands : gmap key3 Command;
  resolutions : gmap key3 Resolution;
  artifacts : gmap key2 Artifact;
  publications : gmap key2 Publication;
  materializations : gmap key3 Materialization;
  stage_dependencies : gmap (key3 * string) Z;
  unit_dependencies : gmap (key3 * string) UnitDependency;
  dependencies : gmap (key3 * string * string) Dependency;
  sources : gmap key2 Source;
  placements : gmap key2 Placement;
  ticks : nat }.

#[export] Instance eta_Store : Settable Store := fun s =>
  mkStore (workloads s) (revisions s) (usages s) (stages s) (units s) (attempts s)
    (results s) (events s) (outbox s) (credits s) (commands s) (resolutions s)
    (artifacts s) (publications s) (materializations s) (stage_dependencies s)
    (unit_dependencies s) (dependencies s) (sources s) (placements s) (ticks s).

Definition empty_store : Store :=
  mkStore ∅ ∅ ∅ ∅ ∅ ∅ ∅ ∅ ∅ ∅ ∅ ∅ ∅ ∅ ∅ ∅ ∅ ∅ ∅ ∅ O.

(** The transaction monad of the store: a raise is a [ROLLBACK]. *)
Definition db (A : Type) : Type := txn store_error Store A.

(** ** SQL primitives *)

(** [UPDATE t SET .. WHERE <primary key> AND ok]: the row count is 0 or 1. *)
Definition update_at `{Countable K} {R} (tbl : Store -> gmap K R) `{!Setter tbl}
    (k : K) (ok : R -> bool) (f : R -> R) : db bool := fun s =>
  match tbl s !! k with
  | Some row =>
      if ok row then Ok (true, set_field tbl (<[k := f row]>) s) else Ok (false, s)
  | None => Ok (false, s)
  end.

(** The statement followed by the [rowcount != 1] test and its exception. *)
Definition update_one `{Countable K} {R} (tbl : Store -> gmap K R) `{!Setter tbl}
    (k : K) (ok : R -> bool) (f : R -> R) (e : store_error) : db unit :=
  updated ← update_at tbl k ok f; check updated e.

(** [INSERT INTO t]: a taken primary key is an [IntegrityError]. *)
Definition insert_row `{Countable K} {R} (tbl : Store -> gmap K R) `{!Setter tbl}
    (k : K) (row : R) : db unit := fun s =>
  match tbl s !! k with
  | Some _ => Err (IntegrityError "UNIQUE constraint failed")
  | None => Ok (tt, set_field tbl (<[k := row]>) s)
  end.

(** [DELETE FROM t WHERE <primary key> AND ok]. *)
Definition delete_at `{Countable K} {R} (tbl : Store -> gmap K R) `{!Setter tbl}
    (k : K) (ok : R -> bool) : db unit := fun s =>
  match tbl s !! k with
  | Some row => if ok row then Ok (tt, set_field tbl (delete k) s) else Ok (tt, s)
  | None => Ok (tt, s)
  end.

(** [SELECT .. WHERE p ORDER BY le LIMIT n]. *)
Definition select_rows `{Countable K} {R} (tbl : gmap K R) (p : K -> R -> bool)
  : list (K * R) :=
  List.filter (fun kv => p kv.1 kv.2) (map_to_list tbl).

Definition order_of {A} (leb : A -> A -> bool) (x y : A) : Prop := leb x y = true.
#[export] Instance order_of_dec {A} (leb : A -> A -> bool) x y : Decision (order_of leb x y).
Proof. unfold order_of. apply _. Defined.

Definition order_by {A} (leb : A -> A -> bool) (l : list A) : list A :=
  merge_sort (order_of leb) l.

Definition limit {A} (n : Z) (l : list A) : list A := take (Z.to_nat n) l.

Definition count_rows `{Countable K} {R} (tbl : gmap K R) (p : K -> R -> bool) : Z :=
  Z.of_nat (length (select_rows tbl p)).

Definition exists_row `{Countable K} {R} (tbl : gmap K R) (p : K -> R -> bool) : bool :=
  match select_rows tbl p with [] => false | _ => true end.

(** Lexicographic [ORDER BY a, b]. *)
Definition then_by (c : comparison) (next : bool) : bool :=
  match c with Lt => true | Eq => next | Gt => false end.

Definition compare_str (a b : string) : comparison :=
  if str_eqb a b then Eq else if str_leb a b then Lt else Gt.

(** SQLite sorts NULL first. *)
Definition compare_opt (a b : option Z) : comparison :=
  match a, b with
  | None, None => Eq
  | None, Some _ => Lt
  | Some _, None => Gt
  | Some x, Some y => x ?= y
  end.

(** Comparisons with NULL are not true. *)
Definition sql_le (a : option Z) (b : Z) : bool :=
  match a with Some x => x <=? b | None => false end.
Definition sql_eq (a : option string) (b : string) : bool :=
  match a with Some x => str_eqb x b | None => false end.

(** Readings of the host. *)
Definition utc_now `{Host} : db Z := fun s =>
  Ok (host_clock (ticks s), set_field ticks S s).

Definition new_id `{Host} (prefix : string) : db string := fun s =>
  Ok (prefix +:+ "_" +:+ host_uuid (ticks s), set_field ticks S s).

Definition of_value {A} (r : result value_error A) : db A :=
  lift_result (match r with
               | Ok a => Ok a
               | Err (ValueError what) => Err (PyValueError what)
               end).

Definition of_schema {A} (r : result schema_error A) : db A :=
  lift_result (match r with
               | Ok a => Ok a
               | Err (SchemaValidationError what) => Err (StoreSchemaError what)
               end).

(** ** Lemmas on the primitives *)

Section Primitives.
Context `{Countable K} {R : Type} (tbl : Store -> gmap K R) `{!Setter tbl}.

Lemma update_at_inv k ok f s b s' :
  update_at tbl k ok f s = Ok (b, s') ->
  (b = false /\ s' = s) \/
  exists row, tbl s !! k = Some row /\ ok row = true /\ b = true /\
              s' = set_field tbl (<[k := f row]>) s.
Proof.
  unfold update_at. destruct (tbl s !! k) as [row|]; [|intros [= <- <-]; by left].
  destruct (ok row) eqn:Hok; intros [= <- <-]; [right | by left]. eauto.
Qed.

Lemma update_one_inv k ok f e s a s' :
  update_one tbl k ok f e s = Ok (a, s') ->
  exists row, tbl s !! k = Some row /\ ok row = true /\
              s' = set_field tbl (<[k := f row]>) s.
Proof.
  unfold update_one, mbind, txn_bind.
  destruct (update_at tbl k ok f s) as [[b s1]|] eqn:Hu; [|done].
  apply update_at_inv in Hu as [[-> ->]|(row & ? & ? & -> & ->)]; unfold check; [done|].
  intros [= <- <-]. eauto.
Qed.

Lemma insert_row_inv k row s a s' :
  insert_row tbl k row s = Ok (a, s') ->
  tbl s !! k = None /\ s' = set_field tbl (<[k := row]>) s.
Proof. unfold insert_row. destruct (tbl s !! k); [done|]. by intros [= <- <-]. Qed.

Lemma delete_at_inv k ok s a s' :
  delete_at tbl k ok s = Ok (a, s') ->
  s' = s \/ exists row, tbl s !! k = Some row /\ ok row = true /\
                       s' = set_field tbl (delete k) s.
Proof.
  unfold delete_at. destruct (tbl s !! k) as [row|]; [|intros [= <- <-]; by left].
  destruct (ok row) eqn:Hok; intros [= <- <-]; [right | by left]. eauto.
Qed.

Lemma guar_delete_at (R' : relation Store) `{!Reflexive R'} k ok :
  (forall s row, tbl s !! k = Some row -> ok row = true ->
                 R' s (set_field tbl (delete k) s)) ->
  guar R' (delete_at tbl k ok).
Proof. intros HR s b s' [->|(row & ? & ? & ->)]%delete_at_inv; eauto. Qed.

Lemma guar_update_at (R' : relation Store) `{!Reflexive R'} k ok f :
  (forall s row, tbl s !! k = Some row -> ok row = true ->
                 R' s (set_field tbl (<[k := f row]>) s)) ->
  guar R' (update_at tbl k ok f).
Proof. intros HR s b s' [[_ ->]|(row & ? & ? & _ & ->)]%update_at_inv; eauto. Qed.

Lemma guar_update_one (R' : relation Store) k ok f e :
  (forall s row, tbl s !! k = Some row -> ok row = true ->
                 R' s (set_field tbl (<[k := f row]>) s)) ->
  guar R' (update_one tbl k ok f e).
Proof. intros HR s b s' (row & ? & ? & ->)%update_one_inv; eauto. Qed.

Lemma guar_insert_row (R' : relation Store) k row :
  (forall s, tbl s !! k = None -> R' s (set_field tbl (<[k := row]>) s)) ->
  guar R' (insert_row tbl k row).
Proof. intros HR s a s' [? ->]%insert_row_inv; eauto. Qed.
End Primitives.

Lemma guar_utc_now `{Host} (R : relation Store) :
  (forall s, R s (set_field ticks S s)) -> guar R utc_now.
Proof. intros HR s a s' [= <- <-]. apply HR. Qed.

Lemma guar_new_id `{Host} (R : relation Store) prefix :
  (forall s, R s (set_field ticks S s)) -> guar R (new_id prefix).
Proof. intros HR s a s' [= <- <-]. apply HR. Qed.

Lemma guar_of_value {A} (R : relation Store) `{!Reflexive R} (r : result value_error A) :
  guar R (of_value r).
Proof. apply guar_lift_result, _. Qed.

Lemma guar_of_schema {A} (R : relation Store) `{!Reflexive R} (r : result schema_error A) :
  guar R (of_schema r).
Proof. apply guar_lift_result, _. Qed.

#[export] Hint Resolve guar_of_value guar_of_schema : guar.

Lemma elem_of_select_rows `{Countable K} {R} (tbl : gmap K R) p k r :
  (k, r) ∈ select_rows tbl p <-> tbl !! k = Some r /\ p k r = true.
Proof.
  unfold select_rows. rewrite list_elem_of_In, List.filter_In, <- list_elem_of_In.
  by rewrite elem_of_map_to_list.
Qed.

Lemma elem_of_order_by {A} leb (l : list A) x : x ∈ order_by leb l <-> x ∈ l.
Proof. unfold order_by. by rewrite merge_sort_Permutation. Qed.

Lemma elem_of_limit {A} n (l : list A) x : x ∈ limit n l -> x ∈ l.
Proof. unfold limit. intros (i & Hi & _)%elem_of_take. by eapply list_elem_of_lookup_2. Qed.
