(* ===== verification/DurableOutbox.v ===== *)
(** * Events and the notification outbox

    The append-only event log and the leased outbox of
    src/runtime/durable_workloads/storage.py: argument validation,
    [append_event_in_transaction], the three enqueue operations, and the life
    of a delivery row (claim, start, confirm, release, cancel, prune). *)
From Stdlib Require Import Strings.String.
From S2P Require Import Prelude.
From S2P Require Import PyJson.
From S2P Require Import Instants.
From S2P Require Import DurableModels.
From S2P Require Import DurableRetry.
From S2P Require Import DurableTables.
Local Open Scope Z_scope.

(** ** Argument validation *)

Definition MAX_OUTBOX_LEASE_SECONDS : Z := 300.

Definition require_owner (owner : string) : db unit :=
  if str_eqb owner EmptyString || (160 <? py_len owner) || negb (stripped owner) || has_nul owner
  then raise OwnerRequiredError else mret tt.

Definition require_key (value name : string) (maximum : Z) : db string :=
  if negb ((1 <=? py_len value) && (py_len value <=? maximum)) || has_nul value
  then raise (PyValueError name)
  else if negb (stripped value) then raise (PyValueError name)
  else mret value.

Definition require_version (value : Z) : db Z :=
  if value <? 1 then raise (PyValueError "expected_version") else mret value.

Definition require_limit (value maximum : Z) : db Z :=
  if negb ((1 <=? value) && (value <=? maximum)) then raise (PyValueError "limit")
  else mret value.

Definition id_char (z : Z) : bool :=
  is_upper z || is_lower z || is_digit z || (z =? 95) || (z =? 45).

(** [_ID_RE] and [_chosen_id]. *)
Definition id_re (s : string) : bool :=
  forall_chars id_char s && (8 <=? byte_len s) && (byte_len s <=? 128).

Definition chosen_id `{Host} (value : option string) (prefix : string) : db string :=
  identifier ← match value with None => new_id prefix | Some v => mret v end;
  if id_re identifier then mret identifier else raise (PyValueError prefix).

(** [_operation_now]: the caller's instant, or the clock. *)
Definition operation_now `{Host} (now : option Z) : db Z :=
  match now with Some t => mret t | None => utc_now end.

Definition validate_event_payload (payload : list (string * json)) : db (list (string * json)) :=
  check (Z.of_nat (length payload) <=? 64) (StoreSchemaError "event payload exceeds 64 fields") ;;
  of_schema (canonical_json (JObj payload) MAX_EVENT_JSON_BYTES) ;;
  mret payload.

(** ** The event log *)

Definition append_event `{Host} (owner workload_id : string) (event_type : EventType)
    (payload : list (string * json)) : db Z :=
  require_owner owner ;;
  payload ← validate_event_payload payload;
  found ← gets (fun s => workloads s !! (owner, workload_id));
  row ← of_option WorkloadNotFoundError found;
  let event_id := w_next_event row in
  update_one workloads (owner, workload_id)
    (fun w => w_next_event w =? event_id)
    (fun w => w <| w_next_event := w_next_event w + 1 |>)
    (DurableStoreError "event sequence compare-and-set failed") ;;
  now ← utc_now;
  insert_row events (owner, workload_id, event_id) (mkEvent event_type payload now) ;;
  mret event_id.

(** ** Enqueueing *)

Record OutboxRecord : Type := mkOutboxRecord {
  or_owner : string; or_outbox : string; or_row : Outbox }.

Definition outbox_row (owner outbox_id : string) : db OutboxRecord :=
  found ← gets (fun s => outbox s !! (owner, outbox_id));
  row ← of_option WorkloadNotFoundError found;
  mret (mkOutboxRecord owner outbox_id row).

Definition outbox_channel (value : string) : db string :=
  check (bool_decide (value ∈ ["owner_event"; "telegram"]))
    (PyValueError "outbox channel is not supported") ;;
  mret value.

(** The two uniqueness constraints of the table, for a row about to be stored
    under [k]: one delivery per event, channel and recipient, and one pending
    row per coalescing key. *)
Definition outbox_unique (s : Store) (k : key2) (row : Outbox) : bool :=
  negb (exists_row (outbox s) (fun k' o =>
    negb (bool_decide (k' = k)) && str_eqb k'.1 k.1
    && str_eqb (o_workload o) (o_workload row)
    && str_eqb (o_channel o) (o_channel row) && str_eqb (o_recipient o) (o_recipient row)
    && ((o_event o =? o_event row)
        || (bool_decide (is_Some (o_coalesce row)) && bool_decide (o_coalesce o = o_coalesce row)
            && bool_decide (o_state o = O_PENDING) && bool_decide (o_state row = O_PENDING))))).

Definition guard_unique (k : key2) (row : Outbox) : db unit :=
  fine ← gets (fun s => outbox_unique s k row);
  check fine (IntegrityError "UNIQUE constraint failed: outbox").

(** An [UPDATE] of the table that changes a column of those constraints. *)
Definition update_outbox (k : key2) (ok : Outbox -> bool) (f : Outbox -> Outbox) : db bool :=
  found ← gets (fun s => outbox s !! k);
  match found with
  | Some row => if ok row then guard_unique k (f row) ;; update_at outbox k ok f else mret false
  | None => mret false
  end.

Definition enqueue_outbox `{Host} (owner workload_id : string) (event_id : Z)
    (channel recipient_key : string) (coalesce_key : option string)
    (next_attempt : option Z) (delivered : bool) : db OutboxRecord :=
  require_owner owner ;;
  check (1 <=? event_id) (PyValueError "event_id must be a positive integer") ;;
  channel ← outbox_channel channel;
  recipient ← require_key recipient_key "recipient_key" 256;
  coalesce ← match coalesce_key with
             | None => mret None
             | Some k => k ← require_key k "coalesce_key" 128; mret (Some k)
             end;
  event ← gets (fun s => events s !! (owner, workload_id, event_id));
  of_option WorkloadNotFoundError event ;;
  now ← utc_now;
  existing ← gets (fun s =>
    match coalesce with
    | Some ck =>
        if delivered then None
        else head (select_rows (outbox s) (fun k o =>
          str_eqb k.1 owner && str_eqb (o_workload o) workload_id
          && str_eqb (o_channel o) channel && str_eqb (o_recipient o) recipient
          && sql_eq (o_coalesce o) ck && bool_decide (o_state o = O_PENDING)))
    | None => None
    end);
  match existing with
  | Some (k, _) =>
      update_outbox (owner, k.2) (fun o => bool_decide (o_state o = O_PENDING))
        (fun o => o <| o_event := event_id |> <| o_next_attempt := next_attempt |>
                    <| o_updated := now |>) ;;
      outbox_row owner k.2
  | None =>
      outbox_id ← new_id "obx";
      let ack := if delivered then Some [("delivery", JStr "recorded")] else None in
      let row := mkOutbox workload_id event_id channel recipient
                   (if delivered then O_SENT else O_PENDING) 0 next_attempt None None 0
                   ack coalesce now now in
      guard_unique (owner, outbox_id) row ;;
      insert_row outbox (owner, outbox_id) row ;;
      outbox_row owner outbox_id
  end.

Definition enqueue_progress `{Host} (owner workload_id : string) (event_id : Z)
    (channel recipient_key : string) (minimum_interval_s : Z) (now : option Z)
  : db OutboxRecord :=
  check ((0 <=? minimum_interval_s) && (minimum_interval_s <=? 86400))
    (PyValueError "minimum_interval_s must be an integer in 0..86400") ;;
  require_owner owner ;;
  current ← operation_now now;
  channel ← outbox_channel channel;
  previous ← gets (fun s => head (order_by (fun a b => o_updated b.2 <=? o_updated a.2)
    (select_rows (outbox s) (fun k o =>
       str_eqb k.1 owner && str_eqb (o_workload o) workload_id
       && str_eqb (o_channel o) channel && str_eqb (o_recipient o) recipient_key
       && sql_eq (o_coalesce o) "progress" && bool_decide (o_state o = O_SENT)))));
  let due := match previous with
             | Some (_, row) => Z.max current (o_updated row + minimum_interval_s * second)
             | None => current
             end in
  enqueue_outbox owner workload_id event_id channel recipient_key (Some "progress")
    (Some due) false.

Definition enqueue_notification `{Host} (owner workload_id : string) (event_id : Z) : db unit :=
  enqueue_outbox owner workload_id event_id "owner_event" owner None None true ;;
  enqueue_outbox owner workload_id event_id "telegram" owner None None false ;;
  mret tt.

(** ** Delivering *)

Definition ack_delivery (o : Outbox) : option json :=
  obj_get "delivery" (default [] (o_ack o)).

Definition delivery_started (o : Outbox) : bool :=
  match ack_delivery o with Some (JStr d) => str_eqb d "started" | _ => false end.

(** The rows a worker may take at an instant. *)
Definition outbox_due (current : Z) (o : Outbox) : bool :=
  (bool_decide (o_state o ∈ [O_PENDING; O_FAILED])
   && match o_next_attempt o with None => true | Some t => t <=? current end)
  || (bool_decide (o_state o = O_LEASED) && sql_le (o_expires o) current).

Definition claim_row (worker : string) (current expiry : Z) (candidate : key2 * Outbox)
  : db (option OutboxRecord) :=
  let (k, row) := candidate in
  if bool_decide (o_state row = O_LEASED) && delivery_started row then
    update_one outbox k
      (fun o => bool_decide (o_state o = O_LEASED) && sql_le (o_expires o) current)
      (fun o => o <| o_state := O_CANCELLED |>
                  <| o_ack := Some [("delivery", JStr "cancelled");
                                    ("reason_code", JStr "delivery_ambiguous")] |>
                  <| o_worker := None |> <| o_expires := None |>
                  <| o_next_attempt := None |> <| o_updated := current |>)
      (DurableStoreError "ambiguous outbox recovery compare-and-set failed") ;;
    mret None
  else
    updated ← update_at outbox k (outbox_due current)
      (fun o => o <| o_state := O_LEASED |> <| o_attempts := o_attempts o + 1 |>
                  <| o_worker := Some worker |> <| o_expires := Some expiry |>
                  <| o_fence := o_fence o + 1 |> <| o_updated := current |>);
    if (updated : bool) then record ← outbox_row k.1 k.2; mret (Some record) else mret None.

Definition claim_outbox `{Host} (channel worker_id : string) (count : Z)
    (lease_duration : Z) (now : option Z) : db (list OutboxRecord) :=
  channel ← outbox_channel channel;
  worker ← of_value (require_worker_id worker_id);
  require_limit count 200 ;;
  duration ← of_value (require_lease_duration lease_duration);
  check (duration <=? MAX_OUTBOX_LEASE_SECONDS * second)
    (PyValueError "outbox lease duration exceeds maximum") ;;
  current ← operation_now now;
  candidates ← gets (fun s => limit count (order_by
    (fun a b => then_by (o_created a.2 ?= o_created b.2)
                  (then_by (compare_str a.1.2 b.1.2) (str_leb a.1.1 b.1.1)))
    (select_rows (outbox s) (fun _ o => str_eqb (o_channel o) channel && outbox_due current o))));
  collect candidates (claim_row worker current (current + duration)).

(** The fence of a delivery: the row is leased to this worker under the
    number the record carries. *)
Definition holds_delivery (record : OutboxRecord) (worker : string) (o : Outbox) : bool :=
  bool_decide (o_state o = O_LEASED) && sql_eq (o_worker o) worker
  && (o_fence o =? o_fence (or_row record)).

Definition mark_outbox_delivery_started `{Host} (record : OutboxRecord) (worker_id : string)
    (now : option Z) : db bool :=
  worker ← of_value (require_worker_id worker_id);
  current ← operation_now now;
  update_at outbox (or_owner record, or_outbox record)
    (fun o => holds_delivery record worker o
              && (bool_decide (o_ack o = None) || delivery_started o))
    (fun o => o <| o_ack := Some [("delivery", JStr "started")] |> <| o_updated := current |>).

Definition confirm_outbox `{Host} (record : OutboxRecord) (worker_id : string)
    (acknowledgement : list (string * json)) (now : option Z) : db bool :=
  worker ← of_value (require_worker_id worker_id);
  let ack := match acknowledgement with
             | [] => [("delivery", JStr "sent")]
             | _ => acknowledgement
             end in
  of_schema (canonical_json (JObj ack) MAX_EVENT_JSON_BYTES) ;;
  current ← operation_now now;
  update_at outbox (or_owner record, or_outbox record) (holds_delivery record worker)
    (fun o => o <| o_state := O_SENT |> <| o_ack := Some ack |> <| o_worker := None |>
                <| o_expires := None |> <| o_next_attempt := None |> <| o_updated := current |>).

Definition release_outbox `{Host} (record : OutboxRecord) (worker_id : string)
    (retry_at now : option Z) : db bool :=
  worker ← of_value (require_worker_id worker_id);
  current ← operation_now now;
  let retry := default current retry_at in
  update_outbox (or_owner record, or_outbox record) (holds_delivery record worker)
    (fun o => o <| o_state := O_PENDING |> <| o_worker := None |> <| o_expires := None |>
                <| o_next_attempt := Some retry |> <| o_ack := None |> <| o_updated := current |>).

Definition OUTBOX_CANCEL_REASONS : list string :=
  ["delivery_ambiguous"; "event_not_supported"; "provider_rejected";
   "recipient_unavailable"; "retry_exhausted"].

Definition cancel_outbox `{Host} (record : OutboxRecord) (worker_id reason_code : string)
    (now : option Z) : db bool :=
  worker ← of_value (require_worker_id worker_id);
  check (bool_decide (reason_code ∈ OUTBOX_CANCEL_REASONS))
    (PyValueError "outbox cancellation reason is not closed") ;;
  current ← operation_now now;
  update_at outbox (or_owner record, or_outbox record) (holds_delivery record worker)
    (fun o => o <| o_state := O_CANCELLED |>
                <| o_ack := Some [("delivery", JStr "cancelled");
                                  ("reason_code", JStr reason_code)] |>
                <| o_worker := None |> <| o_expires := None |>
                <| o_next_attempt := None |> <| o_updated := current |>).

Definition day : Z := 86400 * second.

Definition prune_outbox `{Host} (older_than count : Z) (now : option Z) : db Z :=
  check ((day <=? older_than) && (older_than <=? 3650 * day))
    (PyValueError "older_than must be between one day and ten years") ;;
  require_limit count 1000 ;;
  current ← operation_now now;
  let cutoff := current - older_than in
  rows ← gets (fun s => limit count (order_by
    (fun a b => then_by (o_updated a.2 ?= o_updated b.2)
                  (then_by (compare_str a.1.1 b.1.1) (str_leb a.1.2 b.1.2)))
    (select_rows (outbox s) (fun _ o =>
       bool_decide (o_state o ∈ [O_SENT; O_CANCELLED]) && (o_updated o <? cutoff)))));
  for_each rows (fun kr => delete_at outbox kr.1 (fun o =>
    bool_decide (o_state o ∈ [O_SENT; O_CANCELLED]) && (o_updated o <? cutoff))) ;;
  mret (Z.of_nat (length rows)).
