(* ===== verification/DurableWorkflow.v ===== *)
(** * Workloads: drafts, transitions, budgets, settlement and control

    The workload half of src/runtime/durable_workloads/storage.py: the
    compare-and-set on the state column, the internal and automatic
    transitions, the convergence of a workload from its unit facts
    ([_settle_workload_in_transaction]), the owner's commands and the
    resolution of attention. *)
From Stdlib Require Import Strings.String.
From S2P Require Import Prelude.
From S2P Require Import PyJson.
From S2P Require Import Instants.
From S2P Require Import DurableModels.
From S2P Require Import DurableRetry.
From S2P Require Import DurableTables.
From S2P Require Import DurableOutbox.
Local Open Scope Z_scope.

(** ** Reading a workload *)

Definition row_to_workload (owner workload_id : string) (w : Workload) : WorkloadRecord :=
  mkWorkloadRecord owner workload_id (w_request_key w) (w_state w) (w_priority w)
    (w_active_revision w) (w_version w) (w_created w) (w_updated w) (w_terminal_reason w).

Definition select_workload (owner workload_id : string) : db Workload :=
  found ← gets (fun s => workloads s !! (owner, workload_id));
  of_option WorkloadNotFoundError found.

Definition get_workload_row (owner workload_id : string) : db WorkloadRecord :=
  w ← select_workload owner workload_id;
  mret (row_to_workload owner workload_id w).

Definition json_opt_str (o : option string) : json :=
  match o with Some s => JStr s | None => JNull end.

(** [_workload_snapshot]: the JSON a command stores as its result. *)
Definition workload_snapshot (record : WorkloadRecord) : json :=
  JObj [("schema_version", JStr "metnos.durable-command-result/1");
        ("owner_user_id", JStr (wr_owner record));
        ("workload_id", JStr (wr_workload record));
        ("request_key", JStr (wr_request_key record));
        ("state", JStr (workload_value (wr_state record)));
        ("priority", JStr (wr_priority record));
        ("active_revision_id", json_opt_str (wr_active_revision record));
        ("version", JInt (wr_version record));
        ("created_at", JStr (instant_text (wr_created record)));
        ("updated_at", JStr (instant_text (wr_updated record)));
        ("terminal_reason_json",
          match wr_terminal_reason record with
          | Some reason => JStr (dumps (JObj reason))
          | None => JNull
          end)].

(** ** Drafts *)

Definition create_draft `{Host} (owner request_key : string)
    (redacted_request : list (string * json)) (priority : string)
    (budget : option (list (string * json))) (workload_id : option string)
  : db WorkloadRecord :=
  require_owner owner ;;
  key ← require_key request_key "request_key" 256;
  check (bool_decide (priority ∈ ["low"; "normal"; "high"]))
    (PyValueError "priority must be low, normal or high") ;;
  let budget_value := default [] budget in
  let request := [("schema_version", JStr "metnos.redacted-request/1");
                  ("payload", JObj redacted_request)] in
  let budget_json := [("schema_version", JStr "metnos.durable-draft-budget/1");
                      ("limits", JObj budget_value)] in
  of_schema (canonical_json (JObj request) MAX_PLAN_JSON_BYTES) ;;
  of_schema (canonical_json (JObj budget_json) MAX_PLAN_JSON_BYTES) ;;
  digest ← of_schema (digest_json "durable-submit"
    (JObj [("redacted_request", JObj redacted_request); ("priority", JStr priority);
           ("budget", JObj budget_value)]) MAX_PLAN_JSON_BYTES);
  chosen ← chosen_id workload_id "wrk";
  now ← utc_now;
  existing ← gets (fun s => head (select_rows (workloads s) (fun k w =>
    str_eqb k.1 owner && str_eqb (w_request_key w) key)));
  match existing with
  | Some (k, w) =>
      check (str_eqb (w_request_digest w) digest) IdempotencyConflictError ;;
      mret (row_to_workload k.1 k.2 w)
  | None =>
      collision ← gets (fun s => workloads s !! (owner, chosen));
      check (bool_decide (collision = None)) IdentifierConflictError ;;
      insert_row workloads (owner, chosen)
        (mkWorkload key digest request DRAFT priority budget_json None 1 1 now now None) ;;
      append_event owner chosen E_DRAFT_CREATED [("version", JInt 1)] ;;
      get_workload_row owner chosen
  end.

(** ** The state column *)

(** [_EVENT_BY_TARGET]. *)
Definition event_by_target (target : WorkloadState) : option EventType :=
  match target with
  | ADMITTED => Some E_REVISION_ADMITTED
  | QUEUED => Some E_QUEUED
  | RUNNING => Some E_RUNNING
  | PAUSE_REQUESTED => Some E_PAUSE_REQUESTED
  | PAUSED => Some E_PAUSED
  | CANCEL_REQUESTED => Some E_CANCEL_REQUESTED
  | CANCELLED => Some E_CANCELLED
  | NEEDS_ATTENTION => Some E_NEEDS_ATTENTION
  | FAILED => Some E_FAILED
  | DRAFT | COMPLETED_WITH_ERRORS | COMPLETED => None
  end.

(** [clock_high_water_at=CASE WHEN .. IS NULL OR .. < ? THEN ? ELSE .. END]. *)
Definition advance (high_water : option Z) (now : Z) : option Z :=
  match high_water with
  | None => Some now
  | Some t => if t <? now then Some now else Some t
  end.

Definition start_usage (now : Z) (u : Usage) : Usage :=
  u <| us_started := Some (default now (us_started u)) |>
    <| us_clock_high_water := advance (us_clock_high_water u) now |>
    <| us_updated := now |>.

Definition update_state `{Host} (owner workload_id : string) (source target : WorkloadState)
    (expected_version : Z) (terminal_reason : option (list (string * json)))
    (now_text : option Z) : db WorkloadRecord :=
  transition_time ← match now_text with None => utc_now | Some t => mret t end;
  match terminal_reason with
  | Some reason => of_schema (canonical_json (JObj reason) MAX_EVENT_JSON_BYTES) ;; mret tt
  | None => mret tt
  end ;;
  update_one workloads (owner, workload_id)
    (fun w => bool_decide (w_state w = source) && (w_version w =? expected_version))
    (fun w => w <| w_state := target |> <| w_version := w_version w + 1 |>
                <| w_updated := transition_time |>
                <| w_terminal_reason :=
                     match terminal_reason with
                     | Some reason => Some reason
                     | None => w_terminal_reason w
                     end |>)
    VersionConflictError ;;
  (if negb (bool_decide (target ∈ [QUEUED; RUNNING]))
   then delete_at credits (owner, workload_id) (fun _ => true)
   else
     w ← select_workload owner workload_id;
     match w_active_revision w with
     | Some revision =>
         update_one usages (owner, revision) (fun _ => true) (start_usage transition_time)
           (DurableStoreError "revision usage row is missing")
     | None => raise (DurableStoreError "revision usage row is missing")
     end) ;;
  get_workload_row owner workload_id.

Definition transition_workload `{Host} (owner workload_id : string)
    (target : WorkloadState) (expected_version : Z)
    (payload : option (list (string * json))) (now : option Z) : db WorkloadRecord :=
  require_owner owner ;;
  expected ← require_version expected_version;
  check (negb (bool_decide (target ∈ [COMPLETED; COMPLETED_WITH_ERRORS])))
    ReservedCompletionTransitionError ;;
  event_type ← of_option (InvalidTransitionError "no internal event maps to the target")
                 (event_by_target target);
  let event_payload := default [] payload in
  validate_event_payload event_payload ;;
  current ← operation_now now;
  row ← select_workload owner workload_id;
  check (w_version row =? expected) VersionConflictError ;;
  let source := w_state row in
  check (can_transition_workload (workload_value source) (workload_value target))
    (InvalidTransitionError "workload transition is forbidden") ;;
  updated ← update_state owner workload_id source target expected
    (if bool_decide (target ∈ [CANCELLED; FAILED]) then Some event_payload else None)
    (Some current);
  let merged := obj_update event_payload
    [("previous_state", JStr (workload_value source));
     ("new_state", JStr (workload_value target));
     ("new_version", JInt (wr_version updated))] in
  event_id ← append_event owner workload_id event_type merged;
  (if bool_decide (target ∈ [NEEDS_ATTENTION; FAILED])
   then enqueue_notification owner workload_id event_id else mret tt) ;;
  mret updated.

(** [_automatic_workload_transition_in_transaction]. *)
Definition automatic_transition `{Host} (owner workload_id : string) (row : Workload)
    (target : WorkloadState) (reason_code : string) (details : list (string * json))
    (now_text : option Z) : db WorkloadRecord :=
  let source := w_state row in
  check (can_transition_workload (workload_value source) (workload_value target))
    (InvalidTransitionError "workload transition is forbidden") ;;
  let evidence := obj_update details
    [("reason_code", JStr reason_code);
     ("previous_state", JStr (workload_value source));
     ("new_state", JStr (workload_value target));
     ("new_version", JInt (w_version row + 1))] in
  result ← update_state owner workload_id source target (w_version row)
    (if bool_decide (target ∈ [CANCELLED; FAILED])
     then Some (obj_update [("reason_code", JStr reason_code)] details) else None)
    now_text;
  event_type ← of_option (PyKeyError "_EVENT_BY_TARGET") (event_by_target target);
  event_id ← append_event owner workload_id event_type evidence;
  (if bool_decide (target ∈ [NEEDS_ATTENTION; FAILED])
   then enqueue_notification owner workload_id event_id else mret tt) ;;
  mret result.

(** ** Units that wait, and units that run *)

Definition UNIT_STATE_BATCH_SIZE : Z := 256.

Definition in_revision (owner revision_id : string) (k : key2) (u : Unit) : bool :=
  str_eqb k.1 owner && str_eqb (u_revision u) revision_id.

Definition is_waiting (u : Unit) : bool :=
  bool_decide (u_state u ∈ [U_PENDING; U_RETRY_WAIT; U_NEEDS_ATTENTION])
  && bool_decide (u_active_attempt u = None).

Definition is_active (u : Unit) : bool :=
  bool_decide (u_state u ∈ [U_LEASED; U_RUNNING]).

Definition by_update (a b : key2 * Unit) : bool :=
  then_by (u_updated a.2 ?= u_updated b.2) (str_leb a.1.2 b.1.2).

Definition cancel_unit (now : Z) (u : Unit) : Unit :=
  u <| u_state := U_CANCELLED |> <| u_next_attempt := None |>
    <| u_error := Some (default "cancelled" (u_error u)) |>
    <| u_tokens := 0 |> <| u_partial := false |> <| u_updated := now |>.

Definition cancel_waiting_units (owner revision_id : string) (now : Z) (count : Z)
  : db (Z * Z) :=
  rows ← gets (fun s => limit count (order_by by_update (select_rows (units s)
    (fun k u => in_revision owner revision_id k u && is_waiting u))));
  for_each rows (fun ku =>
    update_one units (ku.1 : key2)
      (fun u => in_revision owner revision_id ku.1 u && is_waiting u)
      (cancel_unit now) (DurableStoreError "unit cancellation batch changed concurrently")) ;;
  mret (Z.of_nat (length rows),
        Z.of_nat (length (List.filter
          (fun ku => bool_decide (u_state ku.2 = U_NEEDS_ATTENTION)) rows))).

Definition waiting_unit_exists (owner revision_id : string) : db bool :=
  gets (fun s => exists_row (units s)
    (fun k u => in_revision owner revision_id k u && is_waiting u)).

Definition active_unit_count (owner revision_id : string) : db Z :=
  gets (fun s => count_rows (units s)
    (fun k u => in_revision owner revision_id k u && is_active u)).

(** [CAST(json_extract(retry_json, '$.max_attempts') AS INTEGER)]. *)
Definition stage_max_attempts (st : Stage) : option Z :=
  match s_retry st with
  | JObj kvs => match obj_get "max_attempts" kvs with Some (JInt z) => Some z | _ => None end
  | _ => None
  end.

(** [JOIN stages ON id = unit.stage_id AND revision_id = unit.revision_id]. *)
Definition stage_of (s : Store) (owner : string) (u : Unit) : option Stage :=
  st ← stages s !! (owner, u_stage u);
  if str_eqb (s_revision st) (u_revision u) then Some st else None.

Definition is_exhausted (s : Store) (owner : string) (u : Unit) : bool :=
  bool_decide (u_state u = U_PENDING) && (u_tokens u =? 0)
  && match stage_of s owner u with
     | Some st => match stage_max_attempts st with
                  | Some m => m <=? u_attempt_count u
                  | None => false
                  end
     | None => false
     end.

Definition repair_unit (generation now : Z) (u : Unit) : Unit :=
  u <| u_state := U_NEEDS_ATTENTION |> <| u_next_attempt := None |>
    <| u_error := Some (default "budget_exhausted" (u_error u)) |>
    <| u_generation := generation |> <| u_updated := now |>.

Definition repair_exhausted_units (owner revision_id : string) (now count : Z) : db Z :=
  before ← gets (fun s => s);
  let rows := limit count (order_by by_update (select_rows (units before)
    (fun k u => in_revision owner revision_id k u && is_exhausted before owner u))) in
  for_each rows (fun ku =>
    r ← of_option (IntegrityError "NOT NULL constraint failed: units.manual_retry_generation")
          (revisions before !! (owner, revision_id));
    update_one units (ku.1 : key2)
      (fun u => in_revision owner revision_id ku.1 u && is_exhausted before owner u)
      (repair_unit (r_manual_generation r) now)
      (DurableStoreError "unreachable: the row was just selected")) ;;
  mret (Z.of_nat (length rows)).

Definition exhausted_pending_exists (owner revision_id : string) : db bool :=
  gets (fun s => exists_row (units s)
    (fun k u => in_revision owner revision_id k u && is_exhausted s owner u)).

Definition artifact_attention_count (owner revision_id : string) : db Z :=
  gets (fun s =>
    count_rows (artifacts s) (fun k a =>
      str_eqb k.1 owner && str_eqb (art_revision a) revision_id
      && str_eqb (art_state a) "needs_attention")
    + count_rows (publications s) (fun k p =>
        match artifacts s !! (k.1, pub_artifact p) with
        | Some a => str_eqb k.1 owner && str_eqb (art_revision a) revision_id
                    && str_eqb (pub_state p) "needs_attention"
        | None => false
        end)).

Definition materialization_attention_count (owner revision_id : string) : db Z :=
  gets (fun s => count_rows (materializations s) (fun k m =>
    str_eqb k.1.1 owner && str_eqb k.1.2 revision_id
    && bool_decide (is_Some (mat_attention_code m)))).

(** ** Usage and budgets *)

Definition SQLITE_INTEGER_MAX : Z := 9223372036854775807.

Record increments : Type := {
  inc_input_bytes : Z; inc_output_bytes : Z; inc_input_tokens : Z;
  inc_output_tokens : Z; inc_cost_micros : Z; inc_artifacts : Z }.

Definition no_increments : increments := Build_increments 0 0 0 0 0 0.

Definition increment_list (i : increments) : list Z :=
  [inc_input_bytes i; inc_output_bytes i; inc_input_tokens i; inc_output_tokens i;
   inc_cost_micros i; inc_artifacts i].

Definition usage_list (u : Usage) : list Z :=
  [us_input_bytes u; us_output_bytes u; us_input_tokens u; us_output_tokens u;
   us_cost_micros u; us_artifacts u].

Definition add_usage (i : increments) (unknown : bool) (now : Z) (u : Usage) : Usage :=
  u <| us_input_bytes := us_input_bytes u + inc_input_bytes i |>
    <| us_output_bytes := us_output_bytes u + inc_output_bytes i |>
    <| us_input_tokens := us_input_tokens u + inc_input_tokens i |>
    <| us_output_tokens := us_output_tokens u + inc_output_tokens i |>
    <| us_cost_micros := us_cost_micros u + inc_cost_micros i |>
    <| us_artifacts := us_artifacts u + inc_artifacts i |>
    <| us_unknown := us_unknown u || unknown |> <| us_updated := now |>.

Definition add_revision_usage (owner revision_id : string) (i : increments)
    (usage_unknown : bool) (now : Z) : db unit :=
  check (forallb (fun v => 0 <=? v) (increment_list i))
    (DurableStoreError "revision usage increment is invalid") ;;
  found ← gets (fun s => usages s !! (owner, revision_id));
  current ← of_option (DurableStoreError "revision usage row is missing") found;
  check (forallb (fun p => p.1 <=? SQLITE_INTEGER_MAX - p.2)
           (zip (usage_list current) (increment_list i)))
    (DurableStoreError "revision usage counter overflow") ;;
  check (us_artifacts current + inc_artifacts i <=? 1024)
    (IntegrityError "CHECK constraint failed: revision_usage.artifact_count") ;;
  update_one usages (owner, revision_id) (fun _ => true) (add_usage i usage_unknown now)
    (DurableStoreError "revision usage update failed") ;;
  if usage_unknown then
    update_at revisions (owner, revision_id) (fun _ => true)
      (fun r => r <| r_usage_complete := false |>) ;;
    mret tt
  else mret tt.

Definition CLOCK_REGRESSION_TOLERANCE : Z := 5 * second.

Definition clock_regressed (high_water : option Z) (current : Z) : bool :=
  match high_water with
  | None => false
  | Some t => current + CLOCK_REGRESSION_TOLERANCE <? t
  end.

(** [int(json.loads(plan_json)["budgets"][name])]. *)
Definition plan_budget (r : Revision) (name : string) : db Z :=
  match obj_get "budgets" (r_plan r) with
  | Some (JObj budgets) =>
      match obj_get name budgets with
      | Some (JInt z) => mret z
      | _ => raise (PyKeyError name)
      end
  | _ => raise (PyKeyError "budgets")
  end.

Definition violation : Type := list (string * json).

Definition accounting_violation : violation :=
  [("reason_code", JStr "budget_accounting_incomplete"); ("budget", JStr "accounting")].

Definition clock_violation : violation :=
  [("reason_code", JStr "budget_accounting_incomplete");
   ("budget", JStr "max_wall_time_s"); ("clock_regressed", JBool true)].

Definition limit_violation (name : string) (observed bound : Z) : violation :=
  [("reason_code", JStr "budget_limit_exceeded"); ("budget", JStr name);
   ("observed", JInt observed); ("limit", JInt bound)].

(** The dictionary of observed consumption, in its insertion order. *)
Definition observed_usage (u : Usage) : list (string * Z) :=
  [("max_bytes_read", us_input_bytes u); ("max_bytes_written", us_output_bytes u);
   ("max_tokens", us_input_tokens u + us_output_tokens u);
   ("max_cost_micros", us_cost_micros u); ("max_artifacts", us_artifacts u)].

Fixpoint first_exceeded (r : Revision) (observed : list (string * Z)) : db (option violation) :=
  match observed with
  | [] => mret None
  | (name, value) :: rest =>
      bound ← plan_budget r name;
      if bound <? value then mret (Some (limit_violation name value bound))
      else first_exceeded r rest
  end.

Definition elapsed_seconds (now started : Z) : Z := Z.max 0 ((now - started) / second).

Definition budget_violation_in (owner workload_id revision_id : string) (now : Z)
  : db (option violation) :=
  row ← gets (fun s =>
    r ← revisions s !! (owner, revision_id);
    u ← usages s !! (owner, revision_id);
    if str_eqb (r_workload r) workload_id then Some (r, u) else None);
  match row with
  | None => mret (Some accounting_violation)
  | Some (r, u) =>
      if us_unknown u then mret (Some accounting_violation)
      else if clock_regressed (us_clock_high_water u) now then mret (Some clock_violation)
      else
        exceeded ← first_exceeded r (observed_usage u);
        match exceeded with
        | Some v => mret (Some v)
        | None =>
            match us_started u with
            | None => mret None
            | Some started =>
                bound ← plan_budget r "max_wall_time_s";
                let elapsed := elapsed_seconds now started in
                if bound <=? elapsed
                then mret (Some (limit_violation "max_wall_time_s" elapsed bound))
                else mret None
            end
        end
  end.

(** ** Settlement *)

Definition reason_counter (reason : list (string * json)) : db Z :=
  match obj_get "unresolved_unit_attention" reason with
  | None => mret 0
  | Some (JInt z) =>
      if z <? 0 then raise (DurableStoreError "cancellation attention counter is invalid")
      else mret z
  | Some _ => raise (DurableStoreError "cancellation attention counter is invalid")
  end.

(** [str(reason.get("reason", "owner_cancelled"))]. *)
Definition reason_text (reason : list (string * json)) : string :=
  py_str (default (JStr "owner_cancelled") (obj_get "reason" reason)).

(** An explicit cancellation drains the attempts in flight, then terminates. *)
Definition settle_cancellation `{Host} (owner workload_id revision_id : string)
    (row : Workload) (now mutation_limit : Z) : db (WorkloadRecord * Z) :=
  '(cancelled, attention_cancelled) ← cancel_waiting_units owner revision_id now mutation_limit;
  let reason := default [] (w_terminal_reason row) in
  previous_attention ← reason_counter reason;
  let unit_attention := previous_attention + attention_cancelled in
  (if negb (attention_cancelled =? 0) then
     let reason' := obj_update reason [("reason", JStr (reason_text reason));
                                       ("unresolved_unit_attention", JInt unit_attention)] in
     of_schema (canonical_json (JObj reason') MAX_EVENT_JSON_BYTES) ;;
     update_at workloads (owner, workload_id)
       (fun w => bool_decide (w_state w = CANCEL_REQUESTED))
       (fun w => w <| w_terminal_reason := Some reason' |> <| w_updated := now |>) ;;
     mret tt
   else mret tt) ;;
  active ← active_unit_count owner revision_id;
  waiting ← waiting_unit_exists owner revision_id;
  if negb (active =? 0) || (waiting : bool) then
    current ← get_workload_row owner workload_id;
    mret (current, cancelled)
  else
    artifact_attention ← artifact_attention_count owner revision_id;
    current_row ← select_workload owner workload_id;
    result ← automatic_transition owner workload_id current_row CANCELLED
      "owner_cancellation_settled"
      [("unresolved_unit_attention", JInt unit_attention);
       ("unresolved_artifact_attention", JInt artifact_attention)] (Some now);
    mret (result, cancelled + 1).

(** The reason code a violation carries. *)
Definition violation_reason (v : violation) : string :=
  match obj_get "reason_code" v with Some (JStr s) => s | _ => EmptyString end.

Definition untolerated_count (owner revision_id : string) (r : Revision) : db Z :=
  gets (fun s => count_rows (units s) (fun k u =>
    in_revision owner revision_id k u && bool_decide (u_state u = U_FAILED_PERMANENT)
    && (negb (str_eqb (r_failure_policy r) "declared")
        || match u_error u with
           | None => true
           | Some e => negb (bool_decide (e ∈ r_tolerated r))
           end))).

Definition unit_attention_count (owner revision_id : string) : db Z :=
  gets (fun s => match revisions s !! (owner, revision_id) with
                 | Some r => count_rows (units s) (fun k u =>
                     in_revision owner revision_id k u
                     && bool_decide (u_state u = U_NEEDS_ATTENTION)
                     && (r_manual_generation r <=? u_generation u))
                 | None => 0
                 end).

(** Failure, then pause: the part reached when nothing asks for attention. *)
Definition settle_failure_or_pause `{Host} (owner workload_id revision_id : string)
    (row : Workload) (now mutation_limit exhausted : Z) : db (WorkloadRecord * Z) :=
  found ← gets (fun s =>
    r ← revisions s !! (owner, revision_id);
    if str_eqb (r_workload r) workload_id then Some r else None);
  revision ← of_option (DurableStoreError "active revision is missing") found;
  untolerated ← untolerated_count owner revision_id revision;
  if negb (untolerated =? 0) then
    '(cancelled, _) ← cancel_waiting_units owner revision_id now mutation_limit;
    active ← active_unit_count owner revision_id;
    waiting ← waiting_unit_exists owner revision_id;
    if negb (active =? 0) || (waiting : bool)
    then mret (row_to_workload owner workload_id row, exhausted + cancelled)
    else
      result ← automatic_transition owner workload_id row FAILED "untolerated_unit_failure"
        [("failed_units", JInt untolerated)] (Some now);
      mret (result, exhausted + cancelled + 1)
  else if bool_decide (w_state row = PAUSE_REQUESTED) then
    active ← active_unit_count owner revision_id;
    if active =? 0 then
      result ← automatic_transition owner workload_id row PAUSED "active_attempts_drained" []
        (Some now);
      mret (result, exhausted + 1)
    else mret (row_to_workload owner workload_id row, exhausted)
  else mret (row_to_workload owner workload_id row, exhausted).

(** Attention takes precedence over pause and ordinary failure. *)
Definition settle_attention `{Host} (owner workload_id revision_id : string)
    (row : Workload) (now mutation_limit exhausted : Z) : db (WorkloadRecord * Z) :=
  if bool_decide (w_state row = NEEDS_ATTENTION)
  then mret (row_to_workload owner workload_id row, exhausted)
  else
    stages_in_attention ← materialization_attention_count owner revision_id;
    if negb (stages_in_attention =? 0) then
      result ← automatic_transition owner workload_id row NEEDS_ATTENTION
        "materialization_attention_required"
        [("affected_stages", JInt stages_in_attention)] (Some now);
      mret (result, exhausted + 1)
    else
      unit_attention ← unit_attention_count owner revision_id;
      artifact_attention ← artifact_attention_count owner revision_id;
      if negb (unit_attention =? 0) || negb (artifact_attention =? 0) then
        result ← automatic_transition owner workload_id row NEEDS_ATTENTION
          "execution_attention_required"
          [("unit_attention", JInt unit_attention);
           ("artifact_attention", JInt artifact_attention)] (Some now);
        mret (result, exhausted + 1)
      else settle_failure_or_pause owner workload_id revision_id row now mutation_limit exhausted.

(** Exhausted automatic retries become attention before the rest is judged. *)
Definition settle_exhausted `{Host} (owner workload_id revision_id : string)
    (row : Workload) (now mutation_limit : Z) (repair : bool) : db (WorkloadRecord * Z) :=
  if repair then
    exhausted ← repair_exhausted_units owner revision_id now mutation_limit;
    more ← exhausted_pending_exists owner revision_id;
    if (more : bool) then mret (row_to_workload owner workload_id row, exhausted)
    else settle_attention owner workload_id revision_id row now mutation_limit exhausted
  else settle_attention owner workload_id revision_id row now mutation_limit 0.

(** [_settle_workload_in_transaction]. *)
Definition settle `{Host} (owner workload_id : string) (now : Z) (repair_exhausted : bool)
    (mutation_limit : Z) : db (WorkloadRecord * Z) :=
  row ← select_workload owner workload_id;
  match w_active_revision row with
  | None => mret (row_to_workload owner workload_id row, 0)
  | Some revision_id =>
      let state := w_state row in
      if bool_decide (state ∈ TERMINAL_WORKLOAD_STATES) then
        if bool_decide (state ∈ [CANCELLED; FAILED]) then
          '(changed, _) ← cancel_waiting_units owner revision_id now mutation_limit;
          mret (row_to_workload owner workload_id row, changed)
        else mret (row_to_workload owner workload_id row, 0)
      else if bool_decide (state = CANCEL_REQUESTED) then
        settle_cancellation owner workload_id revision_id row now mutation_limit
      else if bool_decide (state ∈ [ADMITTED; QUEUED; RUNNING; PAUSE_REQUESTED; PAUSED]) then
        found ← budget_violation_in owner workload_id revision_id now;
        match found with
        | Some v =>
            result ← automatic_transition owner workload_id row NEEDS_ATTENTION
              (violation_reason v) v (Some now);
            mret (result, 1)
        | None => settle_exhausted owner workload_id revision_id row now mutation_limit
                    repair_exhausted
        end
      else settle_exhausted owner workload_id revision_id row now mutation_limit repair_exhausted
  end.

Definition settle_workload `{Host} (owner workload_id : string) (now : option Z)
  : db WorkloadRecord :=
  require_owner owner ;;
  current ← operation_now now;
  '(result, _) ← settle owner workload_id current true UNIT_STATE_BATCH_SIZE;
  mret result.

(** ** Owner commands *)

Definition existing_command (owner workload_id idempotency_key command digest : string)
  : db (option WorkloadRecord) :=
  found ← gets (fun s => commands s !! (owner, workload_id, idempotency_key));
  match found with
  | None => mret None
  | Some row =>
      check (str_eqb (cmd_command row) command && str_eqb (cmd_digest row) digest)
        IdempotencyConflictError ;;
      mret (Some (cmd_result row))
  end.

Definition record_command `{Host} (owner workload_id idempotency_key command digest : string)
    (result : WorkloadRecord) (now_text : option Z) : db unit :=
  of_schema (canonical_json (workload_snapshot result) MAX_EVENT_JSON_BYTES) ;;
  now ← match now_text with None => utc_now | Some t => mret t end;
  insert_row commands (owner, workload_id, idempotency_key)
    (mkCommand command digest result now).

(** The body of [_control] after the replay test. *)
Definition apply_control `{Host} (owner workload_id command : string) (expected current : Z)
  : db WorkloadRecord :=
  row ← select_workload owner workload_id;
  check (w_version row =? expected) VersionConflictError ;;
  let source := w_state row in
  target ← lift_result (match control_transition command (workload_value source) with
                        | Ok t => Ok t
                        | Err _ => Err (InvalidTransitionError command)
                        end);
  match target with
  | None => mret (row_to_workload owner workload_id row)
  | Some target =>
      check (can_transition_workload (workload_value source) (workload_value target))
        (InvalidTransitionError "workload transition is forbidden") ;;
      result ← update_state owner workload_id source target expected
        (if bool_decide (target ∈ [CANCEL_REQUESTED; CANCELLED])
         then Some [("reason", JStr "owner_cancelled"); ("unresolved_unit_attention", JInt 0)]
         else None) (Some current);
      event_type ← of_option (PyKeyError "assert event_type is not None") (event_by_target target);
      append_event owner workload_id event_type
        [("previous_state", JStr (workload_value source));
         ("new_state", JStr (workload_value target));
         ("new_version", JInt (wr_version result))] ;;
      mret result
  end.

(** What a command settles at once. *)
Definition settle_after_control `{Host} (owner workload_id : string) (current : Z)
    (result : WorkloadRecord) : db WorkloadRecord :=
  match wr_active_revision result with
  | None => mret result
  | Some revision_id =>
      if bool_decide (wr_state result ∈ [PAUSE_REQUESTED; CANCEL_REQUESTED]) then
        '(settled, _) ← settle owner workload_id current false UNIT_STATE_BATCH_SIZE;
        mret settled
      else if bool_decide (wr_state result = CANCELLED) then
        cancel_waiting_units owner revision_id current UNIT_STATE_BATCH_SIZE ;;
        mret result
      else mret result
  end.

Definition control `{Host} (owner workload_id command idempotency_key : string)
    (expected_version : Z) (now : option Z) : db WorkloadRecord :=
  require_owner owner ;;
  key ← require_key idempotency_key "idempotency_key" 256;
  expected ← require_version expected_version;
  digest ← of_schema (digest_json "durable-command"
    (JObj [("command", JStr command); ("expected_version", JInt expected)])
    MAX_EVENT_JSON_BYTES);
  current ← operation_now now;
  replay ← existing_command owner workload_id key command digest;
  match replay with
  | Some record => mret record
  | None =>
      applied ← apply_control owner workload_id command expected current;
      result ← settle_after_control owner workload_id current applied;
      record_command owner workload_id key command digest result (Some current) ;;
      mret result
  end.

Definition request_pause `{Host} (owner workload_id : string) (expected_version : Z)
    (key : string) (now : option Z) : db WorkloadRecord :=
  control owner workload_id "pause" key expected_version now.

Definition request_resume `{Host} (owner workload_id : string) (expected_version : Z)
    (key : string) (now : option Z) : db WorkloadRecord :=
  control owner workload_id "resume" key expected_version now.

Definition request_cancel `{Host} (owner workload_id : string) (expected_version : Z)
    (key : string) (now : option Z) : db WorkloadRecord :=
  control owner workload_id "cancel" key expected_version now.

(** ** Resolution of attention *)

Definition DEPENDENCY_ATTENTION : list string :=
  ["budget_exhausted"; "dependency_fan_in_exceeded"; "dependency_result_missing";
   "dependency_result_unavailable"].

Definition blocked_dependency_count (owner revision_id : string) : db Z :=
  gets (fun s => count_rows (units s) (fun k u =>
    in_revision owner revision_id k u && bool_decide (u_state u = U_NEEDS_ATTENTION)
    && match u_error u with
       | Some e => bool_decide (e ∈ DEPENDENCY_ATTENTION)
       | None => false
       end)).

(** The retry branch: every standing obstacle refuses it, then one more manual
    generation is granted to the revision. *)
Definition grant_retry (owner workload_id revision_id : string) (active_units current : Z)
  : db WorkloadState :=
  artifact_attention ← artifact_attention_count owner revision_id;
  check (artifact_attention =? 0)
    (InvalidTransitionError "artifact attention requires reconciliation") ;;
  blocked ← blocked_dependency_count owner revision_id;
  check (blocked =? 0) (InvalidTransitionError "dependency attention requires a new revision") ;;
  stages_in_attention ← materialization_attention_count owner revision_id;
  check (stages_in_attention =? 0)
    (InvalidTransitionError "materialization attention requires a new revision") ;;
  found ← budget_violation_in owner workload_id revision_id current;
  check (match found with None => true | Some _ => false end)
    (InvalidTransitionError "budget attention requires changed accounting") ;;
  authority ← gets (fun s =>
    r ← revisions s !! (owner, revision_id);
    if str_eqb (r_workload r) workload_id then Some r else None);
  r ← of_option (DurableStoreError "active revision is missing") authority;
  check (r_manual_generation r <? 1000000)
    (InvalidTransitionError "manual retry authority has reached its safety cap") ;;
  update_one revisions (owner, revision_id)
    (fun r' => str_eqb (r_workload r') workload_id
               && (r_manual_generation r' =? r_manual_generation r))
    (fun r' => r' <| r_manual_generation := r_manual_generation r' + 1 |>)
    (DurableStoreError "manual retry authority compare-and-set failed") ;;
  mret (if negb (active_units =? 0) then RUNNING else QUEUED).

Definition apply_resolution `{Host} (owner workload_id decision : string)
    (expected current : Z) : db WorkloadRecord :=
  row ← select_workload owner workload_id;
  check (w_version row =? expected) VersionConflictError ;;
  let source := w_state row in
  check (bool_decide (source = NEEDS_ATTENTION))
    (InvalidTransitionError "attention can be resolved only from needs_attention") ;;
  revision_id ← of_option (InvalidTransitionError "attention resolution requires a revision")
                  (w_active_revision row);
  active_units ← active_unit_count owner revision_id;
  target ← (if str_eqb decision "retry"
            then grant_retry owner workload_id revision_id active_units current
            else mret CANCEL_REQUESTED);
  result ← update_state owner workload_id source target expected
    (if str_eqb decision "cancel"
     then Some [("reason", JStr "attention_cancelled"); ("unresolved_unit_attention", JInt 0)]
     else None) (Some current);
  append_event owner workload_id E_ATTENTION_RESOLVED
    [("decision", JStr decision); ("new_state", JStr (workload_value target));
     ("new_version", JInt (wr_version result))] ;;
  if bool_decide (wr_state result = CANCEL_REQUESTED) then
    '(settled, _) ← settle owner workload_id current false UNIT_STATE_BATCH_SIZE;
    mret settled
  else mret result.

Definition record_attention_resolution `{Host} (owner workload_id decision : string)
    (expected_version : Z) (idempotency_key : string) (note_redacted : option string)
    (now : option Z) : db WorkloadRecord :=
  require_owner owner ;;
  key ← require_key idempotency_key "idempotency_key" 256;
  expected ← require_version expected_version;
  check (bool_decide (decision ∈ ["retry"; "cancel"]))
    (PyValueError "attention decision must be retry or cancel") ;;
  check (match note_redacted with Some note => py_len note <=? 2048 | None => true end)
    (PyValueError "note_redacted must be at most 2048 characters") ;;
  digest ← of_schema (digest_json "durable-command"
    (JObj [("command", JStr "resolve_attention"); ("decision", JStr decision);
           ("expected_version", JInt expected); ("note_redacted", json_opt_str note_redacted)])
    MAX_EVENT_JSON_BYTES);
  current ← operation_now now;
  replay ← existing_command owner workload_id key "resolve_attention" digest;
  match replay with
  | Some record => mret record
  | None =>
      result ← apply_resolution owner workload_id decision expected current;
      record_command owner workload_id key "resolve_attention" digest result (Some current) ;;
      insert_row resolutions (owner, workload_id, key)
        (mkResolution decision note_redacted current) ;;
      mret result
  end.

(** ** Deletion of an owner *)

Definition purge_owner (owner : string) : db Z :=
  require_owner owner ;;
  count ← gets (fun s => count_rows (workloads s) (fun k _ => str_eqb k.1 owner));
  modify (fun s => mkStore
    (filter (fun kv => kv.1.1 <> owner) (workloads s))
    (filter (fun kv => kv.1.1 <> owner) (revisions s))
    (filter (fun kv => kv.1.1 <> owner) (usages s))
    (filter (fun kv => kv.1.1 <> owner) (stages s))
    (filter (fun kv => kv.1.1 <> owner) (units s))
    (filter (fun kv => kv.1.1 <> owner) (attempts s))
    (filter (fun kv => kv.1.1 <> owner) (results s))
    (filter (fun kv => kv.1.1.1 <> owner) (events s))
    (filter (fun kv => kv.1.1 <> owner) (outbox s))
    (filter (fun kv => kv.1.1 <> owner) (credits s))
    (filter (fun kv => kv.1.1.1 <> owner) (commands s))
    (filter (fun kv => kv.1.1.1 <> owner) (resolutions s))
    (filter (fun kv => kv.1.1 <> owner) (artifacts s))
    (filter (fun kv => kv.1.1 <> owner) (publications s))
    (filter (fun kv => kv.1.1.1 <> owner) (materializations s))
    (filter (fun kv => kv.1.1.1.1 <> owner) (stage_dependencies s))
    (filter (fun kv => kv.1.1.1.1 <> owner) (unit_dependencies s))
    (filter (fun kv => kv.1.1.1.1.1 <> owner) (dependencies s))
    (filter (fun kv => kv.1.1 <> owner) (sources s))
    (filter (fun kv => kv.1.1 <> owner) (placements s)) (ticks s)) ;;
  mret count.
