(* ===== verification/DurableLeases.v ===== *)
(** * Unit leases: claim, run, heartbeat, commit, fail, abandon, reconcile

    The fenced half of src/runtime/durable_workloads/storage.py.  Every
    operation re-reads the joined lease row inside its transaction and lets
    the lease decide nothing the row does not confirm. *)
From Stdlib Require Import Strings.String.
From S2P Require Import Prelude.
From S2P Require Import PyJson.
From S2P Require Import Instants.
From S2P Require Import DurableModels.
From S2P Require Import DurableRetry.
From S2P Require Import DurableResults.
From S2P Require Import DurableTables.
From S2P Require Import DurableOutbox.
From S2P Require Import DurableWorkflow.
Local Open Scope Z_scope.

Definition MAX_UNIT_DEPENDENCIES : Z := 1024.
Definition MAX_ATTEMPT_METRICS_JSON_BYTES : Z := 1048576.

(** ** The joined row of a lease *)

Record LeaseRow : Type := mkLeaseRow {
  lr_owner : string;
  lr_unit_id : string;
  lr_unit : Unit;
  lr_revision : Revision;
  lr_usage : Usage;
  lr_stage : Stage;
  lr_attempt : option Attempt }.

(** The unit with its revision, usage, stage and one of its attempts. *)
Definition joined_row (s : Store) (owner unit_id attempt_id : string) : option LeaseRow :=
  u ← units s !! (owner, unit_id);
  r ← revisions s !! (owner, u_revision u);
  us ← usages s !! (owner, u_revision u);
  st ← stage_of s owner u;
  let attempt :=
    a ← attempts s !! (owner, attempt_id);
    if str_eqb (a_unit a) unit_id then Some a else None in
  Some (mkLeaseRow owner unit_id u r us st attempt).

(** [_select_lease_row] also joins the workload of the revision. *)
Definition lease_row (s : Store) (owner unit_id attempt_id : string) : option LeaseRow :=
  row ← joined_row s owner unit_id attempt_id;
  _ ← workloads s !! (owner, r_workload (lr_revision row));
  Some row.

Definition select_lease_row (lease : Lease) : db (option LeaseRow) :=
  gets (fun s => lease_row s (l_owner lease) (l_unit lease) (l_attempt lease)).

Definition output_name (st : Stage) : option json := obj_get "name" (s_output_schema st).

(** [metrics.get("manual_retry", False)] is the boolean the lease carries. *)
Definition manual_retry_matches (metrics : list (string * json)) (b : bool) : bool :=
  match obj_get "manual_retry" metrics with
  | None => Bool.eqb false b
  | Some (JBool m) => Bool.eqb m b
  | Some _ => false
  end.

(** The conjunction of [_lease_matches], over the parsed retry policy. *)
Definition lease_matches_with (row : LeaseRow) (a : Attempt) (retry : RetryPolicy)
    (lease : Lease) : bool :=
  let u := lr_unit row in
  let st := lr_stage row in
  str_eqb (lr_owner row) (l_owner lease)
  && str_eqb (r_workload (lr_revision row)) (l_workload lease)
  && str_eqb (u_revision u) (l_revision lease)
  && str_eqb (u_stage u) (l_stage lease)
  && str_eqb (s_key st) (l_stage_key lease)
  && str_eqb (lr_unit_id row) (l_unit lease)
  && str_eqb (u_key u) (l_unit_key lease)
  && sql_eq (u_active_attempt u) (l_attempt lease)
  && (a_number a =? l_attempt_number lease)
  && (u_fence u =? l_fence lease)
  && (a_fence a =? l_fence lease)
  && sql_eq (u_worker u) (l_worker lease)
  && str_eqb (a_worker a) (l_worker lease)
  && bool_decide (s_runner_kind st = l_runner_kind lease)
  && str_eqb (s_runner_name st) (l_runner_name lease)
  && bool_decide (s_effect st = l_effect lease)
  && json_is_str (output_name st) (l_output_schema lease)
  && bool_decide (s_resources st = l_resources lease)
  && bool_decide (retry = l_retry lease)
  && (s_timeout_s st =? l_timeout_s lease)
  && manual_retry_matches (a_metrics a) (l_manual_retry lease).

(** [_lease_matches]; on a match, the row with its attempt. *)
Definition lease_matches (row : option LeaseRow) (lease : Lease)
  : db (option (LeaseRow * Attempt)) :=
  match row with
  | None => mret None
  | Some r =>
      match lr_attempt r with
      | None => mret None
      | Some a =>
          retry ← of_value (from_mapping (s_retry (lr_stage r)));
          mret (if lease_matches_with r a retry lease then Some (r, a) else None)
      end
  end.

Definition advance_revision_clock (owner revision_id : string) (now : Z) : db unit :=
  update_one usages (owner, revision_id) (fun _ => true)
    (fun u => u <| us_clock_high_water := advance (us_clock_high_water u) now |>)
    (DurableStoreError "revision usage row is missing").

(** [_attempt_metrics]: the stored metrics updated, under their byte cap. *)
Definition attempt_metrics (a : Attempt) (updates : list (string * json))
  : db (list (string * json)) :=
  let value := obj_update (a_metrics a) updates in
  of_schema (canonical_json (JObj value) MAX_ATTEMPT_METRICS_JSON_BYTES) ;;
  mret value.

(** The lease has an expiry and it is not later than [current]. *)
Definition require_expiry (u : Unit) : db Z :=
  of_option (PyValueError "instant must be a UTC timestamp ending in Z") (u_expires u).

(** ** Promotion of due retries *)

Definition promote_unit (now : Z) (u : Unit) : Unit :=
  u <| u_state := U_PENDING |> <| u_next_attempt := None |> <| u_error := None |>
    <| u_partial := false |> <| u_detail := None |> <| u_updated := now |>.

Definition retry_due (now : Z) (u : Unit) : bool :=
  bool_decide (u_state u = U_RETRY_WAIT) && sql_le (u_next_attempt u) now.

Definition promote_due_retries (now count : Z) : db Z :=
  rows ← gets (fun s => limit count (order_by
    (fun a b => then_by (compare_opt (u_next_attempt a.2) (u_next_attempt b.2))
                  (then_by (compare_str a.1.1 b.1.1) (str_leb a.1.2 b.1.2)))
    (select_rows (units s) (fun _ u => retry_due now u))));
  for_each rows (fun ku =>
    update_one units (ku.1 : key2) (retry_due now) (promote_unit now)
      (DurableStoreError "retry promotion compare-and-set failed")) ;;
  mret (Z.of_nat (length rows)).

(** ** Claim *)

(** The workload and stage the fair candidate query selected, with the model
    token reservation it computed.  The query itself is an argument of the
    claim: the theorems hold for every selection. *)
Record Candidate : Type := mkCandidate {
  cd_owner : string; cd_workload : string; cd_revision : string; cd_stage : string;
  cd_required_tokens : option Z; cd_remaining_tokens : Z; cd_token_limit : Z }.

Definition dependency_count (s : Store) (owner revision_id unit_id : string) : Z :=
  count_rows (unit_dependencies s) (fun k _ =>
    bool_decide (k.1 = (owner, revision_id, unit_id))).

(** The unit predicate of the claim: automatically or manually retryable,
    due, with its dependencies materialised. *)
Definition claimable (s : Store) (k : key2) (u : Unit) (st : Stage) (r : Revision)
    (now : Z) : bool :=
  ((bool_decide (u_state u = U_PENDING)
    && match u_next_attempt u with None => true | Some t => t <=? now end
    && (match stage_max_attempts st with
        | Some m => u_attempt_count u <? m
        | None => false
        end || (0 <? u_tokens u)))
   || (bool_decide (u_state u = U_NEEDS_ATTENTION)
       && (u_generation u <? r_manual_generation r)))
  && (u_expected_deps u <=? MAX_UNIT_DEPENDENCIES)
  && (u_expected_deps u =? dependency_count s k.1 (u_revision u) k.2).

Record ClaimRow : Type := mkClaimRow {
  cr_owner : string; cr_unit_id : string; cr_unit : Unit; cr_revision : Revision;
  cr_workload : Workload; cr_stage : Stage }.

Definition claim_row_of (s : Store) (c : Candidate) (now : Z) (k : key2) (u : Unit)
  : option ClaimRow :=
  r ← revisions s !! (k.1, u_revision u);
  w ← workloads s !! (k.1, r_workload r);
  st ← stage_of s k.1 u;
  if str_eqb k.1 (cd_owner c) && str_eqb (u_revision u) (cd_revision c)
     && str_eqb (u_stage u) (cd_stage c) && sql_eq (w_active_revision w) (u_revision u)
     && claimable s k u st r now
  then Some (mkClaimRow k.1 k.2 u r w st) else None.

Definition by_readiness (a b : ClaimRow) : bool :=
  then_by (compare_opt (u_next_attempt (cr_unit a)) (u_next_attempt (cr_unit b)))
    (then_by (u_created (cr_unit a) ?= u_created (cr_unit b))
       (str_leb (u_key (cr_unit a)) (u_key (cr_unit b)))).

Definition select_claim_row (c : Candidate) (now : Z) : db (option ClaimRow) :=
  gets (fun s => head (order_by by_readiness
    (omap (fun ku => claim_row_of s c now ku.1 ku.2) (map_to_list (units s))))).

(** [UNIQUE(owner, unit_id, number)] and [UNIQUE(owner, unit_id, fence)]. *)
Definition attempt_unique (s : Store) (owner : string) (a : Attempt) : bool :=
  negb (exists_row (attempts s) (fun k b =>
    str_eqb k.1 owner && str_eqb (a_unit b) (a_unit a)
    && ((a_number b =? a_number a) || (a_fence b =? a_fence a)))).

Definition insert_attempt (owner attempt_id : string) (a : Attempt) : db unit :=
  fine ← gets (fun s => attempt_unique s owner a);
  check fine (IntegrityError "UNIQUE constraint failed: attempts") ;;
  insert_row attempts (owner, attempt_id) a.

Definition claim_unit (worker attempt_id : string) (number fence expiry now generation : Z)
    (token_retry : bool) (u : Unit) : Unit :=
  u <| u_generation := if bool_decide (u_state u = U_NEEDS_ATTENTION) then generation
                       else u_generation u |>
    <| u_state := U_LEASED |> <| u_attempt_count := number |> <| u_worker := Some worker |>
    <| u_active_attempt := Some attempt_id |> <| u_fence := fence |>
    <| u_expires := Some expiry |>
    <| u_tokens := u_tokens u - (if token_retry then 1 else 0) |>
    <| u_error := None |> <| u_partial := false |> <| u_detail := None |>
    <| u_next_attempt := None |> <| u_updated := now |>.

Definition start_queued_workload `{Host} (owner workload_id : string) (w : Workload) (now : Z)
    (reason_code : string) : db unit :=
  if negb (bool_decide (w_state w = QUEUED)) then mret tt
  else
    update_one workloads (owner, workload_id)
      (fun w' => bool_decide (w_state w' = QUEUED) && (w_version w' =? w_version w))
      (fun w' => w' <| w_state := RUNNING |> <| w_version := w_version w' + 1 |>
                    <| w_updated := now |>)
      (DurableStoreError "workload start compare-and-set failed") ;;
    append_event owner workload_id E_RUNNING
      [("previous_state", JStr (workload_value QUEUED));
       ("new_state", JStr (workload_value RUNNING));
       ("new_version", JInt (w_version w + 1)); ("reason_code", JStr reason_code)] ;;
    mret tt.

(** The credit row is created once, then takes the next selection number. *)
Definition advance_credit (owner workload_id : string) (now : Z) : db unit :=
  found ← gets (fun s => credits s !! (owner, workload_id));
  match found with
  | Some _ => mret tt
  | None => insert_row credits (owner, workload_id) (mkCredit 0 0 1 now)
  end ;;
  last ← gets (fun s =>
    fold_right Z.max 0 (map (fun kc => c_last_selected_seq kc.2) (map_to_list (credits s))));
  update_at credits (owner, workload_id) (fun _ => true)
    (fun c => c <| c_last_selected_seq := last + 1 |> <| c_updated := now |>) ;;
  mret tt.

(** Fence one selected unit: the attempt row, the compare-and-set on the unit,
    the wall clock of the revision, the workload's first start, the credit. *)
Definition fence_unit `{Host} (row : ClaimRow) (worker : string) (now expiry : Z) : db Lease :=
  let u := cr_unit row in
  let st := cr_stage row in
  let owner := cr_owner row in
  let number := u_attempt_count u + 1 in
  let fence := u_fence u + 1 in
  let generation := r_manual_generation (cr_revision row) in
  let attention_retry := bool_decide (u_state u = U_NEEDS_ATTENTION) in
  let token_retry := bool_decide (u_state u = U_PENDING) && (0 <? u_tokens u) in
  let manual_retry := attention_retry || token_retry in
  attempt_id ← new_id "att";
  retry ← of_value (from_mapping (s_retry st));
  let executor := [("schema_version", JStr "metnos.durable-executor-snapshot/1");
                   ("mode", JStr "dummy"); ("runner_kind", JStr (kind_value (s_runner_kind st)));
                   ("runner_name", JStr (s_runner_name st))] in
  let model := [("schema_version", JStr "metnos.durable-model-snapshot/1");
                ("binding", JNull)] in
  let metrics := [("schema_version", JStr "metnos.durable-attempt-metrics/1");
                  ("attempt_number", JInt number); ("execution_started", JBool false);
                  ("manual_retry", JBool manual_retry)] in
  of_schema (canonical_json (JObj executor) MAX_SNAPSHOT_JSON_BYTES) ;;
  insert_attempt owner attempt_id
    (mkAttempt (cr_unit_id row) number fence worker A_LEASED now None None executor model
       metrics None None) ;;
  update_one units (owner, cr_unit_id row)
    (fun u' => bool_decide (u_state u' = u_state u)
               && (u_attempt_count u' =? u_attempt_count u) && (u_fence u' =? u_fence u)
               && (negb token_retry || (0 <? u_tokens u'))
               && (negb attention_retry || (u_generation u' <? generation)))
    (claim_unit worker attempt_id number fence expiry now generation token_retry)
    (DurableStoreError "claim compare-and-set failed") ;;
  update_one usages (owner, u_revision u) (fun _ => true) (start_usage now)
    (DurableStoreError "revision usage row is missing") ;;
  start_queued_workload owner (r_workload (cr_revision row)) (cr_workload row) now
    "first_unit_claimed" ;;
  advance_credit owner (r_workload (cr_revision row)) now ;;
  output ← of_option (PyKeyError "name") (output_name st);
  of_value (lease_post_init {|
    l_owner := owner; l_workload := r_workload (cr_revision row);
    l_revision := u_revision u; l_stage := u_stage u; l_stage_key := s_key st;
    l_unit := cr_unit_id row; l_unit_key := u_key u; l_attempt := attempt_id;
    l_attempt_number := number; l_fence := fence; l_worker := worker; l_expires := expiry;
    l_runner_kind := s_runner_kind st; l_runner_name := s_runner_name st;
    l_effect := s_effect st; l_output_schema := py_str output;
    l_resources := s_resources st; l_retry := retry; l_timeout_s := s_timeout_s st;
    l_manual_retry := manual_retry |}).

Definition claim_next `{Host} (candidate_query : Store -> option Candidate)
    (worker_id : string) (now lease_duration : Z) : db (option Lease) :=
  worker ← of_value (require_worker_id worker_id);
  duration ← of_value (require_lease_duration lease_duration);
  promote_due_retries now 1000 ;;
  candidate ← gets candidate_query;
  match candidate with
  | None => mret None
  | Some c =>
      if (match cd_required_tokens c with
          | Some required => cd_remaining_tokens c <? required
          | None => false
          end : bool)
      then
        row ← select_workload (cd_owner c) (cd_workload c);
        automatic_transition (cd_owner c) (cd_workload c) row NEEDS_ATTENTION
          "budget_limit_exceeded"
          [("budget", JStr "max_tokens"); ("limit", JInt (cd_token_limit c));
           ("observed", JInt (cd_token_limit c - cd_remaining_tokens c));
           ("required_token_reservation", JInt (default 0 (cd_required_tokens c)));
           ("remaining", JInt (cd_remaining_tokens c))] (Some now) ;;
        mret None
      else
        found ← select_claim_row c now;
        row ← of_option (DurableStoreError "ready stage has no claimable unit") found;
        lease ← fence_unit row worker now (now + duration);
        mret (Some lease)
  end.

(** ** Run and heartbeat *)

(** The attempt and unit of a lease, still fenced and in the given states. *)
Definition attempt_held (lease : Lease) (states : list AttemptState) (a : Attempt) : bool :=
  str_eqb (a_unit a) (l_unit lease) && (a_fence a =? l_fence lease)
  && str_eqb (a_worker a) (l_worker lease) && bool_decide (a_state a ∈ states)
  && bool_decide (a_ended a = None).

Definition unit_held (lease : Lease) (states : list UnitState) (u : Unit) : bool :=
  sql_eq (u_active_attempt u) (l_attempt lease) && (u_fence u =? l_fence lease)
  && sql_eq (u_worker u) (l_worker lease) && bool_decide (u_state u ∈ states).

Definition attempt_key (lease : Lease) : key2 := (l_owner lease, l_attempt lease).
Definition unit_key (lease : Lease) : key2 := (l_owner lease, l_unit lease).

(** Both fenced updates must hit exactly one row. *)
Definition update_pair (lease : Lease) (astates : list AttemptState) (ustates : list UnitState)
    (fa : Attempt -> Attempt) (fu : Unit -> Unit) (what : string) : db unit :=
  changed_attempt ← update_at attempts (attempt_key lease) (attempt_held lease astates) fa;
  changed_unit ← update_at units (unit_key lease) (unit_held lease ustates) fu;
  check (changed_attempt && changed_unit) (DurableStoreError what).

Definition timeout (lease : Lease) : Z := l_timeout_s lease * second.

Definition mark_running `{Host} (lease : Lease) (now : option Z) : db LeaseMutationStatus :=
  current ← operation_now now;
  row ← select_lease_row lease;
  matched ← lease_matches row lease;
  match matched with
  | None => mret STALE_FENCE
  | Some (r, a) =>
      let u := lr_unit r in
      if clock_regressed (us_clock_high_water (lr_usage r)) current then mret LEASE_EXPIRED
      else
        stored_expiry ← require_expiry u;
        if stored_expiry <=? current then mret LEASE_EXPIRED
        else if bool_decide (u_state u = U_RUNNING) && bool_decide (a_state a = A_RUNNING)
        then mret ALREADY_APPLIED
        else if negb (bool_decide (u_state u = U_LEASED))
                || negb (bool_decide (a_state a = A_LEASED))
        then mret INVALID_STATE
        else
          metrics ← attempt_metrics a
            [("execution_started", JBool true);
             ("execution_started_at", JStr (instant_text current))];
          update_pair lease [A_LEASED] [U_LEASED]
            (fun a => a <| a_state := A_RUNNING |> <| a_metrics := metrics |>)
            (fun u => u <| u_state := U_RUNNING |>
                        <| u_expires := Some (Z.min stored_expiry (current + timeout lease)) |>
                        <| u_updated := current |>)
            "mark-running compare-and-set failed" ;;
          advance_revision_clock (l_owner lease) (l_revision lease) current ;;
          mret APPLIED
  end.

(** [metrics.get("execution_started_at")] when it is a string. *)
Definition started_text (a : Attempt) : option string :=
  match obj_get "execution_started_at" (a_metrics a) with
  | Some (JStr t) => Some t
  | _ => None
  end.

Definition parse_started (t : string) : db Z :=
  of_option (PyValueError "execution_started_at is not a valid timestamp") (parse_instant t).

Definition extend_lease `{Host} (lease : Lease) (expiry current stored_expiry : Z)
  : db LeaseMutationStatus :=
  check (stored_expiry <? expiry) (PyValueError "new_expiry must extend the persisted lease") ;;
  update_one units (unit_key lease)
    (fun u => unit_held lease [U_LEASED; U_RUNNING] u
              && match u_expires u with Some t => current <? t | None => false end)
    (fun u => u <| u_expires := Some expiry |> <| u_updated := current |>)
    (DurableStoreError "heartbeat compare-and-set failed") ;;
  advance_revision_clock (l_owner lease) (l_revision lease) current ;;
  mret APPLIED.

Definition heartbeat `{Host} (lease : Lease) (new_expiry : Z) (now : option Z)
  : db LeaseMutationStatus :=
  current ← operation_now now;
  of_value (require_lease_duration (new_expiry - current)) ;;
  row ← select_lease_row lease;
  matched ← lease_matches row lease;
  match matched with
  | None => mret STALE_FENCE
  | Some (r, a) =>
      let u := lr_unit r in
      if clock_regressed (us_clock_high_water (lr_usage r)) current then mret LEASE_EXPIRED
      else if negb (is_active u) then mret INVALID_STATE
      else
        stored_expiry ← require_expiry u;
        if stored_expiry <=? current then mret LEASE_EXPIRED
        else if bool_decide (u_state u = U_RUNNING) then
          match started_text a with
          | None => mret INVALID_STATE
          | Some t =>
              started ← parse_started t;
              check (new_expiry <=? started + timeout lease)
                (PyValueError "new_expiry cannot exceed the frozen execution deadline") ;;
              extend_lease lease new_expiry current stored_expiry
          end
        else extend_lease lease new_expiry current stored_expiry
  end.

(** ** Commit *)

(** [_model_usage_is_complete]. *)
Definition model_is_llm (a : Attempt) : bool := json_is_str (obj_get "mode" (a_model a)) "llm".

Definition frozen_model_contract (r : Revision) (stage_key : string) : bool :=
  match obj_get "entries" (r_catalog r) with
  | Some (JArr entries) =>
      existsb (fun e => match e with
                        | JObj fields =>
                            json_is_str (obj_get "stage_key" fields) stage_key
                            && match obj_get "model_binding_digest" fields with
                               | None | Some JNull => false
                               | Some _ => true
                               end
                        | _ => false
                        end) entries
  | _ => false
  end.

Definition json_is_false (v : option json) : bool :=
  match v with Some (JBool false) => true | _ => false end.

Definition model_usage_is_complete (row : LeaseRow) (a : Attempt) : bool :=
  if negb (model_is_llm a)
  then negb (frozen_model_contract (lr_revision row) (s_key (lr_stage row)))
  else match obj_get "llm_usage" (a_metrics a) with
       | Some (JObj usage) =>
           json_is_str (obj_get "schema_version" usage) "metnos.durable-model-usage/2"
           && json_is_false (obj_get "usage_missing" usage)
           && json_is_false (obj_get "cost_unknown" usage)
       | _ => false
       end.

(** [_mark_unaccounted_model_usage_unknown_in_transaction]. *)
Definition mark_unaccounted_usage (row : LeaseRow) (a : Attempt) (now : Z) : db bool :=
  if negb (model_is_llm a) || model_usage_is_complete row a then mret false
  else
    add_revision_usage (lr_owner row) (u_revision (lr_unit row)) no_increments true now ;;
    mret true.

Record PlannedDependency : Type := mkPlanned {
  pd_result : string; pd_role : string; pd_ordinal : Z; pd_physical_stage : string;
  pd_role_stage : string; pd_parent_level : option Z; pd_declared : bool }.

(** One row of the lineage query: the planned source result, its unit and
    physical stage, the stage its role names and whether the plan declares
    that edge. *)
Definition planned_row (s : Store) (owner revision_id stage_id : string)
    (k : key3 * string) (d : UnitDependency) : option PlannedDependency :=
  res ← results s !! (owner, k.2);
  parent ← units s !! (owner, res_unit res);
  if str_eqb (res_revision res) revision_id && str_eqb (u_revision parent) revision_id then
    physical ← stage_of s owner parent;
    role ← head (select_rows (stages s) (fun sk st =>
      str_eqb sk.1 owner && str_eqb (s_revision st) revision_id && str_eqb (s_key st) (ud_role d)));
    Some (mkPlanned k.2 (ud_role d) (ud_ordinal d) (u_stage parent) role.1.2 (u_level parent)
            (bool_decide (is_Some (stage_dependencies s !! (owner, revision_id, stage_id, role.1.2)))))
  else None.

Definition planned_dependencies (s : Store) (owner revision_id stage_id unit_id : string)
  : list PlannedDependency :=
  order_by (fun a b => pd_ordinal a <=? pd_ordinal b)
    (omap (fun kd => planned_row s owner revision_id stage_id kd.1 kd.2)
       (select_rows (unit_dependencies s) (fun k _ =>
          bool_decide (k.1 = (owner, revision_id, unit_id))))).

Definition in_admitted_graph (stage_id : string) (level fan_in : option Z)
    (d : PlannedDependency) : bool :=
  let direct := str_eqb (pd_physical_stage d) (pd_role_stage d) in
  let recursive :=
    match fan_in, level, pd_parent_level d with
    | Some _, Some l, Some p =>
        (0 <? l) && str_eqb (pd_physical_stage d) stage_id && (p =? l - 1)
    | _, _, _ => false
    end in
  pd_declared d && (direct || recursive).

Definition validated_result_dependencies (owner revision_id stage_id unit_id : string)
    (expected_count : Z) (level fan_in : option Z) : db (list PlannedDependency) :=
  check (expected_count <=? MAX_UNIT_DEPENDENCIES)
    (ResultContractError "result dependency count exceeds the bound") ;;
  rows ← gets (fun s => limit (expected_count + 1)
    (planned_dependencies s owner revision_id stage_id unit_id));
  check (Z.of_nat (length rows) =? expected_count)
    (ResultContractError "result dependency lineage is incomplete") ;;
  check (forallb (in_admitted_graph stage_id level fan_in) rows)
    (ResultContractError "result dependency is outside the admitted graph") ;;
  mret rows.

(** Ordinals are counted per role, in the planned order. *)
Fixpoint insert_result_dependencies (owner revision_id result_id : string)
    (seen : list string) (rows : list PlannedDependency) : db unit :=
  match rows with
  | [] => mret tt
  | d :: rest =>
      let ordinal := Z.of_nat (length (List.filter (fun r => str_eqb r (pd_role d)) seen)) in
      insert_row dependencies (owner, revision_id, result_id, pd_result d, pd_role d)
        (mkDependency ordinal) ;;
      insert_result_dependencies owner revision_id result_id (pd_role d :: seen) rest
  end.

Record CommitOutcome : Type := mkCommitOutcome {
  co_status : CommitStatus; co_result : option string; co_winning : option string;
  co_proposed : string; co_stage_terminal : bool }.

Definition stage_is_terminal (s : Store) (owner revision_id stage_id : string) : bool :=
  negb (exists_row (units s) (fun k u =>
    in_revision owner revision_id k u && str_eqb (u_stage u) stage_id
    && negb (bool_decide (u_state u ∈ TERMINAL_UNIT_STATES)))).

(** The verdict on a unit that already has its result. *)
Definition existing_verdict (lease : Lease) (v : ValidatedResult) (result_id : string)
    (existing : Result) : CommitOutcome :=
  let same_attempt :=
    str_eqb (res_attempt existing) (l_attempt lease) && (res_fence existing =? l_fence lease) in
  mkCommitOutcome
    (if negb same_attempt then C_STALE_FENCE
     else if str_eqb (res_digest existing) (vr_digest v) then C_IDEMPOTENT_REPLAY
     else C_DIGEST_CONFLICT)
    (Some result_id) (Some (res_digest existing)) (vr_digest v) false.

Definition rejected (status : CommitStatus) (v : ValidatedResult) : CommitOutcome :=
  mkCommitOutcome status None None (vr_digest v) false.

Definition result_provenance (lease : Lease) (v : ValidatedResult) (a : Attempt)
    (metrics : list (string * json)) : db (list (string * json)) :=
  executor_digest ← of_schema (digest_json "durable-executor-snapshot" (JObj (a_executor a))
                                 MAX_SNAPSHOT_JSON_BYTES);
  model_digest ← of_schema (digest_json "durable-model-snapshot" (JObj (a_model a))
                              MAX_SNAPSHOT_JSON_BYTES);
  metrics_digest ← of_schema (digest_json "durable-attempt-metrics" (JObj metrics)
                                MAX_ATTEMPT_METRICS_JSON_BYTES);
  let provenance :=
    [("schema_version", JStr "metnos.durable-result-provenance/1");
     ("attempt_id", JStr (l_attempt lease)); ("fence", JInt (l_fence lease));
     ("runner_kind", JStr (kind_value (l_runner_kind lease)));
     ("runner_name", JStr (l_runner_name lease));
     ("validation", JStr (if json_is_str (obj_get "mode" (a_executor a)) "dummy"
                          then "dummy_contract" else "approved_output_schema"));
     ("output_schema", JStr (vr_schema v));
     ("executor_snapshot_digest", JStr executor_digest);
     ("model_snapshot_digest", JStr model_digest);
     ("metrics_digest", JStr metrics_digest);
     ("usage_missing", JBool (truthy (obj_get "usage_missing" metrics)))] in
  of_schema (canonical_json (JObj provenance) MAX_SNAPSHOT_JSON_BYTES) ;;
  mret provenance.

(** Accounting of a commit: the payload bytes are added, then every budget is
    checked with them in. *)
Definition account_commit (lease : Lease) (v : ValidatedResult) (row : LeaseRow) (a : Attempt)
    (current : Z) : db unit :=
  check (model_usage_is_complete row a) (BudgetExceededError accounting_violation) ;;
  add_revision_usage (l_owner lease) (l_revision lease)
    (Build_increments 0 (byte_len (dumps (JObj (vr_payload v)))) 0 0 0 0) false current ;;
  found ← budget_violation_in (l_owner lease) (l_workload lease) (l_revision lease) current;
  match found with
  | Some violation => raise (BudgetExceededError violation)
  | None => advance_revision_clock (l_owner lease) (l_revision lease) current
  end.

Definition insert_result (owner result_id : string) (row : Result) : db unit :=
  taken ← gets (fun s => exists_row (results s) (fun k r =>
    str_eqb k.1 owner && str_eqb (res_unit r) (res_unit row)));
  check (negb taken) (IntegrityError "UNIQUE constraint failed: results.unit_id") ;;
  insert_row results (owner, result_id) row.

(** Everything a commit writes once its lease and its clock are accepted. *)
Definition store_result `{Host} (lease : Lease) (v : ValidatedResult)
    (dependency_ids : list string) (row : LeaseRow) (a : Attempt) (current : Z)
  : db CommitOutcome :=
  let u := lr_unit row in
  check (json_is_str (output_name (lr_stage row)) (vr_schema v))
    (ResultContractError "result schema does not match the frozen stage output schema") ;;
  planned ← validated_result_dependencies (l_owner lease) (l_revision lease) (l_stage lease)
              (l_unit lease) (u_expected_deps u) (u_level u) (s_reduction_fan_in (lr_stage row));
  check (forallb (fun d => bool_decide (d ∈ map pd_result planned)) dependency_ids
         && forallb (fun d => bool_decide (d ∈ dependency_ids)) (map pd_result planned))
    (ResultContractError "result dependencies do not match the materialized unit") ;;
  account_commit lease v row a current ;;
  metrics ← attempt_metrics a
    [("result_digest", JStr (vr_digest v)); ("committed", JBool true);
     ("dependency_count", JInt (Z.of_nat (length planned)))];
  result_id ← new_id "res";
  provenance ← result_provenance lease v a metrics;
  insert_result (l_owner lease) result_id
    (mkResult (l_revision lease) (l_unit lease) (l_attempt lease) (l_fence lease) (vr_digest v)
       (vr_schema v) (vr_payload v) provenance current) ;;
  insert_result_dependencies (l_owner lease) (l_revision lease) result_id [] planned ;;
  detail ← of_schema (domain_terminal_detail (vr_payload v));
  update_pair lease [A_RUNNING] [U_RUNNING]
    (fun a => a <| a_state := A_SUCCEEDED |> <| a_ended := Some current |>
                <| a_metrics := metrics |>)
    (fun u => u <| u_state := U_COMMITTED |> <| u_result := Some result_id |>
                <| u_worker := None |> <| u_active_attempt := None |> <| u_expires := None |>
                <| u_next_attempt := None |> <| u_error := None |> <| u_partial := false |>
                <| u_detail := detail |> <| u_updated := current |>)
    "result commit compare-and-set failed" ;;
  settle (l_owner lease) (l_workload lease) current false UNIT_STATE_BATCH_SIZE ;;
  terminal ← gets (fun s => stage_is_terminal s (l_owner lease) (l_revision lease) (l_stage lease));
  mret (mkCommitOutcome C_COMMITTED (Some result_id) (Some (vr_digest v)) (vr_digest v) terminal).

Definition commit_result `{Host} (lease : Lease) (v : ValidatedResult)
    (dependency_ids : list string) (now : option Z) : db CommitOutcome :=
  check (forallb id_re dependency_ids && bool_decide (NoDup dependency_ids))
    (ResultContractError "result dependency identifiers are invalid") ;;
  current ← operation_now now;
  row ← select_lease_row lease;
  existing ← gets (fun s => head (select_rows (results s) (fun k r =>
    str_eqb k.1 (l_owner lease) && str_eqb (res_unit r) (l_unit lease))));
  match existing with
  | Some (k, r) => mret (existing_verdict lease v k.2 r)
  | None =>
      matched ← lease_matches row lease;
      match matched with
      | None => mret (rejected C_STALE_FENCE v)
      | Some (r, a) =>
          if negb (bool_decide (u_state (lr_unit r) = U_RUNNING))
             || negb (bool_decide (a_state a = A_RUNNING))
          then mret (rejected C_INVALID_STATE v)
          else match started_text a with
               | None => mret (rejected C_INVALID_STATE v)
               | Some t =>
                   started ← parse_started t;
                   if started + timeout lease <=? current
                   then mret (rejected C_DEADLINE_EXPIRED v)
                   else
                     expiry ← require_expiry (lr_unit r);
                     if expiry <=? current then mret (rejected C_LEASE_EXPIRED v)
                     else store_result lease v dependency_ids r a current
               end
      end
  end.

(** ** Failure *)

(** The disposition of a failed attempt: the unit's next state, when it may be
    retried and the status reported. *)
Record Disposition : Type := mkDisposition {
  ds_state : UnitState; ds_next : option Z; ds_status : FailureStatus }.

Definition failure_disposition (lease : Lease) (policy : RetryPolicy) (derived : RetryDecision)
    (current : Z) : db Disposition :=
  match derived with
  | RETRY =>
      delay ← of_value (deterministic_retry_delay_ms (l_unit_key lease) (l_attempt_number lease)
                          (base_delay_ms policy) (max_delay_ms policy));
      mret (mkDisposition U_RETRY_WAIT (Some (current + delay * 1000)) F_RETRY_SCHEDULED)
  | DECIDE_ATTENTION => mret (mkDisposition U_NEEDS_ATTENTION None F_NEEDS_ATTENTION)
  | FAIL_PERMANENT => mret (mkDisposition U_FAILED_PERMANENT None F_FAILED_PERMANENT)
  end.

(** Attention turns an automatic or absent retry mode into a manual one. *)
Definition error_for_attention (e : StructuredAttemptError)
  : result schema_error StructuredAttemptError :=
  if str_field "retry" (fun s => bool_decide (s ∈ ["automatic"; "never"])) (se_payload e)
  then structured_error_post_init
         (mkStructuredError (se_class e) (obj_set "retry" (JStr "manual") (se_payload e)))
  else Ok e.

(** An expired lease is still failed when the attempt timed out at its frozen
    deadline. *)
Definition deadline_reached (lease : Lease) (a : Attempt) (current : Z) : db bool :=
  match started_text a with
  | None => mret false
  | Some t => started ← parse_started t; mret (started + timeout lease <=? current)
  end.

Definition store_failure `{Host} (lease : Lease) (e : StructuredAttemptError)
    (retry_decision : RetryDecision) (attempt_state : AttemptState) (row : LeaseRow)
    (a : Attempt) (current : Z) : db (FailureStatus * option Z) :=
  policy ← of_value (from_mapping (s_retry (lr_stage row)));
  derived ← of_value (decide_retry (l_effect lease) policy (l_attempt_number lease) (se_class e)
                        (l_manual_retry lease));
  check (bool_decide (retry_decision = derived)) RetryDecisionConflictError ;;
  let regressed := clock_regressed (us_clock_high_water (lr_usage row)) current in
  usage_unknown ← mark_unaccounted_usage row a current;
  let final := if (usage_unknown : bool) || regressed then DECIDE_ATTENTION else derived in
  e ← (if bool_decide (final = DECIDE_ATTENTION) then of_schema (error_for_attention e)
       else mret e);
  disposition ← failure_disposition lease policy final current;
  metrics ← attempt_metrics a
    [(if bool_decide (attempt_state = A_TIMED_OUT) then "timed_out" else "failed", JBool true);
     ("error_class", JStr (se_class e)); ("retry_decision", JStr (decision_value final));
     ("usage_accounting_unknown", JBool usage_unknown); ("clock_regressed", JBool regressed)];
  let attention := bool_decide (ds_state disposition = U_NEEDS_ATTENTION) in
  update_pair lease [A_RUNNING] [U_RUNNING]
    (fun a => a <| a_state := attempt_state |> <| a_ended := Some current |>
                <| a_error := Some (se_payload e) |> <| a_metrics := metrics |>)
    (fun u => u <| u_state := ds_state disposition |>
                <| u_next_attempt := ds_next disposition |> <| u_worker := None |>
                <| u_active_attempt := None |> <| u_expires := None |>
                <| u_error := Some (se_class e) |> <| u_detail := Some (se_payload e) |>
                <| u_generation := if attention then r_manual_generation (lr_revision row)
                                   else u_generation u |>
                <| u_updated := current |>)
    "attempt failure compare-and-set failed" ;;
  advance_revision_clock (l_owner lease) (l_revision lease) current ;;
  settle (l_owner lease) (l_workload lease) current false UNIT_STATE_BATCH_SIZE ;;
  mret (ds_status disposition, ds_next disposition).

Definition fail_attempt `{Host} (lease : Lease) (e : StructuredAttemptError)
    (retry_decision : RetryDecision) (attempt_state : AttemptState) (now : option Z)
  : db (FailureStatus * option Z) :=
  check (bool_decide (attempt_state ∈ [A_FAILED; A_TIMED_OUT]))
    (PyValueError "attempt_state must be failed or timed_out") ;;
  current ← operation_now now;
  row ← select_lease_row lease;
  matched ← lease_matches row lease;
  match matched with
  | None => mret (F_STALE_FENCE, None)
  | Some (r, a) =>
      if negb (bool_decide (u_state (lr_unit r) = U_RUNNING))
         || negb (bool_decide (a_state a = A_RUNNING))
      then mret (F_INVALID_STATE, None)
      else
        expiry ← require_expiry (lr_unit r);
        reached ← (if expiry <=? current then deadline_reached lease a current else mret true);
        if (expiry <=? current)
           && (negb (bool_decide (attempt_state = A_TIMED_OUT)) || negb reached)
        then mret (F_LEASE_EXPIRED, None)
        else store_failure lease e retry_decision attempt_state r a current
  end.

(** ** Abandonment *)

Definition store_abandonment `{Host} (lease : Lease) (reason_code : string) (row : LeaseRow)
    (a : Attempt) (current : Z) : db LeaseMutationStatus :=
  let u := lr_unit row in
  let before_execution := bool_decide (u_state u = U_LEASED) in
  let regressed := clock_regressed (us_clock_high_water (lr_usage row)) current in
  usage_unknown ← (if before_execution then mret false else mark_unaccounted_usage row a current);
  let manual_grant_returned := l_manual_retry lease && before_execution in
  let retry_available :=
    ((l_attempt_number lease <? max_attempts (l_retry lease)) || manual_grant_returned)
    && negb usage_unknown && negb regressed in
  let target := if negb retry_available then U_NEEDS_ATTENTION
                else if before_execution then U_PENDING else U_RETRY_WAIT in
  let next := if bool_decide (target = U_RETRY_WAIT) then Some current else None in
  error ← of_schema (structured_error_create "cancelled" ("attempt." +:+ reason_code)
    "ERR_DURABLE_ATTEMPT_ABANDONED" (if retry_available then "automatic" else "manual") current
    [("retry_safe", JBool (negb usage_unknown && negb regressed));
     ("retry_budget_available", JBool retry_available)]);
  metrics ← attempt_metrics a
    [("abandoned", JBool true); ("abandonment_reason", JStr reason_code);
     ("usage_accounting_unknown", JBool usage_unknown); ("clock_regressed", JBool regressed)];
  update_pair lease [A_LEASED; A_RUNNING] [U_LEASED; U_RUNNING]
    (fun a => a <| a_state := A_ABANDONED |> <| a_ended := Some current |>
                <| a_error := Some (se_payload error) |> <| a_metrics := metrics |>)
    (fun u => u <| u_state := target |> <| u_next_attempt := next |> <| u_worker := None |>
                <| u_active_attempt := None |> <| u_expires := None |>
                <| u_error := if retry_available then None else Some "cancelled" |>
                <| u_tokens := u_tokens u + (if manual_grant_returned then 1 else 0) |>
                <| u_generation := if bool_decide (target = U_NEEDS_ATTENTION)
                                   then r_manual_generation (lr_revision row)
                                   else u_generation u |>
                <| u_partial := false |>
                <| u_detail := if retry_available then None else Some (se_payload error) |>
                <| u_updated := current |>)
    "attempt abandonment compare-and-set failed" ;;
  advance_revision_clock (l_owner lease) (l_revision lease) current ;;
  settle (l_owner lease) (l_workload lease) current false UNIT_STATE_BATCH_SIZE ;;
  mret APPLIED.

Definition already_abandoned (lease : Lease) (row : option LeaseRow) : bool :=
  match row with
  | Some r =>
      match lr_attempt r with
      | Some a => (a_fence a =? l_fence lease) && bool_decide (a_state a = A_ABANDONED)
      | None => false
      end
  | None => false
  end.

Definition abandon_attempt `{Host} (lease : Lease) (reason_code : string) (now : option Z)
  : db LeaseMutationStatus :=
  check (bool_decide (reason_code ∈ ["worker_shutdown"; "execution_not_started"]))
    (PyValueError "reason_code is not a closed F3 abandonment reason") ;;
  current ← operation_now now;
  row ← select_lease_row lease;
  if already_abandoned lease row then mret ALREADY_APPLIED
  else
    matched ← lease_matches row lease;
    match matched with
    | None => mret STALE_FENCE
    | Some (r, a) =>
        if negb (is_active (lr_unit r)) then mret INVALID_STATE
        else if negb (bool_decide (l_effect lease = PURE)) then mret INVALID_STATE
        else store_abandonment lease reason_code r a current
    end.

(** ** Reconciliation of expired leases *)

(** The probe and the selection share this test: an expired lease, or a clock
    behind the revision's high water or the unit's last write. *)
Definition lease_lapsed `{Host} (now : Z) (u : Unit) (clock_high_water : option Z) : bool :=
  is_active u
  && (sql_le (u_expires u) now
      || match clock_high_water with Some t => julian_after t now | None => false end
      || julian_after (u_updated u) now).

Definition reconcile_possible `{Host} (now : Z) (s : Store) : bool :=
  exists_row (units s) (fun k u =>
    lease_lapsed now u (us ← usages s !! (k.1, u_revision u); us_clock_high_water us)
    || retry_due now u).

Record ExpiredRow : Type := mkExpiredRow {
  er_row : LeaseRow; er_attempt_id : string; er_attempt : Attempt }.

Definition expired_row `{Host} (s : Store) (now : Z) (k : key2) (u : Unit)
  : option ExpiredRow :=
  attempt_id ← u_active_attempt u;
  row ← joined_row s k.1 k.2 attempt_id;
  a ← lr_attempt row;
  if (a_fence a =? u_fence u) && lease_lapsed now u (us_clock_high_water (lr_usage row))
  then Some (mkExpiredRow row attempt_id a) else None.

Definition by_expiry (a b : ExpiredRow) : bool :=
  let ra := er_row a in let rb := er_row b in
  then_by (compare_opt (u_expires (lr_unit ra)) (u_expires (lr_unit rb)))
    (then_by (compare_str (lr_owner ra) (lr_owner rb)) (str_leb (lr_unit_id ra) (lr_unit_id rb))).

Record ReconcileOutcome : Type := mkReconcileOutcome {
  rc_expired : Z; rc_returned : Z; rc_retrying : Z; rc_failed : Z; rc_attention : Z;
  rc_promoted : Z }.

Definition no_reconcile : ReconcileOutcome := mkReconcileOutcome 0 0 0 0 0 0.

(** The retry mode recorded in the error of a lost lease. *)
Definition lost_retry_mode (effect : DurableEffect) (policy : RetryPolicy) (attempt_number : Z)
    (before_execution manual_retry poisoned : bool) : string :=
  if poisoned then "manual"
  else if negb before_execution && bool_decide (effect = RECONCILABLE) then "reconcile"
  else if negb before_execution && bool_decide (effect = MANUAL_ONLY) then "manual"
  else if manual_retry then "manual"
  else if max_attempts policy <=? attempt_number then "manual"
  else "automatic".

(** Where a lost lease leaves its unit: nothing was executed yet, or a retry of
    a replayable stage is still in the budget, or somebody must look. *)
Definition lost_target (effect : DurableEffect) (policy : RetryPolicy) (attempt_number : Z)
    (before_execution manual_retry poisoned : bool) : UnitState :=
  if poisoned then U_NEEDS_ATTENTION
  else if before_execution then
    if (attempt_number <? max_attempts policy) || manual_retry then U_PENDING
    else U_NEEDS_ATTENTION
  else if bool_decide (effect ∈ [RECONCILABLE; MANUAL_ONLY]) || manual_retry
  then U_NEEDS_ATTENTION
  else if attempt_number <? max_attempts policy then U_RETRY_WAIT
  else U_NEEDS_ATTENTION.

(** The two fenced updates of one lost lease. *)
Definition update_lost (x : ExpiredRow) (fa : Attempt -> Attempt) (fu : Unit -> Unit) : db unit :=
  let row := er_row x in
  let u := lr_unit row in
  changed_attempt ← update_at attempts (lr_owner row, er_attempt_id x)
    (fun a => str_eqb (a_unit a) (lr_unit_id row) && (a_fence a =? u_fence u)
              && sql_eq (u_worker u) (a_worker a)
              && bool_decide (a_state a = a_state (er_attempt x)) && bool_decide (a_ended a = None))
    fa;
  changed_unit ← update_at units (lr_owner row, lr_unit_id row)
    (fun u' => bool_decide (u_state u' = u_state u)
               && sql_eq (u_active_attempt u') (er_attempt_id x) && (u_fence u' =? u_fence u)
               && match u_worker u with Some w => sql_eq (u_worker u') w | None => false end)
    fu;
  check (changed_attempt && changed_unit)
    (DurableStoreError "expired lease compare-and-set failed").

Definition reconcile_one `{Host} (now : Z) (x : ExpiredRow) : db UnitState :=
  let row := er_row x in
  let a := er_attempt x in
  let u := lr_unit row in
  let number := u_attempt_count u in
  let effect := s_effect (lr_stage row) in
  policy ← of_value (from_mapping (s_retry (lr_stage row)));
  let manual_retry :=
    match obj_get "manual_retry" (a_metrics a) with Some (JBool true) => true | _ => false end in
  let before_execution := bool_decide (u_state u = U_LEASED) in
  let regressed := clock_regressed (us_clock_high_water (lr_usage row)) now
                   || clock_regressed (Some (u_updated u)) now in
  usage_unknown ← (if before_execution then mret false else mark_unaccounted_usage row a now);
  let poisoned := usage_unknown || regressed in
  error ← of_schema (structured_error_create "lease_lost"
    (if regressed then "lease.clock_regressed"
     else if before_execution then "lease.expired_before_execution"
     else "lease.expired_during_execution") "ERR_DURABLE_LEASE_EXPIRED"
    (lost_retry_mode effect policy number before_execution manual_retry poisoned) now
    [("execution_started", JBool (negb before_execution)); ("attempt_number", JInt number);
     ("max_attempts", JInt (max_attempts policy));
     ("usage_accounting_unknown", JBool usage_unknown); ("clock_regressed", JBool regressed)]);
  metrics ← attempt_metrics a
    [("lease_expired", JBool true); ("reconciled_at", JStr (instant_text now));
     ("usage_accounting_unknown", JBool usage_unknown); ("clock_regressed", JBool regressed)];
  let target := lost_target effect policy number before_execution manual_retry poisoned in
  next ← (if bool_decide (target = U_RETRY_WAIT) then
            delay ← of_value (deterministic_retry_delay_ms (u_key u) number
                                (base_delay_ms policy) (max_delay_ms policy));
            expiry ← require_expiry u;
            mret (Some (expiry + delay * 1000))
          else mret None);
  update_lost x
    (fun a => a <| a_state := if before_execution then A_ABANDONED else A_TIMED_OUT |>
                <| a_ended := Some now |> <| a_error := Some (se_payload error) |>
                <| a_metrics := metrics |>)
    (fun u => u <| u_state := target |> <| u_next_attempt := next |> <| u_worker := None |>
                <| u_active_attempt := None |> <| u_expires := None |>
                <| u_tokens := u_tokens u + (if before_execution && manual_retry then 1 else 0) |>
                <| u_generation := if bool_decide (target = U_NEEDS_ATTENTION)
                                   then r_manual_generation (lr_revision row)
                                   else u_generation u |>
                <| u_error := Some "lease_lost" |> <| u_detail := Some (se_payload error) |>
                <| u_updated := now |>) ;;
  advance_revision_clock (lr_owner row) (u_revision u) now ;;
  mret target.

Definition count_states (p : UnitState) (l : list UnitState) : Z :=
  Z.of_nat (length (List.filter (fun t => bool_decide (t = p)) l)).

Definition affected_workload (x : ExpiredRow) : key2 :=
  (lr_owner (er_row x), r_workload (lr_revision (er_row x))).

Definition key_leb (a b : key2) : bool := then_by (compare_str a.1 b.1) (str_leb a.2 b.2).

Definition reconcile_expired `{Host} (now batch_size : Z) : db ReconcileOutcome :=
  check ((1 <=? batch_size) && (batch_size <=? 1000))
    (PyValueError "batch_size must be an integer in 1..1000") ;;
  possible ← gets (reconcile_possible now);
  if negb possible then mret no_reconcile
  else
    rows ← gets (fun s => limit batch_size (order_by by_expiry
      (omap (fun ku => expired_row s now ku.1 ku.2) (map_to_list (units s)))));
    targets ← collect rows (fun x => t ← reconcile_one now x; mret (Some t));
    promoted ← promote_due_retries now (Z.max 0 (batch_size - Z.of_nat (length rows)));
    for_each (order_by key_leb (remove_dups (map affected_workload rows)))
      (fun k => settle k.1 k.2 now false UNIT_STATE_BATCH_SIZE ;; mret tt) ;;
    mret (mkReconcileOutcome (Z.of_nat (length rows)) (count_states U_PENDING targets)
            (count_states U_RETRY_WAIT targets) 0 (count_states U_NEEDS_ATTENTION targets)
            promoted).
