(* ===== verification/DurableCompletion.v ===== *)
(** * Evaluation of completion

    [evaluate_completion] of src/runtime/durable_workloads/storage.py: the nine
    checks over the facts of the active revision, the reasons they give, and
    the terminal event, notifications and guarded update that follow when there
    is none.  Each aggregate of the SQL statements is a definition over the
    store; the reasons are collected in the order of the code, each once. *)
From Stdlib Require Import Strings.String.
From S2P Require Import Prelude.
From S2P Require Import PyJson.
From S2P Require Import DurableModels.
From S2P Require Import DurableTables.
From S2P Require Import DurableOutbox.
From S2P Require Import DurableWorkflow.
Local Open Scope Z_scope.

(** ** Counters *)

Record UnitCounters : Type := mkUnitCounters {
  uc_discovered : Z; uc_committed : Z; uc_failed : Z; uc_skipped : Z;
  uc_attention : Z; uc_pending : Z }.

Definition of_active (owner : string) (revision_id : option string) (k : key2) (r : string) : bool :=
  str_eqb k.1 owner && sql_eq revision_id r.

Definition count_units (s : Store) (owner : string) (revision_id : option string)
    (states : list UnitState) : Z :=
  count_rows (units s) (fun k u =>
    of_active owner revision_id k (u_revision u) && bool_decide (u_state u ∈ states)).

(** [unit_counters]: the page query for one workload. *)
Definition unit_counters (owner workload_id : string) : db UnitCounters :=
  require_owner owner ;;
  check (id_re workload_id)
    (PyValueError "workload_ids contains invalid or duplicate identifiers") ;;
  found ← gets (fun s => workloads s !! (owner, workload_id));
  row ← of_option WorkloadNotFoundError found;
  let rid := w_active_revision row in
  gets (fun s => mkUnitCounters
    (count_rows (sources s) (fun k src => of_active owner rid k (src_revision src)))
    (count_units s owner rid [U_COMMITTED])
    (count_units s owner rid [U_FAILED_PERMANENT; U_CANCELLED])
    (count_units s owner rid [U_SKIPPED])
    (count_units s owner rid [U_NEEDS_ATTENTION])
    (count_units s owner rid [U_PENDING; U_LEASED; U_RUNNING; U_RETRY_WAIT])).

(** ** The facts of a revision *)

Section Facts.
Context (s : Store) (owner revision_id : string).

Definition count_sources (p : Source -> bool) : Z :=
  count_rows (sources s) (fun k src =>
    str_eqb k.1 owner && str_eqb (src_revision src) revision_id && p src).

Definition unavailable (src : Source) : bool :=
  bool_decide (src_state src ∈ ["unstable"; "missing"]).

Definition incomplete_materialization : bool :=
  exists_row (materializations s) (fun k m =>
    str_eqb k.1.1 owner && str_eqb k.1.2 revision_id
    && (negb (mat_completed m) || bool_decide (is_Some (mat_attention_code m)))).

Definition stage_unit_count (stage_id : string) : Z :=
  count_rows (units s) (fun k u =>
    in_revision owner revision_id k u && str_eqb (u_stage u) stage_id).

Definition expected_units (r : Revision) (st : Stage) : Z :=
  if str_eqb (s_cardinality st) "per_source" then r_expected_sources r
  else if str_eqb (s_cardinality st) "singleton" then 1 else 0.

Definition units_missing (r : Revision) : bool :=
  exists_row (stages s) (fun k st =>
    str_eqb k.1 owner && str_eqb (s_revision st) revision_id
    && s_required st && negb (str_eqb (s_type st) "inventory")
    && (stage_unit_count k.2 <? expected_units r st)).

(** [unit_facts] joins each unit of the revision with its stage. *)
Definition unit_fact (p : Stage -> Unit -> bool) (k : key2) (u : Unit) : bool :=
  in_revision owner revision_id k u
  && match stage_of s owner u with Some st => p st u | None => false end.

Definition count_facts (p : Stage -> Unit -> bool) : Z := count_rows (units s) (unit_fact p).

Definition accepted_failure (r : Revision) (_ : Stage) (u : Unit) : bool :=
  bool_decide (u_state u = U_FAILED_PERMANENT) && str_eqb (r_failure_policy r) "declared"
  && match u_error u with Some e => bool_decide (e ∈ r_tolerated r) | None => false end.

Definition untolerated_failure (r : Revision) (st : Stage) (u : Unit) : bool :=
  bool_decide (u_state u = U_FAILED_PERMANENT) && negb (accepted_failure r st u).

Definition result_dependency_count (u : Unit) : Z :=
  match u_result u with
  | None => 0
  | Some result_id => count_rows (dependencies s) (fun k _ =>
      bool_decide (k.1.1 = (owner, revision_id, result_id)))
  end.

Definition nonterminal (_ : Stage) (u : Unit) : bool :=
  negb (bool_decide (u_state u ∈ [U_COMMITTED; U_FAILED_PERMANENT; U_SKIPPED; U_CANCELLED])).
Definition cancelled_unit (_ : Stage) (u : Unit) : bool := bool_decide (u_state u = U_CANCELLED).
Definition required_skipped (st : Stage) (u : Unit) : bool :=
  bool_decide (u_state u = U_SKIPPED) && s_required st.
Definition missing_result (_ : Stage) (u : Unit) : bool :=
  bool_decide (u_state u = U_COMMITTED) && bool_decide (u_result u = None).
Definition dependency_deficit (_ : Stage) (u : Unit) : bool :=
  bool_decide (u_state u = U_COMMITTED) && bool_decide (is_Some (u_result u))
  && negb (result_dependency_count u =? u_expected_deps u).
Definition partial_unit (_ : Stage) (u : Unit) : bool := u_partial u.

(** ** Declared dependencies *)

(** SQL's three truth values: [None] is NULL. *)
Definition sql_and (a b : option bool) : option bool :=
  match a, b with
  | Some false, _ | _, Some false => Some false
  | Some true, Some true => Some true
  | _, _ => None
  end.
Definition sql_or (a b : option bool) : option bool :=
  match a, b with
  | Some true, _ | _, Some true => Some true
  | Some false, Some false => Some false
  | _, _ => None
  end.

Definition role_stage (role : string) : option string :=
  match select_rows (stages s) (fun k st =>
    str_eqb k.1 owner && str_eqb (s_revision st) revision_id && str_eqb (s_key st) role) with
  | (k, _) :: _ => Some k.2
  | [] => None
  end.

(** The recursive edge of a reduction, over nullable levels. *)
Definition recursive_edge (child_stage : Stage) (child source : Unit) : option bool :=
  sql_and (sql_and (Some (bool_decide (is_Some (s_reduction_fan_in child_stage))))
                   (Some (str_eqb (u_stage source) (u_stage child))))
          (sql_and (level ← u_level child; Some (0 <? level))
                   (below ← u_level source; level ← u_level child; Some (below =? level - 1))).

(** The [WHERE] condition on one joined row. *)
Definition invalid_edge (role : string) (child_stage : Stage) (child source : Unit) : bool :=
  match role_stage role with
  | None => true
  | Some role_id =>
      negb (bool_decide (is_Some (stage_dependencies s
                                    !! (owner, revision_id, u_stage child, role_id))))
      || match sql_or (Some (str_eqb (u_stage source) role_id))
                      (recursive_edge child_stage child source) with
         | Some false => true
         | _ => false
         end
  end.

(** The unit of a result and its stage, through the inner joins. *)
Definition producer (result_id : string) : option (Unit * Stage) :=
  r ← results s !! (owner, result_id);
  if str_eqb (res_revision r) revision_id then
    u ← units s !! (owner, res_unit r);
    st ← stage_of s owner u;
    Some (u, st)
  else None.

Definition invalid_dependency (k : key3 * string * string) (_ : Dependency) : bool :=
  let '(o, r, child_id, source_id, role) := k in
  str_eqb o owner && str_eqb r revision_id
  && match producer child_id, producer source_id with
     | Some (child, child_stage), Some (source, _) => invalid_edge role child_stage child source
     | _, _ => false
     end.

Definition undeclared_dependency : bool := exists_row (dependencies s) invalid_dependency.

(** ** Domain errors *)

(** [$.domain_outcome.error_counts] of a terminal detail; the store writes an
    object of integers there or nothing. *)
Definition error_counts (u : Unit) : list (string * json) :=
  match u_detail u with
  | Some detail =>
      match obj_get "domain_outcome" detail with
      | Some (JObj outcome) =>
          match obj_get "error_counts" outcome with Some (JObj counts) => counts | _ => [] end
      | _ => []
      end
  | None => []
  end.

Definition json_int (v : json) : Z := match v with JInt z => z | _ => 0 end.

Definition domain_error_items : Z :=
  foldr Z.add 0 (map (fun ku => foldr Z.add 0 (map (fun kv => json_int kv.2) (error_counts ku.2)))
    (select_rows (units s) (fun k u =>
       in_revision owner revision_id k u && bool_decide (u_state u = U_COMMITTED)))).

Definition find_artifact (name : string) : option Artifact :=
  match select_rows (artifacts s) (fun k a =>
    str_eqb k.1 owner && str_eqb (art_revision a) revision_id && str_eqb (art_name a) name) with
  | (_, a) :: _ => Some a
  | [] => None
  end.
End Facts.

(** ** Reasons *)

(** [block]: a reason is recorded once. *)
Definition block (when : bool) (reason : string) (reasons : list string) : list string :=
  if when && negb (bool_decide (reason ∈ reasons)) then reasons ++ [reason] else reasons.

Definition block_all (checks : list (bool * string)) (reasons : list string) : list string :=
  fold_left (fun acc c => block c.1 c.2 acc) checks reasons.

(** Checks 1 to 5 in the order of the code. *)
Definition revision_checks (s : Store) (owner revision_id : string) (r : Revision)
  : list (bool * string) :=
  let sources_with := count_sources s owner revision_id in
  let facts := count_facts s owner revision_id in
  let accepted := r_partial_accepted r in
  [ (negb (r_sealed r) || match r_inventory_digest r with
                          | None | Some EmptyString => true | _ => false end,
     "inventory_not_sealed");
    (negb (sources_with (fun _ => true) =? r_expected_sources r), "source_count_mismatch");
    (0 <? sources_with (fun src => negb (src_accounted src)), "sources_unaccounted");
    (0 <? sources_with unavailable, "source_unstable_or_missing");
    ((0 <? sources_with (fun src => str_eqb (src_state src) "skipped")) && negb accepted,
     "source_skip_unaccepted");
    (incomplete_materialization s owner revision_id, "materialization_incomplete");
    (units_missing s owner revision_id r, "required_units_missing");
    (0 <? facts nonterminal, "units_not_terminal");
    (0 <? facts cancelled_unit, "cancelled_unit");
    ((0 <? facts required_skipped) && negb accepted, "required_unit_skipped");
    (0 <? facts (untolerated_failure r), "untolerated_unit_failure");
    (0 <? facts missing_result, "committed_unit_without_result");
    (0 <? facts (dependency_deficit s owner revision_id), "result_dependencies_unresolved");
    ((0 <? facts partial_unit) && negb accepted, "partial_output_unaccepted");
    (r_caps_truncated r && negb accepted, "cap_or_truncation_unaccepted");
    (undeclared_dependency s owner revision_id, "result_dependency_not_declared") ].

(** One required artifact; a requirement without its keys is a [KeyError]. *)
Definition artifact_checks (s : Store) (owner revision_id : string) (requirement : object)
  : db (list (bool * string)) :=
  name ← of_option (PyKeyError "name") (obj_get "name" requirement);
  match find_artifact s owner revision_id (py_str name) with
  | None => mret [(true, "required_artifact_missing")]
  | Some a =>
      schema ← of_option (PyKeyError "schema_version") (obj_get "schema_version" requirement);
      mime ← of_option (PyKeyError "mime_type") (obj_get "mime_type" requirement);
      mret [ (negb (bool_decide (art_state a ∈ ["committed"; "published"])),
              "required_artifact_not_committed");
             (negb (json_is_str (Some schema) (art_schema_version a)),
              "artifact_schema_version_mismatch");
             (negb (json_is_str (Some mime) (art_mime_type a)), "artifact_mime_type_mismatch");
             (negb (art_digest_verified a && art_schema_valid a && art_postconditions_valid a),
              "artifact_validation_incomplete") ]
  end.

Fixpoint required_artifact_checks (s : Store) (owner revision_id : string)
    (requirements : list object) : db (list (bool * string)) :=
  match requirements with
  | [] => mret []
  | q :: rest =>
      checks ← artifact_checks s owner revision_id q;
      others ← required_artifact_checks s owner revision_id rest;
      mret (checks ++ others)
  end.

(** ** Assessment *)

Record CompletionAssessment : Type := mkAssessment {
  ca_eligible : bool; ca_target : option WorkloadState; ca_reasons : list string;
  ca_counters : UnitCounters; ca_event : option Z; ca_version : Z }.

Definition ineligible (reasons : list string) (counters : UnitCounters) (version : Z)
  : CompletionAssessment := mkAssessment false None reasons counters None version.

(** Partial output that the revision accepts. *)
Definition accepted_partial (s : Store) (owner revision_id : string) (r : Revision) : bool :=
  r_partial_accepted r
  && ((0 <? count_facts s owner revision_id required_skipped)
      || (0 <? count_facts s owner revision_id partial_unit) || r_caps_truncated r).

Definition accepted_source_skip (s : Store) (owner revision_id : string) (r : Revision) : bool :=
  r_partial_accepted r
  && (0 <? count_sources s owner revision_id (fun src => str_eqb (src_state src) "skipped")).

Definition has_errors (s : Store) (owner revision_id : string) (r : Revision)
    (counters : UnitCounters) : bool :=
  negb (count_facts s owner revision_id (accepted_failure r) =? 0)
  || accepted_partial s owner revision_id r || accepted_source_skip s owner revision_id r
  || negb (uc_skipped counters =? 0) || negb (domain_error_items s owner revision_id =? 0).

Definition completion_payload (revision_id : string) (target : WorkloadState)
    (counters : UnitCounters) (accepted_failures : Z) (partial : bool) : object :=
  [("revision_id", JStr revision_id);
   ("target_state", JStr (workload_value target));
   ("coverage", JObj [("discovered", JInt (uc_discovered counters));
                      ("committed", JInt (uc_committed counters));
                      ("failed", JInt (uc_failed counters));
                      ("skipped", JInt (uc_skipped counters));
                      ("attention", JInt (uc_attention counters));
                      ("pending", JInt (uc_pending counters))]);
   ("accepted_failures", JInt accepted_failures);
   ("partial_accepted", JBool partial)].

Definition completion_event (target : WorkloadState) : EventType :=
  match target with COMPLETED_WITH_ERRORS => E_COMPLETED_WITH_ERRORS | _ => E_COMPLETED end.

(** The trigger [workloads_terminal_event_guard] of migrations.py. *)
Definition terminal_event_guard (owner workload_id : string) (target : WorkloadState) (s : Store)
  : bool :=
  exists_row (outbox s) (fun k o =>
    str_eqb k.1 owner && str_eqb (o_workload o) workload_id && str_eqb (o_channel o) "owner_event"
    && match events s !! (owner, workload_id, o_event o) with
       | Some e => bool_decide (ev_type e = completion_event target)
       | None => false
       end).

(** Check 9: event, notifications, guarded update, credit. *)
Definition complete_workload `{Host} (owner workload_id revision_id : string) (version now : Z)
    (target : WorkloadState) (errors : bool) (payload : object) : db Z :=
  event_id ← append_event owner workload_id (completion_event target) payload;
  enqueue_notification owner workload_id event_id ;;
  let reason := [("completion", JStr "verified"); ("with_errors", JBool errors)] in
  of_schema (canonical_json (JObj reason) MAX_EVENT_JSON_BYTES) ;;
  update_one workloads (owner, workload_id)
    (fun w => bool_decide (w_state w = RUNNING) && (w_version w =? version))
    (fun w => w <| w_state := target |> <| w_version := w_version w + 1 |>
                <| w_updated := now |> <| w_terminal_reason := Some reason |>)
    VersionConflictError ;;
  guarded ← gets (terminal_event_guard owner workload_id target);
  check guarded (IntegrityError "terminal completion requires event and outbox") ;;
  delete_at credits (owner, workload_id) (fun _ => true) ;;
  mret event_id.

(** The reasons against completion of the active revision. *)
Definition completion_reasons (owner workload_id revision_id : string) (r : Revision)
    (state : WorkloadState) (now : Z) : db (list string) :=
  checks ← gets (fun s => revision_checks s owner revision_id r);
  s ← gets id;
  artifacts ← required_artifact_checks s owner revision_id (r_required_artifacts r);
  violated ← budget_violation_in owner workload_id revision_id now;
  mret (block_all ([(negb (bool_decide (state = RUNNING)), "workload_not_running")]
                   ++ checks ++ artifacts
                   ++ [(negb (r_usage_complete r), "usage_not_materialized")]
                   ++ match violated with
                      | Some v => [(true, violation_reason v)]
                      | None => []
                      end) []).

Definition no_inventory (state : WorkloadState) : list string :=
  block_all [(negb (bool_decide (state = RUNNING)), "workload_not_running");
             (true, "inventory_not_sealed")] [].

Definition evaluate_completion `{Host} (owner workload_id : string) (now : option Z)
  : db CompletionAssessment :=
  require_owner owner ;;
  current ← operation_now now;
  row ← select_workload owner workload_id;
  counters ← unit_counters owner workload_id;
  if bool_decide (w_state row ∈ [COMPLETED; COMPLETED_WITH_ERRORS])
  then mret (mkAssessment true (Some (w_state row)) [] counters None (w_version row))
  else
    match w_active_revision row with
    | None => mret (ineligible (no_inventory (w_state row)) counters (w_version row))
    | Some revision_id =>
        found ← gets (fun s =>
          r ← revisions s !! (owner, revision_id);
          if str_eqb (r_workload r) workload_id then Some r else None);
        match found with
        | None => mret (ineligible (no_inventory (w_state row)) counters (w_version row))
        | Some r =>
            reasons ← completion_reasons owner workload_id revision_id r (w_state row) current;
            if negb (bool_decide (reasons = []))
            then mret (ineligible reasons counters (w_version row))
            else
              s ← gets id;
              let errors := has_errors s owner revision_id r counters in
              let target := if errors then COMPLETED_WITH_ERRORS else COMPLETED in
              event_id ← complete_workload owner workload_id revision_id (w_version row) current
                target errors
                (completion_payload revision_id target counters
                   (count_facts s owner revision_id (accepted_failure r))
                   (accepted_partial s owner revision_id r));
              mret (mkAssessment true (Some target) [] counters (Some event_id)
                      (w_version row + 1))
        end
    end.

(** ** Usage facts *)

(** [json_extract(.., '$.usage_missing') IS NOT 0]: a false boolean reads as 0. *)
Definition usage_known (metrics : object) : bool :=
  match obj_get "usage_missing" metrics with
  | Some (JInt z) => z =? 0
  | Some (JBool b) => negb b
  | _ => false
  end.

(** An attempt of a language model whose usage is not bounded. *)
Definition usage_fact_missing (s : Store) (owner revision_id : string) (k : key2) (a : Attempt)
  : bool :=
  str_eqb k.1 owner
  && match units s !! (k.1, a_unit a) with
     | Some u => str_eqb (u_revision u) revision_id
     | None => false
     end
  && json_is_str (obj_get "mode" (a_model a)) "llm"
  && (negb (usage_known (a_metrics a))
      || bool_decide (obj_get "llm_usage" (a_metrics a) = None)).

Definition refresh_usage_complete `{Host} (owner workload_id : string) : db bool :=
  require_owner owner ;;
  w ← select_workload owner workload_id;
  match w_active_revision w with
  | None => mret false
  | Some revision_id =>
      missing ← gets (fun s => count_rows (attempts s) (usage_fact_missing s owner revision_id));
      found ← gets (fun s => usages s !! (owner, revision_id));
      usage ← of_option (PyTypeError "'NoneType' object is not subscriptable") found;
      let complete := (missing =? 0) && negb (us_unknown usage) in
      update_at revisions (owner, revision_id) (fun r => str_eqb (r_workload r) workload_id)
        (fun r => r <| r_usage_complete := complete |>) ;;
      mret complete
  end.
