(* ===== verification/DurableAdmission.v ===== *)
(** * Admission of a revision

    [admit_revision] of src/runtime/durable_workloads/storage.py: a draft gets
    its first revision from a plan and a sealed inventory.  The plan and the
    inventory are validated, compared with each other and with the snapshots;
    then one transaction writes the revision, its stages with their
    dependencies and placements, its sources, the units that need no result of
    another stage, and the point materialization starts from. *)
From Stdlib Require Import Strings.String.
From S2P Require Import Prelude.
From S2P Require Import PyJson.
From S2P Require Import DurableModels.
From S2P Require Import DurableRetry.
From S2P Require Import DurablePlans.
From S2P Require Import DurableInventory.
From S2P Require Import DurableTables.
From S2P Require Import DurableOutbox.
From S2P Require Import DurableWorkflow.
Local Open Scope Z_scope.

(** What validation raises, as the store's errors. *)
Definition of_plan {A} (r : result plan_error A) : db A :=
  lift_result (match r with
               | Ok a => Ok a
               | Err (Invalid (SchemaValidationError what)) => Err (StoreSchemaError what)
               | Err (TypeError what) => Err (PyTypeError what)
               | Err RecursionError => Err (PyRuntimeError "RecursionError")
               | Err AssertionError => Err (PyRuntimeError "AssertionError")
               end).

(** ** Reading the validated plan and inventory *)

Definition as_obj (v : json) : option (list (string * json)) :=
  match v with JObj kvs => Some kvs | _ => None end.

(** The objects of an array, and the texts of one. *)
Definition objects_of (v : json) : list (list (string * json)) :=
  match v with JArr l => omap as_obj l | _ => [] end.
Definition texts_of (v : json) : list string :=
  match v with JArr l => omap as_str l | _ => [] end.

Definition plan_stages (plan : list (string * json)) : list (list (string * json)) :=
  objects_of (field "stages" plan).

Definition text_field (k : string) (kvs : list (string * json)) : string :=
  py_str (field k kvs).

Definition stage_kind (stage : list (string * json)) : string := text_field "type" stage.
Definition stage_mode (stage : list (string * json)) : string :=
  text_field "mode" (obj_field "cardinality" stage).
Definition is_inventory_stage (stage : list (string * json)) : bool :=
  str_eqb (stage_kind stage) "inventory".
Definition stage_required (stage : list (string * json)) : bool :=
  is_bool (field "required" stage) true.

(** [int(value)] of an integer or a boolean. *)
Definition int_of (v : json) : Z :=
  match v with JInt z => z | JBool b => Z.b2z b | _ => 0 end.

(** ** Snapshots *)

Definition catalog_default : json :=
  JObj [("schema_version", JStr "metnos.catalog-snapshot/1"); ("entries", JArr [])].
Definition policy_default : json :=
  JObj [("schema_version", JStr "metnos.policy-snapshot/1"); ("rules", JArr [])].

(** One rule adds the invalidation digest it states for a stage. *)
Definition policy_rule (invalidation_by_stage : gmap string string) (rule : json)
  : db (gmap string string) :=
  match rule with
  | JObj kvs =>
      match obj_get "invalidation_digest" kvs with
      | None | Some JNull => mret invalidation_by_stage
      | Some invalidation_digest =>
          match obj_get "stage_key" kvs, invalidation_digest with
          | Some (JStr stage_key), JStr digest =>
              check (digest_re digest && bool_decide (invalidation_by_stage !! stage_key = None))
                (StoreSchemaError "policy snapshot has invalid stage invalidation facts") ;;
              mret (<[stage_key := digest]> invalidation_by_stage)
          | _, _ => raise (StoreSchemaError "policy snapshot has invalid stage invalidation facts")
          end
      end
  | _ => raise (StoreSchemaError "policy snapshot rule must be an object")
  end.

Definition policy_rules (policy : list (string * json)) : db (list json) :=
  match obj_get "rules" policy with
  | None => mret []
  | Some (JArr rules) =>
      check (Z.of_nat (length rules) <=? 64) (StoreSchemaError "policy snapshot rules must be bounded") ;;
      mret rules
  | Some _ => raise (StoreSchemaError "policy snapshot rules must be bounded")
  end.

(** ** What a checked request comes to *)

Record Admission : Type := mkAdmission {
  ad_plan : list (string * json);
  ad_plan_digest : string;
  ad_inventory_json : option string;
  ad_inventory_digest : string;
  ad_sources : list (list (string * json));
  ad_catalog : list (string * json);
  ad_policy : list (string * json);
  ad_invalidations : gmap string string;
  ad_caps_truncated : bool;
  ad_partial_accepted : bool;
  ad_usage_complete : bool }.

(** The inventory against the limits of the plan. *)
Definition reads_inventory (stage : list (string * json)) : bool :=
  negb (is_inventory_stage stage)
  && existsb (fun kv => match kv.2 with
                        | JObj reference => json_is_str (obj_get "ref" reference) "revision.inventory"
                        | _ => false
                        end) (obj_field "input_bindings" stage).

Definition undersized (source_count : Z) (stage : list (string * json)) : bool :=
  stage_required stage && str_eqb (stage_mode stage) "per_source"
  && (stage_max_units stage <? source_count).

Definition check_inventory (plan : list (string * json)) (inventory_json : option string)
    (sources : list (list (string * json))) : db unit :=
  let contract := obj_field "inventory" plan in
  check (Z.of_nat (length sources) <=? int_field "max_sources" contract)
    (StoreSchemaError "sealed inventory exceeds plan.inventory.max_sources") ;;
  check (sum_list (map (int_field "size_bytes") sources) <=? int_field "max_total_bytes" contract)
    (StoreSchemaError "sealed inventory exceeds plan.inventory.max_total_bytes") ;;
  check (negb (bool_decide (inventory_json = None) && existsb reads_inventory (plan_stages plan)))
    (StoreSchemaError "revision.inventory requires a bounded inline inventory") ;;
  check (negb (existsb (undersized (Z.of_nat (length sources))) (plan_stages plan)))
    (StoreSchemaError "sealed inventory exceeds required per-source stage caps").

Definition prepare_admission (plan inventory : json) (retain_inline : bool)
    (catalog_snapshot policy_snapshot : option json)
    (caps_truncated partial_output_accepted usage_complete : bool) : db Admission :=
  of_plan (validate_plan plan) ;;
  digest ← of_plan (plan_digest plan);
  validated ← of_plan (validate_inventory retain_inline inventory);
  let plan := default [] (as_obj plan) in
  let inventory_json := validated.1 in
  let sources := omap as_obj validated.2 in
  let inventory_hash := text_field "digest" (default [] (as_obj inventory)) in
  check_inventory plan inventory_json sources ;;
  match default catalog_default catalog_snapshot, default policy_default policy_snapshot with
  | JObj catalog, JObj policy =>
      check (json_is_str (obj_get "schema_version" catalog) "metnos.catalog-snapshot/1")
        (StoreSchemaError "catalog snapshot has an incompatible schema_version") ;;
      check (json_is_str (obj_get "schema_version" policy) "metnos.policy-snapshot/1")
        (StoreSchemaError "policy snapshot has an incompatible schema_version") ;;
      rules ← policy_rules policy;
      invalidation_by_stage ← fold_steps rules policy_rule ∅;
      of_schema (canonical_json (JObj catalog) MAX_SNAPSHOT_JSON_BYTES) ;;
      of_schema (canonical_json (JObj policy) MAX_SNAPSHOT_JSON_BYTES) ;;
      mret (mkAdmission plan digest inventory_json inventory_hash sources catalog policy
              invalidation_by_stage caps_truncated partial_output_accepted usage_complete)
  | _, _ => raise (StoreSchemaError "catalog and policy snapshots must be objects")
  end.

(** ** The record a caller gets *)

Record RevisionRecord : Type := mkRevisionRecord {
  rr_owner : string;
  rr_revision : string;
  rr_workload : string;
  rr_number : Z;
  rr_plan_digest : string;
  rr_inventory_digest : option string;
  rr_sealed : bool;
  rr_expected_sources : Z;
  rr_admitted : option Z }.

Definition row_to_revision (owner revision_id : string) (r : Revision) : RevisionRecord :=
  mkRevisionRecord owner revision_id (r_workload r) (r_number r) (r_plan_digest r)
    (r_inventory_digest r) (r_sealed r) (r_expected_sources r) (r_admitted r).

Definition get_revision (owner revision_id : string) : db RevisionRecord :=
  require_owner owner ;;
  found ← gets (fun s => revisions s !! (owner, revision_id));
  row ← of_option RevisionNotFoundError found;
  mret (row_to_revision owner revision_id row).

(** The revision of the workload with this plan and inventory. *)
Definition find_duplicate (owner workload_id : string) (ad : Admission)
  : db (option (key2 * Revision)) :=
  gets (fun s => head (select_rows (revisions s) (fun k r =>
    str_eqb k.1 owner && str_eqb (r_workload r) workload_id
    && str_eqb (r_plan_digest r) (ad_plan_digest ad)
    && sql_eq (r_inventory_digest r) (ad_inventory_digest ad)))).

(** The stored JSON columns are canonical text. *)
Definition same_inputs (r : Revision) (ad : Admission) : bool :=
  str_eqb (dumps (JObj (r_catalog r))) (dumps (JObj (ad_catalog ad)))
  && str_eqb (dumps (JObj (r_policy r))) (dumps (JObj (ad_policy ad)))
  && Bool.eqb (r_caps_truncated r) (ad_caps_truncated ad)
  && Bool.eqb (r_partial_accepted r) (ad_partial_accepted ad)
  && Bool.eqb (r_usage_complete r) (ad_usage_complete ad).

(** ** Rows of an admission *)

Definition revision_row (workload_id : string) (ad : Admission) (number now : Z) : Revision :=
  let error_policy := obj_field "error_policy" (ad_plan ad) in
  mkRevision workload_id (ad_plan ad) (ad_catalog ad) (ad_usage_complete ad)
    (text_field "mode" error_policy) (texts_of (field "allowed_error_classes" error_policy))
    0 true (Some (ad_inventory_digest ad)) (Z.of_nat (length (ad_sources ad)))
    (ad_caps_truncated ad) (ad_partial_accepted ad)
    (objects_of (field "required_artifacts" (ad_plan ad)))
    number (ad_plan_digest ad) (ad_policy ad) (ad_inventory_json ad) now None.

Definition new_usage (now : Z) : Usage := mkUsage 0 0 0 0 0 false 0 None None now.

(** A text outside the vocabulary of its column fails a [CHECK]. *)
Definition checked {A} (o : option A) : db A :=
  of_option (IntegrityError "CHECK constraint failed: stages") o.

Definition resources_of (kvs : list (string * json)) : resources :=
  Build_resources (int_field "cpu" kvs) (int_field "device" kvs) (int_field "llm" kvs)
    (int_field "local_io" kvs) (int_field "network_io" kvs) (int_field "vlm" kvs).

Definition opt_int (o : option json) : option Z :=
  match o with Some (JInt z) => Some z | _ => None end.
Definition opt_text (o : option json) : option string :=
  match o with Some (JStr t) => Some t | _ => None end.

Definition stage_row (revision_id : string) (position : Z) (stage : list (string * json))
    (kind : RunnerKind) (effect : DurableEffect) (invalidation_digest : string) (now : Z) : Stage :=
  let cardinality := obj_field "cardinality" stage in
  mkStage revision_id (stage_key stage) kind (text_field "name" (obj_field "runner" stage))
    effect (obj_field "output_schema" stage) (field "retry" stage) (int_field "timeout_s" stage)
    (resources_of (obj_field "resources" stage)) (opt_int (obj_get "fan_in" cardinality))
    (stage_kind stage) (stage_mode stage) (stage_required stage) position
    (stage_max_units stage) (obj_field "input_bindings" stage)
    (texts_of (field "invalidation_keys" stage)) invalidation_digest
    (opt_text (obj_get "reduction_input" cardinality))
    (opt_int (obj_get "max_input_bytes" cardinality)) now.

Definition source_row (revision_id : string) (source : list (string * json)) (now : Z) : Source :=
  mkSource revision_id (text_field "state" source) (is_bool (field "accounted" source) true)
    (text_field "source_id" source) (int_of (field "ordinal" source))
    (text_field "device_id" source) (text_field "locator_redacted" source)
    (text_field "kind" source) (int_field "size_bytes" source) (int_field "mtime_ns" source)
    (text_field "content_digest" source) now now.

Definition initial_unit (revision_id stage_id unit_key : string) (source_row_id : option string)
    (now : Z) : Unit :=
  mkUnit revision_id stage_id unit_key U_PENDING 0 0 None None None 0 None None None
    false None now now 0 0 None source_row_id None None false.

(** ** The transaction *)

Section Transaction.
Context `{Host} (owner workload_id revision_id : string) (ad : Admission) (now : Z).

(** [stage_ids], [stage_invalidation_digests] and [stage_unit_counts]. *)
Record Stages : Type := mkStages {
  st_ids : gmap string string; st_digests : gmap string string; st_counts : gmap string Z }.

Definition no_stages : Stages := mkStages ∅ ∅ ∅.

Definition stage_digest (stage : list (string * json)) : result schema_error string :=
  match ad_invalidations ad !! stage_key stage with
  | Some digest => Ok digest
  | None => digest_json "durable-stage-invalidation" (JObj [("stage", JObj stage)])
              MAX_PLAN_JSON_BYTES
  end.

Definition insert_placement (stage_id : string) (stage : list (string * json)) : db unit :=
  if given "placement" stage then
    let placement := obj_field "placement" stage in
    insert_row placements (owner, stage_id)
      (mkPlacement revision_id (text_field "target" placement) (opt_text (obj_get "device" placement)))
  else mret tt.

Definition insert_stage (acc : Stages) (numbered : Z * list (string * json)) : db Stages :=
  let (position, stage) := numbered in
  stage_id ← new_id "stg";
  digest ← of_schema (stage_digest stage);
  of_schema (canonical_json (field "input_bindings" stage) MAX_PLAN_JSON_BYTES) ;;
  of_schema (canonical_json (field "output_schema" stage) MAX_EVENT_JSON_BYTES) ;;
  of_schema (canonical_json (field "retry" stage) MAX_EVENT_JSON_BYTES) ;;
  of_schema (canonical_json (field "invalidation_keys" stage) MAX_EVENT_JSON_BYTES) ;;
  of_schema (canonical_json (field "resources" stage) MAX_EVENT_JSON_BYTES) ;;
  kind ← checked (runner_kind_of (field "kind" (obj_field "runner" stage)));
  effect ← checked (effect_of (field "effect_profile" stage));
  insert_row stages (owner, stage_id)
    (stage_row revision_id position stage kind effect digest now) ;;
  insert_placement stage_id stage ;;
  mret (mkStages (<[stage_key stage := stage_id]> (st_ids acc))
                 (<[stage_key stage := digest]> (st_digests acc))
                 (<[stage_key stage := 0]> (st_counts acc))).

(** [enumerate]. *)
Definition enumerate {A} (l : list A) : list (Z * A) := imap (fun i x => (Z.of_nat i, x)) l.

(** [stage_ids[key]]. *)
Definition stage_id_of (acc : Stages) (key : string) : db string :=
  of_option (PyKeyError key) (st_ids acc !! key).

Definition insert_dependencies (acc : Stages) (stage : list (string * json)) : db unit :=
  for_each (enumerate (stage_deps stage)) (fun numbered =>
    stage_id ← stage_id_of acc (stage_key stage);
    depends_on ← stage_id_of acc numbered.2;
    insert_row stage_dependencies (owner, revision_id, stage_id, depends_on) numbered.1).

(** A stage whose only dependency, if any, is the inventory. *)
Definition starts_at (inventory_key : string) (stage : list (string * json)) : bool :=
  forallb (fun d => str_eqb d inventory_key) (stage_deps stage).

Definition initial_stages (inventory_key : string) : list (list (string * json)) :=
  List.filter (fun stage => negb (is_inventory_stage stage) && starts_at inventory_key stage)
    (plan_stages (ad_plan ad)).

Definition unit_semantic (stage : list (string * json)) (digest : string)
    (source : option (list (string * json))) : json :=
  JObj [("stage_key", JStr (stage_key stage));
        ("stage_invalidation_digest", JStr digest);
        ("source_digest", match source with Some kvs => field "content_digest" kvs | None => JNull end);
        ("source_id", match source with Some kvs => field "source_id" kvs | None => JNull end)].

(** The unique index of the units on stage and unit key. *)
Definition unit_key_taken (stage_id unit_key : string) (s : Store) : bool :=
  exists_row (units s) (fun k u => str_eqb k.1 owner && str_eqb (u_revision u) revision_id
    && str_eqb (u_stage u) stage_id && str_eqb (DurableTables.u_key u) unit_key).

Definition insert_initial_unit (acc : Stages) (stage : list (string * json))
    (source : option (list (string * json))) (source_row_id : option string) : db Stages :=
  digest ← of_option (PyKeyError (stage_key stage)) (st_digests acc !! stage_key stage);
  unit_key ← of_schema (digest_json "durable-unit-key" (unit_semantic stage digest source)
                          MAX_PLAN_JSON_BYTES);
  unit_id ← new_id "unt";
  stage_id ← stage_id_of acc (stage_key stage);
  taken ← gets (unit_key_taken stage_id unit_key);
  check (negb taken) (IntegrityError "UNIQUE constraint failed: units") ;;
  insert_row units (owner, unit_id) (initial_unit revision_id stage_id unit_key source_row_id now) ;;
  count ← of_option (PyKeyError (stage_key stage)) (st_counts acc !! stage_key stage);
  mret (mkStages (st_ids acc) (st_digests acc) (<[stage_key stage := count + 1]> (st_counts acc))).

(** The units of the initial stages of this mode, for one source or none. *)
Definition insert_initial_units (mode inventory_key : string)
    (source : option (list (string * json))) (source_row_id : option string) (acc : Stages)
  : db Stages :=
  fold_steps (List.filter (fun stage => str_eqb (stage_mode stage) mode)
                (initial_stages inventory_key))
    (fun acc stage => insert_initial_unit acc stage source source_row_id) acc.

(** SQLite has no integer of more than 64 bits. *)
Definition int64 (z : Z) : bool := (- MAX_INT64 - 1 <=? z) && (z <=? MAX_INT64).

Definition insert_source (inventory_key : string) (acc : Stages) (source : list (string * json))
  : db Stages :=
  source_row_id ← new_id "src";
  check (int64 (int_field "size_bytes" source) && int64 (int_field "mtime_ns" source))
    (PyOverflowError "Python int too large to convert to SQLite INTEGER") ;;
  insert_row sources (owner, source_row_id) (source_row revision_id source now) ;;
  insert_initial_units "per_source" inventory_key (Some source) (Some source_row_id) acc.

Definition insert_materialization (inventory_key : string) (acc : Stages)
    (stage : list (string * json)) : db unit :=
  stage_id ← stage_id_of acc (stage_key stage);
  count ← of_option (PyKeyError (stage_key stage)) (st_counts acc !! stage_key stage);
  insert_row materializations (owner, revision_id, stage_id)
    (mkMaterialization (is_inventory_stage stage || starts_at inventory_key stage) None
       (-1) (-1) None (-1) count now false 0 (-1) false (-1)).

(** Everything below the revision: stages, sources, units. *)
Definition insert_contents : db unit :=
  let stages := plan_stages (ad_plan ad) in
  acc ← fold_steps (enumerate stages) insert_stage no_stages;
  for_each stages (insert_dependencies acc) ;;
  inventory_key ← of_option (PyRuntimeError "StopIteration")
    (stage_key <$> List.find is_inventory_stage stages);
  acc ← fold_steps (ad_sources ad) (insert_source inventory_key) acc;
  acc ← insert_initial_units "singleton" inventory_key None None acc;
  for_each stages (insert_materialization inventory_key acc).

Definition seal_revision (expected : Z) : db unit :=
  update_one revisions (owner, revision_id)
    (fun r => str_eqb (r_workload r) workload_id && bool_decide (r_admitted r = None))
    (fun r => r <| r_admitted := Some now |>)
    (DurableStoreError "revision admission seal failed") ;;
  update_one workloads (owner, workload_id)
    (fun w => (w_version w =? expected) && bool_decide (w_state w = DRAFT))
    (fun w => w <| w_active_revision := Some revision_id |>
                <| w_state := ADMITTED |>
                <| w_version := w_version w + 1 |>
                <| w_updated := now |>)
    VersionConflictError.

Definition next_number (s : Store) : Z :=
  foldr Z.max 0 (map (fun kv => r_number kv.2)
    (select_rows (revisions s) (fun k r => str_eqb k.1 owner && str_eqb (r_workload r) workload_id)))
  + 1.

(** A first admission: the workload is still the draft the caller saw. *)
Definition insert_revision (expected : Z) (w : Workload) : db RevisionRecord :=
  check (w_version w =? expected) VersionConflictError ;;
  check (bool_decide (w_state w = DRAFT))
    (InvalidTransitionError "only a draft can admit its first revision") ;;
  collision ← gets (fun s => revisions s !! (owner, revision_id));
  check (bool_decide (collision = None)) IdentifierConflictError ;;
  number ← gets next_number;
  insert_row revisions (owner, revision_id) (revision_row workload_id ad number now) ;;
  insert_row usages (owner, revision_id) (new_usage now) ;;
  insert_contents ;;
  seal_revision expected ;;
  event_id ← append_event owner workload_id E_REVISION_ADMITTED
    [("revision_id", JStr revision_id); ("revision_number", JInt number);
     ("plan_digest", JStr (ad_plan_digest ad));
     ("inventory_digest", JStr (ad_inventory_digest ad));
     ("source_count", JInt (Z.of_nat (length (ad_sources ad))));
     ("new_version", JInt (expected + 1))];
  enqueue_notification owner workload_id event_id ;;
  row ← gets (fun s => revisions s !! (owner, revision_id));
  row ← of_option (PyRuntimeError "AssertionError") row;
  mret (row_to_revision owner revision_id row).
End Transaction.

Definition admit_revision `{Host} (owner workload_id : string) (plan inventory : json)
    (retain_inline : bool) (expected_version : Z) (catalog_snapshot policy_snapshot : option json)
    (caps_truncated partial_output_accepted usage_complete : bool) (revision_id : option string)
  : db RevisionRecord :=
  require_owner owner ;;
  expected ← require_version expected_version;
  ad ← prepare_admission plan inventory retain_inline catalog_snapshot policy_snapshot
         caps_truncated partial_output_accepted usage_complete;
  chosen ← chosen_id revision_id "rev";
  of_schema (canonical_json (field "allowed_error_classes" (obj_field "error_policy" (ad_plan ad)))
               MAX_EVENT_JSON_BYTES) ;;
  of_schema (canonical_json (field "required_artifacts" (ad_plan ad)) MAX_EVENT_JSON_BYTES) ;;
  now ← utc_now;
  w ← select_workload owner workload_id;
  duplicate ← find_duplicate owner workload_id ad;
  match duplicate with
  | Some (k, r) =>
      check (same_inputs r ad) IdempotencyConflictError ;;
      mret (row_to_revision k.1 k.2 r)
  | None => insert_revision owner workload_id chosen ad now expected w
  end.
