(* ===== verification/DurableMaterialize.v ===== *)
(** * Materialization: the units of the later stages

    [_materialize_ready_units_batch] of
    src/runtime/durable_workloads/storage.py and the operations around it.  A
    stage whose parents have settled is expanded step by step: each step reads
    the stage's durable cursor (its row of [stage_materialization]), creates at
    most one unit with the results it depends on, and moves the cursor.  The
    three cardinalities of a plan and the hierarchical reduction are separate
    steps below; the loop takes one of them per iteration. *)
From Stdlib Require Import Strings.String.
From S2P Require Import Prelude.
From S2P Require Import PyJson.
From S2P Require Import JsonScan.
From S2P Require Import DurableModels.
From S2P Require Import DurableTables.
From S2P Require Import DurableOutbox.
From S2P Require Import DurableWorkflow.
From S2P Require Import DurableLeases.
From S2P Require Import DurableAdmission.
Local Open Scope Z_scope.

(** ** Rows *)

(** The nonlocal variables of one iteration. *)
Record Cursor : Type := mkCursor {
  cu_count : Z; cu_legacy : bool; cu_blocked : option string }.

(** A stage that can advance, with its cursor and [entry_identity_field]. *)
Record Ready : Type := mkReady {
  rd_id : string; rd_stage : Stage; rd_mat : Materialization; rd_identity : option string }.

(** A unit of a parent stage, with its committed result if it has one. *)
Record Parent : Type := mkParent {
  pa_position : Z;
  pa_unit_id : string;
  pa_unit : Unit;
  pa_role : string;
  pa_result : option (string * Result) }.

(** The arguments of [insert_candidate]. *)
Record NewUnit : Type := mkNewUnit {
  nu_source : option (string * Source);
  nu_parents : list Parent;
  nu_shard : option string;
  nu_reason : option string;
  nu_force : bool;
  nu_duplicate : bool;
  nu_slice : option (Z * Z);
  nu_semantic_shard : option string;
  nu_level : option Z;
  nu_ordinal : option Z;
  nu_root : bool }.

#[export] Instance eta_NewUnit : Settable NewUnit := fun n =>
  mkNewUnit (nu_source n) (nu_parents n) (nu_shard n) (nu_reason n) (nu_force n)
    (nu_duplicate n) (nu_slice n) (nu_semantic_shard n) (nu_level n) (nu_ordinal n) (nu_root n).

(** The keyword defaults of [insert_candidate]. *)
Definition candidate (source : option (string * Source)) (parents : list Parent)
    (shard : option string) : NewUnit :=
  mkNewUnit source parents shard None false false None None None None false.

Definition open_states : list UnitState := [U_PENDING; U_LEASED; U_RUNNING; U_RETRY_WAIT].

Definition json_opt_str (o : option string) : json :=
  match o with Some s => JStr s | None => JNull end.

(** [str] of a nullable text column. *)
Definition str_opt (o : option string) : string :=
  match o with Some s => s | None => "None" end.

Section Revision.
Context `{Host} (owner revision_id : string) (revision : Revision).

(** ** Selections *)

Definition units_in (s : Store) (stage_id : string) (p : Unit -> bool) : list (key2 * Unit) :=
  select_rows (units s) (fun k u =>
    in_revision owner revision_id k u && str_eqb (u_stage u) stage_id && p u).

(** [stage_dependencies] of a stage joined with the parent stages, with the
    ordinal of each edge. *)
Definition parent_stages (s : Store) (stage_id : string) : list (string * Stage * Z) :=
  omap (fun row =>
    let '((o, r, child), parent) := row.1 in
    if str_eqb o owner && str_eqb r revision_id && str_eqb child stage_id then
      st ← stages s !! (owner, parent);
      if str_eqb (s_revision st) revision_id then Some (parent, st, row.2) else None
    else None) (map_to_list (stage_dependencies s)).

Definition later_parents (s : Store) (stage_id : string) : list (string * Stage * Z) :=
  List.filter (fun p => negb (str_eqb (s_type p.1.2) "inventory")) (parent_stages s stage_id).

(** A parent is exhausted and none of its units can still change. *)
Definition parent_settled (s : Store) (parent_id : string) : bool :=
  match materializations s !! (owner, revision_id, parent_id) with
  | Some m => mat_completed m
  | None => false
  end
  && bool_decide (units_in s parent_id (fun u =>
       bool_decide (u_state u ∈ open_states ++ [U_NEEDS_ATTENTION])) = []).

(** The units of the current reduction level have all ended. *)
Definition level_settled (s : Store) (stage_id : string) (m : Materialization) : bool :=
  negb (mat_waiting m)
  || bool_decide (units_in s stage_id (fun u =>
       bool_decide (u_level u = Some (mat_level m)) && bool_decide (u_state u ∈ open_states)) = []).

Definition can_advance (s : Store) (stage_id : string) (m : Materialization) : bool :=
  negb (mat_completed m) && bool_decide (mat_attention_code m = None)
  && level_settled s stage_id m
  && forallb (fun p => parent_settled s p.1.1) (later_parents s stage_id).

(** [json_extract(plan, '$.stages[position].cardinality.entry_identity_field')]. *)
Definition entry_identity (plan : list (string * json)) (position : Z) : option string :=
  match obj_get "stages" plan with
  | Some (JArr l) =>
      match l !! Z.to_nat position with
      | Some (JObj stage) =>
          match obj_get "cardinality" stage with
          | Some (JObj cardinality) =>
              match obj_get "entry_identity_field" cardinality with
              | Some (JStr name) => Some name
              | _ => None
              end
          | _ => None
          end
      | _ => None
      end
  | _ => None
  end.

(** The stages of the revision that can advance, with their cursors. *)
Definition advancing (s : Store) : list (string * Stage * Materialization) :=
  omap (fun row =>
    let '(o, r, stage_id) := row.1 in
    if str_eqb o owner && str_eqb r revision_id then
      st ← stages s !! (owner, stage_id);
      if str_eqb (s_revision st) revision_id && can_advance s stage_id row.2
      then Some (stage_id, st, row.2) else None
    else None) (map_to_list (materializations s)).

Definition ready_stages (s : Store) : list Ready :=
  omap (fun row =>
    rv ← revisions s !! (owner, revision_id);
    Some (mkReady row.1.1 row.1.2 row.2 (entry_identity (r_plan rv) (s_position row.1.2))))
    (advancing s).

Definition by_stage_position (a b : Ready) : bool :=
  then_by (s_position (rd_stage a) ?= s_position (rd_stage b)) (str_leb (rd_id a) (rd_id b)).

Definition next_materialization_stage (s : Store) : option Ready :=
  head (order_by by_stage_position (ready_stages s)).

(** [LEFT JOIN results ON id = committed_result_id]. *)
Definition result_of (s : Store) (u : Unit) : option (string * Result) :=
  result_id ← u_result u;
  r ← results s !! (owner, result_id);
  if str_eqb (res_revision r) (u_revision u) then Some (result_id, r) else None.

Definition source_of (s : Store) (u : Unit) : option (string * Source) :=
  source_id ← u_source u;
  src ← sources s !! (owner, source_id);
  if str_eqb (src_revision src) (u_revision u) then Some (source_id, src) else None.

Definition parent_row (s : Store) (position : Z) (role : string) (row : key2 * Unit) : Parent :=
  mkParent position row.1.2 row.2 role (result_of s row.2).

(** Of a reduction only the root is visible to the stages that depend on it. *)
Definition visible_unit (st : Stage) (u : Unit) : bool :=
  bool_decide (s_reduction_fan_in st = None) || u_root u.

Definition is_committed (p : Parent) : bool := bool_decide (u_state (pa_unit p) = U_COMMITTED).
Definition has_result (p : Parent) : bool := bool_decide (is_Some (pa_result p)).

(** ** Writing the cursor *)

(** [save_cursor]: [move] sets the columns its caller names, the others keep
    the values read at the start of the iteration. *)
Definition save_cursor (ready : Ready) (cu : Cursor) (completed : bool)
    (move : Materialization -> Materialization) : db unit :=
  now ← utc_now;
  update_one materializations (owner, revision_id, rd_id ready) (fun _ => true)
    (fun _ => (move (rd_mat ready))
                <| mat_completed := completed |>
                <| mat_legacy := if completed then false else cu_legacy cu |>
                <| mat_unit_count := cu_count cu |>
                <| mat_attention_code := cu_blocked cu |>
                <| mat_updated := now |>)
    (DurableStoreError "materialization cursor update failed").

Definition stay (m : Materialization) : Materialization := m.

(** ** [insert_candidate] *)

Definition candidate_semantic (ready : Ready) (n : NewUnit) : json :=
  JObj [("stage_key", JStr (s_key (rd_stage ready)));
        ("stage_invalidation_digest", JStr (s_invalidation_digest (rd_stage ready)));
        ("source_digest", json_opt_str (src_digest <$> (snd <$> nu_source n)));
        ("source_id", json_opt_str (src_source_id <$> (snd <$> nu_source n)));
        ("dependencies", JArr (map (fun p =>
           JObj [("role", JStr (pa_role p)); ("unit_key", JStr (u_key (pa_unit p)));
                 ("digest", JStr (str_opt (res_digest <$> (snd <$> pa_result p))))]) (nu_parents n)));
        ("shard_key", json_opt_str (match nu_semantic_shard n with
                                    | None => nu_shard n
                                    | Some shard => Some shard
                                    end))].

(** A row of [unit_dependencies] without its key: result, slice, role. *)
Definition binding : Type := string * option Z * option Z * string.

Definition expected_bindings (n : NewUnit) : list binding :=
  map (fun p => (str_opt (fst <$> pa_result p), fst <$> nu_slice n, snd <$> nu_slice n, pa_role p))
    (nu_parents n).

(** The primary key and the unique index on the ordinal. *)
Definition binding_taken (s : Store) (unit_id result_id : string) (ordinal : Z) : bool :=
  exists_row (unit_dependencies s) (fun k d =>
    bool_decide (k.1 = (owner, revision_id, unit_id))
    && (str_eqb k.2 result_id || (ud_ordinal d =? ordinal))).

(** The column checks of the table. *)
Definition binding_checks (b : binding) : bool :=
  let '(_, offset, length, role) := b in
  match offset, length with
  | None, None => true
  | Some first, Some size => (0 <=? first) && (1 <=? size)
  | _, _ => false
  end
  && (1 <=? py_len role) && (py_len role <=? 64).

(** Its foreign keys: the unit and the result, both of the revision. *)
Definition binding_valid (s : Store) (unit_id result_id : string) : bool :=
  match units s !! (owner, unit_id) with
  | Some u => str_eqb (u_revision u) revision_id
  | None => false
  end
  && match results s !! (owner, result_id) with
     | Some r => str_eqb (res_revision r) revision_id
     | None => false
     end.

(** [INSERT .. ON CONFLICT DO NOTHING]. *)
Definition insert_binding (unit_id : string) (numbered : Z * binding) : db unit :=
  let '(ordinal, (result_id, offset, length, role)) := numbered in
  check (binding_checks (result_id, offset, length, role)) (IntegrityError "unit_dependencies") ;;
  taken ← gets (fun s => binding_taken s unit_id result_id ordinal);
  if (taken : bool) then mret tt
  else
    valid ← gets (fun s => binding_valid s unit_id result_id);
    check valid (IntegrityError "unit_dependencies") ;;
    insert_row unit_dependencies (owner, revision_id, unit_id, result_id)
      (mkUnitDependency ordinal role offset length).

Definition stored_bindings (s : Store) (unit_id : string) : list binding :=
  map (fun row => (row.1.2, ud_offset row.2, ud_length row.2, ud_role row.2))
    (limit (MAX_UNIT_DEPENDENCIES + 1) (order_by (fun a b => ud_ordinal a.2 <=? ud_ordinal b.2)
       (select_rows (unit_dependencies s) (fun k _ =>
          bool_decide (k.1 = (owner, revision_id, unit_id)))))).

Definition bind_dependencies (unit_id : string) (n : NewUnit) : db unit :=
  check (bool_decide (nu_slice n = None) || (Z.of_nat (length (nu_parents n)) =? 1))
    (DurableStoreError "an entry slice requires exactly one dependency") ;;
  for_each (enumerate (expected_bindings n)) (insert_binding unit_id) ;;
  stored ← gets (fun s => stored_bindings s unit_id);
  check (bool_decide (stored = expected_bindings n))
    (DurableStoreError "materialized dependency lineage conflicts with the durable unit").

Definition find_unit (s : Store) (stage_id unit_key : string) : option (key2 * Unit) :=
  head (units_in s stage_id (fun u => str_eqb (DurableTables.u_key u) unit_key)).

(** The partial unique index of reduction roots. *)
Definition root_taken (s : Store) (stage_id : string) (except : string) : bool :=
  exists_row (units s) (fun k u => in_revision owner revision_id k u
    && str_eqb (u_stage u) stage_id && u_root u && negb (str_eqb k.2 except)).

(** The state of a unit whose inputs are unavailable. *)
Definition unavailable_state (ready : Ready) (n : NewUnit) : UnitState :=
  if nu_force n || (s_required (rd_stage ready) && negb (r_partial_accepted revision))
  then U_NEEDS_ATTENTION else U_SKIPPED.

Definition terminal_detail (reason : string) : list (string * json) :=
  [("schema_version", JStr "metnos.durable-unit-terminal/1"); ("reason_code", JStr reason)].

Definition candidate_unit (ready : Ready) (n : NewUnit) (unit_key : string) (now : Z) : Unit :=
  mkUnit revision_id (rd_id ready) unit_key
    (match nu_reason n with None => U_PENDING | Some _ => unavailable_state ready n end)
    0 (match nu_reason n with None => Z.of_nat (length (nu_parents n)) | Some _ => 0 end)
    None None None 0 None None (nu_reason n) false (terminal_detail <$> nu_reason n) now now 0
    (r_manual_generation revision) (nu_level n) (fst <$> nu_source n) (nu_shard n)
    (nu_ordinal n) (nu_root n).

Definition insert_unit (unit_id : string) (u : Unit) : db unit :=
  taken ← gets (fun s => unit_key_taken owner revision_id (u_stage u) (DurableTables.u_key u) s
                         || (u_root u && root_taken s (u_stage u) unit_id));
  check (negb taken) (IntegrityError "UNIQUE constraint failed: units") ;;
  insert_row units (owner, unit_id) u.

Definition blocked_by (code : string) (cu : Cursor) : Cursor :=
  mkCursor (cu_count cu) (cu_legacy cu) (Some code).

Definition insert_candidate (ready : Ready) (n : NewUnit) (cu : Cursor) : db (bool * Cursor) :=
  unit_key ← of_schema (digest_json "durable-unit-key" (candidate_semantic ready n)
                          MAX_PLAN_JSON_BYTES);
  existing ← gets (fun s => find_unit s (rd_id ready) unit_key);
  match existing with
  | Some (k, u) =>
      if cu_legacy cu then
        check (u_expected_deps u =? Z.of_nat (length (nu_parents n)))
          (DurableStoreError "legacy unit dependency count is inconsistent") ;;
        bind_dependencies k.2 n ;;
        mret (false, cu)
      else if nu_duplicate n then mret (false, blocked_by "duplicate_entry_identity" cu)
      else raise (DurableStoreError "materialization cursor replayed a completed candidate")
  | None =>
      if s_max_units (rd_stage ready) <=? cu_count cu
      then mret (false, blocked_by "stage_unit_cap_exceeded" cu)
      else
        now ← utc_now;
        unit_id ← new_id "unt";
        insert_unit unit_id (candidate_unit ready n unit_key now) ;;
        bind_dependencies unit_id n ;;
        mret (true, mkCursor (cu_count cu + 1) false (cu_blocked cu))
  end.

(** Insert one candidate and save the cursor; the unit counts when it is new. *)
Definition candidate_step (ready : Ready) (n : NewUnit) (cu : Cursor) (completed : bool)
    (move : Materialization -> Materialization) : db Z :=
  inserted ← insert_candidate ready n cu;
  save_cursor ready (inserted : bool * Cursor).2 completed move ;;
  mret (if (inserted : bool * Cursor).1 then 1 else 0).

Definition cursor_step (ready : Ready) (cu : Cursor) (completed : bool)
    (move : Materialization -> Materialization) : db Z :=
  save_cursor ready cu completed move ;; mret 0.

(** A unit that stands for inputs that are not available. *)
Definition unavailable (source : option (string * Source)) (shard semantic reason : string)
    (force : bool) : NewUnit :=
  (candidate source [] (Some shard)) <| nu_reason := Some reason |> <| nu_force := force |>
    <| nu_semantic_shard := Some semantic |>.

(** ** Hierarchical reduction *)

(** [_reduction_level_status]: the size of a level, how many of its units are
    committed, and the unit that ends it otherwise. *)
Definition level_units (s : Store) (stage_id : string) (level : Z) : list (key2 * Unit) :=
  units_in s stage_id (fun u => bool_decide (u_level u = Some level)).

Definition by_level_root (a b : key2 * Unit) : bool :=
  let rank (row : key2 * Unit) := if bool_decide (u_state row.2 = U_COMMITTED) then 1 else 0 in
  then_by (rank a ?= rank b)
    (then_by (compare_opt (u_ordinal a.2) (u_ordinal b.2))
       (str_leb (DurableTables.u_key a.2) (DurableTables.u_key b.2))).

Definition reduction_level_status (s : Store) (stage_id : string) (level : Z)
  : Z * Z * option (key2 * Unit) :=
  let rows := level_units s stage_id level in
  let total := Z.of_nat (length rows) in
  let committed := Z.of_nat (length
    (List.filter (fun row => bool_decide (u_state row.2 = U_COMMITTED)) rows)) in
  (total, committed,
   if negb (total =? 0) && negb ((committed =? total) && (1 <? total))
   then head (order_by by_level_root rows) else None).

Definition reduction_shard (level : Z) (suffix : string) : string :=
  "reduction:" +:+ int_text level +:+ ":" +:+ suffix.

(** The failed root of a reduction. *)
Definition failed_root (level ordinal : Z) (suffix reason : string) : NewUnit :=
  (candidate None [] (Some (reduction_shard level suffix)))
    <| nu_reason := Some reason |> <| nu_force := true |> <| nu_level := Some level |>
    <| nu_ordinal := Some ordinal |> <| nu_root := true |>.

Definition mark_root (stage_id unit_id : string) : db unit :=
  now ← utc_now;
  taken ← gets (fun s => root_taken s stage_id unit_id);
  check (negb taken) (IntegrityError "UNIQUE constraint failed: units") ;;
  update_at units (owner, unit_id)
    (fun u => str_eqb (u_revision u) revision_id && str_eqb (u_stage u) stage_id)
    (fun u => u <| u_root := true |> <| u_updated := now |>) ;;
  mret tt.

(** A level whose units have all been created and have ended. *)
Definition end_level (ready : Ready) (cu : Cursor) : db Z :=
  let level := mat_level (rd_mat ready) in
  status ← gets (fun s => reduction_level_status s (rd_id ready) level);
  let '(total, committed, root) := status in
  if total =? 0 then
    candidate_step ready (failed_root level 0 "unavailable" "dependency_result_unavailable") cu
      true (fun m => m <| mat_waiting := false |>)
  else if (committed =? total) && (1 <? total) then
    cursor_step ready cu false (fun m =>
      m <| mat_parent_unit := None |> <| mat_entry_offset := -1 |> <| mat_level := level + 1 |>
        <| mat_ordinal := -1 |> <| mat_waiting := false |> <| mat_input_count := -1 |>)
  else
    root ← of_option (PyRuntimeError "AssertionError") root;
    mark_root (rd_id ready) (root : key2 * Unit).1.2 ;;
    cursor_step ready cu true (fun m => m <| mat_waiting := false |>).

(** [$.entries] of the result of a candidate. *)
Definition entries_of (p : Parent) : option (list json) :=
  match pa_result p with
  | Some (_, r) => match obj_get "entries" (res_payload r) with Some (JArr l) => Some l | _ => None end
  | None => None
  end.

(** The key of the unit the cursor stands on. *)
Definition cursor_unit (s : Store) (cursor : option string) : option Unit :=
  unit_id ← cursor;
  u ← units s !! (owner, unit_id);
  if str_eqb (u_revision u) revision_id then Some u else None.

Definition cursor_key (s : Store) (cursor : option string) : string :=
  match cursor_unit s cursor with Some u => DurableTables.u_key u | None => EmptyString end.
Definition cursor_ordinal (s : Store) (cursor : option string) : Z :=
  match u ← cursor_unit s cursor; u_ordinal u with Some z => z | None => -1 end.

Definition str_gtb (a b : string) : bool := negb (str_leb a b).

Definition by_unit_key (a b : key2 * Unit) : bool :=
  str_leb (DurableTables.u_key a.2) (DurableTables.u_key b.2).
Definition by_reduction_ordinal (a b : key2 * Unit) : bool :=
  then_by (compare_opt (u_ordinal a.2) (u_ordinal b.2)) (by_unit_key a b).

(** The inputs of a level: the units of the parent stage, or the units of the
    level below. *)
Definition level_inputs (s : Store) (ready : Ready) (parent_id : string) (parent : Stage)
  : list (key2 * Unit) :=
  let level := mat_level (rd_mat ready) in
  if level =? 0 then units_in s parent_id (visible_unit parent)
  else level_units s (rd_id ready) (level - 1).

(** One more row than a group holds, to know whether another group follows. *)
Definition reduction_candidates (s : Store) (ready : Ready) (parent_id : string) (parent : Stage)
    (fan_in : Z) : list Parent :=
  let m := rd_mat ready in
  let cursor := mat_parent_unit m in
  let rows := level_inputs s ready parent_id parent in
  map (parent_row s (s_position parent) (s_key parent)) (limit (fan_in + 1)
    (if mat_level m =? 0 then
       order_by by_unit_key (List.filter (fun row =>
         str_gtb (DurableTables.u_key row.2) (cursor_key s cursor)) rows)
     else
       order_by by_reduction_ordinal (List.filter (fun row =>
         match u_ordinal row.2 with
         | Some z => cursor_ordinal s cursor <? z
         | None => false
         end) rows))).

Definition invalid_input (p : Parent) : bool :=
  negb (is_committed p) || negb (has_result p) || bool_decide (entries_of p = None).

(** Take inputs while the joined array stays within the byte limit. *)
Fixpoint select_inputs (byte_limit content nonempty : Z) (selected l : list Parent)
  : result string (list Parent) :=
  match l with
  | [] => Ok selected
  | p :: rest =>
      let entries := match entries_of p with Some l => l | None => [] end in
      let content' := content + Z.max 0 (byte_len (dumps (JArr entries)) - 2) in
      let nonempty' := nonempty + (if bool_decide (entries = []) then 0 else 1) in
      if byte_limit <? 2 + content' + Z.max 0 (nonempty' - 1) then
        match selected with
        | [] => Err "dependency_input_too_large"
        | [_] => Err "reduction_not_converging"
        | _ => Ok selected
        end
      else select_inputs byte_limit content' nonempty' (selected ++ [p]) rest
  end.

Definition input_count_of (s : Store) (ready : Ready) (parent_id : string) (parent : Stage) : Z :=
  let known := mat_input_count (rd_mat ready) in
  if known <? 0 then Z.of_nat (length (level_inputs s ready parent_id parent)) else known.

(** The next group of a level. *)
Definition reduce_group (ready : Ready) (cu : Cursor) (fan_in : Z) : db Z :=
  let m := rd_mat ready in
  let level := mat_level m in
  parents ← gets (fun s => later_parents s (rd_id ready));
  parent ← of_option (DurableStoreError "hierarchical reduction needs one persisted dependency")
    (match parents with [p] => Some p | _ => None end);
  let '(parent_id, parent, _) := (parent : string * Stage * Z) in
  count ← gets (fun s => input_count_of s ready parent_id parent);
  let counted (m : Materialization) := m <| mat_input_count := count |> in
  if count =? 0 then
    candidate_step ready (failed_root level 0 "unavailable" "dependency_result_unavailable") cu
      true (fun m => m <| mat_input_count := 0 |>)
  else
    candidates ← gets (fun s => reduction_candidates s ready parent_id parent fan_in);
    let group := take (Z.to_nat fan_in) candidates in
    let next_ordinal := mat_ordinal m + 1 in
    if existsb invalid_input group then
      candidate_step ready
        (failed_root level next_ordinal "invalid-input" "dependency_result_unavailable") cu
        true counted
    else
      max_bytes ← of_option (PyTypeError "int() argument is None") (s_reduction_max_bytes (rd_stage ready));
      match select_inputs max_bytes 0 0 [] group with
      | Err reason =>
          candidate_step ready (failed_root level next_ordinal reason reason) cu true counted
      | Ok [] => cursor_step ready cu false (fun m => counted m <| mat_waiting := true |>)
      | Ok selected =>
          candidate_step ready
            ((candidate None selected (Some (reduction_shard level (int_text next_ordinal))))
               <| nu_level := Some level |> <| nu_ordinal := Some next_ordinal |>) cu false
            (fun m => (counted m)
               <| mat_parent_unit := pa_unit_id <$> last selected |>
               <| mat_entry_offset := -1 |> <| mat_ordinal := next_ordinal |>
               <| mat_waiting := negb (length selected <? length candidates)%nat |>)
      end.

(** ** One unit for the whole stage *)

(** Why the units of the parents cannot be the inputs of one unit. *)
Definition missing_inputs (too_many missing : bool) (parents : list Parent)
  : option (string * bool) :=
  if too_many then Some ("dependency_fan_in_exceeded", true)
  else if missing || bool_decide (parents = []) then Some ("dependency_result_unavailable", false)
  else if existsb (fun p => is_committed p && negb (has_result p)) parents
  then Some ("dependency_result_missing", true)
  else if existsb (fun p => negb (is_committed p)) parents
  then Some ("dependency_result_unavailable", false)
  else None.

Definition by_position_and_key (a b : Parent) : bool :=
  then_by (pa_position a ?= pa_position b)
    (str_leb (DurableTables.u_key (pa_unit a)) (DurableTables.u_key (pa_unit b))).

(** Every visible unit of the later parents. *)
Definition parent_units (s : Store) (stage_id : string) : list Parent :=
  flat_map (fun p => map (parent_row s (s_position p.1.2) (s_key p.1.2))
                       (units_in s p.1.1 (visible_unit p.1.2)))
    (later_parents s stage_id).

Definition singleton_step (ready : Ready) (cu : Cursor) : db Z :=
  parents ← gets (fun s => limit (MAX_UNIT_DEPENDENCIES + 1)
    (order_by by_position_and_key (parent_units s (rd_id ready))));
  let too_many := MAX_UNIT_DEPENDENCIES <? Z.of_nat (length parents) in
  candidate_step ready
    (match missing_inputs too_many false parents with
     | None => candidate None parents None
     | Some (reason, force) =>
         unavailable None "unavailable:singleton" "unavailable:singleton" reason force
     end) cu true (fun m => m <| mat_entry_offset := -1 |>).

(** ** One unit per source *)

Definition next_source (s : Store) (ordinal : Z) : option (string * Source) :=
  (fun row => (row.1.2, row.2)) <$>
  head (order_by (fun a b : key2 * Source =>
          then_by (src_ordinal a.2 ?= src_ordinal b.2) (str_leb a.1.2 b.1.2))
    (select_rows (sources s) (fun k src => str_eqb k.1 owner
       && str_eqb (src_revision src) revision_id && (ordinal <? src_ordinal src)))).

Definition ordered_parents (s : Store) (stage_id : string) : list (string * Stage * Z) :=
  order_by (fun a b => a.2 <=? b.2) (later_parents s stage_id).

(** The units of one parent that belong to a source. *)
Definition source_units (s : Store) (source_id : string) (parent : string * Stage * Z)
  : list (key2 * Unit) :=
  order_by by_unit_key (units_in s parent.1.1 (fun u =>
    (str_eqb (s_cardinality parent.1.2) "singleton" || sql_eq (u_source u) source_id)
    && visible_unit parent.1.2 u)).

(** Parent by parent, until the inputs are too many: the inputs, whether they
    are too many and whether a parent had none. *)
Fixpoint collect_inputs (s : Store) (source_id : string) (found : list Parent) (missing : bool)
    (parents : list (string * Stage * Z)) : list Parent * bool * bool :=
  match parents with
  | [] => (found, false, missing)
  | p :: rest =>
      let remaining := MAX_UNIT_DEPENDENCIES + 1 - Z.of_nat (length found) in
      let rows := map (parent_row s (s_position p.1.2) (s_key p.1.2))
                    (limit remaining (source_units s source_id p)) in
      let missing := missing || bool_decide (rows = []) in
      let found := found ++ rows in
      if MAX_UNIT_DEPENDENCIES <? Z.of_nat (length found) then (found, true, missing)
      else collect_inputs s source_id found missing rest
  end.

Definition per_source_step (ready : Ready) (cu : Cursor) : db Z :=
  source ← gets (fun s => next_source s (mat_source_ordinal (rd_mat ready)));
  match source with
  | None => cursor_step ready cu true (fun m => m <| mat_entry_offset := -1 |>)
  | Some (source_id, src) =>
      inputs ← gets (fun s => collect_inputs s source_id [] false (ordered_parents s (rd_id ready)));
      let '(parents, too_many, missing) := inputs in
      candidate_step ready
        (match missing_inputs too_many missing parents with
         | None => candidate (Some (source_id, src)) parents None
         | Some (reason, force) =>
             unavailable (Some (source_id, src)) ("unavailable:source:" +:+ source_id)
               ("unavailable:source:" +:+ src_source_id src) reason force
         end) cu false (fun m => m <| mat_source_ordinal := src_ordinal src |>)
  end.

(** ** One unit per result, or per entry of a result *)

(** The parent unit whose entries are being scanned. *)
Definition current_parent (s : Store) (stage_id : string) (position : Z) (unit_id : string)
  : option Parent :=
  u ← units s !! (owner, unit_id);
  if str_eqb (u_revision u) revision_id then
    p ← head (List.filter (fun p => str_eqb p.1.1 (u_stage u) && (s_position p.1.2 =? position))
                (parent_stages s stage_id));
    Some (parent_row s (s_position p.1.2) (s_key p.1.2) ((owner, unit_id), u))
  else None.

(** The first parent unit past the cursor. *)
Definition next_parent (s : Store) (stage_id : string) (position : Z) (cursor : option string)
  : option Parent :=
  head (order_by by_position_and_key (List.filter (fun p =>
    (position <? pa_position p)
    || ((pa_position p =? position)
        && str_gtb (DurableTables.u_key (pa_unit p)) (cursor_key s cursor)))
    (parent_units s stage_id))).

Definition select_parent (s : Store) (ready : Ready) : option Parent :=
  let m := rd_mat ready in
  match mat_parent_unit m with
  | Some unit_id =>
      if 0 <=? mat_entry_offset m
      then current_parent s (rd_id ready) (mat_parent_position m) unit_id
      else next_parent s (rd_id ready) (mat_parent_position m) (Some unit_id)
  | None => next_parent s (rd_id ready) (mat_parent_position m) None
  end.

Definition move_to (p : Parent) (offset : Z) (m : Materialization) : Materialization :=
  m <| mat_parent_position := pa_position p |> <| mat_parent_unit := Some (pa_unit_id p) |>
    <| mat_entry_offset := offset |>.

(** The unit of one entry, by its identity field. *)
Definition entry_step (ready : Ready) (cu : Cursor) (source : option (string * Source)) (p : Parent)
    (result_id identity_field payload_json : string) : db Z :=
  let offset := mat_entry_offset (rd_mat ready) in
  let scanned :=
    start ← (if 0 <=? offset then Ok offset else entry_array_offset payload_json);
    next_entry payload_json start in
  match scanned with
  | Err _ => cursor_step ready (blocked_by "dependency_payload_invalid" cu) false stay
  | Ok found =>
      match en_entry found with
      | None => cursor_step ready cu false (move_to p (-1))
      | Some entry =>
          match obj_get identity_field entry with
          | Some (JStr (String _ _ as identity)) =>
              digest ← of_schema (digest_json "durable-entry-shard"
                (JObj [("field", JStr identity_field); ("value", JStr identity)])
                MAX_EVENT_JSON_BYTES);
              candidate_step ready
                ((candidate source [p] (Some ("entry:" +:+ result_id +:+ ":" +:+ identity_field
                                              +:+ ":" +:+ digest)))
                   <| nu_duplicate := true |>
                   <| nu_slice := Some (en_start found, en_end found - en_start found) |>
                   <| nu_semantic_shard := Some ("entry:" +:+ identity_field +:+ ":" +:+ digest) |>)
                cu false (move_to p (if en_finished found then -1 else en_next found))
          | _ => cursor_step ready (blocked_by "entry_identity_invalid" cu) false stay
          end
      end
  end.

Definition parent_unavailable (source : option (string * Source)) (p : Parent) (reason : string)
    (force : bool) : NewUnit :=
  unavailable source ("unavailable:unit:" +:+ pa_unit_id p)
    ("unavailable:unit:" +:+ DurableTables.u_key (pa_unit p)) reason force.

Definition fan_out_step (ready : Ready) (cu : Cursor) : db Z :=
  selected ← gets (fun s => p ← select_parent s ready; Some (p, source_of s (pa_unit p)));
  match selected with
  | None => cursor_step ready cu true (fun m => m <| mat_entry_offset := -1 |>)
  | Some (p, source) =>
      if negb (is_committed p) then
        candidate_step ready (parent_unavailable source p "dependency_result_unavailable" false) cu
          false (move_to p (-1))
      else
        match pa_result p with
        | None =>
            candidate_step ready (parent_unavailable source p "dependency_result_missing" true) cu
              false (move_to p (-1))
        | Some (result_id, r) =>
            match rd_identity ready with
            | None =>
                candidate_step ready
                  ((candidate source [p] (Some ("result:" +:+ result_id)))
                     <| nu_semantic_shard := Some ("result:" +:+ DurableTables.u_key (pa_unit p)) |>)
                  cu false (move_to p (-1))
            | Some identity_field =>
                entry_step ready cu source p result_id identity_field (dumps (JObj (res_payload r)))
            end
        end
  end.

(** ** The batch *)

Definition materialize_step (ready : Ready) : db Z :=
  let m := rd_mat ready in
  let cu := mkCursor (mat_unit_count m) (mat_legacy m) None in
  match s_reduction_fan_in (rd_stage ready) with
  | Some fan_in => if mat_waiting m then end_level ready cu else reduce_group ready cu fan_in
  | None =>
      if str_eqb (s_cardinality (rd_stage ready)) "singleton" then singleton_step ready cu
      else if str_eqb (s_cardinality (rd_stage ready)) "per_source" then per_source_step ready cu
      else fan_out_step ready cu
  end.

(** [while advanced < limit]: every iteration advances by one, so what is left
    to advance is the recursion argument. *)
Fixpoint materialize_steps (more : nat) (created advanced : Z) : db (Z * Z) :=
  match more with
  | O => mret (created, advanced)
  | S more =>
      stage ← gets next_materialization_stage;
      match stage with
      | None => mret (created, advanced)
      | Some ready =>
          n ← materialize_step ready;
          materialize_steps more (created + n) (advanced + 1)
      end
  end.
End Revision.

Definition materialize_batch `{Host} (owner workload_id : string) (count : Z) : db (Z * Z) :=
  w ← select_workload owner workload_id;
  match w_active_revision w with
  | None => mret (0, 0)
  | Some revision_id =>
      if negb (bool_decide (w_state w ∈ [ADMITTED; QUEUED; RUNNING])) then mret (0, 0)
      else
        found ← gets (fun s => r ← revisions s !! (owner, revision_id);
                               if str_eqb (r_workload r) workload_id then Some r else None);
        revision ← of_option (DurableStoreError "active revision is missing") found;
        materialize_steps owner revision_id revision (Z.to_nat count) 0 0
  end.

Definition materialize_ready_units `{Host} (owner workload_id : string) (count : Z) : db Z :=
  require_owner owner ;;
  require_limit count 1000 ;;
  done ← materialize_batch owner workload_id count;
  mret (done : Z * Z).1.

Definition materialization_complete `{Host} (owner workload_id : string) : db bool :=
  require_owner owner ;;
  w ← select_workload owner workload_id;
  match w_active_revision w with
  | None => mret false
  | Some revision_id => gets (fun s => negb (exists_row (materializations s) (fun k m =>
      str_eqb k.1.1 owner && str_eqb k.1.2 revision_id
      && (negb (mat_completed m) || bool_decide (is_Some (mat_attention_code m))))))
  end.
