(* ===== verification/DurableReuse.v ===== *)
(** * Reuse of committed results

    [adopt_reusable_results] of src/runtime/durable_workloads/storage.py: a
    pending unit of a pure stage that no worker has tried yet takes over the
    committed result of a unit of another revision of the same owner, when
    their keys and the contracts of their stages are the same.  Everything is
    selected and checked again inside one transaction for each unit. *)
From Stdlib Require Import Strings.String.
From S2P Require Import Prelude.
From S2P Require Import PyJson.
From S2P Require Import DurableModels.
From S2P Require Import DurableRetry.
From S2P Require Import DurableResults.
From S2P Require Import DurableTables.
From S2P Require Import DurableOutbox.
From S2P Require Import DurableWorkflow.
From S2P Require Import DurableLeases.
From S2P Require Import DurableMaterialize.
Local Open Scope Z_scope.

(** ** The candidate *)

(** A unit that waits for its first attempt. *)
Definition untried (u : Unit) : bool :=
  bool_decide (u_state u = U_PENDING) && (u_attempt_count u =? 0)
  && bool_decide (u_active_attempt u = None).

(** Two JSON columns with the same text. *)
Definition same_text (a b : object) : bool := str_eqb (dumps (JObj a)) (dumps (JObj b)).

(** The stage of an earlier unit promises what this stage promises. *)
Definition same_contract (prior current : Stage) : bool :=
  str_eqb (s_key prior) (s_key current) && str_eqb (s_type prior) (s_type current)
  && bool_decide (s_runner_kind prior = s_runner_kind current)
  && str_eqb (s_runner_name prior) (s_runner_name current)
  && bool_decide (s_effect prior = s_effect current)
  && same_text (s_output_schema prior) (s_output_schema current)
  && str_eqb (s_invalidation_digest prior) (s_invalidation_digest current)
  && bool_decide (s_reduction_fan_in prior = s_reduction_fan_in current)
  && bool_decide (s_reduction_input prior = s_reduction_input current)
  && bool_decide (s_reduction_max_bytes prior = s_reduction_max_bytes current).

(** A committed unit of another revision of the owner with the same key. *)
Definition prior_unit (owner : string) (current : Unit) (k : key2) (u : Unit) : bool :=
  str_eqb k.1 owner && str_eqb (DurableTables.u_key u) (DurableTables.u_key current)
  && negb (str_eqb (u_revision u) (u_revision current)) && bool_decide (u_state u = U_COMMITTED).

(** The workload whose active revision the unit belongs to, being executed. *)
Definition executing_workload (s : Store) (owner : string) (u : Unit)
  : option (string * Workload) :=
  r ← revisions s !! (owner, u_revision u);
  w ← workloads s !! (owner, r_workload r);
  if sql_eq (w_active_revision w) (u_revision u) && bool_decide (w_state w ∈ [QUEUED; RUNNING])
  then Some (r_workload r, w) else None.

(** The read outside the transaction: is there anything to look at. *)
Definition reuse_possible (s : Store) : bool :=
  exists_row (units s) (fun k u => untried u
    && exists_row (workloads s) (fun kw w => str_eqb kw.1 k.1
         && sql_eq (w_active_revision w) (u_revision u) && bool_decide (w_state w ∈ [QUEUED; RUNNING]))
    && exists_row (units s) (prior_unit k.1 u)).

Record ReuseRow : Type := mkReuseRow {
  ru_owner : string; ru_unit_id : string; ru_unit : Unit; ru_workload_id : string;
  ru_workload : Workload; ru_revision : Revision; ru_usage : Usage; ru_stage : Stage;
  ru_result_id : string; ru_result : Result }.

(** The result of an earlier unit, of an admitted revision and an equal
    contract. *)
Definition reusable_result (s : Store) (owner : string) (current : Stage) (prior : Unit)
  : option (string * Result) :=
  r ← revisions s !! (owner, u_revision prior);
  st ← stage_of s owner prior;
  if bool_decide (is_Some (r_admitted r)) && same_contract st current
  then result_of owner s prior else None.

Definition reuse_rows_of (s : Store) (k : key2) (u : Unit) : list ReuseRow :=
  match
    found ← executing_workload s k.1 u;
    r ← revisions s !! (k.1, u_revision u);
    us ← usages s !! (k.1, u_revision u);
    st ← stage_of s k.1 u;
    Some (found, r, us, st)
  with
  | None => []
  | Some ((workload_id, w), r, us, st) =>
      if untried u && bool_decide (s_effect st = PURE)
         && (u_expected_deps u <=? MAX_UNIT_DEPENDENCIES)
         && (u_expected_deps u =? dependency_count s k.1 (u_revision u) k.2)
      then
        omap (fun prior =>
          found ← reusable_result s k.1 st prior.2;
          Some (mkReuseRow k.1 k.2 u workload_id w r us st found.1 found.2))
          (select_rows (units s) (prior_unit k.1 u))
      else []
  end.

Definition by_reuse (a b : ReuseRow) : bool :=
  then_by (w_updated (ru_workload a) ?= w_updated (ru_workload b))
  (then_by (compare_str (ru_owner a) (ru_owner b))
  (then_by (compare_str (ru_workload_id a) (ru_workload_id b))
  (then_by (u_created (ru_unit a) ?= u_created (ru_unit b))
  (then_by (compare_str (DurableTables.u_key (ru_unit a)) (DurableTables.u_key (ru_unit b)))
  (then_by (res_committed (ru_result a) ?= res_committed (ru_result b))
     (str_leb (ru_result_id a) (ru_result_id b))))))).

Definition reuse_candidate (s : Store) : option ReuseRow :=
  head (order_by by_reuse
    (flat_map (fun ku => reuse_rows_of s ku.1 ku.2) (map_to_list (units s)))).

(** The digests of all the results the unit could take. *)
Definition prior_digests (s : Store) (row : ReuseRow) : list string :=
  omap (fun prior =>
    st ← stage_of s (ru_owner row) prior.2;
    if same_contract st (ru_stage row)
    then res_digest <$> (snd <$> result_of (ru_owner row) s prior.2) else None)
    (select_rows (units s) (prior_unit (ru_owner row) (ru_unit row))).

(** The least and the greatest digest differ. *)
Definition digests_conflict (digests : list string) : bool :=
  match digests with
  | [] => false
  | d :: rest => existsb (fun e => negb (str_eqb e d)) rest
  end.

(** ** The transaction *)

Definition require_attention `{Host} (row : ReuseRow) (reason_code : string) (now : Z) : db Z :=
  let detail := terminal_detail reason_code in
  of_schema (canonical_json (JObj detail) MAX_EVENT_JSON_BYTES) ;;
  update_one units (ru_owner row, ru_unit_id row)
    (fun u => str_eqb (u_revision u) (u_revision (ru_unit row)) && untried u)
    (fun u => u <| u_state := U_NEEDS_ATTENTION |> <| u_error := Some reason_code |>
                <| u_detail := Some detail |> <| u_updated := now |>)
    (DurableStoreError "semantic reuse attention compare-and-set failed") ;;
  settle (ru_owner row) (ru_workload_id row) now false UNIT_STATE_BATCH_SIZE ;;
  mret 1.

(** [CAST(json_extract(plan_json, '$.budgets.<name>') AS INTEGER)]. *)
Definition budget_column (r : Revision) (name : string) : option Z :=
  match obj_get "budgets" (r_plan r) with
  | Some (JObj budgets) => as_int (obj_get name budgets)
  | _ => None
  end.

Definition reuse_executor (st : Stage) : object :=
  [("schema_version", JStr "metnos.durable-executor-snapshot/1"); ("mode", JStr "result_reuse");
   ("runner_kind", JStr (kind_value (s_runner_kind st)));
   ("runner_name", JStr (s_runner_name st))].

Definition reuse_model : object :=
  [("schema_version", JStr "metnos.durable-model-snapshot/1"); ("mode", JStr "result_reuse");
   ("binding", JNull)].

Definition reuse_metrics (number count : Z) (v : ValidatedResult) : object :=
  [("schema_version", JStr "metnos.durable-attempt-metrics/1"); ("attempt_number", JInt number);
   ("execution_started", JBool false); ("manual_retry", JBool false); ("committed", JBool true);
   ("dependency_count", JInt count); ("result_digest", JStr (vr_digest v));
   ("result_reused", JBool true); ("usage_missing", JBool false)].

Definition reuse_provenance (row : ReuseRow) (v : ValidatedResult) (attempt_id : string)
    (fence count : Z) : db object :=
  let st := ru_stage row in
  let metrics := reuse_metrics (u_attempt_count (ru_unit row) + 1) count v in
  source ← of_schema (digest_json "durable-result-provenance"
    (JObj (res_provenance (ru_result row))) MAX_SNAPSHOT_JSON_BYTES);
  executor ← of_schema (digest_json "durable-executor-snapshot" (JObj (reuse_executor st))
    MAX_SNAPSHOT_JSON_BYTES);
  model ← of_schema (digest_json "durable-model-snapshot" (JObj reuse_model)
    MAX_SNAPSHOT_JSON_BYTES);
  measured ← of_schema (digest_json "durable-attempt-metrics" (JObj metrics)
    MAX_ATTEMPT_METRICS_JSON_BYTES);
  let provenance :=
    [("schema_version", JStr "metnos.durable-result-provenance/1");
     ("attempt_id", JStr attempt_id); ("fence", JInt fence);
     ("runner_kind", JStr (kind_value (s_runner_kind st)));
     ("runner_name", JStr (s_runner_name st)); ("validation", JStr "reused_validated_result");
     ("output_schema", JStr (vr_schema v)); ("source_result_id", JStr (ru_result_id row));
     ("source_revision_id", JStr (res_revision (ru_result row)));
     ("source_result_digest", JStr (vr_digest v)); ("source_provenance_digest", JStr source);
     ("executor_snapshot_digest", JStr executor); ("model_snapshot_digest", JStr model);
     ("metrics_digest", JStr measured); ("usage_missing", JBool false)] in
  of_schema (canonical_json (JObj provenance) MAX_SNAPSHOT_JSON_BYTES) ;;
  mret provenance.

(** The unit, its attempt of no worker and its result, in one stroke. *)
Definition store_reuse `{Host} (row : ReuseRow) (v : ValidatedResult) (now : Z) : db Z :=
  let owner := ru_owner row in
  let u := ru_unit row in
  let st := ru_stage row in
  planned ← validated_result_dependencies owner (u_revision u) (u_stage u) (ru_unit_id row)
              (u_expected_deps u) (u_level u) (s_reduction_fan_in st);
  let number := u_attempt_count u + 1 in
  let fence := u_fence u + 1 in
  let count := Z.of_nat (length planned) in
  let metrics := reuse_metrics number count v in
  attempt_id ← new_id "att";
  result_id ← new_id "res";
  provenance ← reuse_provenance row v attempt_id fence count;
  of_schema (canonical_json (JObj (reuse_executor st)) MAX_SNAPSHOT_JSON_BYTES) ;;
  insert_attempt owner attempt_id
    (mkAttempt (ru_unit_id row) number fence "result-reuse" A_SUCCEEDED now (Some now) None
       (reuse_executor st) reuse_model metrics None None) ;;
  insert_result owner result_id
    (mkResult (u_revision u) (ru_unit_id row) attempt_id fence (vr_digest v) (vr_schema v)
       (vr_payload v) provenance now) ;;
  insert_result_dependencies owner (u_revision u) result_id [] planned ;;
  detail ← of_schema (domain_terminal_detail (vr_payload v));
  update_one units (owner, ru_unit_id row)
    (fun u' => str_eqb (u_revision u') (u_revision u) && bool_decide (u_state u' = U_PENDING)
               && (u_attempt_count u' =? u_attempt_count u) && (u_fence u' =? u_fence u)
               && bool_decide (u_active_attempt u' = None))
    (fun u' => u' <| u_state := U_COMMITTED |> <| u_attempt_count := number |>
                 <| u_fence := fence |> <| u_result := Some result_id |>
                 <| u_next_attempt := None |> <| u_error := None |> <| u_partial := false |>
                 <| u_detail := detail |> <| u_updated := now |>)
    (DurableStoreError "semantic reuse compare-and-set failed") ;;
  add_revision_usage owner (u_revision u)
    (Build_increments 0 (byte_len (dumps (JObj (vr_payload v)))) 0 0 0 0) false now ;;
  start_queued_workload owner (ru_workload_id row) (ru_workload row) now "first_result_reused" ;;
  settle owner (ru_workload_id row) now false UNIT_STATE_BATCH_SIZE ;;
  mret 1.

(** The stored result as a [ValidatedResult] again; any of the exceptions the
    code catches is [None]. *)
Definition revalidated (row : ReuseRow) : option ValidatedResult :=
  let r := ru_result row in
  match validated_result_post_init
          (mkValidatedResult (res_schema r) (res_payload r) (res_digest r)) with
  | Ok v => if json_is_str (output_name (ru_stage row)) (vr_schema v) then Some v else None
  | Err _ => None
  end.

Definition adopt_candidate `{Host} (row : ReuseRow) (now : Z) : db Z :=
  found ← budget_violation_in (ru_owner row) (ru_workload_id row) (u_revision (ru_unit row)) now;
  match found with
  | Some _ =>
      '(_, settled) ← settle (ru_owner row) (ru_workload_id row) now false UNIT_STATE_BATCH_SIZE;
      check (1 <=? settled) (DurableStoreError "budget violation did not settle the workload") ;;
      mret settled
  | None =>
      conflict ← gets (fun s => digests_conflict (prior_digests s row));
      if (conflict : bool) then require_attention row "result_digest_conflict" now
      else
        match revalidated row with
        | None => require_attention row "reusable_result_invalid" now
        | Some v =>
            bound ← of_option (PyTypeError "int() argument is None")
              (budget_column (ru_revision row) "max_bytes_written");
            if bound <? us_output_bytes (ru_usage row) + byte_len (dumps (JObj (vr_payload v)))
            then require_attention row "budget_limit_exceeded" now
            else store_reuse row v now
        end
  end.

(** One iteration: [None] when there is nothing left to adopt. *)
Definition adopt_next `{Host} : db (option Z) :=
  now ← utc_now;
  found ← gets reuse_candidate;
  match found with
  | None => mret None
  | Some row => n ← adopt_candidate row now; mret (Some n)
  end.

(** ** What a selected row stands for *)

(** [q] is the committed result of an earlier unit that promises the same. *)
Definition reusable (s : Store) (row : ReuseRow) (rid : string) (q : Result) : Prop :=
  exists k pu st, units s !! k = Some pu /\ prior_unit (ru_owner row) (ru_unit row) k pu = true /\
    stage_of s (ru_owner row) pu = Some st /\ same_contract st (ru_stage row) = true /\
    result_of (ru_owner row) s pu = Some (rid, q).

Record reuse_facts (s : Store) (row : ReuseRow) : Prop := {
  rf_unit : units s !! (ru_owner row, ru_unit_id row) = Some (ru_unit row);
  rf_untried : untried (ru_unit row) = true;
  rf_revision : revisions s !! (ru_owner row, u_revision (ru_unit row)) = Some (ru_revision row);
  rf_workload : workloads s !! (ru_owner row, ru_workload_id row) = Some (ru_workload row);
  rf_of_workload : r_workload (ru_revision row) = ru_workload_id row;
  rf_active : w_active_revision (ru_workload row) = Some (u_revision (ru_unit row));
  rf_executing : w_state (ru_workload row) ∈ [QUEUED; RUNNING];
  rf_usage : usages s !! (ru_owner row, u_revision (ru_unit row)) = Some (ru_usage row);
  rf_stage : stage_of s (ru_owner row) (ru_unit row) = Some (ru_stage row);
  rf_pure : s_effect (ru_stage row) = PURE;
  rf_complete : u_expected_deps (ru_unit row)
                = dependency_count s (ru_owner row) (u_revision (ru_unit row)) (ru_unit_id row);
  rf_source : reusable s row (ru_result_id row) (ru_result row) }.

Lemma executing_workload_inv s o u wid w :
  executing_workload s o u = Some (wid, w) ->
  exists r, revisions s !! (o, u_revision u) = Some r /\ r_workload r = wid /\
    workloads s !! (o, wid) = Some w /\ w_active_revision w = Some (u_revision u) /\
    w_state w ∈ [QUEUED; RUNNING].
Proof.
  unfold executing_workload. intros (r & Hr & E)%bind_Some. apply bind_Some in E as (w' & Hw & E).
  case_match eqn:Hc; [|done]. injection E as <- <-. exists r.
  apply andb_true_iff in Hc as [Hs Hst%bool_decide_eq_true]. split_and!; try done.
  unfold sql_eq in Hs. destruct (w_active_revision w'); [|done]. apply str_eqb_true in Hs. congruence.
Qed.

Lemma reusable_result_inv s o current pu rid q :
  reusable_result s o current pu = Some (rid, q) ->
  exists st, stage_of s o pu = Some st /\ same_contract st current = true /\
    result_of o s pu = Some (rid, q).
Proof.
  unfold reusable_result. intros (r & _ & E)%bind_Some. apply bind_Some in E as (st & Hst & E).
  case_match eqn:Hc; [|done]. apply andb_true_iff in Hc as [_ Hc]. eauto.
Qed.

Lemma reuse_rows_facts s k u row :
  units s !! k = Some u -> row ∈ reuse_rows_of s k u -> reuse_facts s row.
Proof.
  intros Hu. unfold reuse_rows_of. case_match eqn:E; [|by intros ?%elem_of_nil].
  destruct p as [[[[wid w] r] us] st].
  apply bind_Some in E as (found & Hw & E). apply bind_Some in E as (r' & Hr & E).
  apply bind_Some in E as (us' & Hus & E). apply bind_Some in E as (st' & Hst & [= -> -> -> ->]).
  apply executing_workload_inv in Hw as (r2 & Hr2 & Hwid & Hw & Hact & Hex).
  assert (r2 = r) as -> by congruence.
  case_match eqn:Hc; [|by intros ?%elem_of_nil].
  rewrite !andb_true_iff, bool_decide_eq_true, Z.eqb_eq in Hc. destruct Hc as [[[Hun Hp] _] Hd].
  intros ((pk & pu) & Hpu & Hrow)%list_elem_of_omap. apply elem_of_select_rows in Hpu as [Hpu Hprior].
  apply bind_Some in Hrow as ([rid res] & Hres & [= <-]).
  apply reusable_result_inv in Hres as (stp & ? & ? & ?).
  split; simpl; try first [done | by destruct k]. exists pk, pu, stp. by split_and!.
Qed.

Lemma reuse_candidate_facts s row : reuse_candidate s = Some row -> reuse_facts s row.
Proof.
  unfold reuse_candidate. intros Hrow%head_Some_elem_of.
  rewrite elem_of_order_by in Hrow. apply list_elem_of_In, in_flat_map in Hrow as ([k u] & Hk & Hrow).
  apply list_elem_of_In, elem_of_map_to_list in Hk. apply list_elem_of_In in Hrow.
  by eapply reuse_rows_facts.
Qed.

(** What stands in the store behind a row that was selected for reuse. *)
Definition reuse_source (s : Store) (row : ReuseRow) : Prop :=
  results s !! (ru_owner row, ru_result_id row) = Some (ru_result row) /\
  u_attempt_count (ru_unit row) = 0.

Lemma result_of_inv o s u rid q :
  result_of o s u = Some (rid, q) ->
  u_result u = Some rid /\ results s !! (o, rid) = Some q /\ res_revision q = u_revision u.
Proof.
  unfold result_of. intros (i & Hi & E)%bind_Some. apply bind_Some in E as (r & Hr & E).
  case_match eqn:Hc; [|done]. injection E as <- <-. split_and!; try done. by apply str_eqb_true.
Qed.

Lemma reuse_candidate_inv s row :
  reuse_candidate s = Some row ->
  reuse_source s row
  /\ workloads s !! (ru_owner row, ru_workload_id row) = Some (ru_workload row).
Proof.
  intros [_ Hun _ Hw _ _ _ _ _ _ _ Hq]%reuse_candidate_facts. split; [|done].
  destruct Hq as (k & pu & st & _ & _ & _ & _ & (_ & Hq & _)%result_of_inv). split; [done|].
  unfold untried in Hun. rewrite !andb_true_iff, Z.eqb_eq in Hun. tauto.
Qed.

(** The result to adopt is the stored one. *)
Lemma revalidated_inv row v :
  revalidated row = Some v ->
  vr_schema v = res_schema (ru_result row) /\ vr_payload v = res_payload (ru_result row) /\
  vr_digest v = res_digest (ru_result row).
Proof.
  unfold revalidated, validated_result_post_init.
  destruct (domain_outcome _); simpl; [|done]. destruct (completion_outcome _); simpl; [|done].
  destruct (canonical_result _ _) as [c|]; simpl; [|done]. destruct (str_eqb c.2 _); [|done].
  simpl. case_match; [|done]. by intros [= <-].
Qed.
