(* ===== verification/DurableFacts.v ===== *)
(** * What a running attempt records

    [record_execution_facts] and [record_attempt_usage] of
    src/runtime/durable_workloads/storage.py: the snapshots of executor and
    model an attempt runs with, frozen once, and the summary of its calls of
    language models, which is recomputed from the calls, held against the
    frozen contract and added to the usage of the revision once. *)
From Stdlib Require Import Strings.String.
From S2P Require Import Prelude.
From S2P Require Import PyJson.
From S2P Require Import Instants.
From S2P Require Import DurableModels.
From S2P Require Import DurableRetry.
From S2P Require Import DurableResults.
From S2P Require Import DurableTables.
From S2P Require Import DurableOutbox.
From S2P Require Import DurableWorkflow.
From S2P Require Import DurableLeases.
From S2P Require Import DurableReuse.
From S2P Require Import DurableInventory.
Local Open Scope Z_scope.

(** ** The summary of model calls *)

Definition MAX_LLM_USAGE_RECORDS : Z := 256.
Definition MAX_LLM_CALL_COUNTER : Z := 1000000000000.

(** [_SHA256_RE] and [_MODEL_USAGE_LABEL_RE]. *)
Definition sha256_re : string -> bool := digest_re.

Definition usage_label_re (s : string) : bool :=
  match s with
  | EmptyString => false
  | String c rest =>
      (is_lower (byte_of c) || is_upper (byte_of c) || is_digit (byte_of c))
      && forall_chars worker_char rest && (byte_len rest <=? 63)
  end.

Definition usage_keys : list string :=
  ["schema_version"; "records"; "dropped"; "input_tokens"; "output_tokens"; "cost_micros";
   "usage_missing"; "cost_unknown"; "zero_calls_verified"].

Definition record_keys : list string :=
  ["schema_version"; "workload_id"; "stage_id"; "unit_key"; "attempt_id"; "provider";
   "model_digest"; "tier"; "kind"; "in_tokens"; "out_tokens"; "latency_ms"; "cost_micros"].

Definition int_within (low high : Z) (v : option json) : bool :=
  match v with Some (JInt z) => (low <=? z) && (z <=? high) | _ => false end.

Definition is_bool (v : option json) : bool :=
  match v with Some (JBool _) => true | _ => false end.

(** [value[name]] of a counter and of a flag that were checked. *)
Definition int_of (name : string) (o : object) : Z := default 0 (as_int (obj_get name o)).
Definition flag_of (name : string) (o : object) : bool :=
  match obj_get name o with Some (JBool b) => b | _ => false end.

(** [optional_counter]: absent, null or a bounded integer. *)
Definition optional_counter (item : object) (name : string) : bool :=
  match obj_get name item with
  | None | Some JNull => true
  | Some (JInt z) => (0 <=? z) && (z <=? MAX_LLM_CALL_COUNTER)
  | Some _ => false
  end.

(** [item[name] is None]. *)
Definition unknown (name : string) (item : object) : bool :=
  bool_decide (as_int (obj_get name item) = None).

Definition expected_identity (lease : Lease) : list (string * string) :=
  [("workload_id", l_workload lease); ("stage_id", l_stage lease);
   ("unit_key", l_unit_key lease); ("attempt_id", l_attempt lease)].

Definition valid_record (lease : Lease) (item : object) : bool :=
  same_keys item record_keys
  && json_is_str (obj_get "schema_version" item) "metnos.durable-llm-call/1"
  && forallb (fun kv => json_is_str (obj_get kv.1 item) kv.2) (expected_identity lease)
  && str_field "provider" (fun s => (1 <=? py_len s) && (py_len s <=? 64) && usage_label_re s) item
  && str_field "model_digest" sha256_re item
  && str_field "tier" (fun s => (py_len s <=? 32) && (str_eqb s EmptyString || usage_label_re s)) item
  && str_field "kind" (fun s => (1 <=? py_len s) && (py_len s <=? 32) && usage_label_re s) item
  && forallb (optional_counter item) ["in_tokens"; "out_tokens"; "latency_ms"; "cost_micros"].

(** [sum(item[name] for item in records if item[name] is not None)]. *)
Definition total (name : string) (records : list object) : Z :=
  fold_right Z.add 0 (map (int_of name) records).

Definition valid_header (value : object) (records : json) : option (list json) :=
  match records with
  | JArr l =>
      if same_keys value usage_keys
         && json_is_str (obj_get "schema_version" value) "metnos.durable-model-usage/2"
         && (Z.of_nat (length l) <=? MAX_LLM_USAGE_RECORDS)
         && forallb (fun name => int_within 0 SQLITE_INTEGER_MAX (obj_get name value))
              ["dropped"; "input_tokens"; "output_tokens"; "cost_micros"]
         && forallb (fun name => is_bool (obj_get name value))
              ["usage_missing"; "cost_unknown"; "zero_calls_verified"]
      then Some l else None
  | _ => None
  end.

Definition aggregates_agree (value : object) (records : list object) : bool :=
  let dropped := int_of "dropped" value in
  let zero_calls := flag_of "zero_calls_verified" value in
  let empty := bool_decide (records = []) in
  let missing := (empty && negb zero_calls) || (0 <? dropped)
    || existsb (fun item => unknown "in_tokens" item || unknown "out_tokens" item) records in
  (int_of "input_tokens" value =? total "in_tokens" records)
  && (int_of "output_tokens" value =? total "out_tokens" records)
  && (int_of "cost_micros" value =? total "cost_micros" records)
  && Bool.eqb (flag_of "usage_missing" value) missing
  && Bool.eqb (flag_of "cost_unknown" value) (existsb (unknown "cost_micros") records)
  && negb (zero_calls && (negb empty || negb (dropped =? 0))).

(** All the elements, when each of them is an object. *)
Definition all_objects (l : list json) : option (list object) :=
  mapM (fun v => match v with JObj kvs => Some kvs | _ => None end) l.

(** [_validated_attempt_usage]: the value and its records. *)
Definition validated_attempt_usage (value : object) (lease : Lease)
  : result string (list object) :=
  match valid_header value (default JNull (obj_get "records" value)) with
  | None => Err "attempt usage summary is invalid"
  | Some l =>
      match all_objects l with
      | None => Err "attempt usage record is invalid"
      | Some records =>
          if negb (forallb (valid_record lease) records) then Err "attempt usage record is invalid"
          else if aggregates_agree value records then Ok records
          else Err "attempt usage aggregates are inconsistent"
      end
  end.

Definition snapshot_keys : list string :=
  ["schema_version"; "mode"; "runner_name"; "binding_digest"; "prompt_digest"; "prompt_language";
   "provider"; "model_digest"; "tier"; "kind"; "max_calls"; "max_input_tokens";
   "max_output_tokens"; "cost_policy"].

(** [record.get(name) != expected], both of them perhaps absent. *)
Definition same_value (a b : option json) : bool :=
  match a, b with
  | Some x, Some y => str_eqb (dumps x) (dumps y)
  | None, None | None, Some JNull | Some JNull, None => true
  | _, _ => false
  end.

Definition call_within (model : object) (record : object) : result string unit :=
  let bound name := int_of name model in
  if negb (forallb (fun name => same_value (obj_get name record) (obj_get name model))
             ["provider"; "model_digest"; "tier"; "kind"])
  then Err "observed model binding differs from the frozen contract"
  else if negb (unknown "in_tokens" record)
          && (bound "max_input_tokens" <? int_of "in_tokens" record)
  then Err "model input exceeded its frozen token limit"
  else if negb (unknown "out_tokens" record)
          && (bound "max_output_tokens" <? int_of "out_tokens" record)
  then Err "model output exceeded its frozen token limit"
  else if int_within 0 0 (obj_get "cost_micros" record) then Ok tt
  else Err "zero-cost model binding reported an unknown or nonzero cost".

Fixpoint calls_within (model : object) (records : list object) : result string unit :=
  match records with
  | [] => Ok tt
  | record :: rest => _ ← call_within model record; calls_within model rest
  end.

(** [_validate_usage_against_model_snapshot]. *)
Definition usage_within_snapshot (usage : object) (records : list object) (model : object)
  : result string unit :=
  if negb (same_keys model snapshot_keys
           && json_is_str (obj_get "schema_version" model) "metnos.durable-model-snapshot/2"
           && json_is_str (obj_get "mode" model) "llm")
  then Err "frozen model usage contract is invalid"
  else if negb (int_within 1 64 (obj_get "max_calls" model)
                && int_within 1 16777216 (obj_get "max_input_tokens" model)
                && int_within 1 1000000 (obj_get "max_output_tokens" model)
                && json_is_str (obj_get "cost_policy" model) "zero")
  then Err "frozen model usage limits are invalid"
  else if int_of "max_calls" model <? Z.of_nat (length records) + int_of "dropped" usage
  then Err "attempt exceeded its frozen model call limit"
  else calls_within model records.

Definition of_usage {A} (r : result string A) : db A :=
  lift_result (match r with Ok a => Ok a | Err what => Err (ModelUsageContractError what) end).

(** ** The two operations *)

(** The unit and the attempt are running, and the clock and the expiry of the
    lease allow one more write. *)
Definition open_to_facts (row : LeaseRow) (a : Attempt) (current : Z)
  : db (option LeaseMutationStatus) :=
  if negb (bool_decide (u_state (lr_unit row) = U_RUNNING))
     || negb (bool_decide (a_state a = A_RUNNING))
  then mret (Some INVALID_STATE)
  else if clock_regressed (us_clock_high_water (lr_usage row)) current
  then mret (Some LEASE_EXPIRED)
  else
    expiry ← require_expiry (lr_unit row);
    mret (if expiry <=? current then Some LEASE_EXPIRED else None).

Definition valid_label (label : option string) : bool :=
  match label with Some s => (1 <=? py_len s) && (py_len s <=? 128) | None => true end.

(** A column that is set once: another value is refused. *)
Definition frozen_against (stored proposed : option string) : bool :=
  match stored, proposed with Some a, Some b => negb (str_eqb a b) | _, _ => false end.

Definition coalesce {A} (a b : option A) : option A :=
  match a with Some x => Some x | None => b end.

Definition record_execution_facts `{Host} (lease : Lease) (executor model : object)
    (device_id invocation_id : option string) (now : option Z) : db LeaseMutationStatus :=
  check (valid_label device_id) (PyValueError "device_id is invalid") ;;
  check (valid_label invocation_id) (PyValueError "invocation_id is invalid") ;;
  of_schema (canonical_json (JObj executor) MAX_SNAPSHOT_JSON_BYTES) ;;
  of_schema (canonical_json (JObj model) MAX_SNAPSHOT_JSON_BYTES) ;;
  current ← operation_now now;
  row ← select_lease_row lease;
  matched ← lease_matches row lease;
  match matched with
  | None => mret STALE_FENCE
  | Some (r, a) =>
      refused ← open_to_facts r a current;
      match refused with
      | Some status => mret status
      | None =>
          check (json_is_str (obj_get "mode" (a_executor a)) "dummy"
                 || (same_text (a_executor a) executor && same_text (a_model a) model))
            (DurableStoreError "execution facts are already frozen") ;;
          check (negb (frozen_against (a_device a) device_id))
            (DurableStoreError "attempt device is already frozen") ;;
          check (negb (frozen_against (a_invocation a) invocation_id))
            (DurableStoreError "attempt invocation is already frozen") ;;
          metrics ← attempt_metrics a
            [("execution_contract_recorded", JBool true);
             ("execution_contract_recorded_at", JStr (instant_text current))];
          update_one attempts (attempt_key lease) (attempt_held lease [A_RUNNING])
            (fun a => a <| a_executor := executor |> <| a_model := model |>
                        <| a_device := coalesce (a_device a) device_id |>
                        <| a_invocation := coalesce (a_invocation a) invocation_id |>
                        <| a_metrics := metrics |>)
            (DurableStoreError "execution facts compare-and-set failed") ;;
          advance_revision_clock (l_owner lease) (l_revision lease) current ;;
          mret APPLIED
      end
  end.

Definition record_attempt_usage `{Host} (lease : Lease) (usage : object) (now : option Z)
  : db LeaseMutationStatus :=
  of_schema (canonical_json (JObj usage) MAX_ATTEMPT_METRICS_JSON_BYTES) ;;
  records ← of_usage (validated_attempt_usage usage lease);
  current ← operation_now now;
  row ← select_lease_row lease;
  matched ← lease_matches row lease;
  match matched with
  | None => mret STALE_FENCE
  | Some (r, a) =>
      refused ← open_to_facts r a current;
      match refused with
      | Some status => mret status
      | None =>
          check (model_is_llm a)
            (ModelUsageContractError "attempt usage requires a frozen model execution") ;;
          of_usage (usage_within_snapshot usage records (a_model a)) ;;
          match obj_get "llm_usage" (a_metrics a) with
          | Some JNull | None =>
              metrics ← attempt_metrics a
                [("llm_usage", JObj usage);
                 ("usage_missing", JBool (flag_of "usage_missing" usage))];
              update_one attempts (attempt_key lease) (attempt_held lease [A_RUNNING])
                (fun a => a <| a_metrics := metrics |>)
                (DurableStoreError "attempt usage compare-and-set failed") ;;
              add_revision_usage (l_owner lease) (l_revision lease)
                (Build_increments 0 0 (int_of "input_tokens" usage) (int_of "output_tokens" usage)
                   (int_of "cost_micros" usage) 0)
                (flag_of "usage_missing" usage || flag_of "cost_unknown" usage) current ;;
              advance_revision_clock (l_owner lease) (l_revision lease) current ;;
              mret APPLIED
          | Some recorded =>
              check (str_eqb (dumps recorded) (dumps (JObj usage)))
                (DurableStoreError "attempt usage is already frozen for the active fence") ;;
              mret ALREADY_APPLIED
          end
      end
  end.
