(* ===== verification/DurableRanking.v ===== *)
(** * The ranking of claims

    The query of [claim_next] in src/runtime/durable_workloads/storage.py that
    chooses the workload and the stage a worker is given: which revisions still
    have room in their budgets, which stages are ready and fit the worker, how
    many tokens the active model attempts hold reserved, and in which order the
    owners take their turns. *)
From Stdlib Require Import Strings.String.
From S2P Require Import Prelude.
From S2P Require Import PyJson.
From S2P Require Import DurableModels.
From S2P Require Import DurableRetry.
From S2P Require Import DurableResults.
From S2P Require Import DurableTables.
From S2P Require Import DurableInventory.
From S2P Require Import DurableOutbox.
From S2P Require Import DurableWorkflow.
From S2P Require Import DurableLeases.
From S2P Require Import DurableReuse.
From S2P Require Import DurableFacts.
Local Open Scope Z_scope.

(** ** Token reservations *)

(** [json_each(catalog_snapshot_json, '$.entries')], what is no object read as
    an empty one. *)
Definition entry_contract (v : json) : object := match v with JObj kvs => kvs | _ => [] end.

Definition model_catalog_entries (r : Revision) : list object :=
  match obj_get "entries" (r_catalog r) with
  | None => []
  | Some (JArr l) => map entry_contract l
  | Some (JObj kvs) => map (fun kv => entry_contract kv.2) kvs
  | Some _ => [[]]
  end.

(** A JSON value compared with a TEXT column. *)
Definition column_text (v : option json) : option string :=
  match v with
  | Some (JStr s) => Some s
  | Some (JInt z) => Some (int_text z)
  | Some (JBool b) => Some (if b then "1" else "0")
  | Some (JArr l) => Some (dumps (JArr l))
  | Some (JObj kvs) => Some (dumps (JObj kvs))
  | Some JNull | None => None
  end.
Definition column_is (v : option json) (s : string) : bool := sql_eq (column_text v) s.

Definition model_stage (st : Stage) : bool :=
  (0 <? r_llm (s_resources st)) || (0 <? r_vlm (s_resources st)).

(** A contract the tokens of a stage can be reserved from. *)
Definition bounded_contract (st : Stage) (contract : object) : bool :=
  json_is_str (obj_get "model_cost_policy" contract) "zero"
  && str_field "model_binding_digest" sha256_re contract
  && column_is (obj_get "kind" contract) (kind_value (s_runner_kind st))
  && column_is (obj_get "name" contract) (s_runner_name st)
  && int_within 1 64 (obj_get "model_max_calls" contract)
  && int_within 1 16777216 (obj_get "model_max_input_tokens" contract)
  && int_within 1 1000000 (obj_get "model_max_output_tokens" contract).

(** [model_limits.max_tokens] of a stage of the revision: [None] where the
    column is NULL. *)
Definition max_stage_tokens (r : Revision) (st : Stage) : option Z :=
  match List.filter (fun c => column_is (obj_get "stage_key" c) (s_key st))
          (model_catalog_entries r) with
  | [contract] =>
      if bounded_contract st contract
      then Some (int_of "model_max_calls" contract
                 * (int_of "model_max_input_tokens" contract
                    + int_of "model_max_output_tokens" contract))
      else None
  | _ => None
  end.

(** The row of [model_limits] of a stage; only stages that use a model have
    one. *)
Record ModelLimit : Type := mkModelLimit {
  ml_token_limit : option Z; ml_remaining : option Z; ml_max : option Z }.

Definition model_limit (r : Revision) (us : Usage) (st : Stage) : option ModelLimit :=
  if model_stage st then
    let budget := budget_column r "max_tokens" in
    Some (mkModelLimit budget
            (b ← budget; Some (b - us_input_tokens us - us_output_tokens us))
            (max_stage_tokens r st))
  else None.

Definition limit_max (l : option ModelLimit) : option Z := m ← l; ml_max m.
Definition limit_remaining (l : option ModelLimit) : option Z := m ← l; ml_remaining m.

(** [max_tokens > remaining_tokens]: such a stage is ranked last. *)
Definition over_reserved (l : option ModelLimit) : bool :=
  match limit_max l, limit_remaining l with
  | Some m, Some rest => rest <? m
  | _, _ => false
  end.

(** The open attempt behind an active unit. *)
Definition reserving_attempt (s : Store) (owner unit_id : string) (u : Unit) : option Attempt :=
  aid ← u_active_attempt u;
  a ← attempts s !! (owner, aid);
  if str_eqb (a_unit a) unit_id && (a_fence a =? u_fence u) && sql_eq (u_worker u) (a_worker a)
     && bool_decide (a_state a ∈ [A_LEASED; A_RUNNING]) && bool_decide (a_ended a = None)
  then Some a else None.

(** The usage of the attempt is known: its tokens are counted already. *)
Definition usage_settled (a : Attempt) : bool :=
  model_is_llm a
  && match obj_get "llm_usage" (a_metrics a) with
     | Some (JObj usage) =>
         json_is_str (obj_get "schema_version" usage) "metnos.durable-model-usage/2"
         && match obj_get "usage_missing" usage, obj_get "cost_unknown" usage with
            | Some (JBool false), Some (JBool false) => true
            | _, _ => false
            end
     | _ => false
     end.

(** One row of [model_reservations]: unbounded, and the tokens held. *)
Definition reservation_of (s : Store) (owner : string) (r : Revision) (unit_id : string) (u : Unit)
  : option (Z * Z) :=
  st ← stage_of s owner u;
  if is_active u && model_stage st then
    let needed := max_stage_tokens r st in
    let a := reserving_attempt s owner unit_id u in
    Some (if bool_decide (needed = None) || bool_decide (a = None) then 1 else 0,
          match a with
          | Some a => if usage_settled a then 0 else default 0 needed
          | None => default 0 needed
          end)
  else None.

Record Reservations : Type := mkReservations {
  rs_active : Z; rs_unbounded : Z; rs_tokens : Z }.

Definition sum_of (l : list Z) : Z := fold_right Z.add 0 l.

Definition model_reservations (s : Store) (owner revision_id : string) (r : Revision)
  : Reservations :=
  let rows := omap (fun ku => reservation_of s owner r ku.1.2 ku.2)
    (select_rows (units s) (in_revision owner revision_id)) in
  mkReservations (Z.of_nat (length rows)) (sum_of (map fst rows)) (sum_of (map snd rows)).

(** ** Ready stages *)

Definition limit_of (caps : WorkerCapabilities) (name : string) : Z :=
  default 0 (snd <$> find (fun kv => str_eqb kv.1 name) (resource_limits caps)).

Definition fits_worker (caps : WorkerCapabilities) (st : Stage) : bool :=
  bool_decide (s_effect st ∈ effect_profiles caps)
  && existsb (fun b => bool_decide (s_runner_kind st = b.1) && str_eqb (s_runner_name st) b.2)
       (runner_bindings caps)
  && (r_cpu (s_resources st) <=? limit_of caps "cpu")
  && (r_device (s_resources st) <=? limit_of caps "device")
  && (r_llm (s_resources st) <=? limit_of caps "llm")
  && (r_local_io (s_resources st) <=? limit_of caps "local_io")
  && (r_network_io (s_resources st) <=? limit_of caps "network_io")
  && (r_vlm (s_resources st) <=? limit_of caps "vlm").

Definition under (v : Z) (bound : option Z) : bool :=
  match bound with Some b => v <? b | None => false end.
Definition within (v : Z) (bound : option Z) : bool :=
  match bound with Some b => v <=? b | None => false end.

(** What a stage with a model needs beside its budget: a reservation that fits,
    or nobody else that runs one. *)
Definition model_admits (r : Revision) (us : Usage) (rs : Reservations) (st : Stage) : bool :=
  let needed := limit_max (model_limit r us st) in
  let remaining := limit_remaining (model_limit r us st) in
  let idle := rs_active rs =? 0 in
  (under (us_input_tokens us + us_output_tokens us) (budget_column r "max_tokens")
   || (bool_decide (is_Some needed) && idle))
  && (match budget_column r "max_cost_micros" with
      | Some b => (b =? 0) || (us_cost_micros us <? b)
      | None => false
      end)
  && match needed with
     | None => idle
     | Some n => (rs_unbounded rs =? 0) && (within (n + rs_tokens rs) remaining || idle)
     end.

Definition needs_no_model (st : Stage) : bool :=
  (r_llm (s_resources st) =? 0) && (r_vlm (s_resources st) =? 0).

Definition ready_unit (s : Store) (k : key2) (st : Stage) (r : Revision) (now : Z) : bool :=
  exists_row (units s) (fun ku u => str_eqb ku.1 k.1 && str_eqb (u_revision u) (s_revision st)
    && str_eqb (u_stage u) k.2 && claimable s ku u st r now).

Definition ready_stage (caps : WorkerCapabilities) (s : Store) (r : Revision) (us : Usage)
    (rs : Reservations) (now : Z) (k : key2) (st : Stage) : bool :=
  ready_unit s k st r now && fits_worker caps st
  && (needs_no_model st || model_admits r us rs st).

(** [ORDER BY over-reserved, position, id LIMIT 1]. *)
Definition by_stage (r : Revision) (us : Usage) (a b : key2 * Stage) : bool :=
  then_by (Z.b2z (over_reserved (model_limit r us a.2))
           ?= Z.b2z (over_reserved (model_limit r us b.2)))
    (then_by (s_position a.2 ?= s_position b.2) (str_leb a.1.2 b.1.2)).

Definition best_stage (caps : WorkerCapabilities) (s : Store) (owner revision_id : string)
    (r : Revision) (us : Usage) (now : Z) : option (key2 * Stage) :=
  let rs := model_reservations s owner revision_id r in
  head (order_by (by_stage r us) (select_rows (stages s) (fun k st =>
    str_eqb k.1 owner && str_eqb (s_revision st) revision_id
    && ready_stage caps s r us rs now k st))).

(** ** Workloads with room *)

Definition active_units (s : Store) (owner revision_id : string) : Z :=
  count_rows (units s) (fun k u => in_revision owner revision_id k u && is_active u).

Definition untolerated_unit (s : Store) (owner revision_id : string) (r : Revision) : bool :=
  exists_row (units s) (fun k u =>
    in_revision owner revision_id k u && bool_decide (u_state u = U_FAILED_PERMANENT)
    && (negb (str_eqb (r_failure_policy r) "declared")
        || match u_error u with
           | None => true
           | Some e => negb (bool_decide (e ∈ r_tolerated r))
           end)).

(** The clock and every counter of the revision are within its budgets. *)
Definition within_budgets `{Host} (r : Revision) (us : Usage) (now : Z) : bool :=
  negb (us_unknown us)
  && match us_clock_high_water us with Some t => negb (julian_after t now) | None => true end
  && within (us_input_bytes us) (budget_column r "max_bytes_read")
  && within (us_output_bytes us) (budget_column r "max_bytes_written")
  && within (us_input_tokens us + us_output_tokens us) (budget_column r "max_tokens")
  && within (us_cost_micros us) (budget_column r "max_cost_micros")
  && within (us_artifacts us) (budget_column r "max_artifacts")
  && match us_started us with
     | None => true
     | Some t =>
         match budget_column r "max_wall_time_s" with
         | Some bound => negb (julian_reached now t bound)
         | None => false
         end
     end.

Definition has_room (s : Store) (owner revision_id : string) (r : Revision) : bool :=
  negb (untolerated_unit s owner revision_id r)
  && under (active_units s owner revision_id) (budget_column r "max_concurrency").

Record Ranked : Type := mkRanked {
  rk_owner : string; rk_workload_id : string; rk_workload : Workload; rk_revision_id : string;
  rk_revision : Revision; rk_usage : Usage; rk_stage_id : string; rk_stage : Stage;
  rk_owner_seq : Z; rk_seq : Z }.

(** [COALESCE(MAX(last_selected_seq), 0)] over the credits of the owner. *)
Definition owner_seq (s : Store) (owner : string) : Z :=
  match map (fun kc => c_last_selected_seq kc.2)
          (select_rows (credits s) (fun k _ => str_eqb k.1 owner)) with
  | [] => 0
  | n :: rest => fold_right Z.max n rest
  end.

Definition workload_seq (s : Store) (k : key2) : Z :=
  default 0 (c_last_selected_seq <$> credits s !! k).

Definition ranked_of `{Host} (caps : WorkerCapabilities) (now : Z) (s : Store) (k : key2)
    (w : Workload) : option Ranked :=
  revision_id ← w_active_revision w;
  r ← revisions s !! (k.1, revision_id);
  us ← usages s !! (k.1, revision_id);
  if bool_decide (w_state w ∈ [QUEUED; RUNNING]) && within_budgets r us now
     && has_room s k.1 revision_id r
  then
    best ← best_stage caps s k.1 revision_id r us now;
    Some (mkRanked k.1 k.2 w revision_id r us best.1.2 best.2 (owner_seq s k.1) (workload_seq s k))
  else None.

Definition priority_rank (priority : string) : Z :=
  if str_eqb priority "high" then 0 else if str_eqb priority "normal" then 1 else 2.

Definition ranked_limit (c : Ranked) : option ModelLimit :=
  model_limit (rk_revision c) (rk_usage c) (rk_stage c).

Definition by_rank (a b : Ranked) : bool :=
  then_by (Z.b2z (over_reserved (ranked_limit a)) ?= Z.b2z (over_reserved (ranked_limit b)))
  (then_by (rk_owner_seq a ?= rk_owner_seq b)
  (then_by (rk_seq a ?= rk_seq b)
  (then_by (priority_rank (w_priority (rk_workload a))
            ?= priority_rank (w_priority (rk_workload b)))
  (then_by (w_created (rk_workload a) ?= w_created (rk_workload b))
  (then_by (compare_str (rk_owner a) (rk_owner b))
     (str_leb (rk_workload_id a) (rk_workload_id b))))))).

Definition ranked_workloads `{Host} (caps : WorkerCapabilities) (now : Z) (s : Store)
  : list Ranked :=
  order_by by_rank (omap (fun kw => ranked_of caps now s kw.1 kw.2) (map_to_list (workloads s))).

(** A budget of tokens that is no number is read as 0 here; no admitted plan
    has one (DurablePlans.v). *)
Definition candidate_of (c : Ranked) : Candidate :=
  mkCandidate (rk_owner c) (rk_workload_id c) (rk_revision_id c) (rk_stage_id c)
    (limit_max (ranked_limit c)) (default 0 (limit_remaining (ranked_limit c)))
    (default 0 (m ← ranked_limit c; ml_token_limit m)).

Definition claim_candidate `{Host} (caps : WorkerCapabilities) (now : Z) (s : Store)
  : option Candidate := candidate_of <$> head (ranked_workloads caps now s).

(** [claim_next] with its own query. *)
Definition claim_ranked `{Host} (worker_id : string) (now lease_duration : Z)
    (caps : WorkerCapabilities) : db (option Lease) :=
  claim_next (claim_candidate caps now) worker_id now lease_duration.
