(* ===== verification/DurableSweeps.v ===== *)
(** * Sweeps over the workloads of the store

    [materialize_all_ready_units], [complete_ready_workloads],
    [adopt_reusable_results] and [settle_workloads] of
    src/runtime/durable_workloads/storage.py: a selection of workloads, then
    one or more transactions for each.  Every transaction commits by itself:
    an exception ends the sweep and keeps what was committed before it. *)
From Stdlib Require Import Strings.String.
From S2P Require Import Prelude.
From S2P Require Import PyJson.
From S2P Require Import DurableModels.
From S2P Require Import DurableTables.
From S2P Require Import DurableOutbox.
From S2P Require Import DurableWorkflow.
From S2P Require Import DurableCompletion.
From S2P Require Import DurableAdmission.
From S2P Require Import DurableMaterialize.
From S2P Require Import DurableReuse.
From S2P Require Import DurableRanking.
Local Open Scope Z_scope.

(** ** Sequences of transactions *)

Definition sweep (A : Type) : Type := Store -> Store * result store_error A.

Definition finish {A} (a : A) : sweep A := fun s => (s, Ok a).

(** Commit [m], then go on; an exception rolls [m] back and ends the sweep. *)
Definition commit_then {A B} (m : db A) (k : A -> sweep B) : sweep B := fun s =>
  match m s with
  | Ok (a, s') => k a s'
  | Err e => (s, Err e)
  end.

(** ** Materialization *)

(** The oldest cursor of a workload that can advance. *)
Definition progress_at (s : Store) (owner : string) (w : Workload) : option Z :=
  if bool_decide (w_state w ∈ [ADMITTED; QUEUED; RUNNING]) then
    revision_id ← w_active_revision w;
    match map (fun row => mat_updated row.2) (advancing owner revision_id s) with
    | [] => None
    | t :: ts => Some (foldr Z.min t ts)
    end
  else None.

Definition by_progress (a b : key2 * Z) : bool :=
  then_by (a.2 ?= b.2) (then_by (compare_str a.1.1 b.1.1) (str_leb a.1.2 b.1.2)).

Definition ready_workloads (s : Store) (count : Z) : list key2 :=
  map fst (limit count (order_by by_progress
    (omap (fun kw => t ← progress_at s kw.1.1 kw.2; Some (kw.1, t)) (map_to_list (workloads s))))).

Fixpoint materialize_rows `{Host} (rows : list key2) (count advanced : Z) : sweep Z :=
  match rows with
  | [] => finish advanced
  | row :: rest =>
      if count <=? advanced then finish advanced
      else commit_then (materialize_batch row.1 row.2 (Z.min 100 (count - advanced))) (fun done =>
        materialize_rows rest count (advanced + (done : Z * Z).2))
  end.

Definition materialize_all_ready_units `{Host} (count : Z) : sweep Z := fun s =>
  match require_limit count 1000 s with
  | Ok _ => materialize_rows (ready_workloads s count) count 0 s
  | Err e => (s, Err e)
  end.

(** ** Completion *)

Definition requirement_met (s : Store) (owner revision_id : string) (requirement : object) : bool :=
  exists_row (artifacts s) (fun k a =>
    str_eqb k.1 owner && str_eqb (art_revision a) revision_id
    && json_is_str (obj_get "name" requirement) (art_name a)
    && json_is_str (obj_get "mime_type" requirement) (art_mime_type a)
    && json_is_str (obj_get "schema_version" requirement) (art_schema_version a)
    && (str_eqb (art_state a) "committed" || str_eqb (art_state a) "published")
    && art_digest_verified a && art_schema_valid a && art_postconditions_valid a).

Definition completable (s : Store) (owner : string) (w : Workload) : bool :=
  bool_decide (w_state w = RUNNING)
  && match w_active_revision w with
     | None => false
     | Some revision_id =>
         match revisions s !! (owner, revision_id) with
         | None => false
         | Some r =>
             negb (exists_row (materializations s) (fun k m =>
               str_eqb k.1.1 owner && str_eqb k.1.2 revision_id
               && (negb (mat_completed m) || bool_decide (is_Some (mat_attention_code m)))))
             && negb (exists_row (units s) (fun k u =>
               in_revision owner revision_id k u
               && negb (bool_decide (u_state u ∈ [U_COMMITTED; U_FAILED_PERMANENT; U_SKIPPED; U_CANCELLED]))))
             && forallb (requirement_met s owner revision_id) (r_required_artifacts r)
         end
     end.

Definition by_updated (a b : key2 * Workload) : bool :=
  then_by (w_updated a.2 ?= w_updated b.2)
    (then_by (compare_str a.1.1 b.1.1) (str_leb a.1.2 b.1.2)).

Definition completable_workloads (s : Store) (count : Z) : list key2 :=
  map fst (limit count (order_by by_updated
    (select_rows (workloads s) (fun k w => completable s k.1 w)))).

Fixpoint complete_rows `{Host} (rows : list key2) (completed : Z) : sweep Z :=
  match rows with
  | [] => finish completed
  | row :: rest =>
      commit_then (refresh_usage_complete row.1 row.2) (fun _ =>
      commit_then (evaluate_completion row.1 row.2 None) (fun assessment =>
        complete_rows rest (completed + (if ca_eligible assessment then 1 else 0))))
  end.

Definition complete_ready_workloads `{Host} (count : Z) : sweep Z := fun s =>
  match require_limit count 1000 s with
  | Ok _ => complete_rows (completable_workloads s count) 0 s
  | Err e => (s, Err e)
  end.

(** ** Reuse *)

(** [for _index in range(limit)]: a read, then one transaction for one unit. *)
Fixpoint adopt_steps `{Host} (n : nat) (progressed : Z) : sweep Z :=
  match n with
  | O => finish progressed
  | S n => fun s =>
      if reuse_possible s
      then commit_then adopt_next (fun adopted =>
             match adopted with
             | None => finish progressed
             | Some k => adopt_steps n (progressed + k)
             end) s
      else (s, Ok progressed)
  end.

Definition adopt_reusable_results `{Host} (count : Z) : sweep Z := fun s =>
  match require_limit count 1000 s with
  | Ok _ => adopt_steps (Z.to_nat count) 0 s
  | Err e => (s, Err e)
  end.

(** ** Settlement

    [settle_workloads]: a read that picks the workloads with something to
    settle, then one transaction for each of them, within a limit of changes. *)

(** [counter > CAST(json_extract(plan_json, '$.budgets...') AS INTEGER)]. *)
Definition over (v : Z) (bound : option Z) : bool :=
  match bound with Some b => b <? v | None => false end.

Definition over_budget `{Host} (r : Revision) (us : Usage) (now : Z) : bool :=
  us_unknown us
  || match us_clock_high_water us with Some t => julian_after t now | None => false end
  || over (us_input_bytes us) (budget_column r "max_bytes_read")
  || over (us_output_bytes us) (budget_column r "max_bytes_written")
  || over (us_input_tokens us + us_output_tokens us) (budget_column r "max_tokens")
  || over (us_cost_micros us) (budget_column r "max_cost_micros")
  || over (us_artifacts us) (budget_column r "max_artifacts")
  || match us_started us, budget_column r "max_wall_time_s" with
     | Some t, Some bound => julian_reached now t bound
     | _, _ => false
     end.

Section Due.
Context (s : Store) (owner revision_id : string) (r : Revision).

Definition some_unit (p : key2 -> Unit -> bool) : bool :=
  exists_row (units s) (fun k u => in_revision owner revision_id k u && p k u).

Definition some_active : bool := some_unit (fun _ u => is_active u).
Definition some_waiting : bool := some_unit (fun _ u => is_waiting u).

Definition stage_attention : bool :=
  exists_row (materializations s) (fun k m =>
    str_eqb k.1.1 owner && str_eqb k.1.2 revision_id
    && bool_decide (is_Some (mat_attention_code m))).

Definition untolerated (u : Unit) : bool :=
  bool_decide (u_state u = U_FAILED_PERMANENT)
  && (negb (str_eqb (r_failure_policy r) "declared")
      || match u_error u with
         | None => true
         | Some e => negb (bool_decide (e ∈ r_tolerated r))
         end).

(** A failure that can be acted on now, or attention nobody has retried. *)
Definition unit_trouble : bool :=
  some_unit (fun _ u =>
    (untolerated u && (negb some_active || some_waiting))
    || (bool_decide (u_state u = U_NEEDS_ATTENTION)
        && (r_manual_generation r <=? u_generation u))).

Definition artifact_attention : bool :=
  exists_row (artifacts s) (fun k a =>
    str_eqb k.1 owner && str_eqb (art_revision a) revision_id
    && (str_eqb (art_state a) "needs_attention"
        || exists_row (publications s) (fun pk p =>
             str_eqb pk.1 k.1 && str_eqb (pub_artifact p) k.2
             && str_eqb (pub_state p) "needs_attention"))).

Definition some_exhausted : bool := some_unit (fun _ u => is_exhausted s owner u).
End Due.

(** The condition of the sweep on one workload. *)
Definition settlement_due `{Host} (s : Store) (now : Z) (k : key2) (w : Workload) : bool :=
  match
    revision_id ← w_active_revision w;
    r ← revisions s !! (k.1, revision_id);
    Some (revision_id, r)
  with
  | None => false
  | Some (revision_id, r) =>
      let waiting := some_waiting s k.1 revision_id in
      (bool_decide (w_state w ∈ [CANCELLED; FAILED]) && waiting)
      || (negb (bool_decide (w_state w ∈ [CANCELLED; FAILED; COMPLETED; COMPLETED_WITH_ERRORS;
                                          NEEDS_ATTENTION]))
          && ((bool_decide (w_state w ∈ [PAUSE_REQUESTED; CANCEL_REQUESTED])
               && (negb (some_active s k.1 revision_id)
                   || (bool_decide (w_state w = CANCEL_REQUESTED) && waiting)))
              || (negb (bool_decide (w_state w = CANCEL_REQUESTED))
                  && (match usages s !! (k.1, revision_id) with
                      | Some us => over_budget r us now
                      | None => false
                      end
                      || stage_attention s k.1 revision_id
                      || unit_trouble s k.1 revision_id r
                      || artifact_attention s k.1 revision_id
                      || some_exhausted s k.1 revision_id))))
  end.

Definition due_workloads `{Host} (s : Store) (now count : Z) : list key2 :=
  map fst (limit count (order_by by_updated
    (select_rows (workloads s) (fun k w => settlement_due s now k w)))).

Fixpoint settle_rows `{Host} (rows : list key2) (count now changed : Z) : sweep Z :=
  match rows with
  | [] => finish changed
  | row :: rest =>
      let remaining := count - Z.min changed count in
      if remaining <=? 0 then finish changed
      else commit_then (settle row.1 row.2 now true remaining) (fun settled =>
        settle_rows rest count now (changed + (settled : WorkloadRecord * Z).2))
  end.

(** The clock is read before the selection, outside every transaction. *)
Definition settle_workloads `{Host} (count : Z) (now : option Z) : sweep Z := fun s =>
  match require_limit count 1000 s with
  | Err e => (s, Err e)
  | Ok _ => commit_then (operation_now now) (fun current s' =>
      settle_rows (due_workloads s' current count) count current 0 s') s
  end.
