(* ===== verification/DurableSystem.v ===== *)
(** * The durable store as a transition system

    One step is one committed public operation, with any arguments, under any
    host, or one transaction of the settlement sweep.  A refused or failed operation is a rollback and no step.  The
    snapshots a worker records are dictionaries: no key occurs twice. *)
From S2P Require Import Prelude.
From S2P Require Import PyJson.
From S2P Require Import JsonText.
From S2P Require Import DurableModels.
From S2P Require Import DurableRetry.
From S2P Require Import DurableResults.
From S2P Require Import DurableTables.
From S2P Require Import DurableOutbox.
From S2P Require Import DurableWorkflow.
From S2P Require Import DurableLeases.
From S2P Require Import DurableCompletion.
From S2P Require Import DurableAdmission.
From S2P Require Import DurableMaterialize.
From S2P Require Import DurableReuse.
From S2P Require Import DurableFacts.
Local Open Scope Z_scope.

(** Claims are made with the queries the caller allows: a function of the host
    and the time that picks a candidate in a store. *)
Section Steps.
Variable queries : Host -> Z -> (Store -> option Candidate) -> Prop.

Inductive op_step_under : Store -> Store -> Prop :=
| op_create h o k r p b w a s s' :
    @create_draft h o k r p b w s = Ok (a, s') -> op_step_under s s'
| op_admit h o w p i t v c y ct pa uc r a s s' :
    @admit_revision h o w p i t v c y ct pa uc r s = Ok (a, s') -> op_step_under s s'
| op_transition h o w t v p n a s s' :
    @transition_workload h o w t v p n s = Ok (a, s') -> op_step_under s s'
| op_settle_part h o w n l a s s' :
    @settle h o w n true l s = Ok (a, s') -> op_step_under s s'
| op_settle h o w n a s s' : @settle_workload h o w n s = Ok (a, s') -> op_step_under s s'
| op_control h o w c k v n a s s' : @control h o w c k v n s = Ok (a, s') -> op_step_under s s'
| op_resolve h o w d v k t n a s s' :
    @record_attention_resolution h o w d v k t n s = Ok (a, s') -> op_step_under s s'
| op_refresh h o w a s s' : @refresh_usage_complete h o w s = Ok (a, s') -> op_step_under s s'
| op_materialize h o w n a s s' : @materialize_batch h o w n s = Ok (a, s') -> op_step_under s s'
| op_complete h o w n a s s' : @evaluate_completion h o w n s = Ok (a, s') -> op_step_under s s'
| op_claim_under h q w n d a s s' :
    queries h n q -> @claim_next h q w n d s = Ok (a, s') -> op_step_under s s'
| op_mark h l n a s s' : @mark_running h l n s = Ok (a, s') -> op_step_under s s'
| op_heartbeat h l e n a s s' : @heartbeat h l e n s = Ok (a, s') -> op_step_under s s'
| op_facts h l e m d i n a s s' :
    well_formed (JObj e) = true -> well_formed (JObj m) = true ->
    @record_execution_facts h l e m d i n s = Ok (a, s') -> op_step_under s s'
| op_usage h l u n a s s' : @record_attempt_usage h l u n s = Ok (a, s') -> op_step_under s s'
| op_adopt h a s s' : @adopt_next h s = Ok (a, s') -> op_step_under s s'
| op_commit h l v d n a s s' : @commit_result h l v d n s = Ok (a, s') -> op_step_under s s'
| op_fail h l e d t n a s s' : @fail_attempt h l e d t n s = Ok (a, s') -> op_step_under s s'
| op_abandon h l c n a s s' : @abandon_attempt h l c n s = Ok (a, s') -> op_step_under s s'
| op_reconcile h n b a s s' : @reconcile_expired h n b s = Ok (a, s') -> op_step_under s s'
| op_progress h o w e c r m n a s s' :
    @enqueue_progress h o w e c r m n s = Ok (a, s') -> op_step_under s s'
| op_claim_outbox h c w n d t a s s' : @claim_outbox h c w n d t s = Ok (a, s') -> op_step_under s s'
| op_started h r w n a s s' :
    @mark_outbox_delivery_started h r w n s = Ok (a, s') -> op_step_under s s'
| op_confirm h r w k n a s s' : @confirm_outbox h r w k n s = Ok (a, s') -> op_step_under s s'
| op_release h r w t n a s s' : @release_outbox h r w t n s = Ok (a, s') -> op_step_under s s'
| op_cancel h r w c n a s s' : @cancel_outbox h r w c n s = Ok (a, s') -> op_step_under s s'
| op_prune h a c n r s s' : @prune_outbox h a c n s = Ok (r, s') -> op_step_under s s'.
End Steps.

Arguments op_create {queries}.
Arguments op_admit {queries}.
Arguments op_transition {queries}.
Arguments op_settle_part {queries}.
Arguments op_settle {queries}.
Arguments op_control {queries}.
Arguments op_resolve {queries}.
Arguments op_refresh {queries}.
Arguments op_materialize {queries}.
Arguments op_complete {queries}.
Arguments op_mark {queries}.
Arguments op_heartbeat {queries}.
Arguments op_facts {queries}.
Arguments op_usage {queries}.
Arguments op_adopt {queries}.
Arguments op_commit {queries}.
Arguments op_fail {queries}.
Arguments op_abandon {queries}.
Arguments op_reconcile {queries}.
Arguments op_progress {queries}.
Arguments op_claim_outbox {queries}.
Arguments op_started {queries}.
Arguments op_confirm {queries}.
Arguments op_release {queries}.
Arguments op_cancel {queries}.
Arguments op_prune {queries}.

(** Any query at all. *)
Definition op_step : Store -> Store -> Prop := op_step_under (fun _ _ _ => True).

Lemma op_claim h q w n d a s s' : @claim_next h q w n d s = Ok (a, s') -> op_step s s'.
Proof. by apply op_claim_under. Qed.

(** A step claims with a query that is allowed, or would be one whatever the
    queries. *)
Lemma op_step_split (Q Q' : Host -> Z -> (Store -> option Candidate) -> Prop) s s' :
  op_step_under Q s s' ->
  op_step_under Q' s s' \/
  exists h q w n d a, Q h n q /\ @claim_next h q w n d s = Ok (a, s').
Proof.
  destruct 1 as
    [h o k r p b w a s s' E
    |h o w p i t v c y ct pa uc r a s s' E
    |h o w t v p n a s s' E
    |h o w n l a s s' E
    |h o w n a s s' E
    |h o w c k v n a s s' E
    |h o w d v k t n a s s' E
    |h o w a s s' E
    |h o w n a s s' E
    |h o w n a s s' E
    |h q w n d a s s' Hq E
    |h l n a s s' E
    |h l e n a s s' E
    |h l e m d i n a s s' W1 W2 E
    |h l u n a s s' E
    |h a s s' E
    |h l v d n a s s' E
    |h l e d t n a s s' E
    |h l c n a s s' E
    |h n b a s s' E
    |h o w e c r m n a s s' E
    |h c w n d t a s s' E
    |h r w n a s s' E
    |h r w k n a s s' E
    |h r w t n a s s' E
    |h r w c n a s s' E
    |h a c n r s s' E].
  - left; exact (op_create h o k r p b w a s s' E).
  - left; exact (op_admit h o w p i t v c y ct pa uc r a s s' E).
  - left; exact (op_transition h o w t v p n a s s' E).
  - left; exact (op_settle_part h o w n l a s s' E).
  - left; exact (op_settle h o w n a s s' E).
  - left; exact (op_control h o w c k v n a s s' E).
  - left; exact (op_resolve h o w d v k t n a s s' E).
  - left; exact (op_refresh h o w a s s' E).
  - left; exact (op_materialize h o w n a s s' E).
  - left; exact (op_complete h o w n a s s' E).
  - right. by exists h, q, w, n, d, a.
  - left; exact (op_mark h l n a s s' E).
  - left; exact (op_heartbeat h l e n a s s' E).
  - left; exact (op_facts h l e m d i n a s s' W1 W2 E).
  - left; exact (op_usage h l u n a s s' E).
  - left; exact (op_adopt h a s s' E).
  - left; exact (op_commit h l v d n a s s' E).
  - left; exact (op_fail h l e d t n a s s' E).
  - left; exact (op_abandon h l c n a s s' E).
  - left; exact (op_reconcile h n b a s s' E).
  - left; exact (op_progress h o w e c r m n a s s' E).
  - left; exact (op_claim_outbox h c w n d t a s s' E).
  - left; exact (op_started h r w n a s s' E).
  - left; exact (op_confirm h r w k n a s s' E).
  - left; exact (op_release h r w t n a s s' E).
  - left; exact (op_cancel h r w c n a s s' E).
  - left; exact (op_prune h a c n r s s' E).
Qed.

Lemma op_step_mono (Q Q' : Host -> Z -> (Store -> option Candidate) -> Prop) s s' :
  (forall h n q, Q h n q -> Q' h n q) -> op_step_under Q s s' -> op_step_under Q' s s'.
Proof.
  intros HQ [Hs|(h & q & w & n & d & a & Hq & Hrun)]%(op_step_split Q Q'); [done|].
  exact (op_claim_under Q' h q w n d a s s' (HQ h n q Hq) Hrun).
Qed.

Lemma op_step_any Q s s' : op_step_under Q s s' -> op_step s s'.
Proof. by apply op_step_mono. Qed.

Definition reachable_from (s s' : Store) : Prop := rtc op_step s s'.
