(* ===== verification/DurableFrames.v ===== *)
(** * Framing: operations and the tables they leave alone

    A relation between stores [Ignores] a table when every update of that
    table stays inside it.  An operation that writes only ignored tables is
    guaranteed by the relation, whatever the relation is: the lemmas below say
    so once for the operations of the store, and each refinement instantiates
    them with its own relation. *)
From Stdlib Require Import Strings.String.
From S2P Require Import Prelude.
From S2P Require Import PyJson.
From S2P Require Import Instants.
From S2P Require Import DurableModels.
From S2P Require Import DurableRetry.
From S2P Require Import DurableResults.
From S2P Require Import DurablePlans.
From S2P Require Import DurableTables.
From S2P Require Import DurableOutbox.
From S2P Require Import DurableWorkflow.
From S2P Require Import DurableLeases.
From S2P Require Import DurableCompletion.
From S2P Require Import DurableAdmission.
From S2P Require Import DurableMaterialize.
From S2P Require Import DurableReuse.
From S2P Require Import DurableFacts.
Local Open Scope Z_scope.

Class Ignores (R : relation Store) {T} (tbl : Store -> T) `{!Setter tbl} : Prop :=
  ignores : forall s f, R s (set_field tbl f s).

Lemma ignores_utc_now `{Host} (R : relation Store) `{!Ignores R ticks} : guar R utc_now.
Proof. apply guar_utc_now. intros s. apply ignores. Qed.

Lemma ignores_new_id `{Host} (R : relation Store) `{!Ignores R ticks} p : guar R (new_id p).
Proof. apply guar_new_id. intros s. apply ignores. Qed.
#[export] Hint Resolve ignores_utc_now ignores_new_id : guar.

Section Primitive.
Context (R : relation Store) `{!Reflexive R} `{Countable K} {V : Type}
        (tbl : Store -> gmap K V) `{!Setter tbl} `{!Ignores R tbl}.

Lemma ignores_update_at k ok f : guar R (update_at tbl k ok f).
Proof. apply guar_update_at; [done|]. intros. apply ignores. Qed.
Lemma ignores_update_one k ok f e : guar R (update_one tbl k ok f e).
Proof. apply guar_update_one. intros. apply ignores. Qed.
Lemma ignores_insert_row k row : guar R (insert_row tbl k row).
Proof. apply guar_insert_row. intros. apply ignores. Qed.
Lemma ignores_delete_at k ok : guar R (delete_at tbl k ok).
Proof. apply guar_delete_at; [done|]. intros. apply ignores. Qed.
End Primitive.
#[export] Hint Extern 3 (guar _ (update_at _ _ _ _)) =>
  apply ignores_update_at; apply _ : guar.
#[export] Hint Extern 3 (guar _ (update_one _ _ _ _ _)) =>
  apply ignores_update_one; apply _ : guar.
#[export] Hint Extern 3 (guar _ (insert_row _ _ _)) =>
  apply ignores_insert_row; apply _ : guar.
#[export] Hint Extern 3 (guar _ (delete_at _ _ _)) =>
  apply ignores_delete_at; apply _ : guar.

Section Frames.
Context `{Host} (R : relation Store) `{!PreOrder R} `{!Ignores R ticks}
  `{!Ignores R workloads} `{!Ignores R events} `{!Ignores R outbox} `{!Ignores R usages}
  `{!Ignores R revisions} `{!Ignores R credits} `{!Ignores R commands}
  `{!Ignores R resolutions} `{!Ignores R dependencies}.

Lemma frame_operation_now now : guar R (operation_now now).
Proof. unfold operation_now. guar. Qed.
Hint Resolve frame_operation_now : guar.

Lemma frame_require_owner o : guar R (require_owner o).
Proof. unfold require_owner. guar. Qed.
Lemma frame_require_key a b m : guar R (require_key a b m).
Proof. unfold require_key. guar. Qed.
Lemma frame_require_version v : guar R (require_version v).
Proof. unfold require_version. guar. Qed.
Lemma frame_require_limit v m : guar R (require_limit v m).
Proof. unfold require_limit. guar. Qed.
Lemma frame_chosen_id v p : guar R (chosen_id v p).
Proof. unfold chosen_id. guar. Qed.
Lemma frame_validate p : guar R (validate_event_payload p).
Proof. unfold validate_event_payload. guar. Qed.
Hint Resolve frame_require_owner frame_require_key frame_require_version
  frame_require_limit frame_chosen_id frame_validate : guar.

Lemma frame_append_event o w t p : guar R (append_event o w t p).
Proof. unfold append_event. guar. Qed.
Hint Resolve frame_append_event : guar.

Lemma frame_outbox_row o i : guar R (outbox_row o i).
Proof. unfold outbox_row. guar. Qed.
Lemma frame_outbox_channel v : guar R (outbox_channel v).
Proof. unfold outbox_channel. guar. Qed.
Lemma frame_guard_unique k r : guar R (guard_unique k r).
Proof. unfold guard_unique. guar. Qed.
Hint Resolve frame_outbox_row frame_outbox_channel frame_guard_unique : guar.
Lemma frame_update_outbox k ok f : guar R (update_outbox k ok f).
Proof. unfold update_outbox. guar. Qed.
Hint Resolve frame_update_outbox : guar.

Lemma frame_enqueue_outbox o w e c r k n d : guar R (enqueue_outbox o w e c r k n d).
Proof. unfold enqueue_outbox. guar. Qed.
Hint Resolve frame_enqueue_outbox : guar.
Lemma frame_enqueue_progress o w e c r m n : guar R (enqueue_progress o w e c r m n).
Proof. unfold enqueue_progress. guar. Qed.
Lemma frame_enqueue_notification o w e : guar R (enqueue_notification o w e).
Proof. unfold enqueue_notification. guar. Qed.
Hint Resolve frame_enqueue_progress frame_enqueue_notification : guar.

Lemma frame_claim_row w a b c : guar R (claim_row w a b c).
Proof. unfold claim_row. guar. Qed.
Hint Resolve frame_claim_row : guar.
Lemma frame_claim_outbox c w n d t : guar R (claim_outbox c w n d t).
Proof. unfold claim_outbox. guar. Qed.
Lemma frame_mark_started r w n : guar R (mark_outbox_delivery_started r w n).
Proof. unfold mark_outbox_delivery_started. guar. Qed.
Lemma frame_confirm r w a n : guar R (confirm_outbox r w a n).
Proof. unfold confirm_outbox. guar. Qed.
Lemma frame_release r w t n : guar R (release_outbox r w t n).
Proof. unfold release_outbox. guar. Qed.
Lemma frame_cancel r w c n : guar R (cancel_outbox r w c n).
Proof. unfold cancel_outbox. guar. Qed.
Lemma frame_prune a c n : guar R (prune_outbox a c n).
Proof. unfold prune_outbox. guar. Qed.

Lemma frame_select_workload o w : guar R (select_workload o w).
Proof. unfold select_workload. guar. Qed.
Hint Resolve frame_select_workload : guar.
Lemma frame_get_workload_row o w : guar R (get_workload_row o w).
Proof. unfold get_workload_row. guar. Qed.
Hint Resolve frame_get_workload_row : guar.
Lemma frame_create_draft o k r p b w : guar R (create_draft o k r p b w).
Proof. unfold create_draft. guar. Qed.
Lemma frame_update_state o w s t v r n : guar R (update_state o w s t v r n).
Proof. unfold update_state. guar. Qed.
Hint Resolve frame_update_state : guar.
Lemma frame_transition o w t v p n : guar R (transition_workload o w t v p n).
Proof. unfold transition_workload. guar. Qed.
Lemma frame_automatic o w r t c d n : guar R (automatic_transition o w r t c d n).
Proof. unfold automatic_transition. guar. Qed.
Hint Resolve frame_automatic : guar.

Lemma frame_add_usage o r i u n : guar R (add_revision_usage o r i u n).
Proof. unfold add_revision_usage. guar. Qed.
Lemma frame_first_exceeded r l : guar R (first_exceeded r l).
Proof. induction l as [|[] l IH]; simpl; [guar|]. unfold plan_budget. guar. Qed.
Hint Resolve frame_add_usage frame_first_exceeded : guar.
Lemma frame_budget_violation o w r n : guar R (budget_violation_in o w r n).
Proof. unfold budget_violation_in, plan_budget. guar. Qed.
Hint Resolve frame_budget_violation : guar.
Lemma frame_reason_counter r : guar R (reason_counter r).
Proof. unfold reason_counter. guar. Qed.
Hint Resolve frame_reason_counter : guar.

Lemma frame_existing_command o w i c d : guar R (existing_command o w i c d).
Proof. unfold existing_command. guar. Qed.
Lemma frame_record_command o w i c d r n : guar R (record_command o w i c d r n).
Proof. unfold record_command. guar. Qed.
Lemma frame_apply_control o w c e n : guar R (apply_control o w c e n).
Proof. unfold apply_control. guar. Qed.
Lemma frame_grant_retry o w r a n : guar R (grant_retry o w r a n).
Proof.
  unfold grant_retry, artifact_attention_count, blocked_dependency_count,
    materialization_attention_count. guar.
Qed.
Lemma frame_artifact_attention o r : guar R (artifact_attention_count o r).
Proof. unfold artifact_attention_count. guar. Qed.

Lemma frame_advance_clock o r n : guar R (advance_revision_clock o r n).
Proof. unfold advance_revision_clock. guar. Qed.
Lemma frame_mark_unaccounted r a n : guar R (mark_unaccounted_usage r a n).
Proof. unfold mark_unaccounted_usage. guar. Qed.
Lemma frame_account_commit l v r a n : guar R (account_commit l v r a n).
Proof.
  unfold account_commit, advance_revision_clock. guar.
Qed.
Lemma frame_provenance l v a m : guar R (result_provenance l v a m).
Proof. unfold result_provenance. guar. Qed.
Lemma frame_insert_dependencies o r i seen rows :
  guar R (insert_result_dependencies o r i seen rows).
Proof. revert seen. induction rows as [|d rows IH]; intros seen; simpl; guar. Qed.
Lemma frame_validated_dependencies o r st u e l f :
  guar R (validated_result_dependencies o r st u e l f).
Proof. unfold validated_result_dependencies. guar. Qed.
Lemma frame_attempt_metrics a l : guar R (attempt_metrics a l).
Proof. unfold attempt_metrics. guar. Qed.
Lemma frame_start_queued o w r n c : guar R (start_queued_workload o w r n c).
Proof. unfold start_queued_workload. guar. Qed.
Lemma frame_advance_credit o w n : guar R (advance_credit o w n).
Proof. unfold advance_credit. guar. Qed.

Lemma frame_reuse_provenance row v a f c : guar R (reuse_provenance row v a f c).
Proof. unfold reuse_provenance. guar. Qed.
Lemma frame_open_to_facts row a n : guar R (open_to_facts row a n).
Proof. unfold open_to_facts, require_expiry. guar. Qed.

Lemma frame_unit_counters o w : guar R (unit_counters o w).
Proof. unfold unit_counters. guar. Qed.
Lemma frame_required_artifacts s o r l : guar R (required_artifact_checks s o r l).
Proof. induction l as [|q l IH]; simpl; [guar|]. unfold artifact_checks. guar. Qed.
Hint Resolve frame_unit_counters frame_required_artifacts : guar.
Lemma frame_completion_reasons o w r rv st n : guar R (completion_reasons o w r rv st n).
Proof. unfold completion_reasons. guar. Qed.
Hint Resolve frame_completion_reasons : guar.
Lemma frame_complete_workload o w r v n t e p : guar R (complete_workload o w r v n t e p).
Proof. unfold complete_workload. guar. Qed.
Hint Resolve frame_complete_workload : guar.
Lemma frame_completion o w n : guar R (evaluate_completion o w n).
Proof. unfold evaluate_completion. guar. Qed.
Lemma frame_refresh o w : guar R (refresh_usage_complete o w).
Proof. unfold refresh_usage_complete. guar. Qed.
End Frames.

#[export] Hint Resolve frame_operation_now frame_require_owner frame_require_key
  frame_require_version frame_require_limit frame_chosen_id frame_validate frame_append_event
  frame_outbox_row frame_outbox_channel frame_enqueue_outbox frame_enqueue_progress
  frame_enqueue_notification frame_claim_outbox frame_mark_started frame_confirm frame_release
  frame_cancel frame_prune frame_select_workload frame_get_workload_row frame_create_draft
  frame_update_state frame_transition frame_automatic frame_add_usage frame_budget_violation
  frame_reason_counter frame_existing_command frame_record_command frame_apply_control
  frame_grant_retry frame_artifact_attention : guar.

#[export] Hint Resolve frame_advance_clock frame_mark_unaccounted frame_account_commit
  frame_provenance frame_insert_dependencies frame_validated_dependencies
  frame_attempt_metrics frame_start_queued frame_advance_credit frame_reuse_provenance
  frame_open_to_facts
  frame_unit_counters frame_required_artifacts frame_completion_reasons frame_complete_workload
  frame_completion frame_refresh : guar.

(** ** Admission *)

(** Everything an admission writes below its revision, given what the relation
    says of one new unit. *)
Section AdmissionFrames.
Context `{Host} (R : relation Store) `{!PreOrder R} `{!Ignores R ticks} `{!Ignores R stages}
  `{!Ignores R placements} `{!Ignores R stage_dependencies} `{!Ignores R sources}
  `{!Ignores R materializations}.
Context (owner revision_id : string) (ad : Admission) (now : Z).
Hypothesis insert_unit : forall acc stage source row,
  guar R (insert_initial_unit owner revision_id now acc stage source row).

Lemma frame_insert_stage acc numbered : guar R (insert_stage owner revision_id ad now acc numbered).
Proof. unfold insert_stage, insert_placement, checked. guar. Qed.
Lemma frame_insert_dependencies_of acc stage :
  guar R (insert_dependencies owner revision_id acc stage).
Proof. unfold insert_dependencies, stage_id_of. guar. Qed.
Lemma frame_initial_units mode key source row acc :
  guar R (insert_initial_units owner revision_id ad now mode key source row acc).
Proof. unfold insert_initial_units. guar. Qed.
Hint Resolve frame_insert_stage frame_insert_dependencies_of frame_initial_units : guar.
Lemma frame_insert_source key acc source :
  guar R (insert_source owner revision_id ad now key acc source).
Proof. unfold insert_source. guar. Qed.
Lemma frame_insert_materialization key acc stage :
  guar R (insert_materialization owner revision_id now key acc stage).
Proof. unfold insert_materialization, stage_id_of. guar. Qed.
Hint Resolve frame_insert_source frame_insert_materialization : guar.
Lemma frame_insert_contents : guar R (insert_contents owner revision_id ad now).
Proof. unfold insert_contents. guar. Qed.
End AdmissionFrames.

Section Preparation.
Context (R : relation Store) `{!PreOrder R}.

Lemma frame_of_plan {A} (r : result plan_error A) : guar R (of_plan r).
Proof. unfold of_plan. guar. Qed.
Hint Resolve frame_of_plan : guar.
Lemma frame_policy_rule acc rule : guar R (policy_rule acc rule).
Proof. unfold policy_rule. guar. Qed.
Lemma frame_policy_rules policy : guar R (policy_rules policy).
Proof. unfold policy_rules. guar. Qed.
Lemma frame_check_inventory plan text l : guar R (check_inventory plan text l).
Proof. unfold check_inventory. guar. Qed.
Hint Resolve frame_policy_rule frame_policy_rules frame_check_inventory : guar.
Lemma frame_prepare p i t c y a b d : guar R (prepare_admission p i t c y a b d).
Proof. unfold prepare_admission. guar. Qed.
Lemma frame_find_duplicate o w ad : guar R (find_duplicate o w ad).
Proof. unfold find_duplicate. guar. Qed.
End Preparation.
#[export] Hint Resolve frame_prepare frame_find_duplicate : guar.

(** ** Materialization *)

(** A batch, given what the relation says of its three kinds of writes. *)
Section MaterializeSteps.
Context `{Host} (R : relation Store) `{!PreOrder R} (owner : string).
Hypothesis candidate_ok : forall rv revision ready n cu completed move,
  guar R (candidate_step owner rv revision ready n cu completed move).
Hypothesis cursor_ok : forall rv ready cu completed move,
  guar R (cursor_step owner rv ready cu completed move).
Hypothesis root_ok : forall rv stage_id unit_id, guar R (mark_root owner rv stage_id unit_id).
Hint Resolve candidate_ok cursor_ok root_ok : guar.

Lemma frame_materialize_step rv revision ready :
  guar R (materialize_step owner rv revision ready).
Proof.
  unfold materialize_step, end_level, reduce_group, singleton_step, per_source_step,
    fan_out_step, entry_step. guar.
Qed.
Hint Resolve frame_materialize_step : guar.
Lemma frame_materialize_steps rv revision more created advanced :
  guar R (materialize_steps owner rv revision more created advanced).
Proof. revert created advanced. induction more as [|n IH]; intros; simpl; guar. Qed.
Hint Resolve frame_materialize_steps : guar.
Lemma frame_materialize_batch w count : guar R (materialize_batch owner w count).
Proof. unfold materialize_batch, select_workload. guar. Qed.
End MaterializeSteps.

(** A relation that speaks of the units only, given what it says of one new
    unit and of one marked root. *)
Section MaterializeUnits.
Context `{Host} (R : relation Store) `{!PreOrder R} `{!Ignores R ticks}
  `{!Ignores R materializations} `{!Ignores R unit_dependencies}.
Context (owner : string).
Hypothesis new_unit : forall rv revision ready n key now unit_id,
  guar R (insert_unit owner rv unit_id (candidate_unit rv revision ready n key now)).
Hypothesis new_root : forall rv stage_id unit_id, guar R (mark_root owner rv stage_id unit_id).
Hint Resolve new_unit new_root : guar.

Lemma frame_save_cursor rv ready cu completed move :
  guar R (save_cursor owner rv ready cu completed move).
Proof. unfold save_cursor. guar. Qed.
Lemma frame_insert_binding rv unit_id numbered : guar R (insert_binding owner rv unit_id numbered).
Proof. destruct numbered as [ordinal [[[result_id offset] length] role]]. unfold insert_binding. guar. Qed.
Hint Resolve frame_save_cursor frame_insert_binding : guar.
Lemma frame_bind_dependencies rv unit_id n : guar R (bind_dependencies owner rv unit_id n).
Proof. unfold bind_dependencies. guar. Qed.
Hint Resolve frame_bind_dependencies : guar.

Lemma frame_materialize_units w count : guar R (materialize_batch owner w count).
Proof.
  apply (frame_materialize_batch R); intros; unfold candidate_step, insert_candidate, cursor_step;
    guar.
Qed.
End MaterializeUnits.

(** A relation that ignores the units as well. *)
Lemma frame_materialize `{Host} (R : relation Store) `{!PreOrder R} `{!Ignores R ticks}
    `{!Ignores R materializations} `{!Ignores R unit_dependencies} `{!Ignores R units} o w count :
  guar R (materialize_batch o w count).
Proof. apply (frame_materialize_units R); intros; unfold insert_unit, mark_root; guar. Qed.
#[export] Hint Resolve frame_materialize : guar.
