(* ===== verification/LeaseProtocol.v ===== *)
(** * The lease protocol: an abstract specification

    What the store promises about units, attempts and results, independent of
    SQL: a state of three tables and the ten moves a unit can make.  The
    invariant and the evolution of a unit are proved here by induction on the
    moves; DurableRefinement.v shows that every operation of the store is a
    sequence of them. *)
From S2P Require Import Prelude.
From S2P Require Import DurableModels.
From S2P Require Import DurableTables.
From S2P Require Import DurableWorkflow.
Local Open Scope Z_scope.

(** ** States *)

Record Core : Type := mkCore {
  c_units : gmap key2 Unit;
  c_attempts : gmap key2 Attempt;
  c_results : gmap key2 Result }.

Definition core (s : Store) : Core := mkCore (units s) (attempts s) (results s).

(** What no move of a unit changes. *)
Definition same_identity (u u' : Unit) : Prop :=
  u_revision u' = u_revision u /\ u_stage u' = u_stage u /\ u_key u' = u_key u /\
  u_expected_deps u' = u_expected_deps u /\ u_created u' = u_created u /\
  u_level u' = u_level u /\ u_source u' = u_source u /\ u_shard u' = u_shard u /\
  u_ordinal u' = u_ordinal u.

Definition same_counters (u u' : Unit) : Prop :=
  u_fence u' = u_fence u /\ u_attempt_count u' = u_attempt_count u /\
  u_result u' = u_result u.

Definition same_lease (u u' : Unit) : Prop :=
  u_worker u' = u_worker u /\ u_active_attempt u' = u_active_attempt u /\
  u_expires u' = u_expires u.

Definition no_lease_columns (u : Unit) : Prop :=
  u_worker u = None /\ u_active_attempt u = None /\ u_expires u = None.

Definition same_attempt (a a' : Attempt) : Prop :=
  a_unit a' = a_unit a /\ a_number a' = a_number a /\ a_fence a' = a_fence a /\
  a_worker a' = a_worker a /\ a_started a' = a_started a.

(** The edges a waiting unit may take, and the ones a lease is released by. *)
Inductive parked_edge : UnitState -> UnitState -> Prop :=
| edge_cancel st : st ∈ [U_PENDING; U_RETRY_WAIT; U_NEEDS_ATTENTION] ->
    parked_edge st U_CANCELLED
| edge_promote : parked_edge U_RETRY_WAIT U_PENDING
| edge_exhausted : parked_edge U_PENDING U_NEEDS_ATTENTION.

Inductive release_edge : UnitState -> UnitState -> Prop :=
| edge_unstarted st : st ∈ [U_PENDING; U_NEEDS_ATTENTION] -> release_edge U_LEASED st
| edge_executed st : st ∈ [U_RETRY_WAIT; U_FAILED_PERMANENT; U_NEEDS_ATTENTION] ->
    release_edge U_RUNNING st.

(** The unit at [k] holds the open attempt [aid], in the states given. *)
Definition holds (c : Core) (k : key2) (u : Unit) (aid : string) (a : Attempt)
    (ust : UnitState) (ast : AttemptState) : Prop :=
  c_units c !! k = Some u /\ c_attempts c !! (k.1, aid) = Some a /\
  u_active_attempt u = Some aid /\ u_state u = ust /\
  a_unit a = k.2 /\ a_fence a = u_fence u /\ a_state a = ast /\ a_ended a = None.

(** ** Moves *)

Inductive core_step : Core -> Core -> Prop :=
| step_create c k u :
    c_units c !! k = None -> u_state u ∈ [U_PENDING; U_NEEDS_ATTENTION; U_SKIPPED] ->
    u_fence u = 0 -> u_attempt_count u = 0 -> u_result u = None -> no_lease_columns u ->
    core_step c (mkCore (<[k := u]> (c_units c)) (c_attempts c) (c_results c))
| step_touch c k u u' :
    c_units c !! k = Some u -> u_state u' = u_state u ->
    same_identity u u' -> same_counters u u' -> same_lease u u' ->
    core_step c (mkCore (<[k := u']> (c_units c)) (c_attempts c) (c_results c))
| step_park c k u u' :
    c_units c !! k = Some u ->
    parked_edge (u_state u) (u_state u') ->
    same_identity u u' -> same_counters u u' -> same_lease u u' ->
    core_step c (mkCore (<[k := u']> (c_units c)) (c_attempts c) (c_results c))
| step_claim c k u u' aid a e :
    c_units c !! k = Some u ->
    u_state u ∈ [U_PENDING; U_NEEDS_ATTENTION] ->
    c_attempts c !! (k.1, aid) = None ->
    (forall x b, c_attempts c !! x = Some b -> x.1 = k.1 -> a_unit b = k.2 ->
                 a_fence b <> a_fence a) ->
    a_unit a = k.2 -> a_fence a = u_fence u + 1 -> a_number a = u_attempt_count u + 1 ->
    a_state a = A_LEASED -> a_ended a = None ->
    u_state u' = U_LEASED -> u_fence u' = u_fence u + 1 ->
    u_attempt_count u' = u_attempt_count u + 1 -> u_result u' = u_result u ->
    u_worker u' = Some (a_worker a) -> u_active_attempt u' = Some aid ->
    u_expires u' = Some e -> same_identity u u' ->
    core_step c (mkCore (<[k := u']> (c_units c)) (<[(k.1, aid) := a]> (c_attempts c))
                   (c_results c))
| step_start c k u u' aid a a' e e' :
    holds c k u aid a U_LEASED A_LEASED ->
    u_expires u = Some e -> u_expires u' = Some e' -> e' <= e ->
    u_state u' = U_RUNNING -> u_worker u' = u_worker u -> u_active_attempt u' = Some aid ->
    same_identity u u' -> same_counters u u' ->
    same_attempt a a' -> a_state a' = A_RUNNING -> a_ended a' = None ->
    core_step c (mkCore (<[k := u']> (c_units c)) (<[(k.1, aid) := a']> (c_attempts c))
                   (c_results c))
| step_extend c k u u' e e' :
    c_units c !! k = Some u ->
    u_state u ∈ [U_LEASED; U_RUNNING] -> u_state u' = u_state u ->
    u_expires u = Some e -> u_expires u' = Some e' -> e < e' ->
    u_worker u' = u_worker u -> u_active_attempt u' = u_active_attempt u ->
    same_identity u u' -> same_counters u u' ->
    core_step c (mkCore (<[k := u']> (c_units c)) (c_attempts c) (c_results c))
| step_release c k u u' aid a a' ust ast :
    holds c k u aid a ust ast -> release_edge ust (u_state u') ->
    no_lease_columns u' -> same_identity u u' -> same_counters u u' ->
    same_attempt a a' -> a_state a' ∈ [A_FAILED; A_TIMED_OUT; A_ABANDONED] ->
    is_Some (a_ended a') ->
    core_step c (mkCore (<[k := u']> (c_units c)) (<[(k.1, aid) := a']> (c_attempts c))
                   (c_results c))
| step_commit c k u u' aid a a' rid r :
    holds c k u aid a U_RUNNING A_RUNNING ->
    c_results c !! (k.1, rid) = None ->
    (forall x q, c_results c !! x = Some q -> x.1 = k.1 -> res_unit q <> k.2) ->
    res_unit r = k.2 -> res_attempt r = aid -> res_fence r = u_fence u ->
    u_state u' = U_COMMITTED -> u_result u' = Some rid -> no_lease_columns u' ->
    same_identity u u' -> u_fence u' = u_fence u -> u_attempt_count u' = u_attempt_count u ->
    same_attempt a a' -> a_state a' = A_SUCCEEDED -> is_Some (a_ended a') ->
    core_step c (mkCore (<[k := u']> (c_units c)) (<[(k.1, aid) := a']> (c_attempts c))
                   (<[(k.1, rid) := r]> (c_results c)))
| step_record c k u aid a a' :
    holds c k u aid a U_RUNNING A_RUNNING ->
    same_attempt a a' -> a_state a' = A_RUNNING -> a_ended a' = None ->
    core_step c (mkCore (c_units c) (<[(k.1, aid) := a']> (c_attempts c)) (c_results c))
| step_adopt c k u u' aid a rid r :
    c_units c !! k = Some u -> u_state u = U_PENDING -> u_attempt_count u = 0 ->
    c_attempts c !! (k.1, aid) = None ->
    (forall x b, c_attempts c !! x = Some b -> x.1 = k.1 -> a_unit b = k.2 ->
                 a_fence b <> a_fence a) ->
    a_unit a = k.2 -> a_fence a = u_fence u + 1 -> a_number a = u_attempt_count u + 1 ->
    a_state a = A_SUCCEEDED -> is_Some (a_ended a) ->
    c_results c !! (k.1, rid) = None ->
    (forall x q, c_results c !! x = Some q -> x.1 = k.1 -> res_unit q <> k.2) ->
    res_unit r = k.2 -> res_attempt r = aid -> res_fence r = u_fence u + 1 ->
    (exists x q, c_results c !! x = Some q /\ x.1 = k.1 /\ res_digest q = res_digest r /\
                 res_schema q = res_schema r /\ res_payload q = res_payload r) ->
    u_state u' = U_COMMITTED -> u_fence u' = u_fence u + 1 ->
    u_attempt_count u' = u_attempt_count u + 1 -> u_result u' = Some rid ->
    same_lease u u' -> same_identity u u' ->
    core_step c (mkCore (<[k := u']> (c_units c)) (<[(k.1, aid) := a]> (c_attempts c))
                   (<[(k.1, rid) := r]> (c_results c))).

(** ** The invariant *)

Definition open_state (ust : UnitState) : AttemptState :=
  if bool_decide (ust = U_LEASED) then A_LEASED else A_RUNNING.

Definition unit_open (A : gmap key2 Attempt) (k : key2) (u : Unit) : Prop :=
  exists aid a, u_active_attempt u = Some aid /\ A !! (k.1, aid) = Some a /\
    a_unit a = k.2 /\ a_fence a = u_fence u /\ a_ended a = None /\
    a_state a = open_state (u_state u) /\ u_worker u = Some (a_worker a) /\
    is_Some (u_expires u).

Record unit_ok (A : gmap key2 Attempt) (R : gmap key2 Result) (k : key2) (u : Unit) : Prop := {
  uo_active : is_active u = true -> unit_open A k u;
  uo_idle : is_active u = false -> no_lease_columns u;
  uo_fence : u_fence u = u_attempt_count u /\ 0 <= u_fence u;
  uo_committed : u_state u = U_COMMITTED <-> is_Some (u_result u);
  uo_result : forall rid, u_result u = Some rid ->
    exists r, R !! (k.1, rid) = Some r /\ res_unit r = k.2 }.

Record attempt_ok (u : Unit) (x : key2) (a : Attempt) : Prop := {
  ao_fence : 1 <= a_fence a <= u_fence u;
  ao_number : a_number a = a_fence a;
  ao_open : a_ended a = None -> is_active u = true /\ u_active_attempt u = Some x.2;
  ao_state : a_ended a = None <-> a_state a ∈ [A_LEASED; A_RUNNING] }.

Record result_ok (A : gmap key2 Attempt) (u : Unit) (x : key2) (r : Result) : Prop := {
  ro_unit : u_result u = Some x.2;
  ro_attempt : exists a, A !! (x.1, res_attempt r) = Some a /\ a_unit a = res_unit r /\
                         a_fence a = res_fence r /\ a_state a = A_SUCCEEDED }.

Record core_inv (c : Core) : Prop := {
  ci_unit : forall k u, c_units c !! k = Some u -> unit_ok (c_attempts c) (c_results c) k u;
  ci_attempt : forall x a, c_attempts c !! x = Some a ->
    exists u, c_units c !! (x.1, a_unit a) = Some u /\ attempt_ok u x a;
  ci_fences : forall x y a b, c_attempts c !! x = Some a -> c_attempts c !! y = Some b ->
    x.1 = y.1 -> a_unit a = a_unit b -> a_fence a = a_fence b -> x = y;
  ci_result : forall x r, c_results c !! x = Some r ->
    exists u, c_units c !! (x.1, res_unit r) = Some u /\ result_ok (c_attempts c) u x r }.

(** ** Framing: a move touches one unit and its own attempts and results *)

Definition of_unit_att (k x : key2) (a : Attempt) : Prop := x.1 = k.1 /\ a_unit a = k.2.
Definition of_unit_res (k x : key2) (r : Result) : Prop := x.1 = k.1 /\ res_unit r = k.2.

#[export] Instance of_unit_att_dec k x a : Decision (of_unit_att k x a).
Proof. unfold of_unit_att. apply _. Defined.
#[export] Instance of_unit_res_dec k x r : Decision (of_unit_res k x r).
Proof. unfold of_unit_res. apply _. Defined.

Lemma key_pair (k x : key2) : x.1 = k.1 -> x.2 = k.2 -> x = k.
Proof. destruct k, x; simpl; congruence. Qed.

Section Frame.
Context (c : Core) (k : key2) (u' : Unit) (A : gmap key2 Attempt) (R : gmap key2 Result).
Hypothesis Hinv : core_inv c.
Hypothesis Hatt : forall x a, ~ of_unit_att k x a ->
  (c_attempts c !! x = Some a <-> A !! x = Some a).
Hypothesis Hres : forall x r, ~ of_unit_res k x r ->
  (c_results c !! x = Some r <-> R !! x = Some r).
Hypothesis Hunit : unit_ok A R k u'.
Hypothesis Hattempts : forall x a, of_unit_att k x a -> A !! x = Some a -> attempt_ok u' x a.
Hypothesis Hfences : forall x y a b, of_unit_att k x a -> of_unit_att k y b ->
  A !! x = Some a -> A !! y = Some b -> a_fence a = a_fence b -> x = y.
Hypothesis Hresults : forall x r, of_unit_res k x r -> R !! x = Some r -> result_ok A u' x r.

Lemma frame_units x v :
  x <> k -> unit_ok (c_attempts c) (c_results c) x v -> unit_ok A R x v.
Proof.
  intros Hx [H1 H2 H3 H4 H5]. split; try done.
  - intros Ha. destruct (H1 Ha) as (aid & a & ? & Hl & Hu & ?).
    exists aid, a. split; [done|]. split; [|done].
    apply (Hatt (x.1, aid) a); [|done]. intros [He Hk]. simpl in He.
    apply Hx, key_pair; congruence.
  - intros rid Hr. destruct (H5 rid Hr) as (r & Hl & Hu).
    exists r. split; [|done]. apply (Hres (x.1, rid) r); [|done].
    intros [He Hk]. simpl in He. apply Hx, key_pair; congruence.
Qed.

Lemma frame_core_inv : core_inv (mkCore (<[k := u']> (c_units c)) A R).
Proof.
  destruct Hinv as [I1 I2 I3 I4]. split; simpl.
  - intros x v. destruct (decide (x = k)) as [->|Hx].
    + rewrite lookup_insert_eq. by intros [= <-].
    + rewrite lookup_insert_ne by done. intros Hv. apply frame_units; auto.
  - intros x a Ha. destruct (decide (of_unit_att k x a)) as [Hk|Hk].
    + exists u'. destruct Hk as [H1 H2]. rewrite (key_pair k (x.1, a_unit a)) by done.
      rewrite lookup_insert_eq. split; [done|]. by apply Hattempts.
    + apply Hatt in Ha; [|done]. destruct (I2 x a Ha) as (v & Hv & Hok).
      exists v. rewrite lookup_insert_ne; [done|]. intros E. apply Hk. by rewrite E.
  - intros x y a b Ha Hb Ho Hu Hf. destruct (decide (of_unit_att k x a)) as [Hk|Hk].
    + assert (of_unit_att k y b) by (destruct Hk; split; congruence). eauto.
    + assert (~ of_unit_att k y b) by (intros []; apply Hk; split; congruence).
      apply Hatt in Ha; [|done]. apply Hatt in Hb; [|done]. eauto.
  - intros x r Hr. destruct (decide (of_unit_res k x r)) as [Hk|Hk].
    + exists u'. pose proof Hk as [H1 H2]. rewrite (key_pair k (x.1, res_unit r)) by done.
      rewrite lookup_insert_eq. split; [done|]. by apply Hresults.
    + apply Hres in Hr; [|done]. destruct (I4 x r Hr) as (v & Hv & [Hr1 Hr2]).
      exists v. rewrite lookup_insert_ne by (intros E; apply Hk; by rewrite E).
      split; [done|]. split; [done|]. destruct Hr2 as (a & Ha & Hau & ?).
      exists a. split; [|done]. apply (Hatt (x.1, res_attempt r) a); [|done].
      intros [? ?]. apply Hk. split; simpl in *; congruence.
Qed.
End Frame.

(** ** What the invariant says of one unit *)

Section OfUnit.
Context (c : Core) (k : key2) (u : Unit).
Hypothesis Hinv : core_inv c.
Hypothesis Hu : c_units c !! k = Some u.

Lemma inv_unit : unit_ok (c_attempts c) (c_results c) k u.
Proof. by apply (ci_unit c Hinv). Qed.

Lemma inv_attempt x a :
  of_unit_att k x a -> c_attempts c !! x = Some a -> attempt_ok u x a.
Proof.
  intros [H1 H2] Ha. destruct (ci_attempt c Hinv x a Ha) as (v & Hv & Hok).
  rewrite (key_pair k (x.1, a_unit a)), Hu in Hv by done. by simplify_eq.
Qed.

Lemma inv_result x r :
  of_unit_res k x r -> c_results c !! x = Some r -> result_ok (c_attempts c) u x r.
Proof.
  intros [H1 H2] Hr. destruct (ci_result c Hinv x r Hr) as (v & Hv & Hok).
  rewrite (key_pair k (x.1, res_unit r)), Hu in Hv by done. by simplify_eq.
Qed.

Lemma inv_uncommitted : u_state u <> U_COMMITTED -> u_result u = None.
Proof.
  intros H. destruct (u_result u) eqn:E; [|done]. exfalso. apply H.
  apply (uo_committed _ _ _ _ inv_unit). by rewrite E.
Qed.

(** An open attempt of the unit is the one the unit points to. *)
Lemma inv_open_unique x a aid :
  of_unit_att k x a -> c_attempts c !! x = Some a -> a_ended a = None ->
  u_active_attempt u = Some aid -> x = (k.1, aid).
Proof.
  intros Hk Ha He Hact. destruct (ao_open _ _ _ (inv_attempt x a Hk Ha) He) as [_ Hx].
  destruct Hk as [H1 _]. destruct x; simpl in *. congruence.
Qed.
End OfUnit.

Lemma is_active_states u : is_active u = true <-> u_state u ∈ [U_LEASED; U_RUNNING].
Proof. unfold is_active. apply bool_decide_eq_true. Qed.

Lemma is_active_false u : is_active u = false <-> u_state u ∉ [U_LEASED; U_RUNNING].
Proof. unfold is_active. apply bool_decide_eq_false. Qed.

Ltac list_cases H :=
  repeat (apply elem_of_cons in H as [H|H]); try (by apply elem_of_nil in H).

Lemma parked_edge_states s t :
  parked_edge s t ->
  s ∉ [U_LEASED; U_RUNNING] /\ t ∉ [U_LEASED; U_RUNNING] /\
  s <> U_COMMITTED /\ t <> U_COMMITTED.
Proof.
  intros [st Hst| |]; repeat split; set_solver.
Qed.

Lemma release_edge_states s t :
  release_edge s t ->
  s ∈ [U_LEASED; U_RUNNING] /\ t ∉ [U_LEASED; U_RUNNING] /\ t <> U_COMMITTED.
Proof. intros [st Hst|st Hst]; list_cases Hst; subst; repeat split; set_solver. Qed.

(** ** Preservation, move by move *)

Lemma create_inv c k u :
  core_inv c -> c_units c !! k = None ->
  u_state u ∈ [U_PENDING; U_NEEDS_ATTENTION; U_SKIPPED] -> u_fence u = 0 ->
  u_attempt_count u = 0 -> u_result u = None -> no_lease_columns u ->
  core_inv (mkCore (<[k := u]> (c_units c)) (c_attempts c) (c_results c)).
Proof.
  intros Hi Hnew Hst Hf Hc Hr Hl.
  assert (forall x a, of_unit_att k x a -> c_attempts c !! x <> Some a) as Hno.
  { intros x a [H1 H2] Ha. destruct (ci_attempt c Hi x a Ha) as (u0 & Hu0 & _).
    by rewrite (key_pair k (x.1, a_unit a)), Hnew in Hu0. }
  apply frame_core_inv; try done.
  - split; [|done | lia | | by rewrite Hr].
    + intros Ha%is_active_states. list_cases Hst; rewrite Hst in Ha; set_solver.
    + rewrite Hr. split; [|by intros []]. intros E. rewrite E in Hst. set_solver.
  - intros x a Hk Ha. by destruct (Hno x a Hk).
  - intros x y a b Hk _ Ha. by destruct (Hno x a Hk).
  - intros x r [H1 H2] Ha. destruct (ci_result c Hi x r Ha) as (u0 & Hu0 & _).
    by rewrite (key_pair k (x.1, res_unit r)), Hnew in Hu0.
Qed.

Lemma park_inv c k u u' :
  core_inv c -> c_units c !! k = Some u -> parked_edge (u_state u) (u_state u') ->
  same_counters u u' -> same_lease u u' ->
  core_inv (mkCore (<[k := u']> (c_units c)) (c_attempts c) (c_results c)).
Proof.
  intros Hi Hu (Hs & Ht & Hs' & Ht')%parked_edge_states (Hf & Hc & Hr) (Hw & Ha & He).
  pose proof (inv_unit c k u Hi Hu) as [O1 O2 O3 O4 O5].
  pose proof (inv_uncommitted c k u Hi Hu Hs') as Hnone.
  apply is_active_false in Hs, Ht.
  apply frame_core_inv; try done.
  - split; [congruence| |by rewrite Hf, Hc| |by rewrite Hr].
    + intros _. unfold no_lease_columns. rewrite Hw, Ha, He. by apply O2.
    + rewrite Hr, Hnone. split; [done | by intros []].
  - intros x a Hk Hx. destruct (inv_attempt c k u Hi Hu x a Hk Hx) as [A1 A2 A3 A4].
    split; try done; [congruence|]. intros E. destruct (A3 E). congruence.
  - intros x y a b [] [] ???. eapply (ci_fences c Hi x y a b); congruence.
  - intros x r Hk Hx. destruct (inv_result c k u Hi Hu x r Hk Hx) as [R1 R2].
    split; [congruence | done].
Qed.

Lemma touch_inv c k u u' :
  core_inv c -> c_units c !! k = Some u -> u_state u' = u_state u ->
  same_counters u u' -> same_lease u u' ->
  core_inv (mkCore (<[k := u']> (c_units c)) (c_attempts c) (c_results c)).
Proof.
  intros Hi Hu Hs (Hf & Hc & Hr) (Hw & Ha & He).
  pose proof (inv_unit c k u Hi Hu) as [O1 O2 O3 O4 O5].
  assert (Hact : is_active u' = is_active u) by (unfold is_active; by rewrite Hs).
  apply frame_core_inv; try done.
  - split; [|unfold no_lease_columns; by rewrite Hact, Hw, Ha, He | by rewrite Hf, Hc
            | by rewrite Hs, Hr | by rewrite Hr].
    rewrite Hact. unfold unit_open. by rewrite Ha, Hf, Hs, Hw, He.
  - intros x a Hk Hx. destruct (inv_attempt c k u Hi Hu x a Hk Hx) as [A1 A2 A3 A4].
    split; try done; [congruence|]. by rewrite Hact, Ha.
  - intros x y a b [] [] ???. eapply (ci_fences c Hi x y a b); congruence.
  - intros x r Hk Hx. destruct (inv_result c k u Hi Hu x r Hk Hx) as [R1 R2].
    split; [congruence | done].
Qed.

Lemma extend_inv c k u u' :
  core_inv c -> c_units c !! k = Some u -> u_state u ∈ [U_LEASED; U_RUNNING] ->
  u_state u' = u_state u -> is_Some (u_expires u') ->
  u_worker u' = u_worker u -> u_active_attempt u' = u_active_attempt u ->
  same_counters u u' ->
  core_inv (mkCore (<[k := u']> (c_units c)) (c_attempts c) (c_results c)).
Proof.
  intros Hi Hu Hs Hst He Hw Ha (Hf & Hc & Hr).
  pose proof (inv_unit c k u Hi Hu) as [O1 O2 O3 O4 O5].
  assert (is_active u' = is_active u) as Hact by (unfold is_active; by rewrite Hst).
  apply frame_core_inv; try done.
  - split; [| |by rewrite Hf, Hc|by rewrite Hst, Hr|by rewrite Hr].
    + intros E. rewrite Hact in E. destruct (O1 E) as (aid & a & ?&?&?&?&?&?&?&?).
      exists aid, a. repeat split; congruence.
    + apply is_active_states in Hs. congruence.
  - intros x a Hk Hx. destruct (inv_attempt c k u Hi Hu x a Hk Hx) as [A1 A2 A3 A4].
    split; try done; [congruence|]. rewrite Hact, Ha. done.
  - intros x y a b [] [] ???. eapply (ci_fences c Hi x y a b); congruence.
  - intros x r Hk Hx. destruct (inv_result c k u Hi Hu x r Hk Hx) as [R1 R2].
    split; [congruence | done].
Qed.

(** An update of one attempt of the unit keeps the attempts of the others. *)
Lemma att_frame (A : gmap key2 Attempt) k aid a' x b :
  a_unit a' = k.2 ->
  (forall a, A !! (k.1, aid) = Some a -> a_unit a = k.2) ->
  ~ of_unit_att k x b ->
  A !! x = Some b <-> <[(k.1, aid) := a']> A !! x = Some b.
Proof.
  intros Ha' Ha Hx. rewrite lookup_insert_Some. split.
  - intros Hb. destruct (decide ((k.1, aid) = x)) as [<-|]; [|by right].
    exfalso. apply Hx. split; [done | by apply Ha].
  - intros [[<- ->]|[_ ?]]; [|done]. exfalso. apply Hx. by split.
Qed.

Lemma claim_inv c k u u' aid a e :
  core_inv c -> c_units c !! k = Some u -> u_state u ∈ [U_PENDING; U_NEEDS_ATTENTION] ->
  c_attempts c !! (k.1, aid) = None ->
  (forall x b, c_attempts c !! x = Some b -> x.1 = k.1 -> a_unit b = k.2 ->
               a_fence b <> a_fence a) ->
  a_unit a = k.2 -> a_fence a = u_fence u + 1 -> a_number a = u_attempt_count u + 1 ->
  a_state a = A_LEASED -> a_ended a = None ->
  u_state u' = U_LEASED -> u_fence u' = u_fence u + 1 ->
  u_attempt_count u' = u_attempt_count u + 1 -> u_result u' = u_result u ->
  u_worker u' = Some (a_worker a) -> u_active_attempt u' = Some aid -> u_expires u' = Some e ->
  core_inv (mkCore (<[k := u']> (c_units c)) (<[(k.1, aid) := a]> (c_attempts c)) (c_results c)).
Proof.
  intros Hi Hu Hs Hnew Hfresh Hau Haf Han Has Hae Hst Hf Hc Hr Hw Ha He.
  assert (u_state u ∉ [U_LEASED; U_RUNNING] /\ u_state u <> U_COMMITTED) as [Hidle Hnc]
    by (list_cases Hs; rewrite Hs; split; set_solver).
  pose proof (inv_unit c k u Hi Hu) as [O1 O2 O3 O4 O5].
  pose proof (inv_uncommitted c k u Hi Hu Hnc) as Hnone.
  apply is_active_false in Hidle.
  apply frame_core_inv; try done.
  - intros x b Hx. apply att_frame; [done | congruence | done].
  - split.
    + intros _. exists aid, a. rewrite lookup_insert_eq. unfold open_state. rewrite Hst.
      repeat split; first [congruence | by rewrite Has | by rewrite He].
    + unfold is_active. by rewrite Hst.
    + lia.
    + rewrite Hr, Hnone, Hst. split; [done | by intros []].
    + congruence.
  - intros x b Hk [[<- <-]|[Hne Hx]]%lookup_insert_Some.
    + split; [lia | lia | unfold is_active; by rewrite Hst |].
      rewrite Hae, Has. split; [set_solver | done].
    + destruct (inv_attempt c k u Hi Hu x b Hk Hx) as [A1 A2 A3 A4].
      split; [lia | done | | done]. intros E. destruct (A3 E). congruence.
  - intros x y b1 b2 [Hx1 Hx2] [Hy1 Hy2] [[<- <-]|[_ Hx]]%lookup_insert_Some
      [[<- <-]|[_ Hy]]%lookup_insert_Some E; [done| | |].
    + exfalso. by apply (Hfresh y b2).
    + exfalso. by apply (Hfresh x b1).
    + eapply (ci_fences c Hi x y b1 b2); congruence.
  - intros x r Hk Hx. destruct (inv_result c k u Hi Hu x r Hk Hx) as [R1 _]. congruence.
Qed.

Lemma start_inv c k u u' aid a a' :
  core_inv c -> holds c k u aid a U_LEASED A_LEASED ->
  is_Some (u_expires u') -> u_state u' = U_RUNNING -> u_worker u' = u_worker u ->
  u_active_attempt u' = Some aid -> same_counters u u' ->
  same_attempt a a' -> a_state a' = A_RUNNING -> a_ended a' = None ->
  core_inv (mkCore (<[k := u']> (c_units c)) (<[(k.1, aid) := a']> (c_attempts c)) (c_results c)).
Proof.
  intros Hi (Hu & Ha & Hact & Hs & Hau & Haf & Has & Hae) He Hst Hw Hact' (Hf & Hc & Hr)
    (Eu & En & Ef & Ew & _) Has' Hae'.
  pose proof (inv_unit c k u Hi Hu) as [O1 O2 O3 O4 O5].
  assert (is_active u = true) as Hia by (apply is_active_states; set_solver).
  assert (is_active u' = true) as Hia' by (apply is_active_states; set_solver).
  apply frame_core_inv; try done.
  - intros x b Hx. apply att_frame; [congruence | congruence | done].
  - split; [|congruence|by rewrite Hf, Hc| |by rewrite Hr].
    + intros _. exists aid, a'. rewrite lookup_insert_eq. unfold open_state. rewrite Hst.
      destruct (O1 Hia) as (aid0 & a0 & ?&?&?&?&?&?&?&?).
      assert (a0 = a) as -> by congruence.
      repeat split; first [congruence | done].
    + rewrite Hst, Hr. rewrite <- O4, Hs. done.
  - intros x b Hk [[<- <-]|[_ Hx]]%lookup_insert_Some.
    + assert (of_unit_att k (k.1, aid) a) as Hka by (by split).
      destruct (inv_attempt c k u Hi Hu _ a Hka Ha) as [A1 A2 A3 A4].
      split; [lia | lia | done |]. rewrite Hae', Has'. split; [set_solver | done].
    + destruct (inv_attempt c k u Hi Hu x b Hk Hx) as [A1 A2 A3 A4].
      split; [lia | done | | done]. intros E. destruct (A3 E). split; congruence.
  - intros x y b1 b2 [Hx1 Hx2] [Hy1 Hy2] [[<- <-]|[_ Hx]]%lookup_insert_Some
      [[<- <-]|[_ Hy]]%lookup_insert_Some E; [done| | |].
    + apply (ci_fences c Hi (k.1, aid) y a b2); congruence.
    + apply (ci_fences c Hi x (k.1, aid) b1 a); congruence.
    + apply (ci_fences c Hi x y b1 b2); congruence.
  - intros x r Hk Hx. destruct (inv_result c k u Hi Hu x r Hk Hx) as [R1 _].
    assert (u_result u = None) by (apply (inv_uncommitted c k u Hi Hu); congruence).
    congruence.
Qed.

(** Ending the held attempt and clearing the lease columns: the common part of
    a release and a commit. *)
Section Close.
Context (c : Core) (k : key2) (u u' : Unit) (aid : string) (a a' : Attempt)
        (ust : UnitState) (ast : AttemptState).
Hypothesis Hi : core_inv c.
Hypothesis Hh : holds c k u aid a ust ast.
Hypothesis Hclear : no_lease_columns u'.
Hypothesis Hidle : u_state u' ∉ [U_LEASED; U_RUNNING].
Hypothesis Hf : u_fence u' = u_fence u.
Hypothesis Hc : u_attempt_count u' = u_attempt_count u.
Hypothesis Hsame : same_attempt a a'.
Hypothesis Hclosed : a_state a' ∉ [A_LEASED; A_RUNNING].
Hypothesis Hended : is_Some (a_ended a').

Lemma close_attempts x b :
  of_unit_att k x b -> <[(k.1, aid) := a']> (c_attempts c) !! x = Some b ->
  attempt_ok u' x b.
Proof.
  destruct Hh as (Hu & Ha & Hact & Hs & Hau & Haf & Has & Hae), Hsame as (Eu & En & Ef & Ew & _).
  apply is_active_false in Hidle.
  intros Hk [[<- <-]|[Hne Hx]]%lookup_insert_Some.
  - assert (of_unit_att k (k.1, aid) a) as Hka by (by split).
    destruct (inv_attempt c k u Hi Hu _ a Hka Ha) as [A1 A2 A3 A4].
    split; [lia | lia | |].
    + intros E. rewrite E in Hended. by destruct Hended.
    + split; [intros E; rewrite E in Hended; by destruct Hended | done].
  - destruct (inv_attempt c k u Hi Hu x b Hk Hx) as [A1 A2 A3 A4].
    split; [lia | done | | done]. intros E. exfalso. apply Hne.
    symmetry. by apply (inv_open_unique c k u Hi Hu x b aid).
Qed.

Lemma close_fences x y b1 b2 :
  of_unit_att k x b1 -> of_unit_att k y b2 ->
  <[(k.1, aid) := a']> (c_attempts c) !! x = Some b1 ->
  <[(k.1, aid) := a']> (c_attempts c) !! y = Some b2 -> a_fence b1 = a_fence b2 -> x = y.
Proof.
  destruct Hh as (Hu & Ha & Hact & Hs & Hau & Haf & Has & Hae), Hsame as (Eu & En & Ef & Ew & _).
  intros [Hx1 Hx2] [Hy1 Hy2] [[<- <-]|[_ Hx]]%lookup_insert_Some
    [[<- <-]|[_ Hy]]%lookup_insert_Some E; [done| | |].
  - apply (ci_fences c Hi (k.1, aid) y a b2); congruence.
  - apply (ci_fences c Hi x (k.1, aid) b1 a); congruence.
  - apply (ci_fences c Hi x y b1 b2); congruence.
Qed.

Lemma close_frame x b :
  ~ of_unit_att k x b ->
  c_attempts c !! x = Some b <-> <[(k.1, aid) := a']> (c_attempts c) !! x = Some b.
Proof.
  destruct Hh as (Hu & Ha & Hact & Hs & Hau & Haf & Has & Hae), Hsame as (Eu & _).
  intros Hx. apply att_frame; [congruence | congruence | done].
Qed.
End Close.

Lemma release_inv c k u u' aid a a' ust ast :
  core_inv c -> holds c k u aid a ust ast -> release_edge ust (u_state u') ->
  no_lease_columns u' -> same_counters u u' -> same_attempt a a' ->
  a_state a' ∈ [A_FAILED; A_TIMED_OUT; A_ABANDONED] -> is_Some (a_ended a') ->
  core_inv (mkCore (<[k := u']> (c_units c)) (<[(k.1, aid) := a']> (c_attempts c)) (c_results c)).
Proof.
  intros Hi Hh (Hs1 & Hs2 & Hs3)%release_edge_states Hclear (Hf & Hc & Hr) Hsame Hst He.
  pose proof Hh as (Hu & Ha & Hact & Hs & _).
  pose proof (inv_unit c k u Hi Hu) as [O1 O2 O3 O4 O5].
  assert (u_result u = None) as Hnone.
  { apply (inv_uncommitted c k u Hi Hu). rewrite Hs. intros ->. set_solver. }
  assert (a_state a' ∉ [A_LEASED; A_RUNNING]) as Hcl
    by (list_cases Hst; rewrite Hst; set_solver).
  apply frame_core_inv; try done.
  - intros x b. eapply close_frame; eauto.
  - apply is_active_false in Hs2. split; [congruence | done | by rewrite Hf, Hc | |].
    + rewrite Hr, Hnone. split; [done | by intros []].
    + congruence.
  - intros x b. eapply close_attempts; eauto.
  - intros x y b1 b2. eapply close_fences; eauto.
  - intros x r Hk Hx. destruct (inv_result c k u Hi Hu x r Hk Hx) as [R1 _]. congruence.
Qed.

Lemma commit_inv c k u u' aid a a' rid r :
  core_inv c -> holds c k u aid a U_RUNNING A_RUNNING ->
  (forall x q, c_results c !! x = Some q -> x.1 = k.1 -> res_unit q <> k.2) ->
  res_unit r = k.2 -> res_attempt r = aid -> res_fence r = u_fence u ->
  u_state u' = U_COMMITTED -> u_result u' = Some rid -> no_lease_columns u' ->
  u_fence u' = u_fence u -> u_attempt_count u' = u_attempt_count u ->
  c_results c !! (k.1, rid) = None ->
  same_attempt a a' -> a_state a' = A_SUCCEEDED -> is_Some (a_ended a') ->
  core_inv (mkCore (<[k := u']> (c_units c)) (<[(k.1, aid) := a']> (c_attempts c))
              (<[(k.1, rid) := r]> (c_results c))).
Proof.
  intros Hi Hh Hfree Hru Hra Hrf Hst Hr Hclear Hf Hc Hnew Hsame Hast He.
  pose proof Hh as (Hu & Ha & Hact & Hs & Hau & Haf & _).
  pose proof (inv_unit c k u Hi Hu) as [O1 O2 O3 O4 O5].
  assert (u_state u' ∉ [U_LEASED; U_RUNNING]) as Hidle by (rewrite Hst; set_solver).
  assert (a_state a' ∉ [A_LEASED; A_RUNNING]) as Hcl by (rewrite Hast; set_solver).
  apply frame_core_inv; try done.
  - intros x b. eapply close_frame; eauto.
  - intros x q Hx. rewrite lookup_insert_Some. split.
    + intros Hq. right. split; [|done]. intros <-. apply (Hfree _ _ Hq); [done|].
      congruence.
    + intros [[<- <-]|[_ ?]]; [|done]. exfalso. apply Hx. by split.
  - pose proof Hidle as Hidle'. apply is_active_false in Hidle'.
    split; [congruence | done | by rewrite Hf, Hc | |].
    + rewrite Hr. split; [by eauto | done].
    + intros rid' E. simplify_eq. exists r. by rewrite lookup_insert_eq.
  - intros x b. eapply close_attempts; eauto.
  - intros x y b1 b2. eapply close_fences; eauto.
  - intros x q [Hx1 Hx2] [[<- <-]|[_ Hx]]%lookup_insert_Some.
    + split; [done|]. exists a'. destruct Hsame as (Eu & _ & Ef & _). simpl. rewrite Hra.
      rewrite lookup_insert_eq. repeat split; congruence.
    + exfalso. by apply (Hfree x q Hx).
Qed.

(** A held attempt takes new columns beside its lease. *)
Lemma record_inv c k u aid a a' :
  core_inv c -> holds c k u aid a U_RUNNING A_RUNNING ->
  same_attempt a a' -> a_state a' = A_RUNNING -> a_ended a' = None ->
  core_inv (mkCore (c_units c) (<[(k.1, aid) := a']> (c_attempts c)) (c_results c)).
Proof.
  intros Hi (Hu & Ha & Hact & Hs & Hau & Haf & Has & Hae) (Eu & En & Ef & Ew & _) Has' Hae'.
  rewrite <- (insert_id (c_units c) k u Hu).
  pose proof (inv_unit c k u Hi Hu) as [O1 O2 O3 O4 O5].
  assert (is_active u = true) as Hia by (apply is_active_states; set_solver).
  apply frame_core_inv; try done.
  - intros x b Hx. apply att_frame; [congruence | congruence | done].
  - split; [|congruence | done | done | done].
    intros _. exists aid, a'. rewrite lookup_insert_eq. unfold open_state. rewrite Hs.
    destruct (O1 Hia) as (aid0 & a0 & ?&?&?&?&?&?&?&?). assert (a0 = a) as -> by congruence.
    repeat split; first [congruence | done].
  - intros x b Hk [[<- <-]|[_ Hx]]%lookup_insert_Some; [|by apply (inv_attempt c k u Hi Hu)].
    assert (of_unit_att k (k.1, aid) a) as Hka by (by split).
    destruct (inv_attempt c k u Hi Hu _ a Hka Ha) as [A1 A2 A3 A4].
    split; [lia | lia | done |]. rewrite Hae', Has'. split; [set_solver | done].
  - intros x y b1 b2 [Hx1 Hx2] [Hy1 Hy2] [[<- <-]|[_ Hx]]%lookup_insert_Some
      [[<- <-]|[_ Hy]]%lookup_insert_Some E; [done| | |].
    + apply (ci_fences c Hi (k.1, aid) y a b2); congruence.
    + apply (ci_fences c Hi x (k.1, aid) b1 a); congruence.
    + apply (ci_fences c Hi x y b1 b2); congruence.
  - intros x r Hk Hx. destruct (inv_result c k u Hi Hu x r Hk Hx) as [R1 _].
    assert (u_result u = None) by (apply (inv_uncommitted c k u Hi Hu); congruence).
    congruence.
Qed.

(** A unit that was never leased takes a result over. *)
Lemma adopt_inv c k u u' aid a rid r :
  core_inv c -> c_units c !! k = Some u -> u_state u = U_PENDING ->
  c_attempts c !! (k.1, aid) = None ->
  (forall x b, c_attempts c !! x = Some b -> x.1 = k.1 -> a_unit b = k.2 ->
               a_fence b <> a_fence a) ->
  a_unit a = k.2 -> a_fence a = u_fence u + 1 -> a_number a = u_attempt_count u + 1 ->
  a_state a = A_SUCCEEDED -> is_Some (a_ended a) ->
  c_results c !! (k.1, rid) = None ->
  (forall x q, c_results c !! x = Some q -> x.1 = k.1 -> res_unit q <> k.2) ->
  res_unit r = k.2 -> res_attempt r = aid -> res_fence r = u_fence u + 1 ->
  u_state u' = U_COMMITTED -> u_fence u' = u_fence u + 1 ->
  u_attempt_count u' = u_attempt_count u + 1 -> u_result u' = Some rid -> same_lease u u' ->
  core_inv (mkCore (<[k := u']> (c_units c)) (<[(k.1, aid) := a]> (c_attempts c))
              (<[(k.1, rid) := r]> (c_results c))).
Proof.
  intros Hi Hu Hs Hnew Hfresh Hau Haf Han Has Hae Hrnew Hfree Hru Hra Hrf Hst Hf Hc Hr (Hw & Hact & He).
  pose proof (inv_unit c k u Hi Hu) as [O1 O2 O3 O4 O5].
  assert (is_active u = false) as Hidle by (apply is_active_false; rewrite Hs; set_solver).
  assert (is_active u' = false) as Hidle' by (apply is_active_false; rewrite Hst; set_solver).
  apply frame_core_inv; try done.
  - intros x b Hx. apply att_frame; [done | congruence | done].
  - intros x q Hx. rewrite lookup_insert_Some. split.
    + intros Hq. right. split; [|done]. intros <-. congruence.
    + intros [[<- <-]|[_ ?]]; [|done]. exfalso. apply Hx. by split.
  - split; [congruence | | lia | |].
    + intros _. unfold no_lease_columns. rewrite Hw, Hact, He. by apply O2.
    + rewrite Hr. split; [by eauto | done].
    + intros rid' E. simplify_eq. exists r. by rewrite lookup_insert_eq.
  - intros x b Hk [[<- <-]|[Hne Hx]]%lookup_insert_Some.
    + split; [lia | lia | |].
      * intros E. rewrite E in Hae. by destruct Hae.
      * rewrite Has. split; [intros E; rewrite E in Hae; by destruct Hae | set_solver].
    + destruct (inv_attempt c k u Hi Hu x b Hk Hx) as [A1 A2 A3 A4].
      split; [lia | done | | done]. intros E. destruct (A3 E). congruence.
  - intros x y b1 b2 [Hx1 Hx2] [Hy1 Hy2] [[<- <-]|[_ Hx]]%lookup_insert_Some
      [[<- <-]|[_ Hy]]%lookup_insert_Some E; [done| | |].
    + exfalso. by apply (Hfresh y b2).
    + exfalso. by apply (Hfresh x b1).
    + eapply (ci_fences c Hi x y b1 b2); congruence.
  - intros x q [Hx1 Hx2] [[<- <-]|[_ Hx]]%lookup_insert_Some.
    + split; [done|]. exists a. simpl. rewrite Hra, lookup_insert_eq. repeat split; congruence.
    + exfalso. by apply (Hfree x q Hx).
Qed.

(** Every move keeps the invariant, hence so does every run. *)
Lemma core_step_inv c c' : core_step c c' -> core_inv c -> core_inv c'.
Proof.
  intros Hstep Hi. destruct Hstep.
  - eapply create_inv; eauto.
  - eapply touch_inv; eauto.
  - eapply park_inv; eauto.
  - eapply claim_inv; eauto.
  - eapply start_inv; eauto.
  - eapply extend_inv; eauto.
  - eapply release_inv; eauto.
  - eapply commit_inv; eauto.
  - eapply record_inv; eauto.
  - eapply adopt_inv; eauto.
Qed.

Lemma core_steps_inv c c' : rtc core_step c c' -> core_inv c -> core_inv c'.
Proof. induction 1; eauto using core_step_inv. Qed.

(** ** Evolution: what a run can change *)

(** The moves of the state column: the declared table, and the three edges the
    repair of exhausted units, the claim and the reuse of results take outside
    it. *)
Definition observed_edge (s t : UnitState) : Prop :=
  unit_step s t \/ (s = U_PENDING /\ t = U_NEEDS_ATTENTION)
  \/ (s = U_NEEDS_ATTENTION /\ t = U_LEASED) \/ (s = U_PENDING /\ t = U_COMMITTED).

Record unit_evolves (u u' : Unit) : Prop := {
  ue_identity : same_identity u u';
  ue_fence : u_fence u <= u_fence u';
  ue_count : u_attempt_count u' - u_attempt_count u = u_fence u' - u_fence u;
  ue_state : rtc observed_edge (u_state u) (u_state u');
  ue_result : forall rid, u_state u = U_COMMITTED -> u_result u = Some rid ->
                          u_result u' = Some rid }.

Record core_evolves (c c' : Core) : Prop := {
  ce_unit : forall k u, c_units c !! k = Some u ->
    exists u', c_units c' !! k = Some u' /\ unit_evolves u u';
  ce_result : c_results c ⊆ c_results c';
  ce_attempt : forall x a, c_attempts c !! x = Some a ->
    exists a', c_attempts c' !! x = Some a' /\ same_attempt a a' /\
               (is_Some (a_ended a) -> a' = a) }.

Lemma same_identity_refl u : same_identity u u.
Proof. by repeat split. Qed.
Lemma same_identity_trans u v w :
  same_identity u v -> same_identity v w -> same_identity u w.
Proof. unfold same_identity. intuition congruence. Qed.
Lemma same_attempt_refl a : same_attempt a a.
Proof. by repeat split. Qed.
Lemma same_attempt_trans a b d : same_attempt a b -> same_attempt b d -> same_attempt a d.
Proof. unfold same_attempt. intuition congruence. Qed.

#[export] Hint Resolve same_identity_refl same_attempt_refl : core.

Lemma committed_sink t : rtc observed_edge U_COMMITTED t -> t = U_COMMITTED.
Proof.
  intros H. remember U_COMMITTED as s eqn:E. induction H as [|s x t Hst _ IH]; [done|].
  subst. destruct Hst as [H|[[? _]|[[? _]|[? _]]]]; [|done..].
  by apply elem_of_nil in H.
Qed.

Lemma observed_terminal s t : s ∈ TERMINAL_UNIT_STATES -> ~ observed_edge s t.
Proof.
  intros Hs [Ht|[[-> _]|[[-> _]|[-> _]]]]; [|by apply (bool_decide_pack _) in Hs..].
  unfold unit_step in Ht. list_cases Hs; subst; by apply elem_of_nil in Ht.
Qed.

Lemma terminal_unit_sink s t : s ∈ TERMINAL_UNIT_STATES -> rtc observed_edge s t -> t = s.
Proof. intros Hs H. inversion H as [|x y z Hxy]; subst; [done|]. by apply observed_terminal in Hxy. Qed.

#[export] Instance unit_evolves_preorder : PreOrder unit_evolves.
Proof.
  split.
  - intros u. split; [apply same_identity_refl | lia | lia | apply rtc_refl | done].
  - intros u v w [A1 A2 A3 A4 A5] [B1 B2 B3 B4 B5].
    split; [by eapply same_identity_trans | lia | lia | by etrans |].
    intros rid Hs Hr. apply B5; [|auto]. apply committed_sink. by rewrite <- Hs.
Qed.

#[export] Instance core_evolves_preorder : PreOrder core_evolves.
Proof.
  split.
  - intros c. split; [intros k u Hu; by exists u | done |]. intros x a Ha. exists a. by split_and!.
  - intros c d e [A1 A2 A3] [B1 B2 B3]. split.
    + intros k u Hu. destruct (A1 k u Hu) as (v & Hv & Huv).
      destruct (B1 k v Hv) as (w & Hw & Hvw). exists w. split; [done | by etrans].
    + by etrans.
    + intros x a Ha. destruct (A3 x a Ha) as (b & Hb & Hab & Heq).
      destruct (B3 x b Hb) as (d' & Hd & Hbd & Heq'). exists d'. split; [done|].
      split; [by eapply same_attempt_trans|]. intros E. rewrite <- (Heq E). apply Heq'.
      by rewrite (Heq E).
Qed.

(** One unit, at most one of its open attempts and one new result change. *)
Lemma evolves_local c k u u' A R :
  c_units c !! k = Some u -> unit_evolves u u' -> c_results c ⊆ R ->
  (forall x a, c_attempts c !! x = Some a ->
     exists a', A !! x = Some a' /\ same_attempt a a' /\ (is_Some (a_ended a) -> a' = a)) ->
  core_evolves c (mkCore (<[k := u']> (c_units c)) A R).
Proof.
  intros Hu He HR HA. split; simpl; [|done|done].
  intros x v Hv. destruct (decide (x = k)) as [->|Hx].
  - exists u'. rewrite lookup_insert_eq. split; [done|]. congruence.
  - exists v. by rewrite lookup_insert_ne.
Qed.

Lemma attempts_updated (A : gmap key2 Attempt) y a0 a' :
  A !! y = Some a0 -> a_ended a0 = None -> same_attempt a0 a' ->
  forall x a, A !! x = Some a ->
    exists b, <[y := a']> A !! x = Some b /\ same_attempt a b /\ (is_Some (a_ended a) -> b = a).
Proof.
  intros Hy He Hs x a Ha. destruct (decide (x = y)) as [->|Hx].
  - exists a'. rewrite lookup_insert_eq. simplify_eq. split_and!; try done.
    rewrite He. by intros [].
  - exists a. rewrite lookup_insert_ne by done. by split_and!.
Qed.

Lemma attempts_kept (A : gmap key2 Attempt) x a :
  A !! x = Some a ->
  exists b, A !! x = Some b /\ same_attempt a b /\ (is_Some (a_ended a) -> b = a).
Proof. intros Ha. exists a. by split_and!. Qed.

Lemma attempts_inserted (A : gmap key2 Attempt) y a' x a :
  A !! y = None -> A !! x = Some a ->
  exists b, <[y := a']> A !! x = Some b /\ same_attempt a b /\ (is_Some (a_ended a) -> b = a).
Proof.
  intros Hy Ha. exists a. rewrite lookup_insert_ne by congruence. by split_and!.
Qed.

Lemma parked_observed s t : parked_edge s t -> observed_edge s t.
Proof.
  intros [st Hst| |]; unfold observed_edge, unit_step; [left|left|tauto]; simpl.
  - list_cases Hst; subst; set_solver.
  - set_solver.
Qed.

Lemma release_observed s t : release_edge s t -> observed_edge s t.
Proof.
  intros [st Hst|st Hst]; unfold observed_edge, unit_step; left; simpl; set_solver.
Qed.

Lemma core_step_evolves c c' : core_step c c' -> core_evolves c c'.
Proof.
  assert (forall u u', observed_edge (u_state u) (u_state u') -> same_identity u u' ->
            u_fence u' = u_fence u -> u_attempt_count u' = u_attempt_count u ->
            u_state u <> U_COMMITTED -> unit_evolves u u') as Hone.
  { intros u u' Hs Hid Hf Hc Hn. split; [done|lia|lia|by apply rtc_once|done]. }
  destruct 1 as
    [c k u Hnew _ _ _ _ _
    |c k u u' Hu Hs Hid (Hf & Hc & Hr) _
    |c k u u' Hu He Hid (Hf & Hc & _) _
    |c k u u' aid a e Hu Hs Hn Hfr Hau Haf Han Has Hae Hs' Hf Hc Hr Hw Hact He Hid
    |c k u u' aid a a' e e' (Hu & Ha & _ & Hs & _ & _ & _ & Hae) _ _ _ Hs' _ _ Hid (Hf & Hc & _) Hsame _ _
    |c k u u' e e' Hu Hs Hs' _ _ _ _ _ Hid (Hf & Hc & Hr)
    |c k u u' aid a a' ust ast (Hu & Ha & _ & Hs & _ & _ & _ & Hae) He _ Hid (Hf & Hc & _) Hsame _ _
    |c k u u' aid a a' rid r (Hu & Ha & _ & Hs & _ & _ & _ & Hae) Hnew _ _ _ _ Hs' _ _ Hid Hf Hc Hsame _ _
    |c k u aid a a' (Hu & Ha & _ & _ & _ & _ & _ & Hae) Hsame _ _
    |c k u u' aid a rid r Hu Hs _ Hn _ _ _ _ _ _ Hrn _ _ _ _ _ Hs' Hf Hc Hr _ Hid].
  - split; simpl; [|done | apply attempts_kept]. intros x v Hv. exists v.
    by rewrite lookup_insert_ne by congruence.
  - apply (evolves_local c k u); [done | | done | apply attempts_kept].
    split; [done | lia | lia | rewrite Hs; apply rtc_refl | by rewrite Hr].
  - apply (evolves_local c k u); [done | | done | apply attempts_kept].
    apply Hone; try done; [by apply parked_observed|].
    apply parked_edge_states in He. tauto.
  - apply (evolves_local c k u); [done | | done | intros; by apply attempts_inserted].
    split; [done | lia | lia | | intros rid E; rewrite E in Hs; set_solver].
    apply rtc_once. rewrite Hs'. unfold observed_edge, unit_step.
    list_cases Hs; rewrite Hs; [left; simpl; set_solver | tauto].
  - apply (evolves_local c k u); [done | | done | by eapply attempts_updated].
    apply Hone; try done; [|by rewrite Hs]. rewrite Hs, Hs'. left. unfold unit_step. set_solver.
  - apply (evolves_local c k u); [done | | done | apply attempts_kept].
    split; [done | lia | lia | rewrite Hs'; apply rtc_refl | by rewrite Hr].
  - apply (evolves_local c k u); [done | | done | by eapply attempts_updated].
    apply Hone; try done; [rewrite Hs; by apply release_observed|].
    rewrite Hs. destruct He; done.
  - apply (evolves_local c k u); [done | | | by eapply attempts_updated].
    + apply Hone; try done; [|by rewrite Hs]. rewrite Hs, Hs'. left. unfold unit_step. set_solver.
    + simpl. by apply insert_subseteq.
  - split; simpl; [|done | by eapply attempts_updated]. intros x v Hv. by exists v.
  - apply (evolves_local c k u); [done | | | intros; by apply attempts_inserted].
    + split; [done | lia | lia | | intros rid' E; by rewrite E in Hs].
      apply rtc_once. rewrite Hs, Hs'. unfold observed_edge. tauto.
    + simpl. by apply insert_subseteq.
Qed.

Lemma core_steps_evolve c c' : rtc core_step c c' -> core_evolves c c'.
Proof.
  induction 1 as [|c d e Hstep _ IH]; [reflexivity|].
  etrans; [by apply core_step_evolves | exact IH].
Qed.
