(* ===== verification/WorkloadProtocol.v ===== *)
(** * The audit protocol of workloads

    The abstract promise about the state column and the event log: a workload
    is created with its first event, and every later change of its state takes
    an edge of the declared table, raises the version by one and appends the
    one event that records it.  Completion has an event of its own kind: no other
    change of state leads to a completed workload. *)
From Stdlib Require Import Strings.String.
From S2P Require Import Prelude.
From S2P Require Import PyJson.
From S2P Require Import DurableModels.
From S2P Require Import DurableTables.
From S2P Require Import DurableWorkflow.
From S2P Require Import DurableCompletion.
Local Open Scope Z_scope.

Record Flow : Type := mkFlow { f_state : WorkloadState; f_version : Z; f_next : Z }.

Definition flow_of (w : Workload) : Flow :=
  mkFlow (w_state w) (w_version w) (w_next_event w).

Record Log : Type := mkLog {
  lg_flow : gmap key2 Flow; lg_events : gmap (string * string * Z) Event }.

Definition log (s : Store) : Log := mkLog (flow_of <$> workloads s) (events s).

Definition event_at (k : key2) (n : Z) : string * string * Z := (k.1, k.2, n).

(** The type of the event a move records. *)
Definition move_event (source target : WorkloadState) (ty : EventType) : Prop :=
  event_by_target target = Some ty \/ (source = NEEDS_ATTENTION /\ ty = E_ATTENTION_RESOLVED).

Definition records (e : Event) (target : WorkloadState) (version : Z) : Prop :=
  obj_get "new_state" (ev_payload e) = Some (JStr (workload_value target)) /\
  obj_get "new_version" (ev_payload e) = Some (JInt version).

Definition completed (target : WorkloadState) : Prop :=
  target ∈ [COMPLETED; COMPLETED_WITH_ERRORS].
#[export] Instance completed_dec target : Decision (completed target).
Proof. unfold completed. apply _. Defined.

(** The event of a completion names its target, not the version. *)
Definition completes (e : Event) (target : WorkloadState) : Prop :=
  ev_type e = completion_event target /\
  obj_get "target_state" (ev_payload e) = Some (JStr (workload_value target)).

(** The event of an admission names the new version and the revision: that
    the workload is admitted is what its type says. *)
Definition admits (e : Event) (target : WorkloadState) : Prop :=
  target = ADMITTED /\ ev_type e = E_REVISION_ADMITTED.

Definition new_version_is (e : Event) (version : Z) : Prop :=
  obj_get "new_version" (ev_payload e) = Some (JInt version).

(** What a change of state leaves in the log. *)
Definition accounted (source target : WorkloadState) (version : Z) (e : Event) : Prop :=
  (move_event source target (ev_type e) /\ records e target version)
  \/ (completed target /\ completes e target)
  \/ (admits e target /\ new_version_is e version).

(** The event says which state was reached. *)
Definition announces (e : Event) (target : WorkloadState) : Prop :=
  obj_get "new_state" (ev_payload e) = Some (JStr (workload_value target)) \/ admits e target.

Inductive log_step : Log -> Log -> Prop :=
| log_create l k e :
    lg_flow l !! k = None -> lg_events l !! event_at k 1 = None ->
    ev_type e = E_DRAFT_CREATED ->
    log_step l (mkLog (<[k := mkFlow DRAFT 1 2]> (lg_flow l))
                      (<[event_at k 1 := e]> (lg_events l)))
| log_move l k f target e :
    lg_flow l !! k = Some f -> workload_step (f_state f) target ->
    accounted (f_state f) target (f_version f + 1) e ->
    lg_events l !! event_at k (f_next f) = None ->
    log_step l (mkLog (<[k := mkFlow target (f_version f + 1) (f_next f + 1)]> (lg_flow l))
                      (<[event_at k (f_next f) := e]> (lg_events l))).

(** ** The audit invariant *)

(** The events of a workload are numbered 1 to its version without a gap; the
    first is its creation and event [n] records version [n]. *)
Record audited (l : Log) (k : key2) (f : Flow) : Prop := {
  au_next : f_next f = f_version f + 1;
  au_positive : 1 <= f_version f;
  au_events : forall n, is_Some (lg_events l !! event_at k n) <-> 1 <= n <= f_version f;
  au_first : forall e, lg_events l !! event_at k 1 = Some e -> ev_type e = E_DRAFT_CREATED;
  au_version : forall n e, 2 <= n -> lg_events l !! event_at k n = Some e ->
    new_version_is e n
    \/ (n = f_version f /\ completed (f_state f) /\ completes e (f_state f));
  au_last : forall e, 2 <= f_version f -> lg_events l !! event_at k (f_version f) = Some e ->
    if decide (completed (f_state f)) then completes e (f_state f)
    else announces e (f_state f);
  au_started : completed (f_state f) -> 2 <= f_version f }.

Record log_inv (l : Log) : Prop := {
  li_flow : forall k f, lg_flow l !! k = Some f -> audited l k f;
  li_events : forall k n, is_Some (lg_events l !! event_at k n) -> is_Some (lg_flow l !! k) }.

Lemma event_at_inj k k' n n' : event_at k n = event_at k' n' -> k = k' /\ n = n'.
Proof. destruct k, k'. unfold event_at. simpl. intros [= -> -> ->]. done. Qed.

Lemma accounted_not_completed s t v e :
  ~ completed t -> accounted s t v e -> announces e t /\ new_version_is e v.
Proof. intros Hn [[_ [H1 H2]]|[[H _]|[H1 H2]]]; [|done|]; split; unfold announces; auto. Qed.

(** A completion is accounted for by its own kind of event only. *)
Lemma accounted_completed s t v e :
  workload_step s t -> completed t -> accounted s t v e -> completes e t.
Proof.
  intros Hst Ht [[[Hty|[-> _]] _]|[[_ H]|[[-> _] _]]]; [| |done|unfold completed in Ht; set_solver].
  - exfalso. destruct t; simpl in Hty; try done; unfold completed in Ht; set_solver.
  - exfalso. destruct t; unfold workload_step, completed in *; simpl in *; set_solver.
Qed.

Lemma completed_terminal s t : completed s -> ~ workload_step s t.
Proof. unfold completed, workload_step. destruct s; simpl; set_solver. Qed.

Lemma audited_other l k k' f n e F :
  k' <> k -> audited l k' f -> audited (mkLog F (<[event_at k n := e]> (lg_events l))) k' f.
Proof.
  intros Hk [A1 A2 A3 A4 A5 A6 A7].
  assert (forall m, <[event_at k n := e]> (lg_events l) !! event_at k' m
                    = lg_events l !! event_at k' m) as E.
  { intros m. apply lookup_insert_ne. intros [-> _]%event_at_inj. done. }
  split; simpl; try done; intros *; rewrite ?E; intros; first [by auto | by apply A6 | by apply A7].
Qed.

Lemma log_step_inv l l' : log_step l l' -> log_inv l -> log_inv l'.
Proof.
  intros Hstep [I1 I2]. destruct Hstep as [l k e Hn He Hty | l k f target e Hf Hs Hm He].
  - assert (forall n, lg_events l !! event_at k n = None) as Hnone.
    { intros n. apply eq_None_not_Some. intros Hx%I2. rewrite Hn in Hx. by destruct Hx. }
    split; simpl.
    + intros k' f [[<- <-]|[Hk Hf]]%lookup_insert_Some; [|by apply audited_other; auto].
      split; simpl; try lia.
      * intros n. destruct (decide (n = 1)) as [->|Hn1].
        -- rewrite lookup_insert_eq. split; [lia | by eauto].
        -- rewrite lookup_insert_ne by (intros [_ ?]%event_at_inj; lia).
           rewrite Hnone. split; [by intros [] | lia].
      * intros e'. rewrite lookup_insert_eq. by intros [= <-].
      * intros n e' Hn2. rewrite lookup_insert_ne by (intros [_ ?]%event_at_inj; lia).
        by rewrite Hnone.
      * unfold completed. set_solver.
    + intros k' n [e' He']. apply lookup_insert_Some in He' as [[E _]|[_ Hx]].
      * apply event_at_inj in E as [<- _]. rewrite lookup_insert_eq. by eauto.
      * destruct (decide (k' = k)) as [->|]; [rewrite lookup_insert_eq; by eauto|].
        rewrite lookup_insert_ne by done. apply (I2 k' n). by eauto.
  - destruct (I1 k f Hf) as [A1 A2 A3 A4 A5 A6 A7]. rewrite A1 in *. split; simpl.
    + intros k' f' [[<- <-]|[Hk Hf']]%lookup_insert_Some; [|by apply audited_other; auto].
      split; simpl; try lia.
      * intros n. destruct (decide (n = f_version f + 1)) as [->|Hn1].
        -- rewrite lookup_insert_eq. split; [lia | by eauto].
        -- rewrite lookup_insert_ne by (intros [_ ?]%event_at_inj; lia).
           rewrite A3. lia.
      * intros e'. rewrite lookup_insert_ne by (intros [_ ?]%event_at_inj; lia). auto.
      * intros n e' Hn2 [[[_ <-]%event_at_inj <-]|[_ Hx]]%lookup_insert_Some.
        -- destruct (decide (completed target)) as [Hc|Hc].
           ++ right. by split_and!; [..|eapply accounted_completed].
           ++ left. by destruct (accounted_not_completed _ _ _ _ Hc Hm).
        -- destruct (A5 n e' Hn2 Hx) as [|(_ & Hc & _)]; [by left|].
           by destruct (completed_terminal _ target Hc).
      * intros e' _. rewrite lookup_insert_eq. intros [= <-].
        destruct (decide (completed target)) as [Hc|Hc]; [by eapply accounted_completed|].
        by destruct (accounted_not_completed _ _ _ _ Hc Hm).
    + intros k' n [e' He']. apply lookup_insert_Some in He' as [[E _]|[_ Hx]].
      * apply event_at_inj in E as [<- _]. rewrite lookup_insert_eq. by eauto.
      * destruct (decide (k' = k)) as [->|]; [rewrite lookup_insert_eq; by eauto|].
        rewrite lookup_insert_ne by done. apply (I2 k' n). by eauto.
Qed.

Lemma log_steps_inv l l' : rtc log_step l l' -> log_inv l -> log_inv l'.
Proof. induction 1; eauto using log_step_inv. Qed.

(** ** Evolution *)

Record log_evolves (l l' : Log) : Prop := {
  le_flow : forall k f, lg_flow l !! k = Some f ->
    exists f', lg_flow l' !! k = Some f' /\ rtc workload_step (f_state f) (f_state f') /\
      f_version f <= f_version f' /\ (f_version f' = f_version f -> f_state f' = f_state f) /\
      (f_state f ∈ TERMINAL_WORKLOAD_STATES -> f' = f);
  le_events : lg_events l ⊆ lg_events l' }.

#[export] Instance log_evolves_preorder : PreOrder log_evolves.
Proof.
  split.
  - intros l. split; [|done]. intros k f Hf. exists f. split_and!; [done | apply rtc_refl | lia | done | done].
  - intros a b c [A1 A2] [B1 B2]. split; [|by etrans].
    intros k f Hf. destruct (A1 k f Hf) as (g & Hg & Hfg & Hv & Hs & Ht).
    destruct (B1 k g Hg) as (h & Hh & Hgh & Hv' & Hs' & Ht').
    exists h. split_and!; [done | by etrans | lia | intros E; rewrite Hs', Hs; lia || done |].
    intros Hf'. specialize (Ht Hf') as ->. auto.
Qed.

Lemma log_step_evolves l l' : log_step l l' -> log_evolves l l'.
Proof.
  intros [m k e Hn He Hty | m k f target e Hf Hs Hm He]; split; simpl;
    try (by apply insert_subseteq); intros k' f' Hf'.
  - exists f'. rewrite lookup_insert_ne by congruence.
    split_and!; [done | apply rtc_refl | lia | done | done].
  - destruct (decide (k' = k)) as [->|Hk].
    + assert (f' = f) as -> by congruence. eexists. rewrite lookup_insert_eq.
      split_and!; [done | by apply rtc_once | simpl; lia | simpl; lia |].
      intros Ht. by destruct (workload_terminal_sink _ target Ht).
    + exists f'. rewrite lookup_insert_ne by done.
      split_and!; [done | apply rtc_refl | lia | done | done].
Qed.

Lemma log_steps_evolve l l' : rtc log_step l l' -> log_evolves l l'.
Proof.
  induction 1 as [|a b c Hstep _ IH]; [reflexivity|].
  etrans; [by apply log_step_evolves | exact IH].
Qed.

(** A terminal workload stays in its state. *)
Lemma terminal_sink s t :
  s ∈ TERMINAL_WORKLOAD_STATES -> rtc workload_step s t -> t = s.
Proof.
  intros Hs H. inversion H as [|x y z Hxy]; subst; [done|].
  by apply workload_terminal_sink in Hxy.
Qed.
