(* ===== verification/DurableRefinement.v ===== *)
(** * The store implements the lease protocol

    Every public operation of the store, under any host and with any
    arguments, changes the units, attempts and results by a sequence of moves
    of LeaseProtocol.v.  Operations that write other tables only keep the
    three unchanged. *)
From Stdlib Require Import Strings.String.
From S2P Require Import Prelude.
From S2P Require Import PyJson.
From S2P Require Import Instants.
From S2P Require Import DurableModels.
From S2P Require Import DurableRetry.
From S2P Require Import DurableResults.
From S2P Require Import DurableTables.
From S2P Require Import DurableOutbox.
From S2P Require Import DurableWorkflow.
From S2P Require Import DurableLeases.
From S2P Require Import DurableAdmission.
From S2P Require Import DurableMaterialize.
From S2P Require Import DurableReuse.
From S2P Require Import DurableFacts.
From S2P Require Import DurableSystem.
From S2P Require Import DurableFrames.
From S2P Require Import LeaseProtocol.
Local Open Scope Z_scope.

(** ** Operations that keep the three tables *)

Definition keeps_core (s s' : Store) : Prop := core s' = core s.

#[export] Instance keeps_core_preorder : PreOrder keeps_core.
Proof. split; unfold keeps_core; [done | intros ???; congruence]. Qed.

Ltac ignores_core := intros s f; reflexivity.
#[export] Instance core_ignores_ticks : Ignores keeps_core ticks. Proof. ignores_core. Qed.
#[export] Instance core_ignores_workloads : Ignores keeps_core workloads. Proof. ignores_core. Qed.
#[export] Instance core_ignores_events : Ignores keeps_core events. Proof. ignores_core. Qed.
#[export] Instance core_ignores_outbox : Ignores keeps_core outbox. Proof. ignores_core. Qed.
#[export] Instance core_ignores_usages : Ignores keeps_core usages. Proof. ignores_core. Qed.
#[export] Instance core_ignores_revisions : Ignores keeps_core revisions. Proof. ignores_core. Qed.
#[export] Instance core_ignores_credits : Ignores keeps_core credits. Proof. ignores_core. Qed.
#[export] Instance core_ignores_commands : Ignores keeps_core commands. Proof. ignores_core. Qed.
#[export] Instance core_ignores_resolutions : Ignores keeps_core resolutions.
Proof. ignores_core. Qed.
#[export] Instance core_ignores_dependencies : Ignores keeps_core dependencies.
Proof. ignores_core. Qed.
#[export] Instance core_ignores_stages : Ignores keeps_core stages. Proof. ignores_core. Qed.
#[export] Instance core_ignores_placements : Ignores keeps_core placements. Proof. ignores_core. Qed.
#[export] Instance core_ignores_sources : Ignores keeps_core sources. Proof. ignores_core. Qed.
#[export] Instance core_ignores_stage_dependencies : Ignores keeps_core stage_dependencies.
Proof. ignores_core. Qed.
#[export] Instance core_ignores_materializations : Ignores keeps_core materializations.
Proof. ignores_core. Qed.
#[export] Instance core_ignores_unit_dependencies : Ignores keeps_core unit_dependencies.
Proof. ignores_core. Qed.

(** ** Operations that move units *)

Definition refines (s s' : Store) : Prop := rtc core_step (core s) (core s').

#[export] Instance refines_preorder : PreOrder refines.
Proof.
  split; unfold refines; [intros s; apply rtc_refl | intros s t u ??; by etrans].
Qed.

Lemma keeps_refines s s' : keeps_core s s' -> refines s s'.
Proof. unfold keeps_core, refines. intros ->. apply rtc_refl. Qed.

Lemma refines_ignores {T} (tbl : Store -> T) `{!Setter tbl} :
  Ignores keeps_core tbl -> Ignores refines tbl.
Proof. intros Hk s f. apply keeps_refines, Hk. Qed.
#[export] Hint Extern 5 (Ignores refines _) => apply refines_ignores : typeclass_instances.

Lemma guar_keeps {A} (m : db A) : guar keeps_core m -> guar refines m.
Proof. intros Hm. exact (guar_mono _ _ m Hm keeps_refines). Qed.
#[export] Hint Extern 4 (guar refines _) => apply guar_keeps : guar.

Lemma refines_park s k u f :
  units s !! k = Some u -> parked_edge (u_state u) (u_state (f u)) ->
  same_identity u (f u) -> same_counters u (f u) -> same_lease u (f u) ->
  refines s (set_field units (<[k := f u]>) s).
Proof. intros. apply rtc_once. by apply (step_park (core s) k u (f u)). Qed.

Lemma is_waiting_edge u : is_waiting u = true -> parked_edge (u_state u) U_CANCELLED.
Proof.
  unfold is_waiting. intros [H%bool_decide_eq_true _]%andb_true_iff. by apply edge_cancel.
Qed.

Section Refines.
Context `{Host}.

Lemma refines_cancel_waiting o r n c : guar refines (cancel_waiting_units o r n c).
Proof.
  unfold cancel_waiting_units. guar.
  apply guar_update_one. intros s u Hu [_ Hw]%andb_true_iff.
  apply refines_park; [done | by apply is_waiting_edge | by repeat split..].
Qed.
Hint Resolve refines_cancel_waiting : guar.

Lemma refines_repair o r n c : guar refines (repair_exhausted_units o r n c).
Proof.
  unfold repair_exhausted_units. guar.
  apply guar_update_one. intros s u Hu [_ He]%andb_true_iff.
  unfold is_exhausted in He. rewrite !andb_true_iff in He.
  destruct He as [[Hs%bool_decide_eq_true _] _].
  apply refines_park; [done | rewrite Hs; apply edge_exhausted | by repeat split..].
Qed.
Hint Resolve refines_repair : guar.

Lemma refines_promote n c : guar refines (promote_due_retries n c).
Proof.
  unfold promote_due_retries. guar.
  apply guar_update_one. intros s u Hu [Hs%bool_decide_eq_true _]%andb_true_iff.
  apply refines_park; [done | rewrite Hs; apply edge_promote | by repeat split..].
Qed.
Hint Resolve refines_promote : guar.

Lemma refines_settle o w n b l : guar refines (settle o w n b l).
Proof.
  unfold settle, settle_exhausted, settle_attention, settle_failure_or_pause,
    settle_cancellation, waiting_unit_exists, active_unit_count, untolerated_count,
    unit_attention_count, materialization_attention_count, exhausted_pending_exists.
  guar.
Qed.
Hint Resolve refines_settle : guar.

Lemma refines_settle_workload o w n : guar refines (settle_workload o w n).
Proof. unfold settle_workload. guar. Qed.

Lemma refines_settle_after_control o w n r : guar refines (settle_after_control o w n r).
Proof. unfold settle_after_control. guar. Qed.
Hint Resolve refines_settle_after_control : guar.

Lemma refines_control o w c k v n : guar refines (control o w c k v n).
Proof. unfold control. guar. Qed.

Lemma refines_resolution o w d v k t n :
  guar refines (record_attention_resolution o w d v k t n).
Proof.
  unfold record_attention_resolution, apply_resolution, active_unit_count. guar.
Qed.
End Refines.

#[export] Hint Resolve refines_cancel_waiting refines_repair refines_promote refines_settle
  refines_settle_workload refines_settle_after_control refines_control refines_resolution : guar.

(** ** The joined lease row and the fenced pair of updates *)

Lemma joined_row_inv s o uid aid r :
  joined_row s o uid aid = Some r ->
  lr_owner r = o /\ lr_unit_id r = uid /\ units s !! (o, uid) = Some (lr_unit r) /\
  usages s !! (o, u_revision (lr_unit r)) = Some (lr_usage r) /\
  stage_of s o (lr_unit r) = Some (lr_stage r) /\
  (forall a, lr_attempt r = Some a -> attempts s !! (o, aid) = Some a /\ a_unit a = uid).
Proof.
  unfold joined_row. intros (u & Hu & H)%bind_Some. apply bind_Some in H as (rv & Hr & H).
  apply bind_Some in H as (us & Hus & H).
  apply bind_Some in H as (st & Hst & H). injection H as <-. simpl.
  split_and!; try done. intros a (a' & Ha & E)%bind_Some.
  case_match eqn:Hb; [|done]. simplify_eq. split; [done|]. by apply str_eqb_true.
Qed.

Lemma lease_row_inv s o uid aid r :
  lease_row s o uid aid = Some r ->
  lr_owner r = o /\ lr_unit_id r = uid /\ units s !! (o, uid) = Some (lr_unit r) /\
  usages s !! (o, u_revision (lr_unit r)) = Some (lr_usage r) /\
  stage_of s o (lr_unit r) = Some (lr_stage r) /\
  (forall a, lr_attempt r = Some a -> attempts s !! (o, aid) = Some a /\ a_unit a = uid).
Proof.
  unfold lease_row. intros (row & Hrow & H)%bind_Some. apply bind_Some in H as (w & _ & [= <-]).
  by apply joined_row_inv.
Qed.

Lemma post_lease_matches row lease s (Q : option (LeaseRow * Attempt) -> Store -> Prop) :
  Q None s ->
  (forall r a retry, row = Some r -> lr_attempt r = Some a ->
     from_mapping (s_retry (lr_stage r)) = Ok retry ->
     lease_matches_with r a retry lease = true -> Q (Some (r, a)) s) ->
  post (lease_matches row lease) s Q.
Proof.
  intros Hn Hs. unfold lease_matches. destruct row as [r|]; [|by apply post_ret].
  destruct (lr_attempt r) as [a|] eqn:Ha; [|by apply post_ret].
  apply post_bind, post_lift_result. intros retry Hf. apply post_ret.
  destruct (from_mapping _) as [p|[]] eqn:Hp; simplify_eq.
  destruct (lease_matches_with r a retry lease) eqn:Hm; [|done]. by eapply Hs.
Qed.

Lemma sql_eq_true o s : sql_eq o s = true <-> o = Some s.
Proof. destruct o as [t|]; simpl; [rewrite str_eqb_true|]; split; congruence. Qed.

Lemma unit_held_inv lease us u :
  unit_held lease us u = true ->
  u_active_attempt u = Some (l_attempt lease) /\ u_fence u = l_fence lease /\
  u_worker u = Some (l_worker lease) /\ u_state u ∈ us.
Proof.
  unfold unit_held. rewrite !andb_true_iff, !sql_eq_true, Z.eqb_eq, bool_decide_eq_true. tauto.
Qed.

Lemma attempt_held_inv lease asts a :
  attempt_held lease asts a = true ->
  a_unit a = l_unit lease /\ a_fence a = l_fence lease /\ a_worker a = l_worker lease /\
  a_state a ∈ asts /\ a_ended a = None.
Proof.
  unfold attempt_held.
  rewrite !andb_true_iff, !str_eqb_true, Z.eqb_eq, !bool_decide_eq_true. tauto.
Qed.

Definition core_pair (s : Store) (lease : Lease) (u : Unit) (a : Attempt) : Core :=
  mkCore (<[unit_key lease := u]> (units s)) (<[attempt_key lease := a]> (attempts s)) (results s).

Lemma post_update_pair lease asts us fa fu what s (Q : unit -> Store -> Prop) :
  (forall u a s',
     holds (core s) (unit_key lease) u (l_attempt lease) a (u_state u) (a_state a) ->
     u_state u ∈ us -> a_state a ∈ asts -> u_fence u = l_fence lease ->
     core s' = core_pair s lease (fu u) (fa a) -> Q tt s') ->
  post (update_pair lease asts us fa fu what) s Q.
Proof.
  intros HQ. unfold update_pair. apply post_bind. intros ba s1 Ha.
  apply post_bind. intros bu s2 Hu. apply post_check. intros [-> ->]%andb_true_iff.
  apply update_at_inv in Ha as [[? _]|(a & Ha & Hha & _ & ->)]; [done|].
  apply update_at_inv in Hu as [[? _]|(u & Hu & Hhu & _ & ->)]; [done|].
  apply attempt_held_inv in Hha as (H1 & H2 & H3 & H4 & H5).
  apply unit_held_inv in Hhu as (U1 & U2 & U3 & U4).
  apply (HQ u a); [|done..].
  simpl in Hu. repeat split; simpl; congruence || done.
Qed.

Lemma holds_unit s lease u aid a ust ast :
  holds (core s) (unit_key lease) u aid a ust ast ->
  units s !! (l_owner lease, l_unit lease) = Some u.
Proof. by intros [Hu _]. Qed.

Lemma post_tail {A} (m : db A) s s' :
  guar refines m -> refines s s' -> post m s' (fun _ s2 => refines s s2).
Proof. intros Hm Hs a s2 H. etrans; [exact Hs | exact (Hm s' a s2 H)]. Qed.

Lemma refines_core_step s s' c : core_step (core s) c -> core s' = c -> refines s s'.
Proof. unfold refines. intros Hs ->. by apply rtc_once. Qed.

(** Reads that cannot change the store. *)
Ltac read_steps :=
  repeat (cbv beta; unfold attempt_metrics, of_schema, of_value, require_expiry, parse_started;
          post_step).
Ltac close_refl := first [ reflexivity | apply post_ret; reflexivity ].

Section Leases.
Context `{Host}.

Lemma refines_mark_running lease now : guar refines (mark_running lease now).
Proof.
  unfold mark_running, select_lease_row. apply guar_bind; [apply _ | guar |].
  intros current. apply guar_post. intros s.
  apply post_bind, post_gets, post_bind, post_lease_matches; [close_refl|].
  intros r a retry Hrow Ha _ _. apply lease_row_inv in Hrow as (_ & _ & Hu & _).
  read_steps; try close_refl.
  apply post_update_pair. intros u a0' s' Hh Hus Has Hfe Hcore.
  apply post_tail; [guar|].
  assert (u = lr_unit r) as ->.
  { apply holds_unit in Hh. congruence. }
  eapply refines_core_step; [|exact Hcore]. apply list_elem_of_singleton in Hus, Has.
  rewrite Hus, Has in Hh. pose proof Hh as (_ & _ & Hact & _ & _ & _ & _ & Hend).
  eapply step_start; [exact Hh | eassumption | reflexivity | lia | ..];
    first [exact Hact | exact Hend | by repeat split].
Qed.

Lemma refines_extend_lease lease e n se s :
  (exists u, units s !! unit_key lease = Some u /\ u_expires u = Some se) ->
  post (extend_lease lease e n se) s (fun _ s' => refines s s').
Proof.
  intros (u0 & Hu0 & He0). unfold extend_lease. post_step. post_step. post_step.
  apply post_total. intros [] s' (u & Hu & Hok & ->)%update_one_inv.
  assert (u = u0) as -> by congruence.
  apply andb_true_iff in Hok as [(_ & _ & _ & Hs)%unit_held_inv _].
  apply post_tail; [guar|]. eapply refines_core_step; [|reflexivity].
  apply (step_extend (core s) (unit_key lease) u0 _ se e); try done; [|by repeat split..].
  by apply Z.ltb_lt.
Qed.

Lemma refines_heartbeat lease e now : guar refines (heartbeat lease e now).
Proof.
  unfold heartbeat, select_lease_row. apply guar_bind; [apply _ | guar |].
  intros current. apply guar_post. intros s.
  apply post_bind, post_lift_result. intros _ _.
  apply post_bind, post_gets, post_bind, post_lease_matches; [close_refl|].
  intros r a retry Hrow Ha _ _. apply lease_row_inv in Hrow as (_ & _ & Hu & _).
  read_steps; try close_refl; apply refines_extend_lease; eauto.
Qed.
End Leases.

Lemma holds_held s lease u a :
  holds (core s) (unit_key lease) u (l_attempt lease) a (u_state u) (a_state a) ->
  forall u' a' s', core s' = core_pair s lease u' a' ->
  release_edge (u_state u) (u_state u') -> no_lease_columns u' ->
  same_identity u u' -> same_counters u u' -> same_attempt a a' ->
  a_state a' ∈ [A_FAILED; A_TIMED_OUT; A_ABANDONED] -> is_Some (a_ended a') ->
  refines s s'.
Proof.
  intros Hh u' a' s' Hcore. intros. eapply refines_core_step; [|exact Hcore].
  by eapply step_release.
Qed.

Lemma keeps_units s s' : keeps_core s s' -> units s' = units s.
Proof. unfold keeps_core, core. congruence. Qed.

Lemma failure_edge lease policy final n s d s' :
  failure_disposition lease policy final n s = Ok (d, s') ->
  s' = s /\ release_edge U_RUNNING (ds_state d).
Proof.
  unfold failure_disposition. destruct final; simpl.
  - intros H. apply (post_bind _ _ s (fun d s' => s' = s /\ release_edge U_RUNNING (ds_state d)))
      in H; [exact H|]. apply post_lift_result. intros delay _. apply post_ret.
    split; [done|]. simpl. apply edge_executed. set_solver.
  - intros [= <- <-]. split; [done|]. apply edge_executed. set_solver.
  - intros [= <- <-]. split; [done|]. apply edge_executed. set_solver.
Qed.

Section Releases.
Context `{Host}.

Lemma refines_store_failure lease e d ast row a n :
  ast ∈ [A_FAILED; A_TIMED_OUT] -> guar refines (store_failure lease e d ast row a n).
Proof.
  intros Hast. unfold store_failure.
  repeat first [ apply guar_bind; [apply _ | solve [guar] | intros ?] ].
  apply guar_post. intros s. apply post_bind, post_total.
  intros dp s1 [-> Hedge]%failure_edge.
  apply post_bind. apply (post_guar keeps_core); [guar|]. intros metrics s2 Hk.
  apply post_bind, post_update_pair. intros u xa s' Hh Hus%list_elem_of_singleton Has Hfe Hcore.
  apply post_tail; [guar|]. apply keeps_refines in Hk. etrans; [exact Hk|].
  eapply (holds_held s2 lease u xa Hh _ _ s' Hcore); simpl; try by repeat split.
  - by rewrite Hus.
  - set_solver.
Qed.

Lemma refines_fail_attempt lease e d ast now : guar refines (fail_attempt lease e d ast now).
Proof.
  unfold fail_attempt, select_lease_row. apply guar_post. intros s.
  apply post_bind, post_check. intros Hast%bool_decide_eq_true.
  apply (post_tail _ s s); [|done]. guar.
  all: unfold lease_matches, require_expiry, deadline_reached, parse_started.
  all: guar. by apply refines_store_failure.
Qed.

Lemma refines_store_abandonment lease code row a n s :
  units s !! unit_key lease = Some (lr_unit row) ->
  post (store_abandonment lease code row a n) s (fun _ s' => refines s s').
Proof.
  intros Hu. unfold store_abandonment. apply post_bind.
  apply (post_guar keeps_core); [guar|]. intros unknown s1 Hk1.
  apply post_bind. apply (post_guar keeps_core); [guar|]. intros err s2 Hk2.
  apply post_bind. apply (post_guar keeps_core); [guar|]. intros metrics s3 Hk3.
  apply post_bind, post_update_pair. intros u xa s' Hh Hus Has Hfe Hcore.
  assert (keeps_core s s3) as Hk by (do 2 (etrans; [eassumption|]); done).
  assert (u = lr_unit row) as ->.
  { apply holds_unit in Hh. rewrite (keeps_units s s3 Hk) in Hh. unfold unit_key in Hu. congruence. }
  apply post_tail; [guar|]. apply keeps_refines in Hk. etrans; [exact Hk|].
  eapply (holds_held s3 lease _ xa Hh _ _ s' Hcore); simpl; try by repeat split.
  - list_cases Hus; rewrite Hus; simpl; repeat case_match; constructor; set_solver.
  - set_solver.
Qed.

Lemma refines_abandon lease code now : guar refines (abandon_attempt lease code now).
Proof.
  unfold abandon_attempt, select_lease_row. apply guar_bind; [apply _ | guar |]. intros _.
  apply guar_bind; [apply _ | guar |]. intros current.
  apply guar_post. intros s. apply post_bind, post_gets. post_step; [close_refl|].
  apply post_bind, post_lease_matches; [close_refl|].
  intros r a retry Hrow Ha _ _. apply lease_row_inv in Hrow as (_ & _ & Hu & _).
  post_step; [close_refl|]. post_step; [close_refl|].
  by apply refines_store_abandonment.
Qed.
End Releases.

(** A committed result is the first of its unit. *)
Lemma post_insert_result o rid r s (Q : unit -> Store -> Prop) :
  (results s !! (o, rid) = None ->
   (forall x q, results s !! x = Some q -> x.1 = o -> res_unit q <> res_unit r) ->
   Q tt (set_field results (<[(o, rid) := r]>) s)) ->
  post (insert_result o rid r) s Q.
Proof.
  intros HQ. unfold insert_result. post_step. post_step. post_step. post_step.
  match goal with H : negb _ = true |- _ => apply negb_true_iff in H; rename H into Hfree end.
  apply post_total. intros [] s' [Hnew ->]%insert_row_inv. apply HQ; [done|].
  intros [o' x] q Hq Ho Hu. simpl in Ho. subst o'.
  assert (((o, x), q) ∈ select_rows (results s) (fun k r0 =>
            str_eqb k.1 o && str_eqb (res_unit r0) (res_unit r))) as Hin.
  { apply elem_of_select_rows. split; [done|]. simpl. by rewrite Hu, !str_eqb_refl. }
  unfold exists_row in Hfree. destruct (select_rows _ _); [by apply elem_of_nil in Hin | done].
Qed.

(** A new attempt shares its fence with no other attempt of the unit. *)
Lemma post_insert_attempt o aid a s (Q : unit -> Store -> Prop) :
  (attempts s !! (o, aid) = None ->
   (forall x b, attempts s !! x = Some b -> x.1 = o -> a_unit b = a_unit a ->
                a_fence b <> a_fence a) ->
   Q tt (set_field attempts (<[(o, aid) := a]>) s)) ->
  post (insert_attempt o aid a) s Q.
Proof.
  intros HQ. unfold insert_attempt. post_step. post_step. post_step. post_step.
  match goal with H : attempt_unique _ _ _ = true |- _ => rename H into Hfree end.
  apply post_total. intros [] s' [Hnew ->]%insert_row_inv. apply HQ; [done|].
  intros [o' x] b Hb Ho Hu Hf. simpl in Ho. subst o'.
  assert (((o, x), b) ∈ select_rows (attempts s) (fun k b0 =>
            str_eqb k.1 o && str_eqb (a_unit b0) (a_unit a)
            && ((a_number b0 =? a_number a) || (a_fence b0 =? a_fence a)))) as Hin.
  { apply elem_of_select_rows. split; [done|]. simpl.
    rewrite Hu, Hf, !str_eqb_refl, Z.eqb_refl, orb_true_r. done. }
  unfold attempt_unique, exists_row in Hfree. apply negb_true_iff in Hfree.
  destruct (select_rows _ _); [by apply elem_of_nil in Hin | done].
Qed.

Section CommitClaim.
Context `{Host}.

Lemma refines_store_result lease v ids row a n : guar refines (store_result lease v ids row a n).
Proof.
  unfold store_result.
  do 7 (apply guar_bind; [apply _ | solve [guar] | intros ?]).
  apply guar_post. intros s. apply post_bind, post_insert_result. intros Hnew Hfree.
  apply post_bind. apply (post_guar keeps_core); [guar|]. intros [] s1 Hk1.
  apply post_bind. apply (post_guar keeps_core); [guar|]. intros detail s2 Hk2.
  apply post_bind, post_update_pair.
  intros u xa s' Hh Hus%list_elem_of_singleton Has%list_elem_of_singleton Hfe Hcore.
  rewrite Hus, Has in Hh.
  assert (core s2 = mkCore (units s) (attempts s) _) as Hc2
    by (rewrite Hk2, Hk1; reflexivity).
  rewrite Hc2 in Hh. apply post_tail; [guar|].
  unfold core_pair in Hcore. injection Hc2 as Hc2u Hc2a Hc2r.
  rewrite Hc2u, Hc2a, Hc2r in Hcore.
  eapply refines_core_step; [|exact Hcore].
  eapply (step_commit (core s) (unit_key lease)); eauto; try by repeat split.
Qed.

Lemma refines_commit lease v ids now : guar refines (commit_result lease v ids now).
Proof.
  unfold commit_result, select_lease_row, lease_matches, parse_started, require_expiry.
  guar; apply refines_store_result.
Qed.

Lemma refines_fence_unit row worker n e :
  u_state (cr_unit row) ∈ [U_PENDING; U_NEEDS_ATTENTION] ->
  guar refines (fence_unit row worker n e).
Proof.
  intros Hst. unfold fence_unit.
  do 3 (apply guar_bind; [apply _ | solve [guar] | intros ?]).
  apply guar_post. intros s. apply post_bind, post_insert_attempt. intros Hnew Hfresh.
  apply post_bind, post_total.
  intros [] s' (u & Hu & Hok & ->)%update_one_inv. simpl in Hu.
  rewrite !andb_true_iff, !Z.eqb_eq in Hok. destruct Hok as [[[[Hs Hc] Hf] _] _].
  apply bool_decide_eq_true in Hs.
  apply post_tail; [guar|]. eapply refines_core_step; [|reflexivity].
  eapply (step_claim (core s) (cr_owner row, cr_unit_id row) u); eauto;
    first [by rewrite Hs | by repeat split | simpl; congruence].
Qed.

Lemma claim_row_state s c n k u row :
  claim_row_of s c n k u = Some row ->
  u_state (cr_unit row) ∈ [U_PENDING; U_NEEDS_ATTENTION].
Proof.
  unfold claim_row_of. intros (r & _ & E)%bind_Some. apply bind_Some in E as (w & _ & E).
  apply bind_Some in E as (st & _ & E). case_match eqn:Hc; [|done]. injection E as <-. simpl.
  rewrite !andb_true_iff in Hc. destruct Hc as [_ Hc].
  unfold claimable in Hc. rewrite !andb_true_iff, orb_true_iff, !andb_true_iff in Hc.
  destruct Hc as [[[[[->%bool_decide_eq_true _] _]|[->%bool_decide_eq_true _]] _] _]; set_solver.
Qed.

Lemma refines_claim_next q w n d : guar refines (claim_next q w n d).
Proof.
  unfold claim_next, select_claim_row.
  do 4 (apply guar_bind; [apply _ | solve [guar] | intros ?]).
  guar_step; [|guar]. guar_step; [solve [guar]|].
  apply guar_post. intros s. apply post_bind, post_gets.
  apply post_bind, post_of_option. intros row Hrow.
  apply (post_tail _ s s); [|done].
  apply guar_bind; [apply _ | | intros; guar].
  apply refines_fence_unit.
  apply head_Some_elem_of in Hrow. rewrite elem_of_order_by in Hrow.
  apply list_elem_of_omap in Hrow as ([k u] & _ & Hrow). by eapply claim_row_state.
Qed.

(** ** Reconciliation *)

Lemma expired_row_active s n k u x :
  units s !! k = Some u -> expired_row s n k u = Some x ->
  is_active (lr_unit (er_row x)) = true.
Proof.
  intros Hk. unfold expired_row. intros (aid & _ & E)%bind_Some.
  apply bind_Some in E as (row & Hrow & E). apply bind_Some in E as (a & _ & E).
  case_match eqn:Hc; [|done]. injection E as <-. simpl.
  apply joined_row_inv in Hrow as (_ & _ & Hu & _). destruct k as [o i]. simpl in Hu.
  assert (lr_unit row = u) as -> by congruence.
  apply andb_true_iff in Hc as [_ Hl]. unfold lease_lapsed in Hl.
  by apply andb_true_iff in Hl as [Hl _].
Qed.

Lemma lost_target_edge effect policy number manual poisoned u :
  is_active u = true ->
  release_edge (u_state u)
    (lost_target effect policy number (bool_decide (u_state u = U_LEASED)) manual poisoned).
Proof.
  intros Ha%is_active_states. unfold lost_target.
  list_cases Ha; rewrite Ha; simpl; repeat case_match; constructor; set_solver.
Qed.

Lemma refines_update_lost x fa fu :
  release_edge (u_state (lr_unit (er_row x))) (u_state (fu (lr_unit (er_row x)))) ->
  (forall u u0, u_state (fu u) = u_state (fu u0)) ->
  (forall u, no_lease_columns (fu u) /\ same_identity u (fu u) /\ same_counters u (fu u)) ->
  (forall a, same_attempt a (fa a) /\ is_Some (a_ended (fa a)) /\
             a_state (fa a) ∈ [A_FAILED; A_TIMED_OUT; A_ABANDONED]) ->
  guar refines (update_lost x fa fu).
Proof.
  intros Hedge Hconst Hu Ha. unfold update_lost. apply guar_post. intros s.
  apply post_bind. intros ba s1 Hba. apply post_bind. intros bu s2 Hbu.
  apply post_check. intros [-> ->]%andb_true_iff.
  apply update_at_inv in Hba as [[? _]|(a & Hla & Hca & _ & ->)]; [done|].
  apply update_at_inv in Hbu as [[? _]|(u & Hlu & Hcu & _ & ->)]; [done|].
  rewrite !andb_true_iff, str_eqb_true, Z.eqb_eq, !bool_decide_eq_true in Hca.
  rewrite !andb_true_iff, sql_eq_true, Z.eqb_eq, bool_decide_eq_true in Hcu.
  destruct Hca as ((((A1 & A2) & A3) & A4) & A5), Hcu as (((U1 & U2) & U3) & U4).
  simpl in Hlu. eapply refines_core_step; [|reflexivity].
  destruct (Hu u) as (? & ? & ?), (Ha a) as (? & ? & ?).
  apply (step_release (core s) (lr_owner (er_row x), lr_unit_id (er_row x)) u (fu u)
           (er_attempt_id x) a (fa a) (u_state u) (a_state a)); try done.
  - unfold holds. split_and!; first [done | congruence].
  - by rewrite U1, (Hconst u (lr_unit (er_row x))).
Qed.

Lemma refines_reconcile_one n x :
  is_active (lr_unit (er_row x)) = true -> guar refines (reconcile_one n x).
Proof.
  intros Hact. unfold reconcile_one, require_expiry.
  do 5 (apply guar_bind; [apply _ | solve [guar] | intros ?]).
  apply guar_bind; [apply _ | | intros _; guar].
  apply refines_update_lost; simpl; [by apply lost_target_edge | done | by repeat split |].
  intros xa. split; [done|]. split; [done|]. case_match; set_solver.
Qed.

Lemma refines_reconcile n b : guar refines (reconcile_expired n b).
Proof.
  unfold reconcile_expired. apply guar_bind; [apply _ | guar |]. intros _.
  apply guar_bind; [apply _ | guar |]. intros possible. guar_step; [guar|].
  apply guar_post. intros s. apply post_bind, post_gets. apply (post_tail _ s s); [|done].
  apply guar_bind; [apply _ | | intros; guar].
  apply guar_collect_in; [apply _|]. intros x Hx.
  apply guar_bind; [apply _ | | intros; guar].
  apply refines_reconcile_one.
  apply elem_of_limit in Hx. rewrite elem_of_order_by in Hx.
  apply list_elem_of_omap in Hx as ([k u] & Hku%elem_of_map_to_list & Hx).
  by eapply expired_row_active.
Qed.
End CommitClaim.

#[export] Hint Resolve refines_mark_running refines_heartbeat refines_fail_attempt
  refines_abandon refines_commit refines_claim_next refines_reconcile : guar.

(** ** Admission creates units *)

Section Admit.
Context `{Host}.

Lemma refines_insert_initial_unit o r n acc stage source row :
  guar refines (insert_initial_unit o r n acc stage source row).
Proof.
  unfold insert_initial_unit, stage_id_of. guar.
  apply guar_insert_row. intros s Hnew. apply rtc_once.
  apply (step_create (core s) _ (initial_unit _ _ _ _ _));
    first [by left | by repeat split].
Qed.
Hint Resolve refines_insert_initial_unit : guar.

Lemma refines_insert_contents o r ad n : guar refines (insert_contents o r ad n).
Proof. apply (frame_insert_contents refines). intros. guar. Qed.
Hint Resolve refines_insert_contents : guar.

Lemma refines_admit o w p i t v c y ct pa uc r :
  guar refines (admit_revision o w p i t v c y ct pa uc r).
Proof. unfold admit_revision, insert_revision, seal_revision. guar. Qed.
End Admit.
#[export] Hint Resolve refines_admit : guar.

(** ** Materialization creates units and marks roots *)

Section Materialize.
Context `{Host}.

Lemma candidate_state rv revision ready n key now :
  u_state (candidate_unit rv revision ready n key now) ∈ [U_PENDING; U_NEEDS_ATTENTION; U_SKIPPED].
Proof.
  unfold candidate_unit, unavailable_state. simpl. destruct (nu_reason n); [|by left].
  destruct (_ || _); set_solver.
Qed.

Lemma refines_new_unit o rv revision ready n key now unit_id :
  guar refines (insert_unit o rv unit_id (candidate_unit rv revision ready n key now)).
Proof.
  unfold insert_unit. guar. apply guar_insert_row. intros s Hnew. apply rtc_once.
  apply (step_create (core s) _ (candidate_unit _ _ _ _ _ _));
    first [apply candidate_state | by repeat split].
Qed.

Lemma refines_mark_root o rv stage_id unit_id : guar refines (mark_root o rv stage_id unit_id).
Proof.
  unfold mark_root. guar. apply guar_update_at; [apply _|]. intros s u Hu _. apply rtc_once.
  by apply (step_touch (core s) (o, unit_id) u (u <| u_root := true |> <| u_updated := _ |>));
    repeat split.
Qed.

Lemma refines_materialize o w n : guar refines (materialize_batch o w n).
Proof. apply (frame_materialize_units refines); intros; [apply refines_new_unit | apply refines_mark_root]. Qed.
End Materialize.
#[export] Hint Resolve refines_materialize : guar.

(** ** A running attempt records its facts *)

Section Facts.
Context `{Host}.

Lemma post_open_to_facts row a n s (Q : option LeaseMutationStatus -> Store -> Prop) :
  (forall status, status <> APPLIED -> Q (Some status) s) ->
  (u_state (lr_unit row) = U_RUNNING -> a_state a = A_RUNNING -> Q None s) ->
  post (open_to_facts row a n) s Q.
Proof.
  intros Hs Hn. unfold open_to_facts, require_expiry.
  destruct (bool_decide (u_state _ = _)) eqn:E1; [|by apply post_ret, Hs].
  destruct (bool_decide (a_state _ = _)) eqn:E2; [|by apply post_ret, Hs]. simpl.
  post_step; [by apply post_ret, Hs|]. post_step. post_step. apply post_ret.
  apply bool_decide_eq_true in E1, E2. case_match; [by apply Hs | auto].
Qed.

(** The attempt a lease matched is held, and takes other columns. *)
Lemma post_record lease r (a : Attempt) policy fa e s (Q : unit -> Store -> Prop) :
  lease_row s (l_owner lease) (l_unit lease) (l_attempt lease) = Some r ->
  lr_attempt r = Some a -> lease_matches_with r a policy lease = true ->
  u_state (lr_unit r) = U_RUNNING ->
  (forall x, same_attempt x (fa x) /\ a_state (fa x) = a_state x /\ a_ended (fa x) = a_ended x) ->
  (forall s', refines s s' -> Q tt s') ->
  post (update_one attempts (attempt_key lease) (attempt_held lease [A_RUNNING]) fa e) s Q.
Proof.
  intros Hrow Ha Hm Hu Hfa HQ. apply post_total.
  intros [] s1 (x & Hx & (Hxu & Hxf & Hxw & Hxs & Hxe)%attempt_held_inv & ->)%update_one_inv.
  apply HQ. apply list_elem_of_singleton in Hxs.
  apply lease_row_inv in Hrow as (Ho & Hid & Hunit & _). unfold lease_matches_with in Hm.
  rewrite !andb_true_iff, !sql_eq_true, !Z.eqb_eq in Hm.
  destruct (Hfa x) as (Hsame & Hfs & Hfe). unfold unit_key in *.
  eapply refines_core_step; [|reflexivity].
  apply (step_record (core s) (l_owner lease, l_unit lease) (lr_unit r) (l_attempt lease) x (fa x));
    [|done|congruence..].
  unfold holds. simpl. intuition congruence.
Qed.

Lemma refines_facts lease ex mo d i n : guar refines (record_execution_facts lease ex mo d i n).
Proof.
  unfold record_execution_facts, select_lease_row.
  do 5 (apply guar_bind; [apply _ | solve [guar] | intros ?]).
  apply guar_post. intros s.
  apply post_bind, post_gets, post_bind, post_lease_matches; [close_refl|].
  intros r att retry Hrow Ha _ Hm. apply post_bind, post_open_to_facts; [intros; close_refl|].
  intros Hu _. read_steps. eapply post_record; eauto; [by repeat split | intros; apply post_tail; [guar | done]].
Qed.

Lemma refines_usage lease u n : guar refines (record_attempt_usage lease u n).
Proof.
  unfold record_attempt_usage, select_lease_row, of_usage.
  do 3 (apply guar_bind; [apply _ | solve [guar] | intros ?]).
  apply guar_post. intros s.
  apply post_bind, post_gets, post_bind, post_lease_matches; [close_refl|].
  intros r att retry Hrow Ha _ Hm. apply post_bind, post_open_to_facts; [intros; close_refl|].
  intros Hu _. read_steps; try close_refl; (eapply post_record; eauto; [by repeat split | intros; apply post_tail; [guar | done]]).
Qed.
End Facts.
#[export] Hint Resolve refines_facts refines_usage : guar.

(** ** A committed result is reused *)

Section Reuse.
Context `{Host}.

Lemma refines_attention row reason now : guar refines (require_attention row reason now).
Proof.
  unfold require_attention. guar.
  apply guar_update_one. intros s u Hu [_ He]%andb_true_iff.
  unfold untried in He. rewrite !andb_true_iff in He.
  destruct He as [[Hs%bool_decide_eq_true _] _].
  apply (refines_park s _ u (fun u => u <| u_state := U_NEEDS_ATTENTION |>
    <| u_error := Some reason |> <| u_detail := Some (terminal_detail reason) |>
    <| u_updated := now |>)); [done | simpl; rewrite Hs; apply edge_exhausted | by repeat split..].
Qed.

(** A part that keeps the three tables [c], as many times as needed. *)
Lemma post_keeps {A B} c (m : db A) (k : A -> db B) (Q : B -> Store -> Prop) :
  guar keeps_core m -> (forall a s, core s = c -> post (k a) s Q) ->
  forall s, core s = c -> post (m ≫= k) s Q.
Proof.
  intros Hm Hk s Hs. apply post_bind, (post_guar keeps_core); [done|].
  intros a s' Hs'. apply Hk. by rewrite <- Hs.
Qed.

Lemma refines_store_reuse row v now s :
  reuse_source s row -> revalidated row = Some v ->
  post (store_reuse row v now) s (fun _ s' => refines s s').
Proof.
  intros [Hres Hcount] (Hvs & Hvp & Hvd)%revalidated_inv. unfold store_reuse.
  generalize (eq_refl (core s)). generalize s at 1 3. 
  do 5 (apply post_keeps; [solve [guar] | intros ?]).
  intros s1 [= Hu1 Ha1 Hr1].
  apply post_bind, post_insert_attempt. simpl. intros Hnew Hfresh.
  apply post_bind, post_insert_result. simpl. intros Hrnew Hrfree.
  match goal with |- post _ ?s2 _ => generalize (eq_refl (core s2)); generalize s2 at 1 3 end.
  do 2 (apply post_keeps; [solve [guar] | intros ?]).
  intros s2 [= Hu2 Ha2 Hr2].
  apply post_bind, post_total.
  intros [] s' (u & Hu & Hok & ->)%update_one_inv. simpl in Hu.
  rewrite !andb_true_iff, !Z.eqb_eq in Hok. destruct Hok as [[[[_ Hs] Hc] Hf] Hact].
  apply bool_decide_eq_true in Hs, Hact.
  apply post_tail; [guar|]. rewrite Hu2, Hu1 in Hu. rewrite Ha1 in *. rewrite Hr1 in *.
  eapply refines_core_step;
    [|unfold core; simpl; rewrite Hu2, Ha2, Hr2, Hu1; reflexivity].
  apply (step_adopt (core s) (ru_owner row, ru_unit_id row) u); simpl;
    first [done | congruence | by repeat split | by eauto | eauto 10].
Qed.

Lemma refines_adopt_candidate row now s :
  reuse_source s row -> post (adopt_candidate row now) s (fun _ s' => refines s s').
Proof.
  intros [Hres Hcount]. unfold adopt_candidate.
  apply post_bind, (post_guar keeps_core); [guar|]. intros violated s1 K1.
  assert (reuse_source s1 row) as Hrow by (injection K1 as _ _ E; split; congruence).
  pose proof (keeps_refines _ _ K1) as R1. destruct violated; [apply post_tail; [guar | done]|].
  apply post_bind, post_gets. destruct (digests_conflict _).
  { apply post_tail; [apply refines_attention | done]. }
  destruct (revalidated row) as [v|] eqn:Hv; [|apply post_tail; [apply refines_attention | done]].
  apply post_bind, post_of_option. intros bound _.
  destruct (_ <? _); [apply post_tail; [apply refines_attention | done]|].
  eapply post_mono; [by apply refines_store_reuse|]. intros n s2 R2. by etrans.
Qed.

Lemma refines_adopt : guar refines adopt_next.
Proof.
  unfold adopt_next. guar_step; [solve [guar]|]. apply guar_post. intros s.
  apply post_bind, post_gets. destruct (reuse_candidate s) as [row|] eqn:Hrow; [|close_refl].
  apply reuse_candidate_inv in Hrow as [Hrow _]. apply post_bind.
  eapply post_mono; [by apply refines_adopt_candidate|]. intros n s1 R. by apply post_ret.
Qed.
End Reuse.
#[export] Hint Resolve refines_adopt : guar.

(** ** Every public operation *)

Lemma op_step_refines s s' : op_step s s' -> refines s s'.
Proof.
  destruct 1; match goal with
    | H : ?m _ = Ok (_, _) |- _ =>
        let G := fresh in assert (guar refines m) as G by guar; exact (G _ _ _ H)
    end.
Qed.

Lemma reachable_refines s s' : reachable_from s s' -> refines s s'.
Proof.
  induction 1 as [|s t u Hst _ IH]; [reflexivity|]. etrans; [by apply op_step_refines | exact IH].
Qed.
