(* ===== verification/DurableAudit.v ===== *)
(** * The store implements the audit protocol

    Every public operation moves the workloads along the declared table and
    keeps the event log and the versions in step (WorkloadProtocol.v). *)
From Stdlib Require Import Strings.String.
From S2P Require Import Prelude.
From S2P Require Import PyJson.
From S2P Require Import Instants.
From S2P Require Import DurableModels.
From S2P Require Import DurableRetry.
From S2P Require Import DurableResults.
From S2P Require Import DurableTables.
From S2P Require Import DurableOutbox.
From S2P Require Import DurableWorkflow.
From S2P Require Import DurableLeases.
From S2P Require Import DurableCompletion.
From S2P Require Import DurableAdmission.
From S2P Require Import DurableReuse.
From S2P Require Import DurableFacts.
From S2P Require Import DurableSystem.
From S2P Require Import DurableFrames.
From S2P Require Import WorkloadProtocol.
Local Open Scope Z_scope.

(** ** Operations that keep the log *)

Definition keeps_log (s s' : Store) : Prop := log s' = log s.

#[export] Instance keeps_log_preorder : PreOrder keeps_log.
Proof. split; unfold keeps_log; [done | intros ???; congruence]. Qed.

Ltac ignores_log := intros s f; reflexivity.
#[export] Instance log_ignores_ticks : Ignores keeps_log ticks. Proof. ignores_log. Qed.
#[export] Instance log_ignores_outbox : Ignores keeps_log outbox. Proof. ignores_log. Qed.
#[export] Instance log_ignores_usages : Ignores keeps_log usages. Proof. ignores_log. Qed.
#[export] Instance log_ignores_revisions : Ignores keeps_log revisions. Proof. ignores_log. Qed.
#[export] Instance log_ignores_credits : Ignores keeps_log credits. Proof. ignores_log. Qed.
#[export] Instance log_ignores_commands : Ignores keeps_log commands. Proof. ignores_log. Qed.
#[export] Instance log_ignores_resolutions : Ignores keeps_log resolutions. Proof. ignores_log. Qed.
#[export] Instance log_ignores_dependencies : Ignores keeps_log dependencies. Proof. ignores_log. Qed.
#[export] Instance log_ignores_units : Ignores keeps_log units. Proof. ignores_log. Qed.
#[export] Instance log_ignores_attempts : Ignores keeps_log attempts. Proof. ignores_log. Qed.
#[export] Instance log_ignores_results : Ignores keeps_log results. Proof. ignores_log. Qed.
#[export] Instance log_ignores_stages : Ignores keeps_log stages. Proof. ignores_log. Qed.
#[export] Instance log_ignores_placements : Ignores keeps_log placements. Proof. ignores_log. Qed.
#[export] Instance log_ignores_sources : Ignores keeps_log sources. Proof. ignores_log. Qed.
#[export] Instance log_ignores_stage_dependencies : Ignores keeps_log stage_dependencies.
Proof. ignores_log. Qed.
#[export] Instance log_ignores_unit_dependencies : Ignores keeps_log unit_dependencies.
Proof. ignores_log. Qed.
#[export] Instance log_ignores_materializations : Ignores keeps_log materializations.
Proof. ignores_log. Qed.

Definition audits (s s' : Store) : Prop := rtc log_step (log s) (log s').

#[export] Instance audits_preorder : PreOrder audits.
Proof. split; unfold audits; [intros s; apply rtc_refl | intros s t u ??; by etrans]. Qed.

Lemma keeps_audits s s' : keeps_log s s' -> audits s s'.
Proof. unfold keeps_log, audits. intros ->. apply rtc_refl. Qed.

Lemma guar_keeps_log {A} (m : db A) : guar keeps_log m -> guar audits m.
Proof. intros Hm. exact (guar_mono _ _ m Hm keeps_audits). Qed.
#[export] Hint Extern 6 (guar audits _) => apply guar_keeps_log : guar.

(** ** The two halves of a move *)

(** The flow of one workload replaced, the events kept. *)
Definition reflow (s : Store) (k : key2) (f : Flow) : Log :=
  mkLog (<[k := f]> (flow_of <$> workloads s)) (events s).

Lemma log_update_workload s k w' :
  log (set_field workloads (<[k := w']>) s) = reflow s k (flow_of w').
Proof. unfold log, reflow. simpl. by rewrite fmap_insert. Qed.

Lemma log_flow_lookup s k w :
  workloads s !! k = Some w -> lg_flow (log s) !! k = Some (flow_of w).
Proof. intros H. simpl. by rewrite lookup_fmap, H. Qed.

Section Moves.
Context `{Host}.

Lemma post_select_workload o w s (Q : Workload -> Store -> Prop) :
  (forall row, workloads s !! (o, w) = Some row -> Q row s) ->
  post (select_workload o w) s Q.
Proof.
  intros HQ. unfold select_workload. apply post_bind, post_gets, post_of_option. auto.
Qed.

(** A successful compare-and-set on the state column. *)
Lemma post_update_state o w src tgt v reason now s (Q : WorkloadRecord -> Store -> Prop) :
  (forall r row s', workloads s !! (o, w) = Some row -> w_state row = src ->
     w_version row = v -> wr_version r = v + 1 -> wr_state r = tgt ->
     log s' = reflow s (o, w) (mkFlow tgt (v + 1) (w_next_event row)) ->
     Q r s') ->
  post (update_state o w src tgt v reason now) s Q.
Proof.
  intros HQ. unfold update_state. apply post_bind.
  apply (post_guar keeps_log); [guar|]. intros time s1 H1.
  apply post_bind. apply (post_guar keeps_log); [guar|]. intros [] s2 H2.
  apply post_bind, post_total. intros [] s3 (row & Hrow & Hok & ->)%update_one_inv.
  apply andb_true_iff in Hok as [Hs%bool_decide_eq_true Hv%Z.eqb_eq].
  apply post_bind.
  apply (post_guar (fun a b => keeps_log a b /\ workloads b = workloads a)).
  { destruct (negb _).
    - apply guar_delete_at; [by split|]. intros; by split.
    - apply guar_post. intros t. apply post_bind, post_select_workload. intros row' _.
      destruct (w_active_revision row'); [|apply post_raise].
      intros [] s' (u & _ & _ & ->)%update_one_inv. by split. }
  intros [] s4 [H4 Hw4]. unfold get_workload_row. apply post_bind, post_select_workload.
  intros row4 Hrow4. apply post_ret.
  rewrite Hw4 in Hrow4. simpl in Hrow4. rewrite lookup_insert_eq in Hrow4.
  injection Hrow4 as <-.
  assert (keeps_log s s2) as H02 by (by etrans).
  assert (log s4 = reflow s2 (o, w) (mkFlow tgt (w_version row + 1) (w_next_event row))) as Hlog.
  { unfold keeps_log in H4. rewrite H4, log_update_workload. reflexivity. }
  assert (Hfl : lg_flow (log s) !! (o, w) = Some (flow_of row)).
  { rewrite <- H02. by apply log_flow_lookup. }
  simpl in Hfl. rewrite lookup_fmap in Hfl. destruct (workloads s !! (o, w)) as [row0|] eqn:E0; [|done].
  injection Hfl as E1 E2 E3.
  apply (HQ _ row0); simpl; try congruence.
  rewrite Hlog. unfold reflow. unfold keeps_log, log in H02. congruence.
Qed.

(** One event appended, the number taken from the workload. *)
Lemma post_append_event_rows o w ty p s (Q : Z -> Store -> Prop) :
  (forall row e, workloads s !! (o, w) = Some row ->
     events s !! (o, w, w_next_event row) = None -> ev_type e = ty -> ev_payload e = p ->
     Q (w_next_event row)
       (s <| workloads := <[(o, w) := row <| w_next_event := w_next_event row + 1 |>]> (workloads s) |>
          <| events := <[(o, w, w_next_event row) := e]> (events s) |>
          <| ticks := S (ticks s) |>)) ->
  post (append_event o w ty p) s Q.
Proof.
  intros HQ. unfold append_event. apply post_bind. unfold require_owner.
  destruct (_ || _); [apply post_raise|]. apply post_ret.
  unfold validate_event_payload. apply post_bind, post_bind, post_check. intros _.
  apply post_bind, post_lift_result. intros _ _. apply post_ret.
  apply post_bind, post_gets, post_bind, post_of_option. intros row Hrow.
  apply post_bind, post_total. intros [] s1 (row' & Hrow' & _ & ->)%update_one_inv.
  assert (row' = row) as -> by congruence.
  apply post_bind, post_total. intros now s2 [= <- <-].
  apply post_bind, post_total. intros [] s3 [Hnew ->]%insert_row_inv. apply post_ret.
  by apply (HQ row (mkEvent ty p (host_clock (ticks s)))).
Qed.

Lemma post_append_event o w ty p s (Q : Z -> Store -> Prop) :
  (forall f e s', lg_flow (log s) !! (o, w) = Some f ->
     lg_events (log s) !! event_at (o, w) (f_next f) = None ->
     ev_type e = ty -> ev_payload e = p ->
     log s' = mkLog (<[(o, w) := mkFlow (f_state f) (f_version f) (f_next f + 1)]>
                       (lg_flow (log s)))
                    (<[event_at (o, w) (f_next f) := e]> (lg_events (log s))) ->
     Q (f_next f) s') ->
  post (append_event o w ty p) s Q.
Proof.
  intros HQ. apply post_append_event_rows. intros row e Hrow Hnew Hty Hp.
  apply (HQ (flow_of row) e); try done.
  - by apply log_flow_lookup.
  - unfold log. simpl. by rewrite fmap_insert.
Qed.

(** Both halves make one move of the protocol. *)
Lemma audits_change s s1 s2 k row tgt e f :
  workloads s !! k = Some row -> workload_step (w_state row) tgt ->
  log s1 = reflow s k (mkFlow tgt (w_version row + 1) (w_next_event row)) ->
  lg_flow (log s1) !! k = Some f ->
  lg_events (log s1) !! event_at k (f_next f) = None ->
  accounted (w_state row) tgt (w_version row + 1) e ->
  log s2 = mkLog (<[k := mkFlow (f_state f) (f_version f) (f_next f + 1)]> (lg_flow (log s1)))
                 (<[event_at k (f_next f) := e]> (lg_events (log s1))) ->
  audits s s2.
Proof.
  intros Hrow Hstep H1 Hf Hnew Hm H2. unfold audits. rewrite H2. rewrite H1 in *. simpl in *.
  rewrite lookup_insert_eq in Hf. injection Hf as <-. simpl in *.
  rewrite insert_insert_eq. apply rtc_once.
  apply (log_move (log s) k (flow_of row) tgt e); try done. by apply log_flow_lookup.
Qed.

Lemma audits_move s s1 s2 k row tgt e f :
  workloads s !! k = Some row -> workload_step (w_state row) tgt ->
  log s1 = reflow s k (mkFlow tgt (w_version row + 1) (w_next_event row)) ->
  lg_flow (log s1) !! k = Some f ->
  lg_events (log s1) !! event_at k (f_next f) = None ->
  move_event (w_state row) tgt (ev_type e) -> records e tgt (w_version row + 1) ->
  log s2 = mkLog (<[k := mkFlow (f_state f) (f_version f) (f_next f + 1)]> (lg_flow (log s1)))
                 (<[event_at k (f_next f) := e]> (lg_events (log s1))) ->
  audits s s2.
Proof. intros Hrow Hst H1 Hf He Hm Hr H2. eapply audits_change; try eassumption. by left. Qed.
End Moves.

Lemma post_audits_tail {A} (m : db A) s s' :
  guar audits m -> audits s s' -> post m s' (fun _ s2 => audits s s2).
Proof. intros Hm Hs a s2 H. etrans; [exact Hs | exact (Hm s' a s2 H)]. Qed.

Lemma legal_edge s t :
  can_transition_workload (workload_value s) (workload_value t) = true -> workload_step s t.
Proof. rewrite can_transition_workload_value. apply bool_decide_eq_true. Qed.

Section Audits.
Context `{Host}.

(** The evidence of an automatic transition names the new version last, so
    no detail can hide it. *)
Lemma obj_get_set_eq k v kvs : obj_get k (obj_set k v kvs) = Some v.
Proof.
  induction kvs as [|[k' v'] kvs IH]; simpl; [by rewrite str_eqb_refl|].
  destruct (str_eqb k k') eqn:E; simpl; rewrite E; done.
Qed.

Lemma obj_get_set_ne k k' v kvs : k <> k' -> obj_get k (obj_set k' v kvs) = obj_get k kvs.
Proof.
  intros Hne.
  assert (forall a, k' = a -> str_eqb k a = false) as Hk by (intros a <-; by apply bool_decide_eq_false).
  induction kvs as [|[j w] kvs IH]; simpl.
  - by rewrite Hk.
  - destruct (str_eqb k' j) eqn:E; simpl.
    + apply str_eqb_true in E. by rewrite (Hk j E).
    + by rewrite IH.
Qed.

Lemma records_evidence d a b tgt v now ty :
  records (mkEvent ty (obj_update d [("reason_code", a); ("previous_state", b);
            ("new_state", JStr (workload_value tgt)); ("new_version", JInt v)]) now) tgt v.
Proof.
  split; cbn [ev_payload obj_update fold_left fst snd].
  - rewrite obj_get_set_ne by done. apply obj_get_set_eq.
  - apply obj_get_set_eq.
Qed.

Lemma records_merged d b tgt v now ty :
  records (mkEvent ty (obj_update d [("previous_state", b);
            ("new_state", JStr (workload_value tgt)); ("new_version", JInt v)]) now) tgt v.
Proof.
  split; cbn [ev_payload obj_update fold_left fst snd].
  - rewrite obj_get_set_ne by done. apply obj_get_set_eq.
  - apply obj_get_set_eq.
Qed.

Lemma audits_automatic o w row tgt c d now s :
  workloads s !! (o, w) = Some row ->
  post (automatic_transition o w row tgt c d now) s (fun _ s' => audits s s').
Proof.
  intros Hrow. unfold automatic_transition. apply post_bind, post_check.
  intros Hedge%legal_edge. apply post_bind, post_update_state.
  intros r row' s1 Hrow' Hst Hv Hrv Hrs Hlog. assert (row' = row) as -> by congruence.
  apply post_bind, post_of_option. intros ty Hty.
  apply post_bind, post_append_event. intros f e s2 Hf Hnew He Hp H2.
  apply post_audits_tail; [guar|].
  eapply audits_move; try eassumption; [left; congruence|].
  destruct e as [ety ep en]. simpl in *. subst ep. apply records_evidence.
Qed.

Lemma audits_transition o w t v p n : guar audits (transition_workload o w t v p n).
Proof.
  unfold transition_workload. do 3 (apply guar_bind; [apply _ | solve [guar] | intros ?]).
  apply guar_post. intros s. apply post_bind, post_of_option. intros ty Hty.
  apply post_bind. apply (post_guar keeps_log); [guar|]. intros _' s0 H0.
  apply post_bind. apply (post_guar keeps_log); [guar|]. intros now s1 H1.
  assert (audits s s1) as H01 by (apply keeps_audits; by etrans).
  apply post_bind, post_select_workload. intros row Hrow.
  apply post_bind, post_check. intros _. apply post_bind, post_check. intros Hedge%legal_edge.
  apply post_bind, post_update_state. intros r row' s2 Hrow' Hst Hv Hrv Hrs Hlog.
  assert (row' = row) as -> by congruence.
  apply post_bind, post_append_event. intros f e s3 Hf Hnew He Hp H3.
  apply post_audits_tail; [guar|]. etrans; [exact H01|].
  eapply audits_move; try eassumption; [congruence | left; congruence |].
  destruct e as [ety ep en]. simpl in *. subst ep. rewrite Hrv, Hv. apply records_merged.
Qed.

Lemma audits_apply_control o w c v n : guar audits (apply_control o w c v n).
Proof.
  unfold apply_control. apply guar_post. intros s.
  apply post_bind, post_select_workload. intros row Hrow.
  apply post_bind, post_check. intros Hver%Z.eqb_eq.
  apply post_bind, post_lift_result. intros [tgt|] _; [|apply post_ret; reflexivity].
  apply post_bind, post_check. intros Hedge%legal_edge.
  apply post_bind, post_update_state. intros r row' s2 Hrow' Hst Hv Hrv Hrs Hlog.
  assert (row' = row) as -> by congruence.
  apply post_bind, post_of_option. intros ty Hty.
  apply post_bind, post_append_event. intros f e s3 Hf Hnew He Hp H3.
  apply post_audits_tail; [guar|].
  eapply audits_move; try eassumption; [by rewrite <- Hver in Hlog | left; congruence |].
  destruct e as [ety ep en]. simpl in *. subst ep. rewrite Hrv, Hver. by split.
Qed.

Lemma audits_start_queued o w row n c s :
  workloads s !! (o, w) = Some row ->
  post (start_queued_workload o w row n c) s (fun _ s' => audits s s').
Proof.
  intros Hrow. unfold start_queued_workload. destruct (negb _); [apply post_ret; reflexivity|].
  apply post_bind, post_total. intros [] s1 (row' & Hrow' & Hok & ->)%update_one_inv.
  assert (row' = row) as -> by congruence.
  apply andb_true_iff in Hok as [Hs%bool_decide_eq_true _].
  apply post_bind, post_append_event. intros f e s3 Hf Hnew He Hp H3. apply post_ret.
  eapply (audits_move s _ s3 (o, w) row RUNNING e f); try eassumption.
  - rewrite Hs. unfold workload_step. simpl. set_solver.
  - apply log_update_workload.
  - left. by rewrite He.
  - destruct e as [ety ep en]. simpl in *. subst ep. by split.
Qed.

Lemma audits_create_draft o k r p b w : guar audits (create_draft o k r p b w).
Proof.
  unfold create_draft. do 8 (apply guar_bind; [apply _ | solve [guar] | intros ?]).
  apply guar_bind; [apply _ | guar | intros existing]. guar_step; [guar|].
  apply guar_bind; [apply _ | guar | intros collision].
  apply guar_bind; [apply _ | guar | intros _].
  apply guar_post. intros s. apply post_bind, post_total.
  intros [] s1 [Hnone ->]%insert_row_inv.
  apply post_bind, post_append_event. intros f e s2 Hf Hnew He Hp H2.
  apply post_audits_tail; [guar|]. unfold audits. rewrite H2, log_update_workload in *.
  simpl in *. rewrite lookup_insert_eq in Hf. injection Hf as <-. simpl in *.
  rewrite insert_insert_eq. apply rtc_once. apply (log_create (log s)); try done.
  simpl. by rewrite lookup_fmap, Hnone.
Qed.
End Audits.
#[export] Hint Resolve audits_transition audits_apply_control audits_create_draft : guar.

(** ** Settlement works on the row it selected *)

Definition keeps_rows (s s' : Store) : Prop :=
  workloads s' = workloads s /\ events s' = events s.

#[export] Instance keeps_rows_preorder : PreOrder keeps_rows.
Proof. split; unfold keeps_rows; [done | intros ???; intuition congruence]. Qed.

Ltac ignores_rows := intros s f; by split.
#[export] Instance rows_ignore_ticks : Ignores keeps_rows ticks. Proof. ignores_rows. Qed.
#[export] Instance rows_ignore_outbox : Ignores keeps_rows outbox. Proof. ignores_rows. Qed.
#[export] Instance rows_ignore_usages : Ignores keeps_rows usages. Proof. ignores_rows. Qed.
#[export] Instance rows_ignore_revisions : Ignores keeps_rows revisions. Proof. ignores_rows. Qed.
#[export] Instance rows_ignore_credits : Ignores keeps_rows credits. Proof. ignores_rows. Qed.
#[export] Instance rows_ignore_units : Ignores keeps_rows units. Proof. ignores_rows. Qed.
#[export] Instance rows_ignore_attempts : Ignores keeps_rows attempts. Proof. ignores_rows. Qed.
#[export] Instance rows_ignore_results : Ignores keeps_rows results. Proof. ignores_rows. Qed.
#[export] Instance rows_ignore_dependencies : Ignores keeps_rows dependencies.
Proof. ignores_rows. Qed.

Lemma rows_keep_log s s' : keeps_rows s s' -> keeps_log s s'.
Proof. unfold keeps_rows, keeps_log, log. intros [-> ->]. done. Qed.

(** What a transaction guarantees when it starts with [row] stored under [k]. *)
Definition on_row {A} (k : key2) (row : Workload) (m : db A) : Prop :=
  forall s, workloads s !! k = Some row -> post m s (fun _ s' => audits s s').

Lemma on_row_guar {A} k row (m : db A) : guar audits m -> on_row k row m.
Proof. intros Hm s _ a s' H. exact (Hm s a s' H). Qed.

Lemma on_row_bind {A B} k row (m : db A) (f : A -> db B) :
  guar keeps_rows m -> (forall a, on_row k row (f a)) -> on_row k row (m ≫= f).
Proof.
  intros Hm Hf s Hs. apply post_bind. apply (post_guar keeps_rows); [done|].
  intros a s1 Hk b s' H. etrans; [by apply keeps_audits, rows_keep_log|].
  apply (Hf a s1) in H; [done|]. by destruct Hk as [-> _].
Qed.

Lemma on_row_last {A B} k row (m : db A) (f : A -> db B) :
  on_row k row m -> (forall a, guar audits (f a)) -> on_row k row (m ≫= f).
Proof.
  intros Hm Hf s Hs. apply post_bind. intros a s1 H1 b s' H.
  etrans; [exact (Hm s Hs a s1 H1) | exact (Hf a s1 b s' H)].
Qed.

Lemma on_row_automatic `{Host} o w row t c d n :
  on_row (o, w) row (automatic_transition o w row t c d n).
Proof. intros s Hs. by apply audits_automatic. Qed.

Ltac row_step :=
  match goal with
  | |- on_row _ _ (automatic_transition _ _ _ _ _ _ _ ≫= _) =>
      apply on_row_last; [apply on_row_automatic | intros ?; solve [guar]]
  | |- on_row _ _ (_ ≫= _) => apply on_row_bind; [solve [guar] | intros ?]
  | |- on_row _ _ (if ?b then _ else _) => destruct b
  | |- on_row _ _ (match ?x with _ => _ end) => destruct x
  | |- on_row _ _ _ => solve [apply on_row_guar; guar | auto with guar]
  end.
Ltac rows := repeat row_step.

Section Settle.
Context `{Host}.

Lemma rows_cancel_waiting o r n c : guar keeps_rows (cancel_waiting_units o r n c).
Proof. unfold cancel_waiting_units. guar. Qed.
Lemma rows_repair o r n c : guar keeps_rows (repair_exhausted_units o r n c).
Proof. unfold repair_exhausted_units. guar. Qed.
Lemma rows_counts o r :
  guar keeps_rows (active_unit_count o r) /\ guar keeps_rows (waiting_unit_exists o r) /\
  guar keeps_rows (exhausted_pending_exists o r) /\
  guar keeps_rows (materialization_attention_count o r) /\
  guar keeps_rows (unit_attention_count o r) /\
  (forall rv, guar keeps_rows (untolerated_count o r rv)).
Proof.
  unfold active_unit_count, waiting_unit_exists, exhausted_pending_exists,
    materialization_attention_count, unit_attention_count, untolerated_count.
  split_and!; intros; guar.
Qed.
Hint Resolve rows_cancel_waiting rows_repair : guar.
Hint Extern 1 (guar keeps_rows _) => apply rows_counts : guar.

Lemma row_failure_or_pause o w r row n m e :
  on_row (o, w) row (settle_failure_or_pause o w r row n m e).
Proof. unfold settle_failure_or_pause. rows. Qed.
Hint Resolve row_failure_or_pause : guar.

Lemma row_attention o w r row n m e : on_row (o, w) row (settle_attention o w r row n m e).
Proof. unfold settle_attention. rows. Qed.
Hint Resolve row_attention : guar.

Lemma row_exhausted o w r row n m b : on_row (o, w) row (settle_exhausted o w r row n m b).
Proof. unfold settle_exhausted. rows. Qed.
Hint Resolve row_exhausted : guar.

Lemma audits_cancel_waiting o r n c : guar audits (cancel_waiting_units o r n c).
Proof.
  apply guar_keeps_log. apply (guar_mono keeps_rows); [guar|]. apply rows_keep_log.
Qed.
Hint Resolve audits_cancel_waiting : guar.

(** The accumulated reason of a cancellation is not a move. *)
Lemma audits_reason_update k ok reason n :
  guar audits (update_at workloads k ok
    (fun w => w <| w_terminal_reason := reason |> <| w_updated := n |>)).
Proof.
  apply guar_keeps_log, guar_update_at; [apply _|]. intros s w Hw _.
  unfold keeps_log. rewrite log_update_workload. unfold reflow.
  rewrite insert_id; [done|]. rewrite lookup_fmap, Hw. reflexivity.
Qed.
Hint Resolve audits_reason_update : guar.

Lemma audits_cancellation o w r row n m : guar audits (settle_cancellation o w r row n m).
Proof.
  unfold settle_cancellation, active_unit_count, waiting_unit_exists.
  apply guar_bind; [apply _ | guar | intros [c ac]].
  do 4 (apply guar_bind; [apply _ | solve [guar] | intros ?]).
  guar_step; [solve [guar]|].
  apply guar_bind; [apply _ | guar | intros aa].
  apply guar_post. intros s. apply post_bind, post_select_workload. intros row' Hrow.
  eapply on_row_last; [apply on_row_automatic | intros ?; guar | exact Hrow].
Qed.
Hint Resolve audits_cancellation : guar.

Lemma audits_settle o w n b m : guar audits (settle o w n b m).
Proof.
  unfold settle. apply guar_post. intros s. apply post_bind, post_select_workload.
  intros row Hrow. match goal with |- post ?m _ _ =>
    assert (on_row (o, w) row m) as Hm by rows; exact (Hm s Hrow) end.
Qed.
Hint Resolve audits_settle : guar.

Lemma audits_settle_workload o w n : guar audits (settle_workload o w n).
Proof. unfold settle_workload. guar. Qed.

Lemma audits_control o w c k v n : guar audits (control o w c k v n).
Proof. unfold control, settle_after_control. guar. Qed.

Lemma yields_grant_retry o w r a n :
  yields (fun t => workload_step NEEDS_ATTENTION t) (grant_retry o w r a n).
Proof.
  unfold grant_retry. repeat (apply yields_bind; intros ?). apply yields_ret.
  unfold workload_step. destruct (negb _); set_solver.
Qed.

Lemma audits_grant_retry o w r a n : guar keeps_rows (grant_retry o w r a n).
Proof. unfold grant_retry, blocked_dependency_count. guar. Qed.
Hint Resolve audits_grant_retry : guar.

Lemma audits_resolution o w d v k t n : guar audits (record_attention_resolution o w d v k t n).
Proof.
  unfold record_attention_resolution. guar. unfold apply_resolution, active_unit_count.
  apply guar_post. intros s. apply post_bind, post_select_workload. intros row Hrow.
  apply post_bind, post_check. intros _. apply post_bind, post_check.
  intros Hst%bool_decide_eq_true. apply post_bind, post_of_option. intros r _.
  apply post_bind, post_gets. apply post_bind.
  apply (post_guar_yields keeps_rows (fun t => workload_step NEEDS_ATTENTION t)).
  { destruct (str_eqb d "retry"); guar. }
  { destruct (str_eqb d "retry"); [apply yields_grant_retry|].
    apply yields_ret. unfold workload_step. set_solver. }
  intros tgt s1 Hk Hedge.
  apply post_bind, post_update_state. intros r' row' s2 Hrow' Hst' Hv Hrv Hrs Hlog.
  assert (row' = row) as -> by (destruct Hk as [Hk _]; congruence).
  apply post_bind, post_append_event. intros f e s3 Hf Hnew He Hp H3.
  apply post_audits_tail; [guar|]. etrans; [by apply keeps_audits, rows_keep_log|].
  eapply (audits_move s1 s2 s3 _ row tgt e f); try eassumption.
  - by rewrite Hst.
  - by rewrite Hv.
  - right. by rewrite Hst.
  - destruct e as [ety ep en]. simpl in *. subst ep. rewrite Hrv, Hv. by split.
Qed.
End Settle.

#[export] Hint Resolve audits_settle audits_settle_workload audits_control audits_resolution : guar.

Section AuditLeases.
Context `{Host}.

Lemma log_promote n c : guar keeps_log (promote_due_retries n c).
Proof. unfold promote_due_retries. guar. Qed.
Lemma log_update_pair l a u fa fu what : guar keeps_log (update_pair l a u fa fu what).
Proof. unfold update_pair. guar. Qed.
Lemma log_lease_matches r l : guar keeps_log (lease_matches r l).
Proof. unfold lease_matches. guar. Qed.
Lemma log_extend l e n s : guar keeps_log (extend_lease l e n s).
Proof. unfold extend_lease. guar. Qed.
Hint Resolve log_promote log_update_pair log_lease_matches log_extend : guar.

Lemma audits_mark_running l n : guar audits (mark_running l n).
Proof. unfold mark_running, select_lease_row, require_expiry. guar. Qed.

Lemma audits_heartbeat l e n : guar audits (heartbeat l e n).
Proof. unfold heartbeat, select_lease_row, require_expiry, parse_started. guar. Qed.

Lemma audits_commit l v d n : guar audits (commit_result l v d n).
Proof.
  unfold commit_result, select_lease_row, parse_started, require_expiry, store_result,
    insert_result. guar.
Qed.

Lemma audits_fail l e d t n : guar audits (fail_attempt l e d t n).
Proof.
  unfold fail_attempt, select_lease_row, parse_started, require_expiry, deadline_reached,
    parse_started, store_failure, failure_disposition. guar.
Qed.

Lemma audits_abandon l c n : guar audits (abandon_attempt l c n).
Proof. unfold abandon_attempt, select_lease_row, store_abandonment. guar. Qed.

Lemma audits_reconcile n b : guar audits (reconcile_expired n b).
Proof.
  unfold reconcile_expired, reconcile_one, require_expiry, update_lost. guar.
Qed.

Lemma audits_fence_unit row w n e s :
  workloads s !! (cr_owner row, r_workload (cr_revision row)) = Some (cr_workload row) ->
  post (fence_unit row w n e) s (fun _ s' => audits s s').
Proof.
  intros Hrow. match goal with |- post ?m _ _ =>
    assert (on_row (cr_owner row, r_workload (cr_revision row)) (cr_workload row) m) as Hm;
      [|exact (Hm s Hrow)] end.
  unfold fence_unit, insert_attempt.
  do 6 (apply on_row_bind; [solve [guar] | intros ?]).
  apply on_row_last; [|intros _; guar]. intros t Ht. by apply audits_start_queued.
Qed.

Lemma audits_claim q w n d : guar audits (claim_next q w n d).
Proof.
  unfold claim_next, select_claim_row.
  do 4 (apply guar_bind; [apply _ | solve [guar] | intros ?]).
  guar_step; [|guar]. guar_step.
  - apply guar_post. intros s. apply post_bind, post_select_workload. intros row Hrow.
    eapply on_row_last; [apply on_row_automatic | intros ?; guar | exact Hrow].
  - apply guar_post. intros s. apply post_bind, post_gets.
    apply post_bind, post_of_option. intros row Hrow.
    apply post_bind. eapply post_mono; [apply audits_fence_unit |].
    + apply head_Some_elem_of in Hrow. rewrite elem_of_order_by in Hrow.
      apply list_elem_of_omap in Hrow as ([k u] & _ & Hrow).
      unfold claim_row_of in Hrow. apply bind_Some in Hrow as (r & _ & E).
      apply bind_Some in E as (wl & Hw & E). apply bind_Some in E as (st & _ & E).
      case_match; [|done]. by injection E as <-.
    + intros lease s1 H1. by apply post_ret.
Qed.

Lemma audits_facts l e m d i n : guar audits (record_execution_facts l e m d i n).
Proof. unfold record_execution_facts, select_lease_row. guar. Qed.
Lemma audits_usage l u n : guar audits (record_attempt_usage l u n).
Proof. unfold record_attempt_usage, select_lease_row, of_usage. guar. Qed.

Lemma row_attention_of row reason n :
  on_row (ru_owner row, ru_workload_id row) (ru_workload row) (require_attention row reason n).
Proof. apply on_row_guar. unfold require_attention. guar. Qed.

Lemma row_store_reuse row v n :
  on_row (ru_owner row, ru_workload_id row) (ru_workload row) (store_reuse row v n).
Proof.
  unfold store_reuse, insert_attempt, insert_result.
  repeat (apply on_row_bind; [solve [guar] | intros ?]).
  apply on_row_last; [|intros _; guar]. intros t Ht. by apply audits_start_queued.
Qed.

Lemma row_adopt row n :
  on_row (ru_owner row, ru_workload_id row) (ru_workload row) (adopt_candidate row n).
Proof.
  unfold adopt_candidate. pose proof row_attention_of. pose proof row_store_reuse. rows.
Qed.

Lemma audits_adopt : guar audits adopt_next.
Proof.
  unfold adopt_next. guar_step; [solve [guar]|]. apply guar_post. intros s.
  apply post_bind, post_gets. destruct (reuse_candidate s) as [row|] eqn:Hrow;
    [|apply post_ret; reflexivity].
  apply reuse_candidate_inv in Hrow as [_ Hrow]. apply post_bind.
  eapply post_mono; [by apply row_adopt|]. intros k s1 R. by apply post_ret.
Qed.
End AuditLeases.

#[export] Hint Resolve audits_facts audits_usage audits_adopt audits_mark_running audits_heartbeat audits_commit audits_fail
  audits_abandon audits_reconcile audits_claim : guar.

Section AuditCompletion.
Context `{Host}.

(** The event first, the state after it: together one change of state. *)
Lemma audits_complete_workload o w r v n t e p :
  completed t -> obj_get "target_state" p = Some (JStr (workload_value t)) ->
  guar audits (complete_workload o w r v n t e p).
Proof.
  intros Ht Hp. unfold complete_workload. apply guar_post. intros s.
  apply post_bind, post_append_event. intros f ev s1 Hf Hnew Hty Hpay H1.
  apply post_bind. apply (post_guar keeps_log); [guar|]. intros _ s2 H2.
  apply post_bind. apply (post_guar keeps_log); [guar|]. intros _ s3 H3.
  apply post_bind, post_total. intros [] s4 (row & Hrow & Hok & ->)%update_one_inv.
  apply andb_true_iff in Hok as [Hst%bool_decide_eq_true _].
  apply post_audits_tail; [guar|].
  assert (log s3 = log s1) as E by (unfold keeps_log in *; congruence).
  pose proof (log_flow_lookup _ _ _ Hrow) as Hflow. rewrite E, H1 in Hflow. simpl in Hflow.
  rewrite lookup_insert_eq in Hflow. injection Hflow as E1 E2 E3.
  assert (flow_of <$> workloads s3 = lg_flow (log s1)) as Ew by (by rewrite <- E).
  assert (events s3 = lg_events (log s1)) as Ee by (by rewrite <- E).
  unfold audits. rewrite log_update_workload. unfold reflow. rewrite Ew, Ee.
  rewrite H1. simpl. rewrite insert_insert_eq. apply rtc_once.
  unfold flow_of. simpl. rewrite <- E2, <- E3. apply (log_move (log s) (o, w) f t ev); try done.
  - rewrite E1, Hst. unfold completed in Ht. unfold workload_step. simpl. set_solver.
  - right. left. split; [done|]. split; congruence.
Qed.
Hint Resolve audits_complete_workload : guar.

Lemma audits_completion o w n : guar audits (evaluate_completion o w n).
Proof.
  unfold evaluate_completion.
  do 4 (apply guar_bind; [apply _ | solve [guar] | intros ?]). guar_step; [guar|].
  case_match; [|guar]. apply guar_bind; [apply _ | solve [guar] | intros found].
  case_match; [|guar]. apply guar_bind; [apply _ | solve [guar] | intros reasons].
  guar_step; [guar|]. apply guar_bind; [apply _ | solve [guar] | intros s1].
  apply guar_bind; [apply _ | | intros; guar].
  apply audits_complete_workload; [|done]. unfold completed. case_match; set_solver.
Qed.
End AuditCompletion.
#[export] Hint Resolve audits_completion : guar.

Section AuditAdmission.
Context `{Host}.

Lemma log_insert_contents o r ad n : guar keeps_log (insert_contents o r ad n).
Proof.
  apply frame_insert_contents; try apply _. intros acc stage source row.
  unfold insert_initial_unit, stage_id_of. guar.
Qed.
Hint Resolve log_insert_contents : guar.

(** The state first, then the event of the admission. *)
Lemma audits_seal_revision o w r n v s (Q : unit -> Store -> Prop) :
  (forall row s', workloads s !! (o, w) = Some row -> w_state row = DRAFT -> w_version row = v ->
     log s' = reflow s (o, w) (mkFlow ADMITTED (v + 1) (w_next_event row)) -> Q tt s') ->
  post (seal_revision o w r n v) s Q.
Proof.
  intros HQ. unfold seal_revision.
  apply post_bind, post_total. intros [] s1 (rv & _ & _ & ->)%update_one_inv.
  apply post_total. intros [] s2 (row & Hrow & Hok & ->)%update_one_inv.
  apply andb_true_iff in Hok as [Hv%Z.eqb_eq Hs%bool_decide_eq_true].
  apply (HQ row); try done. rewrite log_update_workload. unfold flow_of. simpl. by rewrite Hv.
Qed.

Lemma audits_insert_revision o w r ad n v row :
  guar audits (insert_revision o w r ad n v row).
Proof.
  unfold insert_revision. do 8 (apply guar_bind; [apply _ | solve [guar] | intros ?]).
  apply guar_post. intros s. apply post_bind, audits_seal_revision.
  intros row' s1 Hrow Hs Hv Hlog.
  apply post_bind, post_append_event. intros f e s2 Hf Hnew He Hp H2.
  apply post_audits_tail; [guar|].
  eapply (audits_change s s1 s2 (o, w) row' ADMITTED e f); try eassumption.
  - rewrite Hs. unfold workload_step. simpl. set_solver.
  - by rewrite Hv.
  - right. right. split; [done|]. unfold new_version_is. rewrite Hp, Hv. reflexivity.
Qed.
Hint Resolve audits_insert_revision : guar.

Lemma audits_admit o w p i t v c y ct pa uc r :
  guar audits (admit_revision o w p i t v c y ct pa uc r).
Proof. unfold admit_revision. guar. Qed.
End AuditAdmission.
#[export] Hint Resolve audits_admit : guar.

Lemma op_step_audits s s' : op_step s s' -> audits s s'.
Proof.
  destruct 1; match goal with
    | H : ?m _ = Ok (_, _) |- _ =>
        let G := fresh in assert (guar audits m) as G by guar; exact (G _ _ _ H)
    end.
Qed.

Lemma reachable_audits s s' : reachable_from s s' -> audits s s'.
Proof.
  induction 1 as [|s t u Hst _ IH]; [reflexivity|]. etrans; [by apply op_step_audits | exact IH].
Qed.
