(* ===== verification/DurableFixture.v ===== *)
(** * A concrete database for the witnesses

    One owner, one queued workload with one admitted revision, a pure stage
    and a pending unit, run under a host with a constant clock. *)
From Stdlib Require Import Strings.String.
From S2P Require Import Prelude.
From S2P Require Import PyJson.
From S2P Require Import Instants.
From S2P Require Import DurableModels.
From S2P Require Import DurableRetry.
From S2P Require Import DurableResults.
From S2P Require Import DurableTables.
From S2P Require Import DurableOutbox.
From S2P Require Import DurableWorkflow.
From S2P Require Import DurableLeases.
Local Open Scope Z_scope.

Definition T0 : Z := 1767225600000000.

(** The identifiers differ at every reading; [julianday] is exact here. *)
Definition demo_host : Host := {|
  host_clock := fun _ => T0;
  host_uuid := fun n => "0123456789abcdef" +:+ String (chr (97 + Z.of_nat n)) EmptyString;
  julian_after := fun a b => b + 5 * second <? a;
  julian_reached := fun now start bound => bound * second <=? now - start |}.

Definition demo_budgets : json :=
  JObj [("max_bytes_read", JInt 1000); ("max_bytes_written", JInt 1000);
        ("max_tokens", JInt 0); ("max_cost_micros", JInt 0); ("max_artifacts", JInt 4);
        ("max_wall_time_s", JInt 3600); ("max_concurrency", JInt 2)].

Definition demo_policy : RetryPolicy := {|
  max_attempts := 3; base_delay_ms := 1000; max_delay_ms := 60000;
  retryable_error_classes := ["executor_transient"] |}.

Definition demo_workload : Workload :=
  mkWorkload "request-1" "sha256:0" [] QUEUED "normal" [] (Some "revision-1") 3 4 T0 T0 None.
Definition demo_revision : Revision :=
  mkRevision "workload-1" [("budgets", demo_budgets)] [] false "strict" [] 0
    true (Some "sha256:1") 0 false false [] 1 "sha256:2" [] None T0 (Some T0).
Definition demo_usage : Usage := mkUsage 0 0 0 0 0 false 0 None None T0.
Definition demo_stage : Stage :=
  mkStage "revision-1" "map" R_INTERNAL "sealed_inventory" PURE
    [("name", JStr "metnos.entries/1")] (policy_mapping demo_policy) 60
    (Build_resources 1 0 0 0 0 0) None "map" "singleton" true
    1 1 [] ["source.digest"] "sha256:3" None None T0.
Definition demo_unit : Unit :=
  mkUnit "revision-1" "stage-01" "unit-key-1" U_PENDING 0 0 None None None 0 None None None
    false None T0 T0 0 0 None None None None false.

Definition demo_store : Store :=
  empty_store <| workloads := {[ ("alice", "workload-1") := demo_workload ]} |>
              <| revisions := {[ ("alice", "revision-1") := demo_revision ]} |>
              <| usages := {[ ("alice", "revision-1") := demo_usage ]} |>
              <| stages := {[ ("alice", "stage-01") := demo_stage ]} |>
              <| units := {[ ("alice", "unit-0001") := demo_unit ]} |>.

Definition demo_candidate : Store -> option Candidate := fun _ =>
  Some (mkCandidate "alice" "workload-1" "revision-1" "stage-01" None 0 0).

(** The value and the store of a committed run; the empty store otherwise. *)
Definition value_of {A} (r : result store_error (A * Store)) : option A :=
  match r with Ok (a, _) => Some a | Err _ => None end.
Definition store_of {A} (r : result store_error (A * Store)) : Store :=
  match r with Ok (_, s) => s | Err _ => empty_store end.
Definition error_of {A} (r : result store_error (A * Store)) : option store_error :=
  match r with Ok _ => None | Err e => Some e end.

Definition demo_claim : db (option Lease) :=
  @claim_next demo_host demo_candidate "worker-1" T0 (60 * second).

Definition demo_leased : Store := store_of (demo_claim demo_store).

Definition no_lease : Lease := {|
  l_owner := ""; l_workload := ""; l_revision := ""; l_stage := ""; l_stage_key := "";
  l_unit := ""; l_unit_key := ""; l_attempt := ""; l_attempt_number := 0; l_fence := 0;
  l_worker := ""; l_expires := 0; l_runner_kind := R_INTERNAL; l_runner_name := "";
  l_effect := PURE; l_output_schema := ""; l_resources := Build_resources 0 0 0 0 0 0;
  l_retry := demo_policy; l_timeout_s := 0; l_manual_retry := false |}.

Definition demo_lease : Lease :=
  match value_of (demo_claim demo_store) with
  | Some (Some l) => l
  | _ => no_lease
  end.

Definition demo_running : Store :=
  store_of (@mark_running demo_host demo_lease (Some (T0 + second)) demo_leased).

Definition demo_result : ValidatedResult :=
  match from_payload "metnos.entries/1" [("entries", JArr [])] with
  | Ok v => v
  | Err _ => mkValidatedResult "" [] ""
  end.

Definition demo_commit (now : Z) : db CommitOutcome :=
  @commit_result demo_host demo_lease demo_result [] (Some now).

Definition demo_committed : Store := store_of (demo_commit (T0 + 2 * second) demo_running).
