(* ===== verification/LeaseGuarantees.v ===== *)
(** * What the store guarantees about leases and results

    The claims a worker, a recovery daemon or an owner may rely on, over every
    sequence of public operations: exclusive execution, fences that are never
    reused, results that are committed once and for ever. *)
From Stdlib Require Import Strings.String.
From S2P Require Import Prelude.
From S2P Require Import PyJson.
From S2P Require Import Instants.
From S2P Require Import DurableModels.
From S2P Require Import DurableRetry.
From S2P Require Import DurableResults.
From S2P Require Import DurableTables.
From S2P Require Import DurableOutbox.
From S2P Require Import DurableWorkflow.
From S2P Require Import DurableLeases.
From S2P Require Import DurableSystem.
From S2P Require Import DurableFrames.
From S2P Require Import LeaseProtocol.
From S2P Require Import DurableRefinement.
From S2P Require Import DurableFixture.
Local Open Scope Z_scope.

(** ** The invariant on stores *)

Definition store_inv (s : Store) : Prop := core_inv (core s).

Lemma reachable_inv s s' : store_inv s -> reachable_from s s' -> store_inv s'.
Proof. intros Hi Hr. eapply core_steps_inv; [by apply reachable_refines | exact Hi]. Qed.

Lemma reachable_evolves s s' : reachable_from s s' -> core_evolves (core s) (core s').
Proof. intros Hr. by apply core_steps_evolve, reachable_refines. Qed.

Lemma demo_inv : store_inv demo_store.
Proof.
  split; simpl.
  - intros k u [<- <-]%lookup_singleton_Some.
    split; try done; simpl. split; [done | by intros []].
  - done.
  - done.
  - done.
Qed.

(** Closed runs of the fixture. *)
Lemma demo_claim_runs : demo_claim demo_store = Ok (Some demo_lease, demo_leased).
Proof. vm_compute. reflexivity. Qed.

Lemma demo_claim_step : op_step demo_store demo_leased.
Proof. exact (op_claim _ _ _ _ _ _ _ _ demo_claim_runs). Qed.

Lemma demo_mark_runs :
  @mark_running demo_host demo_lease (Some (T0 + second)) demo_leased = Ok (APPLIED, demo_running).
Proof. vm_compute. reflexivity. Qed.

Lemma demo_mark_step : op_step demo_leased demo_running.
Proof. exact (op_mark _ _ _ _ _ _ demo_mark_runs). Qed.

Lemma demo_running_reachable : reachable_from demo_store demo_running.
Proof. eapply rtc_l; [exact demo_claim_step|]. apply rtc_once, demo_mark_step. Qed.

Lemma demo_running_fence :
  u_fence <$> units demo_running !! (l_owner demo_lease, l_unit demo_lease) = Some 1.
Proof. vm_compute. reflexivity. Qed.

Lemma demo_running_stages : stages demo_running = {[ ("alice", "stage-01") := demo_stage ]}.
Proof. vm_compute. reflexivity. Qed.

(** ** Existing results decide a commit *)

Lemma at_most_one_result s x y q r :
  store_inv s -> results s !! x = Some q -> results s !! y = Some r ->
  x.1 = y.1 -> res_unit q = res_unit r -> x = y.
Proof.
  intros Hi Hx Hy Ho Hu. destruct (ci_result _ Hi x q Hx) as (u & Hlu & [Hru _]).
  destruct (ci_result _ Hi y r Hy) as (v & Hlv & [Hrv _]).
  assert (u = v) as -> by congruence. destruct x, y; simpl in *. congruence.
Qed.

Lemma select_result s owner unit_id rid r :
  store_inv s -> results s !! (owner, rid) = Some r -> res_unit r = unit_id ->
  head (select_rows (results s) (fun k q => str_eqb k.1 owner && str_eqb (res_unit q) unit_id))
  = Some ((owner, rid), r).
Proof.
  intros Hi Hr Hu.
  assert (((owner, rid), r) ∈ select_rows (results s) (fun k q =>
            str_eqb k.1 owner && str_eqb (res_unit q) unit_id)) as Hin.
  { apply elem_of_select_rows. split; [done|]. simpl. by rewrite Hu, !str_eqb_refl. }
  destruct (select_rows _ _) as [|[y q] rest] eqn:E; [by apply elem_of_nil in Hin|]. simpl.
  assert ((y, q) ∈ select_rows (results s) (fun k q0 =>
            str_eqb k.1 owner && str_eqb (res_unit q0) unit_id)) as Hq by (rewrite E; left).
  apply elem_of_select_rows in Hq as [Hq Hp]. apply andb_true_iff in Hp as [H1 H2].
  apply str_eqb_true in H1, H2. simpl in H1.
  assert (y = (owner, rid)) as -> by (eapply at_most_one_result; eauto; congruence).
  congruence.
Qed.

(** The identifiers a caller passes for the dependencies of a result. *)
Definition dependency_ids_ok (ids : list string) : bool :=
  forallb id_re ids && bool_decide (NoDup ids).

(** With its result stored, a unit answers every further commit from it. *)
Lemma commit_existing `{Host} lease v ids t s rid r :
  store_inv s -> results s !! (l_owner lease, rid) = Some r -> res_unit r = l_unit lease ->
  dependency_ids_ok ids = true ->
  commit_result lease v ids (Some t) s = Ok (existing_verdict lease v rid r, s).
Proof.
  intros Hi Hr Hu Hids. unfold commit_result. unfold dependency_ids_ok in Hids.
  unfold mbind, txn_bind, check, select_lease_row, gets, mret, txn_ret. rewrite Hids. simpl.
  by rewrite (select_result s _ _ rid r Hi Hr Hu).
Qed.

(** ** A superseded fence *)

(** Every stored retry column parses: what admission establishes. *)
Definition retry_columns_ok (s : Store) : Prop :=
  forall k st, stages s !! k = Some st -> exists p, from_mapping (s_retry st) = Ok p.

(** The unit of the lease, if it is still there, has moved to another fence. *)
Definition superseded (lease : Lease) (s : Store) : Prop :=
  forall u, units s !! unit_key lease = Some u -> u_fence u <> l_fence lease.

Lemma stage_of_inv s o u st :
  stage_of s o u = Some st -> stages s !! (o, u_stage u) = Some st /\ s_revision st = u_revision u.
Proof.
  unfold stage_of. intros (st' & Hst & E)%bind_Some. destruct (str_eqb _ _) eqn:Hb; [|done].
  injection E as <-. split; [done|]. by apply str_eqb_true.
Qed.

Definition row_of_lease (s : Store) (lease : Lease) : option LeaseRow :=
  lease_row s (l_owner lease) (l_unit lease) (l_attempt lease).

Lemma lease_duration_ok d : 0 < d <= MAX_LEASE_DURATION -> require_lease_duration d = Ok d.
Proof.
  intros [H1 H2]. unfold require_lease_duration.
  by rewrite (proj2 (Z.leb_gt d 0) H1), (proj2 (Z.ltb_ge _ _) H2).
Qed.

Lemma stale_match lease s :
  retry_columns_ok s -> superseded lease s ->
  lease_matches (row_of_lease s lease) lease s = Ok (None, s).
Proof.
  intros Hok Hsup. unfold row_of_lease, lease_matches.
  destruct (lease_row _ _ _ _) as [row|] eqn:Hrow; [|done].
  destruct (lr_attempt row) as [a|]; [|done].
  apply lease_row_inv in Hrow as (_ & _ & Hu & _ & Hst & _).
  apply stage_of_inv in Hst as [Hst _]. destruct (Hok _ _ Hst) as [p Hp].
  unfold mbind, txn_bind, of_value, lift_result. rewrite Hp. unfold lease_matches_with.
  assert ((u_fence (lr_unit row) =? l_fence lease) = false) as ->.
  { apply Z.eqb_neq, Hsup. exact Hu. }
  by rewrite !andb_false_r.
Qed.

Lemma demo_running_policies : retry_columns_ok demo_running.
Proof.
  intros k st. rewrite demo_running_stages. intros [<- <-]%lookup_singleton_Some.
  exists demo_policy. vm_compute. reflexivity.
Qed.

(** The lease of the fixture with a fence its unit no longer has. *)
Definition demo_stale : Lease := demo_lease <| l_fence := 7 |>.

Lemma demo_stale_superseded : superseded demo_stale demo_running.
Proof.
  intros u Hu E. pose proof demo_running_fence as Hf.
  assert (units demo_running !! (l_owner demo_lease, l_unit demo_lease) = Some u) as Hu'
    by exact Hu.
  rewrite Hu' in Hf. simpl in E. apply (inj Some) in Hf. lia.
Qed.

(** ** The commit, symbolically *)

Record commit_facts (lease : Lease) (v : ValidatedResult) (current : Z) (s : Store)
    (rid : string) (r : Result) (u : Unit) (a : Attempt) : Prop := {
  cf_holds : holds (core s) (unit_key lease) u (l_attempt lease) a U_RUNNING A_RUNNING;
  cf_fence : u_fence u = l_fence lease;
  cf_worker : u_worker u = Some (l_worker lease);
  cf_expiry : exists e, u_expires u = Some e /\ current < e;
  cf_deadline : exists text t, started_text a = Some text /\ parse_instant text = Some t /\
                               current < t + timeout lease;
  cf_first : forall x q, results s !! x = Some q -> x.1 = l_owner lease ->
                         res_unit q <> l_unit lease;
  cf_result : res_unit r = l_unit lease /\ res_attempt r = l_attempt lease /\
              res_fence r = l_fence lease /\ res_digest r = vr_digest v /\
              res_payload r = vr_payload v }.

Definition instant_of `{Host} (now : option Z) (s : Store) : Z :=
  default (host_clock (ticks s)) now.

Section Commit.
Context `{Host}.

Lemma post_operation_now now s (Q : Z -> Store -> Prop) :
  (forall s', keeps_core s s' -> Q (instant_of now s) s') ->
  post (operation_now now) s Q.
Proof.
  intros HQ. unfold operation_now. destruct now as [t|].
  - apply post_ret. by apply HQ.
  - apply post_total. intros t s' [= <- <-]. by apply HQ.
Qed.

Lemma keeps_cores s t : keeps_core s t ->
  units t = units s /\ attempts t = attempts s /\ results t = results s.
Proof. unfold keeps_core, core. intros E. by injection E. Qed.

(** The writes of a commit, from a store where the lease was accepted. *)
Lemma post_store_result lease v ids row a0 n s (Q : CommitOutcome -> Store -> Prop) :
  (forall rid r u a s1 s' terminal,
     holds (core s) (unit_key lease) u (l_attempt lease) a U_RUNNING A_RUNNING ->
     u_fence u = l_fence lease -> u_worker u = Some (l_worker lease) ->
     (forall x q, results s !! x = Some q -> x.1 = l_owner lease -> res_unit q <> l_unit lease) ->
     res_unit r = l_unit lease -> res_attempt r = l_attempt lease ->
     res_fence r = l_fence lease -> res_digest r = vr_digest v -> res_payload r = vr_payload v ->
     (exists u1, units s1 !! unit_key lease = Some u1 /\ u_state u1 = U_COMMITTED /\
                 u_result u1 = Some rid) ->
     results s1 !! (l_owner lease, rid) = Some r ->
     refines s1 s' ->
     Q (mkCommitOutcome C_COMMITTED (Some rid) (Some (vr_digest v)) (vr_digest v) terminal) s') ->
  post (store_result lease v ids row a0 n) s Q.
Proof.
  intros HQ. unfold store_result.
  apply post_bind. apply (post_guar keeps_core); [guar|]. intros [] s1 H1.
  apply post_bind. apply (post_guar keeps_core); [guar|]. intros planned s2 H2.
  apply post_bind. apply (post_guar keeps_core); [guar|]. intros [] s3 H3.
  apply post_bind. apply (post_guar keeps_core); [guar|]. intros [] s4 H4.
  apply post_bind. apply (post_guar keeps_core); [guar|]. intros metrics s5 H5.
  apply post_bind. apply (post_guar keeps_core); [guar|]. intros rid s6 H6.
  apply post_bind. apply (post_guar keeps_core); [guar|]. intros provenance s7 H7.
  assert (keeps_core s s7) as H07 by (do 6 (etrans; [eassumption|]); done).
  apply keeps_cores in H07 as (Eu & Ea & Er). clear H1 H2 H3 H4 H5 H6 H7.
  apply post_bind, post_insert_result. intros Hnew Hfree.
  set (r := mkResult _ _ _ _ _ _ _ _ _) in *.
  apply post_bind. apply (post_guar keeps_core); [guar|]. intros [] s8 H8.
  apply post_bind. apply (post_guar keeps_core); [guar|]. intros detail s9 H9.
  assert (keeps_core (set_field results <[(l_owner lease, rid):=r]> s7) s9) as H79 by (by etrans).
  apply keeps_cores in H79 as (Eu9 & Ea9 & Er9). simpl in Eu9, Ea9, Er9. clear H8 H9.
  apply post_bind. unfold update_pair. apply post_bind. intros ba s10 Hba.
  apply post_bind. intros bu s11 Hbu. apply post_check. intros [-> ->]%andb_true_iff.
  apply update_at_inv in Hba as [[? _]|(a & Ha & Hha & _ & ->)]; [done|].
  apply update_at_inv in Hbu as [[? _]|(u & Hu & Hhu & _ & ->)]; [done|].
  apply attempt_held_inv in Hha as (A1 & A2 & A3 & A4%list_elem_of_singleton & A5).
  apply unit_held_inv in Hhu as (U1 & U2 & U3 & U4%list_elem_of_singleton). simpl in Hu.
  apply post_bind. apply (post_guar refines); [guar|]. intros [wr n0] s12 H12.
  apply post_bind, post_gets, post_ret.
  eapply (HQ rid r u a); try done.
  - unfold holds. simpl. rewrite <- Eu, <- Eu9, <- Ea, <- Ea9.
    split_and!; try done. congruence.
  - rewrite <- Er. exact Hfree.
  - eexists. simpl. rewrite lookup_insert_eq. split; [reflexivity|]. by split.
  - simpl. by rewrite Er9, lookup_insert_eq.
Qed.

Lemma post_commit lease v ids now s :
  post (commit_result lease v ids now) s (fun o s' =>
    co_status o = C_COMMITTED ->
    exists rid r u a, commit_facts lease v (instant_of now s) s rid r u a /\
      co_result o = Some rid /\ results s' !! (l_owner lease, rid) = Some r /\
      exists u', units s' !! unit_key lease = Some u' /\ u_state u' = U_COMMITTED /\
                 u_result u' = Some rid).
Proof.
  unfold commit_result, select_lease_row. apply post_bind, post_check. intros _.
  apply post_bind, post_operation_now. intros s0 (Eu & Ea & Er)%keeps_cores.
  apply post_bind, post_gets. apply post_bind, post_gets.
  post_step; [destruct p as [k q]; apply post_ret; unfold existing_verdict; simpl;
              repeat case_match; done|].
  apply post_bind, post_lease_matches; [by apply post_ret|].
  intros row a retry Hrow Ha _ _. apply lease_row_inv in Hrow as (_ & _ & Hu & _ & _ & Hat).
  destruct (Hat a Ha) as [Hla _].
  post_step; [by apply post_ret|].
  destruct (started_text a) as [text|] eqn:Htext; [|by apply post_ret].
  unfold parse_started. apply post_bind, post_of_option. intros started Hstart.
  post_step; [by apply post_ret|]. unfold require_expiry.
  apply post_bind, post_of_option. intros e He. post_step; [by apply post_ret|].
  apply post_store_result.
  intros rid r u a' s1 s' terminal Hh Hf Hw Hfree R1 R2 R3 R4 R5 (u1 & Hu1 & S1 & S2) Hr1 Href _.
  pose proof Hh as (Hhu & Hha & Hact & Hst & _). simpl in Hhu, Hha. unfold unit_key in Hhu.
  assert (u = lr_unit row) as -> by congruence. assert (a' = a) as -> by congruence.
  apply core_steps_evolve in Href. exists rid, r, (lr_unit row), a.
  split; [split; try done|].
  - unfold holds in *. simpl in *. by rewrite <- Eu, <- Ea.
  - exists e. split; [done|]. by apply Z.leb_gt.
  - exists text, started. split_and!; [done | done |]. by apply Z.leb_gt.
  - by rewrite <- Er.
  - split; [done|]. split.
    + eapply (lookup_weaken _ _ _ _ Hr1), (ce_result _ _ Href).
    + destruct (ce_unit _ _ Href _ _ Hu1) as (u2 & Hu2 & [_ _ _ E4 E5]).
      exists u2. split; [done|]. rewrite S1 in E4. apply committed_sink in E4. auto.
Qed.
End Commit.

(** ** The heartbeat, symbolically *)

Record beat_facts (lease : Lease) (expiry current : Z) (s s' : Store) (u : Unit) : Prop := {
  hb_unit : units s !! unit_key lease = Some u;
  hb_fence : u_fence u = l_fence lease;
  hb_worker : u_worker u = Some (l_worker lease);
  hb_active : is_active u = true;
  hb_expiry : exists e, u_expires u = Some e /\ current < e < expiry;
  hb_duration : expiry - current <= MAX_LEASE_DURATION;
  hb_deadline : u_state u = U_RUNNING ->
    exists a text t, attempts s !! attempt_key lease = Some a /\ started_text a = Some text /\
      parse_instant text = Some t /\ expiry <= t + timeout lease;
  hb_written : units s' !! unit_key lease
               = Some (u <| u_expires := Some expiry |> <| u_updated := current |>) }.

Section Heartbeat.
Context `{Host}.

Lemma post_extend_lease lease e n se s u :
  units s !! unit_key lease = Some u ->
  post (extend_lease lease e n se) s (fun o s' =>
    se < e /\ u_fence u = l_fence lease /\ u_worker u = Some (l_worker lease) /\
    (exists t, u_expires u = Some t /\ n < t) /\
    units s' !! unit_key lease = Some (u <| u_expires := Some e |> <| u_updated := n |>)).
Proof.
  intros Hu. unfold extend_lease. apply post_bind, post_check. intros Hlt%Z.ltb_lt.
  apply post_bind, post_total. intros [] s1 (u0 & Hu0 & Hok & ->)%update_one_inv.
  assert (u0 = u) as -> by congruence.
  apply andb_true_iff in Hok as [(_ & Hf & Hw & _)%unit_held_inv Ht].
  destruct (u_expires u) as [t|] eqn:He; [|done]. apply Z.ltb_lt in Ht.
  apply post_bind. apply (post_guar keeps_core); [guar|]. intros [] s2 (E & _ & _)%keeps_cores.
  apply post_ret. split_and!; try done; [by exists t|].
  rewrite E. simpl. by rewrite lookup_insert_eq.
Qed.

Lemma post_heartbeat lease e now s :
  post (heartbeat lease e now) s (fun o s' =>
    o = APPLIED -> exists u, beat_facts lease e (instant_of now s) s s' u).
Proof.
  unfold heartbeat, select_lease_row. apply post_bind, post_operation_now.
  intros s0 (Eu & Ea & _)%keeps_cores. set (n := instant_of now s).
  apply post_bind, post_lift_result. intros d Hd.
  assert (e - n <= MAX_LEASE_DURATION) as Hmax.
  { revert Hd. unfold require_lease_duration. destruct (_ || _) eqn:Hb; [done|]. intros _.
    apply orb_false_iff in Hb as [_ Hb]. by apply Z.ltb_ge. }
  apply post_bind, post_gets, post_bind, post_lease_matches; [by apply post_ret|].
  intros r a retry (_ & _ & Hu & _ & _ & Hat)%lease_row_inv Ha _ _.
  destruct (Hat a Ha) as [Hla _].
  post_step; [by apply post_ret|]. post_step; [by apply post_ret|].
  apply negb_false_iff in Heqb0. unfold require_expiry.
  apply post_bind, post_of_option. intros se Hse. post_step; [by apply post_ret|].
  assert (forall s', (u_state (lr_unit r) = U_RUNNING -> exists text t,
              started_text a = Some text /\ parse_instant text = Some t /\
              e <= t + timeout lease) ->
    (se < e /\ u_fence (lr_unit r) = l_fence lease /\ u_worker (lr_unit r) = Some (l_worker lease) /\
    (exists t, u_expires (lr_unit r) = Some t /\ n < t) /\
    units s' !! unit_key lease
      = Some ((lr_unit r) <| u_expires := Some e |> <| u_updated := n |>)) ->
    exists u, beat_facts lease e n s s' u) as Hdone.
  { intros s' Hdl (H1 & H2 & H3 & (t & H4 & H5) & H6). exists (lr_unit r).
    rewrite Hse in H4. injection H4 as <-.
    split; [by rewrite <- Eu | done | done | done | by exists se | done | | done].
    intros Hst. destruct (Hdl Hst) as (text & t & ? & ? & ?). exists a, text, t.
    by rewrite <- Ea. }
  post_step.
  - destruct (started_text a) as [text|] eqn:Ht; [|by apply post_ret]. unfold parse_started.
    apply post_bind, post_of_option. intros t Hpt. apply post_bind, post_check.
    intros Hle%Z.leb_le. eapply post_mono; [by apply post_extend_lease|].
    intros o s' HQ _. apply Hdone; [|done]. eauto.
  - eapply post_mono; [by apply post_extend_lease|]. intros o s' HQ _. apply Hdone; [|done].
    intros Hst. by rewrite Hst, bool_decide_true in Heqb2.
Qed.
End Heartbeat.
