(* ===== verification/ClaimGuarantees.v ===== *)
(** * What a claim grants

    The symbolic execution of [claim_next]: promotion of due retries, the
    selection of a unit and the fencing writes (DurableLeases.v). *)
From Stdlib Require Import Strings.String.
From S2P Require Import Prelude.
From S2P Require Import PyJson.
From S2P Require Import Instants.
From S2P Require Import DurableModels.
From S2P Require Import DurableRetry.
From S2P Require Import DurableResults.
From S2P Require Import DurableTables.
From S2P Require Import DurableOutbox.
From S2P Require Import DurableWorkflow.
From S2P Require Import DurableLeases.
From S2P Require Import DurableSystem.
From S2P Require Import DurableFrames.
From S2P Require Import LeaseProtocol.
From S2P Require Import DurableRefinement.
From S2P Require Import DurableFixture.
From S2P Require Import LeaseGuarantees.
Local Open Scope Z_scope.

(** ** Promotion keeps counters and identity *)

Definition promoted (u u' : Unit) : Prop :=
  same_identity u u' /\ same_counters u u' /\
  (u_state u' = u_state u \/ (u_state u = U_RETRY_WAIT /\ u_state u' = U_PENDING)).

#[export] Instance promoted_preorder : PreOrder promoted.
Proof.
  split.
  - intros u. split_and!; [apply same_identity_refl | by repeat split | by left].
  - intros u v w (A1 & A2 & A3) (B1 & B2 & B3). split_and!.
    + by eapply same_identity_trans.
    + unfold same_counters in *. intuition congruence.
    + destruct A3 as [A3|[A3 A3']], B3 as [B3|[B3 B3']]; intuition congruence.
Qed.

Record promotes (s s' : Store) : Prop := {
  pr_units : forall k u', units s' !! k = Some u' ->
    exists u, units s !! k = Some u /\ promoted u u';
  pr_attempts : attempts s' = attempts s;
  pr_workloads : workloads s' = workloads s;
  pr_revisions : revisions s' = revisions s;
  pr_stages : stages s' = stages s }.

#[export] Instance promotes_preorder : PreOrder promotes.
Proof.
  split.
  - intros s. split; try done. intros k u Hu. exists u. split; [done | reflexivity].
  - intros r s t [A1 A2 A3 A4 A5] [B1 B2 B3 B4 B5]. split; try congruence.
    intros k u (v & Hv & Huv)%B1. destruct (A1 k v Hv) as (w & Hw & Hwv).
    exists w. split; [done | by etrans].
Qed.

Lemma promotes_due n c : guar promotes (promote_due_retries n c).
Proof.
  unfold promote_due_retries. apply guar_bind; [apply _ | guar |]. intros rows.
  apply guar_bind; [apply _ | | intros []; guar].
  apply guar_for_each; [apply _|]. intros ku. apply guar_update_one. intros s u Hu Hdue.
  unfold retry_due in Hdue. apply andb_true_iff in Hdue as [Hw%bool_decide_eq_true _].
  split; try done. simpl.
  intros k u' [[<- <-]|[_ Hk]]%lookup_insert_Some; [|exists u'; by split].
  exists u. split; [done|]. split_and!; [by repeat split | by repeat split | by right].
Qed.

(** ** The budget of automatic attempts *)

Lemma from_mapping_max v p :
  from_mapping v = Ok p ->
  exists kvs, v = JObj kvs /\ obj_get "max_attempts" kvs = Some (JInt (max_attempts p)).
Proof.
  unfold from_mapping. intros H. destruct v as [| | | | |kvs]; try discriminate H.
  exists kvs. split; [done|]. revert H.
  destruct (obj_get "max_attempts" kvs) as [[]|]; simpl; repeat case_match; try done.
  intros [= <-]. done.
Qed.

Lemma stage_budget st p :
  from_mapping (s_retry st) = Ok p -> stage_max_attempts st = Some (max_attempts p).
Proof.
  intros (kvs & Hv & Hg)%from_mapping_max. unfold stage_max_attempts. by rewrite Hv, Hg.
Qed.

(** ** What the lease says of the stores before and after *)

Record claim_facts (lease : Lease) (worker : string) (now d : Z) (s s' : Store) (u : Unit)
  : Prop := {
  cl_unit : units s !! unit_key lease = Some u;
  cl_state : u_state u ∈ [U_PENDING; U_RETRY_WAIT; U_NEEDS_ATTENTION];
  cl_fence : l_fence lease = u_fence u + 1;
  cl_number : l_attempt_number lease = u_attempt_count u + 1;
  cl_worker : l_worker lease = worker;
  cl_expires : l_expires lease = now + d /\ 0 < d <= MAX_LEASE_DURATION;
  cl_revision : exists w, workloads s !! (l_owner lease, l_workload lease) = Some w /\
                          w_active_revision w = Some (l_revision lease);
  cl_budget : l_manual_retry lease = false ->
              l_attempt_number lease <= max_attempts (l_retry lease);
  cl_fresh : attempts s !! attempt_key lease = None;
  cl_attempt : exists a, attempts s' !! attempt_key lease = Some a /\
    a_unit a = l_unit lease /\ a_fence a = l_fence lease /\
    a_number a = l_attempt_number lease /\ a_worker a = worker /\
    a_state a = A_LEASED /\ a_ended a = None;
  cl_written : exists u', units s' !! unit_key lease = Some u' /\ u_state u' = U_LEASED /\
    u_fence u' = l_fence lease /\ u_worker u' = Some worker /\
    u_active_attempt u' = Some (l_attempt lease) /\ u_expires u' = Some (l_expires lease) }.

(** The selected row is the row of the store, and is claimable. *)
Record selected (s : Store) (now : Z) (row : ClaimRow) : Prop := {
  se_unit : units s !! (cr_owner row, cr_unit_id row) = Some (cr_unit row);
  se_workload : workloads s !! (cr_owner row, r_workload (cr_revision row)) = Some (cr_workload row);
  se_active : w_active_revision (cr_workload row) = Some (u_revision (cr_unit row));
  se_claimable : claimable s (cr_owner row, cr_unit_id row) (cr_unit row) (cr_stage row)
                   (cr_revision row) now = true }.

Lemma claim_row_selected s c now k u row :
  units s !! k = Some u -> claim_row_of s c now k u = Some row -> selected s now row.
Proof.
  intros Hu. unfold claim_row_of. intros (r & Hr & E)%bind_Some.
  apply bind_Some in E as (w & Hw & E). apply bind_Some in E as (st & Hst & E).
  case_match eqn:Hc; [|done]. injection E as <-. destruct k as [o i].
  rewrite !andb_true_iff in Hc. destruct Hc as [[_ Ha%sql_eq_true] Hc].
  by split.
Qed.

Lemma claimable_budget s k u st r now p :
  claimable s k u st r now = true -> from_mapping (s_retry st) = Ok p ->
  u_state u ∈ [U_PENDING; U_NEEDS_ATTENTION] /\
  (bool_decide (u_state u = U_NEEDS_ATTENTION)
   || (bool_decide (u_state u = U_PENDING) && (0 <? u_tokens u)) = false ->
   u_attempt_count u < max_attempts p).
Proof.
  intros Hc Hp. unfold claimable in Hc. rewrite (stage_budget st p Hp) in Hc.
  rewrite !andb_true_iff, orb_true_iff, !andb_true_iff, orb_true_iff in Hc.
  destruct Hc as [[[[[Hs%bool_decide_eq_true _] Hb]|[Hs%bool_decide_eq_true _]] _] _];
    rewrite Hs; (split; [set_solver|]); [|done].
  simpl. intros Ht. destruct Hb as [Hb|Hb]; [by apply Z.ltb_lt in Hb | congruence].
Qed.

(** ** Fencing *)

(** The parts of a store a fencing reads before it writes. *)
Definition same_rows (s s' : Store) : Prop :=
  units s' = units s /\ attempts s' = attempts s /\ workloads s' = workloads s.

Section Claim.
Context `{Host}.

Lemma post_new_id p s (Q : string -> Store -> Prop) :
  (forall i s', same_rows s s' -> Q i s') -> post (new_id p) s Q.
Proof. intros HQ i s' [= <- <-]. by apply HQ. Qed.

Lemma lease_post_init_ok l l' : lease_post_init l = Ok l' -> l' = l.
Proof. unfold lease_post_init. repeat case_match; congruence. Qed.

Lemma post_fence_unit row worker now expiry s :
  selected s now row ->
  post (fence_unit row worker now expiry) s (fun lease s' =>
    l_expires lease = expiry /\ forall d, expiry = now + d -> 0 < d <= MAX_LEASE_DURATION ->
    claim_facts lease worker now d s s' (cr_unit row)).
Proof.
  intros [S1 S2 S3 S4]. unfold fence_unit.
  apply post_bind, post_new_id. intros aid s1 (Eu & Ea & Ew).
  apply post_bind, post_lift_result. intros retry Hretry.
  assert (from_mapping (s_retry (cr_stage row)) = Ok retry) as Hp
    by (destruct (from_mapping _) as [?|[]]; congruence).
  destruct (claimable_budget _ _ _ _ _ _ retry S4 Hp) as [Hst Hbudget].
  apply post_bind, post_lift_result. intros _ _.
  apply post_bind, post_insert_attempt. intros Hnew Hfresh.
  apply post_bind, post_total. intros [] s2 (u & Hu & Hok & ->)%update_one_inv. simpl in Hu.
  assert (u = cr_unit row) as -> by congruence. clear Hok.
  set (a := mkAttempt _ _ _ _ _ _ _ _ _ _ _ _ _) in *. set (u' := claim_unit _ _ _ _ _ _ _ _ _).
  apply post_bind. apply (post_guar keeps_core); [guar|]. intros [] s3 H3.
  apply post_bind. apply (post_guar keeps_core); [guar|]. intros [] s4 H4.
  apply post_bind. apply (post_guar keeps_core); [guar|]. intros [] s5 H5.
  apply post_bind, post_of_option. intros output _. apply post_lift_result.
  intros lease Hlease. destruct (lease_post_init _) as [l|[]] eqn:Hl; [|done].
  apply lease_post_init_ok in Hl. injection Hlease as <-. subst l.
  assert (keeps_core (set_field units <[(cr_owner row, cr_unit_id row):=u']>
            (set_field attempts <[(cr_owner row, aid):=a]> s1)) s5) as H05 by (by etrans; [|etrans]).
  apply keeps_cores in H05 as (Fu & Fa & _). simpl in Fu, Fa.
  split; [done|]. intros d -> Hd. split; simpl; try done.
  - set_solver.
  - eauto.
  - intros Hm. apply Hbudget in Hm. lia.
  - unfold attempt_key. simpl. by rewrite <- Ea.
  - exists a. unfold attempt_key. rewrite Fa. simpl. rewrite lookup_insert_eq.
    split_and!; try done.
  - exists u'. unfold unit_key. rewrite Fu. simpl. rewrite lookup_insert_eq.
    split_and!; try done.
Qed.

Lemma post_claim q worker now d s :
  post (claim_next q worker now d) s (fun o s' =>
    forall lease, o = Some lease ->
    exists u, claim_facts lease worker now d s s' u).
Proof.
  unfold claim_next. apply post_bind, post_lift_result. intros w Hw.
  assert (w = worker) as ->.
  { unfold require_worker_id in Hw. destruct (worker_re worker); congruence. }
  apply post_bind, post_lift_result. intros dd Hd.
  assert (dd = d /\ 0 < d <= MAX_LEASE_DURATION) as [-> Hdur].
  { unfold require_lease_duration in Hd. destruct (_ || _) eqn:Hb; [done|].
    apply orb_false_iff in Hb as [?%Z.leb_gt ?%Z.ltb_ge]. injection Hd as <-. lia. }
  apply post_bind. apply (post_guar promotes); [apply promotes_due|].
  intros _ s1 [P1 P2 P3 _ _].
  apply post_bind, post_gets. post_step; [|by apply post_ret]. post_step.
  { apply post_bind, post_total. intros w' s2 _. apply post_bind, post_total.
    intros r s3 _. by apply post_ret. }
  unfold select_claim_row. apply post_bind, post_gets, post_bind, post_of_option.
  intros row Hrow. apply head_Some_elem_of in Hrow. rewrite elem_of_order_by in Hrow.
  apply list_elem_of_omap in Hrow as ([k u] & Hk%elem_of_map_to_list & Hrow).
  pose proof (claim_row_selected s1 c now k u row Hk Hrow) as Hsel.
  apply post_bind. eapply post_mono; [by apply post_fence_unit|].
  intros lease s2 [_ Hf]. specialize (Hf d eq_refl Hdur). apply post_ret.
  intros l [= <-]. destruct Hf as [F1 F2 F3 F4 F5 F6 F7 F8 F9 F10 F11].
  destruct (P1 _ _ F1) as (u0 & Hu0 & (Hid & (C1 & C2 & _) & Hs0)). exists u0.
  split; try done; [|congruence|congruence|by rewrite <- P3|by rewrite <- P2].
  destruct Hs0 as [<-|[-> _]]; set_solver.
Qed.
End Claim.
