(* ===== verification/LeaseProperties.v ===== *)
(** * Properties of leases, attempts and results

    The theorems about the fenced half of the store, over every sequence of
    public operations (DurableSystem.v). *)
From Stdlib Require Import Strings.String.
From S2P Require Import Prelude.
From S2P Require Import PyJson.
From S2P Require Import Instants.
From S2P Require Import DurableModels.
From S2P Require Import DurableRetry.
From S2P Require Import DurableResults.
From S2P Require Import DurableTables.
From S2P Require Import DurableOutbox.
From S2P Require Import DurableWorkflow.
From S2P Require Import DurableLeases.
From S2P Require Import DurableFacts.
From S2P Require Import DurableSystem.
From S2P Require Import DurableFrames.
From S2P Require Import LeaseProtocol.
From S2P Require Import DurableRefinement.
From S2P Require Import DurableFixture.
From S2P Require Import LeaseGuarantees.
From S2P Require Import ClaimGuarantees.
Local Open Scope Z_scope.



(** C4: execution is exclusive.  In every store reachable from a consistent
    one, a unit that is leased or running points to an open attempt of its
    own worker and fence, and no other attempt of that unit is open; a unit
    that is neither has no lease columns and no open attempt. *)
Theorem lease_is_exclusive (s s' : Store) (k : key2) (u : Unit) :
  store_inv s -> reachable_from s s' -> units s' !! k = Some u ->
  (is_active u = true -> unit_open (attempts s') k u) /\
  (is_active u = false -> no_lease_columns u) /\
  (forall x a, attempts s' !! x = Some a -> of_unit_att k x a -> a_ended a = None ->
     is_active u = true /\ u_active_attempt u = Some x.2 /\ a_fence a = u_fence u).
Proof.
  intros Hi Hr Hu. pose proof (reachable_inv s s' Hi Hr) as Hi'.
  destruct (inv_unit (core s') k u Hi' Hu) as [O1 O2 _ _ _]. split_and!; try done.
  intros x a Hx Hk He. destruct (inv_attempt (core s') k u Hi' Hu x a Hk Hx) as [_ _ A3 _].
  destruct (A3 He) as [Hact Haid]. split_and!; try done.
  destruct (O1 Hact) as (aid & b & E1 & E2 & _ & E4 & _).
  destruct x as [o i], Hk as [Ho _]; simpl in *. rewrite <- Ho in E2. congruence.
Qed.

Lemma lease_is_exclusive_witness :
  unit_open (attempts demo_running) ("alice", "unit-0001")
    (default demo_unit (units demo_running !! ("alice", "unit-0001"))).
Proof.
  destruct (lease_is_exclusive demo_store demo_running ("alice", "unit-0001")
    (default demo_unit (units demo_running !! ("alice", "unit-0001"))) demo_inv
    demo_running_reachable) as (H & _ & _); [vm_compute; reflexivity|].
  apply H. vm_compute. reflexivity.
Defined.

(** Fences and attempt numbers are never reused.  In every reachable store
    two attempts of one unit with the same fence are the same attempt, the
    number of an attempt is its fence, no fence exceeds the one of its unit,
    and the fence of a unit never decreases, it grows exactly with its attempt
    count. *)
Theorem fences_are_unique_and_monotone (s s' : Store) :
  store_inv s -> reachable_from s s' ->
  (forall x y a b, attempts s' !! x = Some a -> attempts s' !! y = Some b ->
     x.1 = y.1 -> a_unit a = a_unit b -> a_fence a = a_fence b -> x = y) /\
  (forall x a, attempts s' !! x = Some a ->
     a_number a = a_fence a /\
     exists u, units s' !! (x.1, a_unit a) = Some u /\ 1 <= a_fence a <= u_fence u) /\
  (forall k u, units s !! k = Some u ->
     exists u', units s' !! k = Some u' /\ u_fence u <= u_fence u' /\
       u_attempt_count u' - u_attempt_count u = u_fence u' - u_fence u).
Proof.
  intros Hi Hr. pose proof (reachable_inv s s' Hi Hr) as [_ I2 I3 _]. split_and!.
  - exact I3.
  - intros x a Hx. destruct (I2 x a Hx) as (u & Hu & [A1 A2 _ _]). eauto.
  - intros k u Hu. destruct (ce_unit _ _ (reachable_evolves s s' Hr) k u Hu) as (u' & ? & [_ ? ? _ _]).
    eauto.
Qed.

Lemma fences_are_unique_and_monotone_witness :
  exists u', units demo_running !! ("alice", "unit-0001") = Some u' /\
    u_fence demo_unit <= u_fence u' /\
    u_attempt_count u' - u_attempt_count demo_unit = u_fence u' - u_fence demo_unit.
Proof.
  destruct (fences_are_unique_and_monotone demo_store demo_running demo_inv
              demo_running_reachable) as (_ & _ & H).
  apply H. vm_compute. reflexivity.
Defined.

(** C31: units follow the declared graph and terminal units are frozen.  Along
    any sequence of operations a unit keeps its identity and moves only along
    edges of [UNIT_TRANSITIONS] or the three further edges of claim, repair and
    the reuse of results;
    a terminal unit stays in its state, and a committed one keeps its result
    while that result row and every ended attempt stay as they are. *)
Theorem units_follow_the_graph (s s' : Store) (k : key2) (u : Unit) :
  reachable_from s s' -> units s !! k = Some u ->
  exists u', units s' !! k = Some u' /\ same_identity u u' /\
    rtc observed_edge (u_state u) (u_state u') /\
    (u_state u ∈ TERMINAL_UNIT_STATES -> u_state u' = u_state u) /\
    (forall rid r, u_state u = U_COMMITTED -> u_result u = Some rid ->
       results s !! (k.1, rid) = Some r ->
       u_result u' = Some rid /\ results s' !! (k.1, rid) = Some r) /\
    (forall x a, attempts s !! x = Some a -> is_Some (a_ended a) -> attempts s' !! x = Some a).
Proof.
  intros Hr Hu. destruct (reachable_evolves s s' Hr) as [E1 E2 E3].
  destruct (E1 k u Hu) as (u' & Hu' & [Hid _ _ Hst Hres]).
  exists u'. split_and!; try done.
  - intros Ht. by apply (terminal_unit_sink (u_state u)).
  - intros rid r Hs Hrid Hres0. split; [by apply Hres|]. by eapply lookup_weaken.
  - intros x a Hx He. destruct (E3 x a Hx) as (a' & Hx' & _ & Heq). by rewrite <- (Heq He).
Qed.

Lemma units_follow_the_graph_witness :
  exists u', units demo_running !! ("alice", "unit-0001") = Some u' /\
    rtc observed_edge U_PENDING (u_state u').
Proof.
  destruct (units_follow_the_graph demo_store demo_running ("alice", "unit-0001") demo_unit
    demo_running_reachable) as (u' & H1 & _ & H2 & _); [vm_compute; reflexivity|].
  exists u'. split; [exact H1 | exact H2].
Defined.

(** C19: a commit needs the live lease.  When [commit_result] answers COMMITTED
    the unit was running under exactly this fence, worker and open attempt,
    its lease and its frozen deadline were both in the future, no result
    existed for the unit, and the stored row carries the digest and payload
    that were proposed. *)
Theorem commit_needs_live_lease `{Host} (lease : Lease) (v : ValidatedResult)
    (ids : list string) (now : option Z) (s s' : Store) (o : CommitOutcome) :
  commit_result lease v ids now s = Ok (o, s') -> co_status o = C_COMMITTED ->
  exists rid r u a, commit_facts lease v (instant_of now s) s rid r u a /\
    co_result o = Some rid /\ results s' !! (l_owner lease, rid) = Some r /\
    exists u', units s' !! unit_key lease = Some u' /\ u_state u' = U_COMMITTED /\
               u_result u' = Some rid.
Proof. intros Hrun Hst. exact (post_commit lease v ids now s o s' Hrun Hst). Qed.

Lemma demo_commit_runs :
  demo_commit (T0 + 2 * second) demo_running
  = Ok (mkCommitOutcome C_COMMITTED (Some "res_0123456789abcdefc") (Some (vr_digest demo_result))
          (vr_digest demo_result) true, demo_committed).
Proof. vm_compute. reflexivity. Qed.

Lemma commit_needs_live_lease_witness :
  exists rid r u a, commit_facts demo_lease demo_result (T0 + 2 * second) demo_running rid r u a.
Proof.
  destruct (@commit_needs_live_lease demo_host demo_lease demo_result [] (Some (T0 + 2 * second))
    demo_running demo_committed _ demo_commit_runs eq_refl) as (rid & r & u & a & H & _).
  exists rid, r, u, a. exact H.
Defined.

(** C2: a result is committed once and for ever.  After a COMMITTED answer, in
    every store later operations can reach, any further commit for that unit,
    by any lease, with any payload and at any time, changes nothing and
    answers from the first result: a replay when attempt, fence and digest
    agree, a digest conflict when only the digest differs, a stale fence
    otherwise. *)
Theorem commit_is_once_and_for_ever `{Host} (lease lease' : Lease) (v v' : ValidatedResult)
    (ids ids' : list string) (now : option Z) (t : Z) (s s1 s2 : Store) (o : CommitOutcome) :
  store_inv s -> commit_result lease v ids now s = Ok (o, s1) -> co_status o = C_COMMITTED ->
  reachable_from s1 s2 -> unit_key lease' = unit_key lease -> dependency_ids_ok ids' = true ->
  exists status, commit_result lease' v' ids' (Some t) s2
    = Ok (mkCommitOutcome status (co_result o) (Some (vr_digest v)) (vr_digest v') false, s2) /\
  (status = if negb (str_eqb (l_attempt lease) (l_attempt lease')
                     && (l_fence lease =? l_fence lease')) then C_STALE_FENCE
            else if str_eqb (vr_digest v) (vr_digest v') then C_IDEMPOTENT_REPLAY
            else C_DIGEST_CONFLICT).
Proof.
  intros Hi Hrun Hst Hr Hkey Hids.
  destruct (post_commit lease v ids now s o s1 Hrun Hst)
    as (rid & r & u & a & [_ _ _ _ _ _ (R1 & R2 & R3 & R4 & _)] & Ho & Hres & _).
  assert (store_inv s2) as Hi2.
  { eapply reachable_inv; [exact Hi|]. eapply rtc_l; [|exact Hr].
    exact (op_commit _ _ _ _ _ _ _ _ Hrun). }
  injection Hkey as E1 E2.
  assert (results s2 !! (l_owner lease', rid) = Some r) as Hres2.
  { rewrite E1. by eapply lookup_weaken, (ce_result _ _ (reachable_evolves s1 s2 Hr)). }
  eexists. split.
  - rewrite (commit_existing lease' v' ids' t s2 rid r Hi2 Hres2); [|congruence|done].
    unfold existing_verdict. rewrite Ho, R4. reflexivity.
  - by rewrite R2, R3.
Qed.

Lemma commit_is_once_and_for_ever_witness :
  exists status, demo_commit (T0 + 7200 * second) demo_committed
    = Ok (mkCommitOutcome status (Some "res_0123456789abcdefc") (Some (vr_digest demo_result))
            (vr_digest demo_result) false, demo_committed) /\ status = C_IDEMPOTENT_REPLAY.
Proof.
  destruct (@commit_is_once_and_for_ever demo_host demo_lease demo_lease demo_result demo_result
    [] [] (Some (T0 + 2 * second)) (T0 + 7200 * second) demo_running demo_committed demo_committed
    _ (reachable_inv _ _ demo_inv demo_running_reachable) demo_commit_runs eq_refl
    (rtc_refl _ _) eq_refl eq_refl) as (status & H & Hs).
  exists status. split; [exact H|]. rewrite Hs. vm_compute. reflexivity.
Defined.

(** Arguments the two records accept before they look at the lease. *)
Definition recordable (executor model : object) (device invocation : option string) : Prop :=
  valid_label device = true /\ valid_label invocation = true /\
  (exists text, canonical_json (JObj executor) MAX_SNAPSHOT_JSON_BYTES = Ok text) /\
  (exists text, canonical_json (JObj model) MAX_SNAPSHOT_JSON_BYTES = Ok text).
Definition recordable_usage (lease : Lease) (usage : object) : Prop :=
  (exists text, canonical_json (JObj usage) MAX_ATTEMPT_METRICS_JSON_BYTES = Ok text) /\
  (exists records, validated_attempt_usage usage lease = Ok records).

(** C5: a superseded lease is powerless.  Once the unit has moved to another
    fence (or is gone), every operation of the old lease leaves the store
    exactly as it is: start, heartbeat and failure answer a stale fence, and so
    do records of valid facts and of a valid usage; a commit is not accepted,
    an abandonment answers a stale fence or that the attempt was abandoned
    already. *)
Theorem superseded_lease_is_powerless `{Host} (lease : Lease) (t : Z) (s : Store) :
  retry_columns_ok s -> superseded lease s ->
  mark_running lease (Some t) s = Ok (STALE_FENCE, s) /\
  (forall e, 0 < e - t <= MAX_LEASE_DURATION ->
     heartbeat lease e (Some t) s = Ok (STALE_FENCE, s)) /\
  (forall v ids, dependency_ids_ok ids = true ->
     exists o, commit_result lease v ids (Some t) s = Ok (o, s) /\ co_status o <> C_COMMITTED) /\
  (forall e d st, st ∈ [A_FAILED; A_TIMED_OUT] ->
     fail_attempt lease e d st (Some t) s = Ok ((F_STALE_FENCE, None), s)) /\
  (forall code, code ∈ ["worker_shutdown"; "execution_not_started"] ->
     exists st, abandon_attempt lease code (Some t) s = Ok (st, s) /\
                st ∈ [STALE_FENCE; ALREADY_APPLIED]) /\
  (forall ex mo d i, recordable ex mo d i ->
     record_execution_facts lease ex mo d i (Some t) s = Ok (STALE_FENCE, s)) /\
  (forall usage, recordable_usage lease usage ->
     record_attempt_usage lease usage (Some t) s = Ok (STALE_FENCE, s)).
Proof.
  intros Hok Hsup. pose proof (stale_match lease s Hok Hsup) as Hm. unfold row_of_lease in Hm.
  split_and!.
  - unfold mark_running, operation_now, select_lease_row.
    unfold mbind, txn_bind, gets, mret, txn_ret. by rewrite Hm.
  - intros e He. unfold heartbeat, operation_now, select_lease_row, of_value, lift_result.
    unfold mbind, txn_bind, gets, mret, txn_ret. by rewrite (lease_duration_ok _ He), Hm.
  - intros v ids Hids. unfold commit_result, operation_now, select_lease_row.
    unfold dependency_ids_ok in Hids.
    unfold mbind, txn_bind, check, gets, mret, txn_ret. rewrite Hids.
    destruct (head _) as [[k r]|]; [|rewrite Hm]; eexists; (split; [reflexivity|]); [|done].
    unfold existing_verdict. simpl. by repeat case_match.
  - intros e d st Hst. unfold fail_attempt, operation_now, select_lease_row.
    unfold mbind, txn_bind, check, gets, mret, txn_ret.
    by rewrite (bool_decide_true _ Hst), Hm.
  - intros code Hc. unfold abandon_attempt, operation_now, select_lease_row.
    unfold mbind, txn_bind, check, gets, mret, txn_ret. rewrite (bool_decide_true _ Hc).
    destruct (already_abandoned _ _); [|rewrite Hm]; eexists; (split; [reflexivity|]); set_solver.
  - intros ex mo d i (Hd & Hi & [x1 He] & [x2 Hmo]).
    unfold record_execution_facts, operation_now, select_lease_row, of_schema, lift_result.
    unfold mbind, txn_bind, check, gets, mret, txn_ret. by rewrite Hd, Hi, He, Hmo, Hm.
  - intros usage ([x1 He] & [records Hu]).
    unfold record_attempt_usage, operation_now, select_lease_row, of_schema, of_usage, lift_result.
    unfold mbind, txn_bind, check, gets, mret, txn_ret. by rewrite He, Hu, Hm.
Qed.

Lemma superseded_lease_is_powerless_witness :
  @mark_running demo_host demo_stale (Some T0) demo_running = Ok (STALE_FENCE, demo_running).
Proof.
  exact (proj1 (@superseded_lease_is_powerless demo_host demo_stale T0
    demo_running demo_running_policies demo_stale_superseded)).
Defined.

(** A heartbeat extends a live lease within its deadline.  When it is
    applied the unit held exactly this fence and worker and its lease had not
    lapsed; the new expiry is later than the stored one, at most the maximal
    lease duration away and, once running, within the frozen execution
    deadline; the expiry and the update time are all that is written on the
    unit. *)
Theorem heartbeat_extends_live_lease `{Host} (lease : Lease) (expiry : Z) (now : option Z)
    (s s' : Store) :
  heartbeat lease expiry now s = Ok (APPLIED, s') ->
  exists u, beat_facts lease expiry (instant_of now s) s s' u.
Proof. intros Hrun. exact (post_heartbeat lease expiry now s APPLIED s' Hrun eq_refl). Qed.

Lemma heartbeat_extends_live_lease_witness :
  exists u, beat_facts demo_lease (T0 + 61 * second) (T0 + 2 * second) demo_running
    (store_of (@heartbeat demo_host demo_lease (T0 + 61 * second) (Some (T0 + 2 * second))
                 demo_running)) u.
Proof.
  apply (@heartbeat_extends_live_lease demo_host demo_lease (T0 + 61 * second)
           (Some (T0 + 2 * second)) demo_running).
  vm_compute. reflexivity.
Defined.

(** C20: a claim grants one fresh fence within the retry budget.  The lease that
    [claim_next] returns is for a unit that was waiting, of the active
    revision of its workload; its fence and number are the next ones of that
    unit, its attempt did not exist, an automatic attempt stays within
    [max_attempts], and the store then holds the leased unit and its open
    attempt under exactly the lease's fence, worker and expiry. *)
Theorem claim_grants_fresh_lease `{Host} (query : Store -> option Candidate) (worker : string)
    (now d : Z) (s s' : Store) (lease : Lease) :
  claim_next query worker now d s = Ok (Some lease, s') ->
  exists u, claim_facts lease worker now d s s' u.
Proof. intros Hrun. exact (post_claim query worker now d s (Some lease) s' Hrun lease eq_refl). Qed.

Lemma claim_grants_fresh_lease_witness :
  exists u, claim_facts demo_lease "worker-1" T0 (60 * second) demo_store demo_leased u.
Proof.
  exact (@claim_grants_fresh_lease demo_host demo_candidate "worker-1" T0 (60 * second)
           demo_store demo_leased demo_lease demo_claim_runs).
Defined.

(** The fixture with its unit waiting for attention and a manual retry granted. *)
Definition demo_attention : Store :=
  demo_store <| units := {[ ("alice", "unit-0001") := demo_unit <| u_state := U_NEEDS_ATTENTION |> ]} |>
             <| revisions := {[ ("alice", "revision-1") :=
                                  demo_revision <| r_manual_generation := 1 |> ]} |>.

(** A manual retry leaves the declared unit table.  [claim_next] moves a
    unit from needs_attention to leased in one committed operation, an edge
    that [UNIT_TRANSITIONS] does not have. *)
Lemma manual_retry_leaves_unit_table :
  let s' := store_of (demo_claim demo_attention) in
  u_state <$> units demo_attention !! ("alice", "unit-0001") = Some U_NEEDS_ATTENTION /\
  u_state <$> units s' !! ("alice", "unit-0001") = Some U_LEASED /\
  can_transition_unit (unit_value U_NEEDS_ATTENTION) (unit_value U_LEASED) = false.
Proof. vm_compute. done. Qed.
