(* ===== verification/CompletionGuarantees.v ===== *)
(** * What completion guarantees

    The nine checks of [evaluate_completion] as one proposition about the
    store, [revision_done] with [artifact_done], and the symbolic execution of
    the evaluation against it (DurableCompletion.v). *)
From Stdlib Require Import Strings.String.
From S2P Require Import Prelude.
From S2P Require Import PyJson.
From S2P Require Import DurableModels.
From S2P Require Import DurableTables.
From S2P Require Import DurableOutbox.
From S2P Require Import DurableWorkflow.
From S2P Require Import DurableCompletion.
From S2P Require Import WorkloadProtocol.
Local Open Scope Z_scope.

(** ** Counting rows *)

Lemma exists_row_false `{Countable K} {R} (tbl : gmap K R) p :
  exists_row tbl p = false <-> forall k r, tbl !! k = Some r -> p k r = false.
Proof.
  unfold exists_row. split.
  - intros E k r Hk. destruct (p k r) eqn:Hp; [|done].
    assert ((k, r) ∈ select_rows tbl p) as Hin by (by apply elem_of_select_rows).
    destruct (select_rows tbl p); [by apply elem_of_nil in Hin | done].
  - intros Hall. destruct (select_rows tbl p) as [|[k r] l] eqn:E; [done|].
    assert ((k, r) ∈ select_rows tbl p) as Hin by (rewrite E; left).
    apply elem_of_select_rows in Hin as [Hk Hp]. by rewrite (Hall k r Hk) in Hp.
Qed.

Lemma count_rows_false `{Countable K} {R} (tbl : gmap K R) p :
  (0 <? count_rows tbl p) = false <-> forall k r, tbl !! k = Some r -> p k r = false.
Proof.
  rewrite <- exists_row_false. unfold count_rows, exists_row.
  destruct (select_rows tbl p); simpl; split; done.
Qed.

(** ** The reasons *)

Lemma block_nil b what acc : block b what acc = [] <-> acc = [] /\ b = false.
Proof.
  unfold block. split.
  - destruct b; simpl; [|done]. case_bool_decide as E; simpl; [|by destruct acc].
    intros ->. by apply elem_of_nil in E.
  - by intros [-> ->].
Qed.

Lemma block_all_nil l acc :
  block_all l acc = [] <-> acc = [] /\ Forall (fun c => c.1 = false) l.
Proof.
  revert acc. induction l as [|c l IH]; intros acc; simpl.
  - rewrite Forall_nil. tauto.
  - rewrite Forall_cons. unfold block_all in *. simpl. rewrite IH, block_nil. tauto.
Qed.

Section Done.
Context (s : Store) (owner revision_id : string).

Definition source_done (r : Revision) (src : Source) : Prop :=
  src_accounted src = true /\ src_state src <> "unstable" /\ src_state src <> "missing" /\
  (src_state src = "skipped" -> r_partial_accepted r = true).

Definition unit_done (r : Revision) (st : Stage) (u : Unit) : Prop :=
  u_state u ∈ [U_COMMITTED; U_FAILED_PERMANENT; U_SKIPPED] /\
  (u_state u = U_SKIPPED -> s_required st = true -> r_partial_accepted r = true) /\
  (u_state u = U_FAILED_PERMANENT -> r_failure_policy r = "declared" /\
     exists e, u_error u = Some e /\ e ∈ r_tolerated r) /\
  (u_state u = U_COMMITTED -> is_Some (u_result u) /\
     result_dependency_count s owner revision_id u = u_expected_deps u) /\
  (u_partial u = true -> r_partial_accepted r = true).

(** Checks 1 to 5 as a proposition. *)
Record revision_done (r : Revision) : Prop := {
  rd_sealed : r_sealed r = true /\ exists d, r_inventory_digest r = Some d /\ d <> EmptyString;
  rd_count : count_sources s owner revision_id (fun _ => true) = r_expected_sources r;
  rd_sources : forall id src, sources s !! (owner, id) = Some src ->
    src_revision src = revision_id -> source_done r src;
  rd_materialized : forall stage m, materializations s !! (owner, revision_id, stage) = Some m ->
    mat_completed m = true /\ mat_attention_code m = None;
  rd_stages : forall id st, stages s !! (owner, id) = Some st -> s_revision st = revision_id ->
    s_required st = true -> s_type st <> "inventory" ->
    expected_units r st <= stage_unit_count s owner revision_id id;
  rd_units : forall id u st, units s !! (owner, id) = Some u -> u_revision u = revision_id ->
    stage_of s owner u = Some st -> unit_done r st u;
  rd_caps : r_caps_truncated r = true -> r_partial_accepted r = true;
  rd_lineage : forall k d, dependencies s !! k = Some d ->
    invalid_dependency s owner revision_id k d = false }.

Definition artifact_done (requirement : object) : Prop :=
  exists name a, obj_get "name" requirement = Some name /\
    find_artifact s owner revision_id (py_str name) = Some a /\
    art_state a ∈ ["committed"; "published"] /\
    obj_get "schema_version" requirement = Some (JStr (art_schema_version a)) /\
    obj_get "mime_type" requirement = Some (JStr (art_mime_type a)) /\
    art_digest_verified a = true /\ art_schema_valid a = true /\
    art_postconditions_valid a = true.

(** ** Each check *)

Lemma sources_clear p :
  (0 <? count_sources s owner revision_id p) = false <->
  forall id src, sources s !! (owner, id) = Some src -> src_revision src = revision_id ->
    p src = false.
Proof.
  unfold count_sources. rewrite count_rows_false. split.
  - intros Hall id src Hk <-. specialize (Hall _ _ Hk). simpl in Hall.
    by rewrite !str_eqb_refl in Hall.
  - intros Hall [o id] src Hk. simpl.
    destruct (str_eqb o owner) eqn:Eo; [|done]. destruct (str_eqb (src_revision src) _) eqn:Er; [|done].
    apply str_eqb_true in Eo as ->. apply str_eqb_true in Er. simpl. eauto.
Qed.

Lemma facts_clear p :
  (0 <? count_facts s owner revision_id p) = false <->
  forall id u st, units s !! (owner, id) = Some u -> u_revision u = revision_id ->
    stage_of s owner u = Some st -> p st u = false.
Proof.
  unfold count_facts. rewrite count_rows_false. unfold unit_fact, in_revision. split.
  - intros Hall id u st Hk <- Hst. specialize (Hall _ _ Hk). simpl in Hall.
    by rewrite !str_eqb_refl, Hst in Hall.
  - intros Hall [o id] u Hk. simpl.
    destruct (str_eqb o owner) eqn:Eo; [|done]. destruct (str_eqb (u_revision u) _) eqn:Er; [|done].
    apply str_eqb_true in Eo as ->. apply str_eqb_true in Er. simpl.
    destruct (stage_of s owner u) eqn:Hst; [|done]. eauto.
Qed.

Lemma materialization_clear :
  incomplete_materialization s owner revision_id = false <->
  forall stage m, materializations s !! (owner, revision_id, stage) = Some m ->
    mat_completed m = true /\ mat_attention_code m = None.
Proof.
  unfold incomplete_materialization. rewrite exists_row_false. split.
  - intros Hall stage m Hk. specialize (Hall _ _ Hk). simpl in Hall.
    rewrite !str_eqb_refl in Hall. simpl in Hall.
    apply orb_false_iff in Hall as [H1%negb_false_iff H2%bool_decide_eq_false].
    split; [done|]. by apply eq_None_not_Some.
  - intros Hall [[o r] stage] m Hk. simpl.
    destruct (str_eqb o owner) eqn:Eo; [|done]. destruct (str_eqb r revision_id) eqn:Er; [|done].
    apply str_eqb_true in Eo as ->. apply str_eqb_true in Er as ->. simpl.
    destruct (Hall _ _ Hk) as [-> ->]. done.
Qed.

Lemma stages_clear r :
  units_missing s owner revision_id r = false <->
  forall id st, stages s !! (owner, id) = Some st -> s_revision st = revision_id ->
    s_required st = true -> s_type st <> "inventory" ->
    expected_units r st <= stage_unit_count s owner revision_id id.
Proof.
  unfold units_missing. rewrite exists_row_false. split.
  - intros Hall id st Hk <- Hreq Hty. specialize (Hall _ _ Hk). simpl in Hall.
    rewrite !str_eqb_refl, Hreq in Hall. simpl in Hall.
    destruct (str_eqb (s_type st) "inventory") eqn:E; [by apply str_eqb_true in E|].
    simpl in Hall. apply Z.ltb_ge in Hall. done.
  - intros Hall [o id] st Hk. simpl.
    destruct (str_eqb o owner) eqn:Eo; [|done]. destruct (str_eqb (s_revision st) _) eqn:Er; [|done].
    apply str_eqb_true in Eo as ->. apply str_eqb_true in Er.
    destruct (s_required st) eqn:Hreq; [|done].
    destruct (str_eqb (s_type st) "inventory") eqn:Ety; [done|]. simpl. apply Z.ltb_ge.
    apply (Hall id st); try done. intros E. by rewrite E in Ety.
Qed.

(** A condition that only an accepted partial output excuses. *)
Lemma excused b accepted : b && negb accepted = false <-> (b = true -> accepted = true).
Proof. destruct b, accepted; simpl; naive_solver. Qed.

(** [facts_clear] for the conditions that accepted partial output excuses. *)
Lemma facts_excused p accepted :
  (0 <? count_facts s owner revision_id p) && negb accepted = false <->
  forall id u st, units s !! (owner, id) = Some u -> u_revision u = revision_id ->
    stage_of s owner u = Some st -> p st u = true -> accepted = true.
Proof.
  rewrite excused. destruct (0 <? count_facts s owner revision_id p) eqn:E.
  - destruct accepted; [naive_solver|]. split; [intros H; by specialize (H eq_refl)|].
    intros Hall _. exfalso.
    assert ((0 <? count_facts s owner revision_id p) = false); [|congruence].
    apply facts_clear. intros id u st Hk Hr Hst. apply not_true_iff_false. intros Hp.
    by specialize (Hall _ _ _ Hk Hr Hst Hp).
  - split; [|done]. rewrite facts_clear in E. intros _ id u st Hk Hr Hst Hp.
    by rewrite (E _ _ _ Hk Hr Hst) in Hp.
Qed.

Lemma sources_excused p accepted :
  (0 <? count_sources s owner revision_id p) && negb accepted = false <->
  forall id src, sources s !! (owner, id) = Some src -> src_revision src = revision_id ->
    p src = true -> accepted = true.
Proof.
  rewrite excused. destruct (0 <? count_sources s owner revision_id p) eqn:E.
  - destruct accepted; [naive_solver|]. split; [intros H; by specialize (H eq_refl)|].
    intros Hall _. exfalso.
    assert ((0 <? count_sources s owner revision_id p) = false); [|congruence].
    apply sources_clear. intros id src Hk Hr. apply not_true_iff_false. intros Hp.
    by specialize (Hall _ _ Hk Hr Hp).
  - split; [|done]. rewrite sources_clear in E. intros _ id src Hk Hr Hp.
    by rewrite (E _ _ Hk Hr) in Hp.
Qed.

Lemma sealed_clear r :
  negb (r_sealed r) || match r_inventory_digest r with
                       | None | Some EmptyString => true | _ => false end = false <->
  r_sealed r = true /\ exists d, r_inventory_digest r = Some d /\ d <> EmptyString.
Proof.
  destruct (r_sealed r), (r_inventory_digest r) as [[|c d]|]; simpl; split; try naive_solver.
Qed.

(** The conditions on a unit, aggregate by aggregate. *)
Lemma terminal_checks st u :
  u_state u ∈ [U_COMMITTED; U_FAILED_PERMANENT; U_SKIPPED] <->
  nonterminal st u = false /\ cancelled_unit st u = false.
Proof.
  rewrite <- (bool_decide_eq_true (u_state u ∈ _)). unfold nonterminal, cancelled_unit.
  destruct (u_state u); vm_compute; naive_solver.
Qed.

Lemma skipped_check st u :
  required_skipped st u = true <-> u_state u = U_SKIPPED /\ s_required st = true.
Proof. unfold required_skipped. by rewrite andb_true_iff, bool_decide_eq_true. Qed.

Lemma failure_check r st u :
  untolerated_failure r st u = false <->
  (u_state u = U_FAILED_PERMANENT -> r_failure_policy r = "declared" /\
     exists e, u_error u = Some e /\ e ∈ r_tolerated r).
Proof.
  unfold untolerated_failure, accepted_failure. case_bool_decide as E; simpl; [|naive_solver].
  rewrite negb_false_iff, andb_true_iff, str_eqb_true.
  destruct (u_error u) as [e|]; rewrite ?bool_decide_eq_true; naive_solver.
Qed.

Lemma commit_checks st u :
  missing_result st u = false /\ dependency_deficit s owner revision_id st u = false <->
  (u_state u = U_COMMITTED -> is_Some (u_result u) /\
     result_dependency_count s owner revision_id u = u_expected_deps u).
Proof.
  unfold missing_result, dependency_deficit. case_bool_decide as E; simpl; [|naive_solver].
  destruct (u_result u) as [i|]; simpl.
  - rewrite negb_false_iff, Z.eqb_eq. naive_solver.
  - split; [by intros []|]. intros H. by destruct (H E) as [[]].
Qed.

Lemma unit_done_checks r st u :
  unit_done r st u <->
  nonterminal st u = false /\ cancelled_unit st u = false /\
  (required_skipped st u = true -> r_partial_accepted r = true) /\
  untolerated_failure r st u = false /\ missing_result st u = false /\
  dependency_deficit s owner revision_id st u = false /\
  (partial_unit st u = true -> r_partial_accepted r = true).
Proof.
  unfold unit_done. rewrite (terminal_checks st), skipped_check, failure_check,
    <- (commit_checks st). unfold partial_unit. naive_solver.
Qed.

(** The sixteen conditions of the code are clear exactly when the revision is
    done. *)
Lemma revision_checks_clear r :
  Forall (fun c => c.1 = false) (revision_checks s owner revision_id r) <-> revision_done r.
Proof.
  unfold revision_checks. rewrite !Forall_cons, Forall_nil. cbn [fst].
  rewrite sealed_clear, negb_false_iff, Z.eqb_eq, !sources_clear, sources_excused,
    materialization_clear, stages_clear, !facts_clear, !facts_excused, excused.
  unfold undeclared_dependency. rewrite exists_row_false. split.
  - intros (H1 & H2 & H3 & H4 & H5 & H6 & H7 & H8 & H9 & H10 & H11 & H12 & H13 & H14 & H15 & H16 & _).
    split; try done.
    + intros id src Hk Hr. specialize (H3 _ _ Hk Hr). specialize (H4 _ _ Hk Hr).
      specialize (H5 _ _ Hk Hr). apply negb_false_iff in H3. unfold unavailable in H4.
      apply bool_decide_eq_false in H4. rewrite str_eqb_true in H5.
      split_and!; [done | set_solver | set_solver | done].
    + intros id u st Hk Hr Hst. apply unit_done_checks. split_and!; eauto.
  - intros [[D0 D1] D2 D3 D4 D5 D6 D7 D8].
    pose proof (fun id u st Hk Hr Hst => proj1 (unit_done_checks r st u) (D6 id u st Hk Hr Hst)) as U.
    split_and!; try done.
    1-3: intros id src Hk Hr; destruct (D3 id src Hk Hr) as (S1 & S2 & S3 & S4).
    + by rewrite S1.
    + apply bool_decide_eq_false. set_solver.
    + by rewrite str_eqb_true.
    + intros id u st Hk Hr Hst. by destruct (U id u st Hk Hr Hst).
    + intros id u st Hk Hr Hst. by destruct (U id u st Hk Hr Hst) as (_ & ? & _).
    + intros id u st Hk Hr Hst. by destruct (U id u st Hk Hr Hst) as (_ & _ & ? & _).
    + intros id u st Hk Hr Hst. by destruct (U id u st Hk Hr Hst) as (_ & _ & _ & ? & _).
    + intros id u st Hk Hr Hst. by destruct (U id u st Hk Hr Hst) as (_ & _ & _ & _ & ? & _).
    + intros id u st Hk Hr Hst. by destruct (U id u st Hk Hr Hst) as (_ & _ & _ & _ & _ & ? & _).
    + intros id u st Hk Hr Hst. by destruct (U id u st Hk Hr Hst) as (_ & _ & _ & _ & _ & _ & ?).
Qed.

End Done.

(** ** Reading transactions *)

Ltac clear_forall := rewrite ?Forall_cons, ?Forall_nil; cbn [fst].

Lemma json_is_str_true v t : json_is_str (Some v) t = true <-> v = JStr t.
Proof.
  destruct v; simpl; try (split; done). rewrite str_eqb_true. split; [by intros ->|by intros [= ->]].
Qed.

Lemma post_artifact_checks s o r q t :
  post (artifact_checks s o r q) t (fun l t' =>
    t' = t /\ (Forall (fun c => c.1 = false) l <-> artifact_done s o r q)).
Proof.
  unfold artifact_checks, artifact_done. repeat post_step; split; try done; clear_forall.
  - rewrite !negb_false_iff, bool_decide_eq_true, !json_is_str_true, !andb_true_iff.
    split; [naive_solver|]. intros (nm & art & E1 & E2 & E3 & E4 & E5 & E6 & E7 & E8). simplify_eq.
    naive_solver.
  - split; [naive_solver|]. intros (nm & art & E1 & E2 & _). simplify_eq.
Qed.

Lemma post_required_artifacts s o r l t :
  post (required_artifact_checks s o r l) t (fun cs t' =>
    t' = t /\ (Forall (fun c => c.1 = false) cs <-> Forall (artifact_done s o r) l)).
Proof.
  induction l as [|q l IH]; simpl.
  - apply post_ret. by rewrite !Forall_nil.
  - apply post_bind. eapply post_mono; [apply post_artifact_checks|]. intros cs t1 [-> H1].
    apply post_bind. eapply post_mono; [exact IH|]. intros cs' t2 [-> H2].
    apply post_ret. split; [done|]. rewrite Forall_app, Forall_cons. tauto.
Qed.

Lemma reads_budget o w r n : guar eq (budget_violation_in o w r n).
Proof.
  assert (forall rv l, guar eq (first_exceeded rv l)) as Hf.
  { intros rv l. induction l as [|[] l IH]; simpl; [guar|]. unfold plan_budget. guar. }
  unfold budget_violation_in, plan_budget. guar; apply Hf.
Qed.

(** ** Effects *)

Section Effects.
Context `{Host}.

Definition fresh_row (workload_id : string) (event_id : Z) (channel recipient : string)
    (delivered : bool) (now : Z) : Outbox :=
  mkOutbox workload_id event_id channel recipient (if delivered then O_SENT else O_PENDING) 0 None
    None None 0 (if delivered then Some [("delivery", JStr "recorded")] else None) None now now.

(** Without a coalescing key an enqueued row is a new row. *)
Lemma post_enqueue_fresh o w e ch rc d s (Q : OutboxRecord -> Store -> Prop) :
  (forall id r n t, outbox s !! (o, id) = None ->
     Q r (s <| outbox := <[(o, id) := fresh_row w e ch rc d n]> (outbox s) |> <| ticks := t |>)) ->
  post (enqueue_outbox o w e ch rc None None d) s Q.
Proof.
  intros HQ. unfold enqueue_outbox, require_owner, outbox_channel, require_key.
  repeat (post_step; try done). subst.
  apply post_total. intros now s1 [= <- <-]. repeat (post_step; try done).
  apply post_total. intros id s2 [= <- <-]. unfold guard_unique, outbox_row.
  do 4 post_step. apply post_bind, post_total.
  intros [] s3 [Hnew ->]%insert_row_inv. do 5 post_step.
  exact (HQ _ _ (host_clock (ticks s)) (S (S (ticks s))) Hnew).
Qed.

(** The one change of the database a completion makes. *)
Definition completed_row (row : Workload) (target : WorkloadState) (errors : bool) (now : Z)
  : Workload :=
  row <| w_state := target |> <| w_version := w_version row + 1 |>
      <| w_next_event := w_next_event row + 1 |> <| w_updated := now |>
      <| w_terminal_reason := Some [("completion", JStr "verified");
                                    ("with_errors", JBool errors)] |>.

Definition completion_effect (s s' : Store) (owner workload_id : string) (row : Workload)
    (target : WorkloadState) (errors : bool) (now : Z) (payload : object) : Prop :=
  exists id1 id2 n0 n1 n2 t,
    id1 <> id2 /\ outbox s !! (owner, id1) = None /\ outbox s !! (owner, id2) = None /\
    events s !! (owner, workload_id, w_next_event row) = None /\
    s' = s <| workloads := <[(owner, workload_id) := completed_row row target errors now]>
                             (workloads s) |>
           <| events := <[(owner, workload_id, w_next_event row) :=
                            mkEvent (completion_event target) payload n0]> (events s) |>
           <| outbox := <[(owner, id2) := fresh_row workload_id (w_next_event row) "telegram"
                                            owner false n2]>
                          (<[(owner, id1) := fresh_row workload_id (w_next_event row)
                                               "owner_event" owner true n1]> (outbox s)) |>
           <| credits := delete (owner, workload_id) (credits s) |> <| ticks := t |>.

(** Deleting an absent credit changes nothing. *)
Lemma delete_credit_inv k s a s' :
  delete_at credits k (fun _ => true) s = Ok (a, s') -> s' = set_field credits (delete k) s.
Proof.
  unfold delete_at. destruct (credits s !! k) eqn:E; intros [= <- <-]; [done|].
  destruct s. simpl in *. by rewrite delete_id.
Qed.

Lemma post_complete_workload o w r v now t e p s row :
  workloads s !! (o, w) = Some row ->
  post (complete_workload o w r v now t e p) s (fun i s' =>
    i = w_next_event row /\ w_state row = RUNNING /\ w_version row = v /\
    completion_effect s s' o w row t e now p).
Proof.
  intros Hrow. unfold complete_workload, append_event, require_owner, validate_event_payload,
    of_schema.
  repeat (post_step; try done). simplify_eq.
  apply post_total. intros [] s1 (row1 & Hrow1 & _ & ->)%update_one_inv. simplify_eq.
  do 1 post_step. apply post_total. intros n0 s2 [= <- <-].
  do 1 post_step. apply post_total. intros [] s3 [Hev ->]%insert_row_inv. post_step.
  unfold enqueue_notification. do 2 post_step.
  apply post_enqueue_fresh. intros id1 r1 n1 t1 Hid1. post_step.
  apply post_enqueue_fresh. intros id2 r2 n2 t2 Hid2. do 3 post_step.
  apply post_bind, post_total. intros [] s4 (row2 & Hrow2 & Hok & ->)%update_one_inv.
  apply andb_true_iff in Hok as [Hst%bool_decide_eq_true Hv%Z.eqb_eq].
  assert (row2 = row <| w_next_event := w_next_event row + 1 |>) as ->.
  { apply (inj Some). rewrite <- Hrow2. exact (lookup_insert_eq (workloads s) (o, w) _). }
  repeat post_step. apply post_total. intros [] s5 Hs5. post_step.
  apply delete_credit_inv in Hs5 as ->. split_and!; [done | exact Hst | exact Hv |].
  exists id1, id2, (host_clock (ticks s)), n1, n2, t2. split_and!.
  - intros ->. change (<[(o, id2) := fresh_row w (w_next_event row) "owner_event" o true n1]>
      (outbox s) !! (o, id2) = None) in Hid2. by rewrite lookup_insert_eq in Hid2.
  - exact Hid1.
  - change (<[(o, id1) := fresh_row w (w_next_event row) "owner_event" o true n1]>
      (outbox s) !! (o, id2) = None) in Hid2. by apply lookup_insert_None in Hid2 as [? _].
  - exact Hev.
  - cbn. by rewrite insert_insert_eq.
Qed.
End Effects.

(** ** The evaluation *)

(** All nine checks, for the active revision [r] of the workload [row]. *)
Definition ready (s : Store) (o w rid : string) (t : Z) (row : Workload) (r : Revision) : Prop :=
  w_state row = RUNNING /\ revision_done s o rid r /\
  Forall (artifact_done s o rid) (r_required_artifacts r) /\ r_usage_complete r = true /\
  budget_violation_in o w rid t s = Ok (None, s).

Lemma post_completion_reasons o w rid r row t s :
  post (completion_reasons o w rid r (w_state row) t) s (fun l s' =>
    s' = s /\ (l = [] <-> ready s o w rid t row r)).
Proof.
  unfold completion_reasons, id. do 4 post_step.
  apply post_bind. eapply post_mono; [apply post_required_artifacts|]. intros cs s1 [-> Hcs].
  apply post_bind, post_total. intros v s2 Hv.
  pose proof (reads_budget o w rid t s v s2 Hv) as <-. apply post_ret. split; [done|].
  rewrite block_all_nil, !Forall_app. clear_forall.
  rewrite Hcs, revision_checks_clear, !negb_false_iff, bool_decide_eq_true. unfold ready.
  destruct v as [v|]; clear_forall; rewrite Hv; naive_solver.
Qed.

Definition answers (a : CompletionAssessment) (target : WorkloadState) (event : option Z)
    (version : Z) : Prop :=
  ca_eligible a = true /\ ca_target a = Some target /\ ca_reasons a = [] /\
  ca_event a = event /\ ca_version a = version.

Definition refuses (a : CompletionAssessment) (version : Z) : Prop :=
  ca_eligible a = false /\ ca_target a = None /\ ca_reasons a <> [] /\ ca_event a = None /\
  ca_version a = version.

(** The revision whose facts decide. *)
Definition deciding (s : Store) (o w : string) (row : Workload) (rid : string) (r : Revision)
  : Prop :=
  w_active_revision row = Some rid /\ revisions s !! (o, rid) = Some r /\ r_workload r = w.

(** The errors that make the completion one with errors. *)
Definition completion_target (s : Store) (o rid : string) (r : Revision) (c : UnitCounters)
  : WorkloadState :=
  if has_errors s o rid r c then COMPLETED_WITH_ERRORS else COMPLETED.

Inductive evaluated (s : Store) (o w : string) (t : Z) (row : Workload)
  : CompletionAssessment -> Store -> Prop :=
| ev_done a : completed (w_state row) -> answers a (w_state row) None (w_version row) ->
    evaluated s o w t row a s
| ev_unsealed a : ~ completed (w_state row) -> (forall rid r, ~ deciding s o w row rid r) ->
    refuses a (w_version row) -> evaluated s o w t row a s
| ev_refused a rid r : ~ completed (w_state row) -> deciding s o w row rid r ->
    ~ ready s o w rid t row r -> refuses a (w_version row) -> evaluated s o w t row a s
| ev_completed a rid r s' : ~ completed (w_state row) -> deciding s o w row rid r ->
    ready s o w rid t row r ->
    answers a (completion_target s o rid r (ca_counters a)) (Some (w_next_event row))
      (w_version row + 1) ->
    completion_effect s s' o w row (completion_target s o rid r (ca_counters a))
      (has_errors s o rid r (ca_counters a)) t
      (completion_payload rid (completion_target s o rid r (ca_counters a)) (ca_counters a)
         (count_facts s o rid (accepted_failure r)) (accepted_partial s o rid r)) ->
    evaluated s o w t row a s'.

Lemma no_inventory_blocks st : no_inventory st <> [].
Proof. by destruct st. Qed.

Lemma post_evaluation `{Host} o w t s :
  post (evaluate_completion o w (Some t)) s (fun a s' =>
    exists row, workloads s !! (o, w) = Some row /\ evaluated s o w t row a s').
Proof.
  unfold evaluate_completion, require_owner, operation_now, select_workload.
  repeat lazymatch goal with |- post (unit_counters _ _ ≫= _) _ _ => fail | _ => post_step end.
  apply post_bind. eapply (post_guar eq). { unfold unit_counters, require_owner. guar. }
  intros c s1 <-. eapply post_mono; [|intros x y E; exists a; split; [done | exact E]].
  case_bool_decide as Hdone; [apply post_ret, ev_done; [exact Hdone | by split_and!]|].
  assert (forall l, l <> [] -> refuses (ineligible l c (w_version a)) (w_version a)) as Href
    by (intros l Hl; by split_and!).
  destruct (w_active_revision a) as [rid|] eqn:Ea.
  2: { apply post_ret, ev_unsealed; [done | | apply Href, no_inventory_blocks].
       intros rid r (E & _). congruence. }
  apply post_bind, post_gets. destruct (_ ≫= _) as [r|] eqn:Er.
  2: { apply post_ret, ev_unsealed; [done | | apply Href, no_inventory_blocks].
       intros rid' r (E1 & E2 & <-). rewrite Ea in E1. injection E1 as <-.
       rewrite E2 in Er. simpl in Er. by rewrite str_eqb_refl in Er. }
  apply bind_Some in Er as (r' & Hr & E). destruct (str_eqb _ w) eqn:Ew; [|done].
  injection E as ->. apply str_eqb_true in Ew.
  assert (deciding s o w a rid r) as Hdec by (by split_and!).
  apply post_bind. eapply post_mono; [apply post_completion_reasons|]. intros l s2 [-> Hl].
  case_bool_decide as Hnil; simpl.
  - apply post_bind, post_gets, post_bind. eapply post_mono; [by apply post_complete_workload|].
    intros i s3 (-> & _ & _ & Heff). apply post_ret.
    apply (ev_completed _ _ _ _ _ _ rid r); [done | done | by apply Hl | by split_and! | exact Heff].
  - apply post_ret. apply (ev_refused _ _ _ _ _ _ rid r); [done | done | by rewrite <- Hl | by apply Href].
Qed.
