(* ===== verification/CompletionProperties.v ===== *)
(** * Properties of completion

    [evaluate_completion] of src/runtime/durable_workloads/storage.py
    completes a workload exactly when the nine checks hold, and for ever. *)
From Stdlib Require Import Strings.String.
From S2P Require Import Prelude.
From S2P Require Import PyJson.
From S2P Require Import DurableModels.
From S2P Require Import DurableTables.
From S2P Require Import DurableOutbox.
From S2P Require Import DurableWorkflow.
From S2P Require Import DurableCompletion.
From S2P Require Import DurableSystem.
From S2P Require Import WorkloadProtocol.
From S2P Require Import DurableAudit.
From S2P Require Import DurableFixture.
From S2P Require Import CompletionGuarantees.
Local Open Scope Z_scope.

(** The fixture after its unit has committed: everything is accounted for. *)
Definition demo_finished : Store :=
  demo_store <| workloads := {[ ("alice", "workload-1") := demo_workload <| w_state := RUNNING |> ]} |>
             <| revisions := {[ ("alice", "revision-1") := demo_revision <| r_usage_complete := true |> ]} |>
             <| units := {[ ("alice", "unit-0001") :=
                  demo_unit <| u_state := U_COMMITTED |> <| u_result := Some "result-01" |> ]} |>.

Definition demo_completion : db CompletionAssessment :=
  @evaluate_completion demo_host "alice" "workload-1" (Some T0).
Definition demo_completed : Store := store_of (demo_completion demo_finished).

Lemma running_is_open : ~ completed RUNNING.
Proof. unfold completed. set_solver. Qed.

(** C16: completion is exact.  For a workload that is not yet completed, with an
    active revision, the evaluation answers eligible if and only if the
    workload is running, the inventory is sealed with its digest, every source
    is counted, accounted for and available or skipped with acceptance, every
    required stage has its units, every unit is committed with its whole
    lineage, tolerated or acceptably skipped, no dependency is undeclared,
    every required artifact is stored and validated, usage is complete and no
    budget is violated; when it answers ineligible it names a reason and leaves
    the database as it was. *)
Theorem completion_is_exact `{Host} (o w rid : string) (t : Z) (s s' : Store)
    (a : CompletionAssessment) (row : Workload) (r : Revision) :
  evaluate_completion o w (Some t) s = Ok (a, s') ->
  workloads s !! (o, w) = Some row -> ~ completed (w_state row) -> deciding s o w row rid r ->
  (ca_eligible a = true <-> ready s o w rid t row r) /\
  (ca_eligible a = false -> s' = s /\ ca_reasons a <> []).
Proof.
  intros Hrun Hrow Hopen Hdec. apply post_evaluation in Hrun as (row' & Hrow' & Hev).
  assert (row' = row) as -> by congruence.
  destruct Hev as [b Hc|b _ Hn|b rid' r' _ Hd Hno (-> & _ & Hb & _)|b rid' r' s' _ Hd Hyes (-> & _)];
    [done | by destruct (Hn rid r) | |];
    (assert (rid' = rid /\ r' = r) as [-> ->] by (unfold deciding in *; naive_solver)).
  - split; [|done]. split; [done | intros Hr; by destruct Hno].
  - by split.
Qed.

Lemma completion_is_exact_witness :
  ready demo_finished "alice" "workload-1" "revision-1" T0
    (demo_workload <| w_state := RUNNING |>) (demo_revision <| r_usage_complete := true |>).
Proof.
  assert (exists a, demo_completion demo_finished = Ok (a, demo_completed) /\ ca_eligible a = true)
    as (a & Hrun & He) by (eexists; split; [vm_compute; reflexivity | reflexivity]).
  apply (@completion_is_exact demo_host "alice" "workload-1" "revision-1" T0
    demo_finished demo_completed a _ _ Hrun).
  - exact (lookup_singleton_eq ("alice", "workload-1") (demo_workload <| w_state := RUNNING |>)).
  - exact running_is_open.
  - split; [reflexivity | split; [|reflexivity]].
    exact (lookup_singleton_eq ("alice", "revision-1") (demo_revision <| r_usage_complete := true |>)).
  - exact He.
Defined.

(** A completed workload is answered from its row. *)
Lemma evaluation_replays (h h0 : Host) o w t t0 s s0 a0 s0' row :
  @evaluate_completion h0 o w t0 s0 = Ok (a0, s0') ->
  workloads s !! (o, w) = Some row -> completed (w_state row) ->
  exists a, @evaluate_completion h o w (Some t) s = Ok (a, s) /\
    answers a (w_state row) None (w_version row).
Proof.
  intros Hrun Hrow Hc.
  assert (post (@evaluate_completion h0 o w t0) s0 (fun _ _ =>
    require_owner o s = Ok (tt, s) /\ id_re w = true)) as Hpure.
  { unfold evaluate_completion. apply post_bind, post_total. intros [] s1 H1. apply post_bind, post_total.
    intros n s2 _. apply post_bind, post_total. intros row1 s3 _. apply post_bind.
    unfold unit_counters. apply post_bind, post_total. intros [] s4 _. apply post_bind, post_check.
    intros Hid. apply post_total. intros c s5 _. apply post_total. intros a s6 _. split; [|done].
    unfold require_owner in *. by destruct (_ || _). }
  destruct (Hpure a0 s0' Hrun) as [Ho Hid].
  unfold evaluate_completion, operation_now, select_workload, unit_counters, mbind, txn_bind.
  rewrite Ho. unfold mret, txn_ret, gets. rewrite Hrow. simpl. rewrite Ho, Hid. simpl.
  rewrite bool_decide_true by exact Hc. rewrite Hrow. eexists. split; [reflexivity|]. by split_and!.
Qed.

(** C23: completion happens once and for ever.  When the evaluation completes a
    workload it changes the database in exactly these places: the workload's
    row gets the target state, the next version and the reason, one event of
    the completion's kind is appended under the next number, the owner's event
    and the pending telegram notification are inserted under fresh keys, and
    the scheduler credit is deleted.  The target has errors exactly when some
    were accepted.  In every store later operations reach, the workload is
    still in that state, its last event is that completion, and every
    evaluation answers the same target and writes nothing. *)
Theorem completion_is_once_and_for_ever `{Host} (o w : string) (t i : Z) (s s' s2 : Store)
    (a : CompletionAssessment) :
  evaluate_completion o w (Some t) s = Ok (a, s') -> ca_event a = Some i ->
  reachable_from s' s2 ->
  exists row rid r target row2,
    workloads s !! (o, w) = Some row /\ deciding s o w row rid r /\
    i = w_next_event row /\ ca_target a = Some target /\ completed target /\
    (target = COMPLETED_WITH_ERRORS <-> has_errors s o rid r (ca_counters a) = true) /\
    completion_effect s s' o w row target (has_errors s o rid r (ca_counters a)) t
      (completion_payload rid target (ca_counters a) (count_facts s o rid (accepted_failure r))
         (accepted_partial s o rid r)) /\
    workloads s2 !! (o, w) = Some row2 /\ w_state row2 = target /\
    w_version row2 = w_version row + 1 /\
    (exists e, events s2 !! (o, w, i) = Some e /\ ev_type e = completion_event target) /\
    (forall (h : Host) t2, exists a2, @evaluate_completion h o w (Some t2) s2 = Ok (a2, s2) /\
       answers a2 target None (w_version row + 1)).
Proof.
  intros Hrun Hi Hr. pose proof (post_evaluation _ _ _ _ _ _ Hrun) as (row & Hrow & Hev).
  destruct Hev as [b _ Ha|b _ _ Ha|b rid r _ _ _ Ha|b rid r s' _ Hdec Hready Ha Heff];
    try (destruct Ha as (_ & _ & _ & E & _); congruence).
  set (target := completion_target s o rid r (ca_counters b)) in *.
  assert (completed target) as Hc
    by (unfold target, completion_target, completed; destruct (has_errors _ _ _ _ _); set_solver).
  destruct Ha as (_ & Ht & _ & Hev & _). assert (i = w_next_event row) as -> by congruence.
  destruct (log_steps_evolve _ _ (reachable_audits s' s2 Hr)) as [E1 E2].
  destruct Heff as (id1 & id2 & n0 & n1 & n2 & tk & Hids & Ho1 & Ho2 & Hnew & Es').
  assert (workloads s' !! (o, w) = Some (completed_row row target (has_errors s o rid r (ca_counters b)) t))
    as Hrow' by (rewrite Es'; apply lookup_insert_eq).
  destruct (E1 _ _ (log_flow_lookup _ _ _ Hrow')) as (f & Hf & _ & _ & _ & Hsink).
  rewrite Hsink in Hf by (unfold completed in Hc; unfold TERMINAL_WORKLOAD_STATES; simpl; set_solver).
  simpl in Hf. rewrite lookup_fmap in Hf.
  destruct (workloads s2 !! (o, w)) as [row2|] eqn:Hrow2; [|done].
  injection Hf as F1 F2 F3.
  exists row, rid, r, target, row2. split_and!; try done.
  - unfold target, completion_target. destruct (has_errors _ _ _ _ _); done.
  - rewrite Es'. exists id1, id2, n0, n1, n2, tk. by split_and!.
  - exists (mkEvent (completion_event target) (completion_payload rid target (ca_counters b)
      (count_facts s o rid (accepted_failure r)) (accepted_partial s o rid r)) n0).
    split; [|done]. eapply lookup_weaken; [|exact E2]. simpl. rewrite Es'. apply lookup_insert_eq.
  - intros h t2. destruct (evaluation_replays h H o w t2 (Some t) s2 s b s' row2 Hrun Hrow2)
      as (a2 & Ha2 & Hans); [by rewrite F1|].
    exists a2. split; [done|]. rewrite <- F1, <- F2. done.
Qed.

Lemma completion_is_once_and_for_ever_witness :
  exists row2, workloads demo_completed !! ("alice", "workload-1") = Some row2 /\
    w_state row2 = COMPLETED /\ w_version row2 = 4.
Proof.
  assert (exists a, demo_completion demo_finished = Ok (a, demo_completed) /\ ca_event a = Some 4 /\
            ca_target a = Some COMPLETED)
    as (a & Hrun & He & Ht)
    by (eexists; split; [vm_compute; reflexivity | split; reflexivity]).
  destruct (@completion_is_once_and_for_ever demo_host "alice" "workload-1" T0 4 demo_finished
    demo_completed demo_completed a Hrun He (rtc_refl _ _))
    as (row & rid & r & target & row2 & Hrow & _ & _ & Htgt & _ & _ & _ & Hrow2 & Hst & Hv & _).
  exists row2. split; [exact Hrow2|]. split; [congruence|].
  rewrite Hv. assert (Some row = Some (demo_workload <| w_state := RUNNING |>)) as [= ->].
  { rewrite <- Hrow. exact (lookup_singleton_eq ("alice", "workload-1") _). }
  reflexivity.
Defined.
