(* ===== verification/FrozenFacts.v ===== *)
(** * What was recorded of an attempt is kept

    Once an attempt has its snapshots of executor and model, its device, its
    invocation and the summary of its model calls, no operation changes them:
    the relation [frozen] holds across every public operation. *)
From Stdlib Require Import Strings.String.
From S2P Require Import Prelude.
From S2P Require Import PyJson.
From S2P Require Import JsonText.
From S2P Require Import DurableModels.
From S2P Require Import DurableRetry.
From S2P Require Import DurableResults.
From S2P Require Import DurableTables.
From S2P Require Import DurableOutbox.
From S2P Require Import DurableWorkflow.
From S2P Require Import DurableLeases.
From S2P Require Import DurableAdmission.
From S2P Require Import DurableMaterialize.
From S2P Require Import DurableReuse.
From S2P Require Import DurableFacts.
From S2P Require Import DurableSystem.
From S2P Require Import DurableFrames.
From S2P Require Import DurableRefinement.
From S2P Require Import DurableAudit.
Local Open Scope Z_scope.

(** ** The same dictionary *)

Lemma obj_get_elem k v (kvs : object) : obj_get k kvs = Some v -> (k, v) ∈ kvs.
Proof.
  induction kvs as [|[k' v'] kvs IH]; simpl; [done|]. destruct (str_eqb k k') eqn:E.
  - intros [= ->]. apply str_eqb_true in E. subst. left.
  - intros H. right. auto.
Qed.

Lemma elem_obj_get k v (kvs : object) : NoDup kvs.*1 -> (k, v) ∈ kvs -> obj_get k kvs = Some v.
Proof.
  induction kvs as [|[k' v'] kvs IH]; simpl; [by intros _ ?%elem_of_nil|].
  intros [Hk Hn]%NoDup_cons [[= <- <-]|H]%elem_of_cons; [by rewrite str_eqb_refl|].
  destruct (str_eqb k k') eqn:E; [|by apply IH]. apply str_eqb_true in E. subst.
  exfalso. apply Hk. by apply (list_elem_of_fmap_2 fst) in H.
Qed.

(** Equal texts of two dictionaries agree on a field that is a string. *)
Lemma same_text_field k m (x y : object) :
  well_formed (JObj x) = true -> well_formed (JObj y) = true -> same_text x y = true ->
  json_is_str (obj_get k y) m = true -> json_is_str (obj_get k x) m = true.
Proof.
  intros Hx Hy Ht%str_eqb_true Hk.
  destruct (read_json _ Hx (JObj y) EmptyString EmptyString Hy I I) as [Hs _]; [by rewrite Ht|].
  inversion Hs as [|?|kvs mid kvs' Hn Hf Hp]; subst; [done|].
  unfold json_is_str in Hk. destruct (obj_get k y) as [[| | |t| |]|] eqn:Hget; try done.
  apply str_eqb_true in Hk as ->. apply obj_get_elem in Hget. rewrite <- Hp in Hget.
  apply list_elem_of_lookup in Hget as (i & Hi).
  destruct (Forall2_lookup_r _ _ _ _ _ Hf Hi) as ([k' v] & Hi' & Ek & Ev). simpl in *. subst k'.
  assert (v = JStr m) as -> by (by inversion Ev).
  rewrite (elem_obj_get k (JStr m) x Hn) by (by eapply list_elem_of_lookup_2).
  simpl. apply str_eqb_refl.
Qed.

(** ** What is kept of an attempt *)

(** The snapshots were recorded: the placeholder of the claim is gone. *)
Definition sealed (a : Attempt) : Prop :=
  json_is_str (obj_get "mode" (a_executor a)) "dummy" = false /\
  well_formed (JObj (a_executor a)) = true.

Definition recorded_usage (a : Attempt) : option json :=
  match obj_get "llm_usage" (a_metrics a) with Some JNull | None => None | Some v => Some v end.

Record keeps_facts (a a' : Attempt) : Prop := {
  kf_snapshots : sealed a -> sealed a' /\
    same_text (a_executor a) (a_executor a') = true /\ same_text (a_model a) (a_model a') = true;
  kf_device : forall d, a_device a = Some d -> a_device a' = Some d;
  kf_invocation : forall i, a_invocation a = Some i -> a_invocation a' = Some i;
  kf_usage : forall u, recorded_usage a = Some u -> recorded_usage a' = Some u }.

Lemma same_text_eq x y : same_text x y = true <-> dumps (JObj x) = dumps (JObj y).
Proof. unfold same_text. apply str_eqb_true. Qed.

#[export] Instance keeps_facts_preorder : PreOrder keeps_facts.
Proof.
  split.
  - intros a. split; try done. intros Hs. rewrite !same_text_eq. split; [exact Hs | by split].
  - intros a b c [A1 A2 A3 A4] [B1 B2 B3 B4]. split; auto. intros Hs.
    destruct (A1 Hs) as (Hs' & E1 & E2), (B1 Hs') as (Hs'' & F1 & F2).
    rewrite !same_text_eq in *. split; [exact Hs'' | split; congruence].
Qed.

(** Other columns may change, and keys may be added to the metrics. *)
Lemma keeps_facts_columns a a' :
  a_executor a' = a_executor a -> a_model a' = a_model a -> a_device a' = a_device a ->
  a_invocation a' = a_invocation a ->
  (forall u, recorded_usage a = Some u -> recorded_usage a' = Some u) -> keeps_facts a a'.
Proof.
  intros E1 E2 E3 E4 Hu. split; [|congruence|congruence|done].
  unfold sealed. rewrite E1, E2. intros Hs. rewrite !same_text_eq. split; [exact Hs | by split].
Qed.

Definition keeps_usage_key (updates : list (string * json)) : Prop :=
  Forall (fun kv => kv.1 <> "llm_usage") updates.

Lemma obj_get_update updates kvs :
  keeps_usage_key updates -> obj_get "llm_usage" (obj_update kvs updates) = obj_get "llm_usage" kvs.
Proof.
  unfold obj_update. intros H. revert kvs.
  induction H as [|[k v] l Hk _ IH]; intros kvs; simpl; [done|].
  rewrite IH. apply obj_get_set_ne. simpl in Hk. congruence.
Qed.

Lemma usage_updated a a' updates :
  keeps_usage_key updates -> a_metrics a' = obj_update (a_metrics a) updates ->
  forall u, recorded_usage a = Some u -> recorded_usage a' = Some u.
Proof. intros Hk E u. unfold recorded_usage. by rewrite E, obj_get_update. Qed.

Lemma yields_attempt_metrics a updates :
  yields (fun m => m = obj_update (a_metrics a) updates) (attempt_metrics a updates).
Proof. unfold attempt_metrics. apply yields_bind. intros ?. by apply yields_ret. Qed.

(** ** The relation on stores *)

Definition keeps_attempts (s s' : Store) : Prop := attempts s' = attempts s.

#[export] Instance keeps_attempts_preorder : PreOrder keeps_attempts.
Proof. split; unfold keeps_attempts; [done | intros ???; congruence]. Qed.

Ltac ignores_attempts := intros s f; reflexivity.
#[export] Instance att_ignores_ticks : Ignores keeps_attempts ticks. Proof. ignores_attempts. Qed.
#[export] Instance att_ignores_workloads : Ignores keeps_attempts workloads.
Proof. ignores_attempts. Qed.
#[export] Instance att_ignores_events : Ignores keeps_attempts events. Proof. ignores_attempts. Qed.
#[export] Instance att_ignores_outbox : Ignores keeps_attempts outbox. Proof. ignores_attempts. Qed.
#[export] Instance att_ignores_usages : Ignores keeps_attempts usages. Proof. ignores_attempts. Qed.
#[export] Instance att_ignores_revisions : Ignores keeps_attempts revisions.
Proof. ignores_attempts. Qed.
#[export] Instance att_ignores_credits : Ignores keeps_attempts credits.
Proof. ignores_attempts. Qed.
#[export] Instance att_ignores_commands : Ignores keeps_attempts commands.
Proof. ignores_attempts. Qed.
#[export] Instance att_ignores_resolutions : Ignores keeps_attempts resolutions.
Proof. ignores_attempts. Qed.
#[export] Instance att_ignores_dependencies : Ignores keeps_attempts dependencies.
Proof. ignores_attempts. Qed.
#[export] Instance att_ignores_units : Ignores keeps_attempts units. Proof. ignores_attempts. Qed.
#[export] Instance att_ignores_results : Ignores keeps_attempts results.
Proof. ignores_attempts. Qed.
#[export] Instance att_ignores_stages : Ignores keeps_attempts stages. Proof. ignores_attempts. Qed.
#[export] Instance att_ignores_placements : Ignores keeps_attempts placements.
Proof. ignores_attempts. Qed.
#[export] Instance att_ignores_sources : Ignores keeps_attempts sources.
Proof. ignores_attempts. Qed.
#[export] Instance att_ignores_stage_dependencies : Ignores keeps_attempts stage_dependencies.
Proof. ignores_attempts. Qed.
#[export] Instance att_ignores_unit_dependencies : Ignores keeps_attempts unit_dependencies.
Proof. ignores_attempts. Qed.
#[export] Instance att_ignores_materializations : Ignores keeps_attempts materializations.
Proof. ignores_attempts. Qed.

Definition frozen (s s' : Store) : Prop :=
  forall x a, attempts s !! x = Some a ->
    exists a', attempts s' !! x = Some a' /\ keeps_facts a a'.

#[export] Instance frozen_preorder : PreOrder frozen.
Proof.
  split.
  - intros s x a Ha. exists a. by split.
  - intros s t u H1 H2 x a Ha. destruct (H1 x a Ha) as (b & Hb & Hab).
    destruct (H2 x b Hb) as (c & Hc & Hbc). exists c. split; [done | by etrans].
Qed.

Lemma attempts_frozen s s' : keeps_attempts s s' -> frozen s s'.
Proof. intros E x a Ha. exists a. rewrite E. by split. Qed.

Lemma frozen_ignores {T} (tbl : Store -> T) `{!Setter tbl} :
  Ignores keeps_attempts tbl -> Ignores frozen tbl.
Proof. intros Hk s f. apply attempts_frozen, Hk. Qed.
#[export] Hint Extern 5 (Ignores frozen _) => apply frozen_ignores : typeclass_instances.

Lemma guar_attempts_frozen {A} (m : db A) : guar keeps_attempts m -> guar frozen m.
Proof. intros Hm. exact (guar_mono _ _ m Hm attempts_frozen). Qed.

Lemma frozen_update s x a a' :
  attempts s !! x = Some a -> keeps_facts a a' -> frozen s (set_field attempts <[x := a']> s).
Proof.
  intros Ha Hk y b Hb. simpl. destruct (decide (y = x)) as [->|Hy].
  - exists a'. rewrite lookup_insert_eq. split; [done|]. congruence.
  - exists b. rewrite lookup_insert_ne by done. by split.
Qed.

Lemma frozen_insert s x a : attempts s !! x = None -> frozen s (set_field attempts <[x := a]> s).
Proof.
  intros Ha y b Hb. exists b. simpl. rewrite lookup_insert_ne by congruence. by split.
Qed.

Lemma post_frozen_tail {A} (m : db A) s s' :
  guar frozen m -> frozen s s' -> post m s' (fun _ s2 => frozen s s2).
Proof. intros Hm Hs a s2 H. etrans; [exact Hs | exact (Hm s' a s2 H)]. Qed.

(** An attempt that was read stays readable through parts that keep the
    attempts. *)
Lemma post_reading {A B : Type} (T : gmap key2 Attempt) (m : db A) (k : A -> db B) (P : A -> Prop)
    (Q : B -> Store -> Prop) :
  guar keeps_attempts m -> yields P m ->
  (forall a, P a -> forall s, attempts s = T -> post (k a) s Q) ->
  forall s, attempts s = T -> post (m ≫= k) s Q.
Proof.
  intros Hm Hy Hk s Hs. apply post_bind, (post_guar_yields keeps_attempts P); [done..|].
  intros a s' Hs' Ha. apply Hk; [done|]. by rewrite <- Hs.
Qed.

(** ** The two fenced updates *)

Lemma post_pair_frozen lease asts us fa fu what a s (Q : unit -> Store -> Prop) :
  attempts s !! attempt_key lease = Some a -> keeps_facts a (fa a) ->
  (forall s', frozen s s' -> Q tt s') -> post (update_pair lease asts us fa fu what) s Q.
Proof.
  intros Ha Hk HQ. unfold update_pair. apply post_bind. intros ba s1 Hba.
  apply post_bind. intros bu s2 Hbu. apply post_check. intros _. apply HQ.
  apply update_at_inv in Hba as [[_ ->]|(b & Hb & _ & _ & ->)].
  - apply update_at_inv in Hbu as [[_ ->]|(u & _ & _ & _ & ->)]; [reflexivity|].
    by apply attempts_frozen.
  - assert (b = a) as -> by congruence. etrans; [by apply (frozen_update s (attempt_key lease) a (fa a))|].
    apply update_at_inv in Hbu as [[_ ->]|(u & _ & _ & _ & ->)]; [reflexivity|].
    by apply attempts_frozen.
Qed.

(** The row a lease matched holds the stored attempt. *)
Lemma post_matched_attempt s lease (Q : option (LeaseRow * Attempt) -> Store -> Prop) :
  Q None s ->
  (forall r a, attempts s !! attempt_key lease = Some a -> lr_attempt r = Some a -> Q (Some (r, a)) s) ->
  post (lease_matches (lease_row s (l_owner lease) (l_unit lease) (l_attempt lease)) lease) s Q.
Proof.
  intros Hn Hs. apply post_lease_matches; [done|]. intros r a retry Hrow Ha _ _.
  apply lease_row_inv in Hrow as (_ & _ & _ & _ & _ & Hat). apply Hs; [|done].
  by destruct (Hat a Ha).
Qed.

Section Leases.
Context `{Host}.

Lemma att_settle o w n b l : guar keeps_attempts (settle o w n b l).
Proof.
  unfold settle, settle_exhausted, settle_attention, settle_failure_or_pause,
    settle_cancellation, cancel_waiting_units, repair_exhausted_units, waiting_unit_exists,
    active_unit_count, untolerated_count, unit_attention_count, materialization_attention_count,
    exhausted_pending_exists.
  guar.
Qed.
Hint Resolve att_settle : guar.
Hint Extern 6 (guar frozen _) => apply guar_attempts_frozen : guar.

(** The metrics with further keys, other columns beside. *)
Ltac columns := apply keeps_facts_columns; try reflexivity; eapply usage_updated;
  [|reflexivity]; repeat constructor; discriminate.

Lemma frozen_mark lease now : guar frozen (mark_running lease now).
Proof.
  unfold mark_running, select_lease_row. apply guar_bind; [apply _ | guar |]. intros current.
  apply guar_post. intros s. apply post_bind, post_gets, post_bind, post_matched_attempt;
    [close_refl|]. intros r a Ha _.
  read_steps; try close_refl.
  eapply post_pair_frozen; [exact Ha | columns |]. intros s' Hs.
  apply post_frozen_tail; [guar | done].
Qed.

Ltac reading_start s := generalize (eq_refl (attempts s)); generalize s at 1 3.
Ltac reading :=
  eapply (post_reading _ _ _ (fun _ => True)); [solve [guar] | by intros ???? | intros ? _].
Ltac reading_metrics m :=
  eapply post_reading; [solve [guar] | apply yields_attempt_metrics | intros m ->].

(** The end of the four transactions: the pair of updates, then the rest. *)
Lemma post_pair_rest {B : Type} lease asts us fa fu what a (k : unit -> db B) s s1 :
  attempts s !! attempt_key lease = Some a -> attempts s1 = attempts s ->
  keeps_facts a (fa a) -> guar frozen (k tt) ->
  post (update_pair lease asts us fa fu what ≫= k) s1 (fun _ s' => frozen s s').
Proof.
  intros Ha E Hk Hrest. apply post_bind. eapply post_pair_frozen; [by rewrite E | exact Hk |].
  intros s' Hs. apply post_frozen_tail; [done|]. etrans; [|exact Hs]. by apply attempts_frozen.
Qed.

Lemma frozen_store_result lease v ids row a now s :
  attempts s !! attempt_key lease = Some a ->
  post (store_result lease v ids row a now) s (fun _ s' => frozen s s').
Proof.
  intros Ha. unfold store_result, insert_result. reading_start s.
  do 4 reading. reading_metrics metrics. do 5 reading.
  intros s1 E. eapply post_pair_rest; [exact Ha | exact E | columns | guar].
Qed.

Lemma frozen_store_failure lease e d ast row a now s :
  attempts s !! attempt_key lease = Some a ->
  post (store_failure lease e d ast row a now) s (fun _ s' => frozen s s').
Proof.
  intros Ha. unfold store_failure, failure_disposition. reading_start s.
  do 6 reading. reading_metrics metrics.
  intros s1 E. eapply post_pair_rest; [exact Ha | exact E | | guar].
  destruct (bool_decide (ast = A_TIMED_OUT)); columns.
Qed.

Lemma frozen_store_abandonment lease code row a now s :
  attempts s !! attempt_key lease = Some a ->
  post (store_abandonment lease code row a now) s (fun _ s' => frozen s s').
Proof.
  intros Ha. unfold store_abandonment. reading_start s.
  do 2 reading. reading_metrics metrics.
  intros s1 E. eapply post_pair_rest; [exact Ha | exact E | columns | guar].
Qed.

Lemma frozen_commit lease v ids now : guar frozen (commit_result lease v ids now).
Proof.
  unfold commit_result, select_lease_row.
  do 2 (apply guar_bind; [apply _ | solve [guar] | intros ?]).
  apply guar_post. intros s. apply post_bind, post_gets, post_bind, post_gets.
  destruct (head _) as [[k q]|]; [close_refl|].
  apply post_bind, post_matched_attempt; [close_refl|]. intros r att Ha _.
  read_steps; try close_refl. by apply frozen_store_result.
Qed.

Lemma frozen_fail lease e d ast now : guar frozen (fail_attempt lease e d ast now).
Proof.
  unfold fail_attempt, select_lease_row.
  do 2 (apply guar_bind; [apply _ | solve [guar] | intros ?]).
  apply guar_post. intros s. apply post_bind, post_gets.
  apply post_bind, post_matched_attempt; [close_refl|]. intros r att Ha _.
  unfold deadline_reached. read_steps; try close_refl; by apply frozen_store_failure.
Qed.

Lemma frozen_abandon lease code now : guar frozen (abandon_attempt lease code now).
Proof.
  unfold abandon_attempt, select_lease_row.
  do 2 (apply guar_bind; [apply _ | solve [guar] | intros ?]).
  apply guar_post. intros s. apply post_bind, post_gets. post_step; [close_refl|].
  apply post_bind, post_matched_attempt; [close_refl|]. intros r att Ha _.
  read_steps; try close_refl. by apply frozen_store_abandonment.
Qed.

(** ** The two records *)

(** A column set once is the one that stays. *)
Lemma coalesce_kept (a b : option string) v : a = Some v -> coalesce a b = Some v.
Proof. by intros ->. Qed.

Lemma frozen_facts lease ex mo d i now :
  well_formed (JObj ex) = true ->
  guar frozen (record_execution_facts lease ex mo d i now).
Proof.
  intros Hex. unfold record_execution_facts, select_lease_row.
  do 5 (apply guar_bind; [apply _ | solve [guar] | intros ?]).
  apply guar_post. intros s. apply post_bind, post_gets.
  apply post_bind, post_matched_attempt; [close_refl|]. intros r att Ha _.
  apply post_bind, post_open_to_facts; [intros; close_refl|]. intros _ _.
  read_steps. apply post_total. intros [] s1 (x & Hx & _ & ->)%update_one_inv.
  assert (x = att) as -> by congruence.
  apply post_frozen_tail; [guar|]. apply (frozen_update s (attempt_key lease) att); [done|].
  split; [|intros v E; exact (coalesce_kept _ _ v E)..|].
  - intros [Hd Hw]. match goal with H : _ || _ = true |- _ => rename H into Hsame end.
    rewrite Hd in Hsame. simpl in Hsame. apply andb_true_iff in Hsame as [Hs1 Hs2].
    split; [|done]. split; [|done]. apply not_true_is_false. intros Hm.
    by rewrite (same_text_field "mode" "dummy" (a_executor att) ex) in Hd.
  - eapply usage_updated; [|reflexivity]. repeat constructor; discriminate.
Qed.

Lemma frozen_usage lease u now : guar frozen (record_attempt_usage lease u now).
Proof.
  unfold record_attempt_usage, select_lease_row, of_usage.
  do 3 (apply guar_bind; [apply _ | solve [guar] | intros ?]).
  apply guar_post. intros s. apply post_bind, post_gets.
  apply post_bind, post_matched_attempt; [close_refl|]. intros r att Ha _.
  apply post_bind, post_open_to_facts; [intros; close_refl|]. intros _ _.
  read_steps; try close_refl.
  all: apply post_total; intros [] s1 (x & Hx & _ & ->)%update_one_inv.
  all: apply post_frozen_tail; [guar|]; eapply frozen_update; [exact Hx|].
  all: assert (recorded_usage x = None) as E.
  1, 3: unfold recorded_usage; rewrite Ha in Hx; injection Hx as <-;
    match goal with H : obj_get _ _ = _ |- _ => by rewrite H end.
  all: by apply keeps_facts_columns; try reflexivity; intros v; rewrite E.
Qed.

(** ** Reuse, claims and admission only add attempts *)

Lemma frozen_insert_attempt o x a : guar frozen (insert_attempt o x a).
Proof. unfold insert_attempt. guar. apply guar_insert_row. intros. by apply frozen_insert. Qed.
Hint Resolve frozen_insert_attempt : guar.

Lemma frozen_claim q w n d : guar frozen (claim_next q w n d).
Proof. unfold claim_next, select_claim_row, fence_unit, promote_due_retries. guar. Qed.

Lemma frozen_adopt : guar frozen adopt_next.
Proof.
  unfold adopt_next, adopt_candidate, require_attention, store_reuse, insert_result. guar.
Qed.

(** ** Reconciliation *)

(** An invariant of the loop over the rows. *)
Lemma post_collect {A B : Type} (l : list A) (body : A -> db (option B)) (J : Store -> Prop) s :
  J s -> (forall x s0, x ∈ l -> J s0 -> post (body x) s0 (fun _ s1 => J s1)) ->
  post (collect l body) s (fun _ s1 => J s1).
Proof.
  revert s. induction l as [|x l IH]; intros s Hs Hb; simpl; [by apply post_ret|].
  apply post_bind. eapply post_mono; [apply Hb; [left | exact Hs]|]. intros o s1 H1.
  apply post_bind. eapply post_mono; [apply IH; [exact H1|]|].
  - intros y s0 Hy. apply Hb. by right.
  - intros bs s2 H2. by apply post_ret.
Qed.

Definition lost_key (x : ExpiredRow) : key2 := (lr_owner (er_row x), er_attempt_id x).

(** Each selected attempt is as it was read, or has been closed since. *)
Definition as_read (rows : list ExpiredRow) (s : Store) : Prop :=
  forall x, x ∈ rows -> exists b, attempts s !! lost_key x = Some b /\
    (b = er_attempt x \/ is_Some (a_ended b)).

Lemma post_update_lost x fa fu s (Q : unit -> Store -> Prop) :
  (forall b s', attempts s !! lost_key x = Some b -> a_ended b = None ->
     attempts s' = <[lost_key x := fa b]> (attempts s) -> Q tt s') ->
  post (update_lost x fa fu) s Q.
Proof.
  intros HQ. unfold update_lost. apply post_bind. intros ba s1 Hba.
  apply post_bind. intros bu s2 Hbu. apply post_check. intros [-> ->]%andb_true_iff.
  apply update_at_inv in Hba as [[? _]|(b & Hb & Hok & _ & ->)]; [done|].
  apply update_at_inv in Hbu as [[? _]|(u & _ & _ & _ & ->)]; [done|].
  rewrite !andb_true_iff, !bool_decide_eq_true in Hok. eapply HQ; [exact Hb | tauto | done].
Qed.

Lemma frozen_reconcile_one rows x n s s0 :
  x ∈ rows -> frozen s0 s -> as_read rows s ->
  post (reconcile_one n x) s (fun _ s' => frozen s0 s' /\ as_read rows s').
Proof.
  intros Hx Hs Hr. unfold reconcile_one, require_expiry. reading_start s.
  do 3 reading. reading_metrics metrics. reading.
  intros s1 E. apply post_bind, post_update_lost. intros b s2 Hb He E2.
  apply post_bind, (post_guar keeps_attempts); [guar|]. intros _ s3 E3. apply post_ret.
  assert (b = er_attempt x) as ->.
  { destruct (Hr x Hx) as (b' & Hb' & [->|He']); [congruence|].
    rewrite E in Hb. assert (b' = b) as -> by congruence. rewrite He in He'. by destruct He'. }
  assert (frozen s s3) as Hf.
  { etrans; [by apply attempts_frozen|]. etrans; [|by apply attempts_frozen].
    intros y att Ha. rewrite E2. rewrite E in *. destruct (decide (y = lost_key x)) as [->|Hy].
    - eexists. rewrite lookup_insert_eq. split; [done|].
      assert (att = er_attempt x) as -> by congruence. columns.
    - exists att. rewrite lookup_insert_ne by done. by split. }
  split; [by etrans|]. intros y Hy. rewrite E3, E2, E.
  destruct (decide (lost_key y = lost_key x)) as [->|Hk].
  - eexists. rewrite lookup_insert_eq. split; [done|]. right. simpl. by eexists.
  - rewrite lookup_insert_ne by done. by apply Hr.
Qed.

Lemma frozen_reconcile n b : guar frozen (reconcile_expired n b).
Proof.
  unfold reconcile_expired. apply guar_bind; [apply _ | guar |]. intros _.
  apply guar_bind; [apply _ | guar |]. intros possible. guar_step; [guar|].
  apply guar_post. intros s. apply post_bind, post_gets. apply post_bind.
  set (rows := limit _ _). 
  eapply post_mono; [apply (post_collect rows _ (fun s' => frozen s s' /\ as_read rows s'))|].
  - split; [reflexivity|]. intros x Hx. subst rows. apply elem_of_limit in Hx.
    rewrite elem_of_order_by in Hx. apply list_elem_of_omap in Hx as ([k u] & _ & Hx).
    unfold expired_row in Hx. apply bind_Some in Hx as (aid & _ & Hx).
    apply bind_Some in Hx as (row & Hrow & Hx). apply bind_Some in Hx as (a & Ha & Hx).
    case_match; [|done]. injection Hx as <-. apply joined_row_inv in Hrow as (Ho & _ & _ & _ & _ & Hat).
    exists a. split; [|by left]. unfold lost_key. simpl. rewrite Ho. by destruct (Hat a Ha).
  - intros x s0 Hx [Hs Hr]. apply post_bind.
    eapply post_mono; [by apply (frozen_reconcile_one rows x n s0 s)|]. intros t s1 H1. by apply post_ret.
  - intros targets s1 [Hs _]. unfold promote_due_retries. apply post_frozen_tail; [guar | done].
Qed.
End Leases.

#[export] Hint Extern 6 (guar frozen _) => apply guar_attempts_frozen : guar.

(** ** Every public operation *)

Section Others.
Context `{Host}.
Hint Resolve att_settle : guar.

Lemma att_control o w c k v n : guar keeps_attempts (control o w c k v n).
Proof. pose proof att_settle. unfold control, settle_after_control, cancel_waiting_units. guar. Qed.
Lemma att_resolution o w d v k t n :
  guar keeps_attempts (record_attention_resolution o w d v k t n).
Proof. unfold record_attention_resolution, apply_resolution, active_unit_count. guar. Qed.
Lemma att_settle_workload o w n : guar keeps_attempts (settle_workload o w n).
Proof. pose proof att_settle. unfold settle_workload. guar. Qed.
Lemma att_insert_contents o r ad n : guar keeps_attempts (insert_contents o r ad n).
Proof.
  apply frame_insert_contents; try apply _. intros acc stage source row.
  unfold insert_initial_unit, stage_id_of. guar.
Qed.
Hint Resolve att_insert_contents : guar.
Lemma att_admit o w p i t v c y ct pa uc r :
  guar keeps_attempts (admit_revision o w p i t v c y ct pa uc r).
Proof. unfold admit_revision, insert_revision, seal_revision. guar. Qed.
Lemma frozen_heartbeat l e n : guar frozen (heartbeat l e n).
Proof.
  apply guar_attempts_frozen. unfold heartbeat, select_lease_row, lease_matches, extend_lease, require_expiry,
    parse_started. guar.
Qed.
End Others.

#[export] Hint Resolve att_settle att_control att_resolution att_settle_workload att_admit frozen_heartbeat
  frozen_mark frozen_commit frozen_fail frozen_abandon frozen_facts frozen_usage frozen_claim
  frozen_adopt frozen_reconcile : guar.

Lemma op_step_frozen s s' : op_step s s' -> frozen s s'.
Proof.
  destruct 1; match goal with
    | H : ?m _ = Ok (_, _) |- _ =>
        let G := fresh in assert (guar frozen m) as G by guar; exact (G _ _ _ H)
    end.
Qed.

Lemma reachable_frozen s s' : reachable_from s s' -> frozen s s'.
Proof.
  induction 1 as [|s t u Hst _ IH]; [reflexivity|]. etrans; [by apply op_step_frozen | exact IH].
Qed.
