(* ===== verification/DurableCommands.v ===== *)
(** * Recorded commands are kept

    No operation rewrites or removes a recorded command: the relation
    [commands_kept] holds across every public operation, so a key that was
    used once answers from its record ever after. *)
From Stdlib Require Import Strings.String.
From S2P Require Import Prelude.
From S2P Require Import PyJson.
From S2P Require Import Instants.
From S2P Require Import DurableModels.
From S2P Require Import DurableRetry.
From S2P Require Import DurableResults.
From S2P Require Import DurableTables.
From S2P Require Import DurableOutbox.
From S2P Require Import DurableWorkflow.
From S2P Require Import DurableLeases.
From S2P Require Import DurableAdmission.
From S2P Require Import DurableReuse.
From S2P Require Import DurableFacts.
From S2P Require Import DurableSystem.
From S2P Require Import DurableFrames.
Local Open Scope Z_scope.

Definition commands_kept (s s' : Store) : Prop := commands s ⊆ commands s'.

#[export] Instance commands_kept_preorder : PreOrder commands_kept.
Proof. split; unfold commands_kept; [intros s; reflexivity | intros r s t H1 H2; by etrans]. Qed.

Ltac ignores_commands := intros s f; change (commands s ⊆ commands s); reflexivity.
#[export] Instance cmd_ignores_ticks : Ignores commands_kept ticks. Proof. ignores_commands. Qed.
#[export] Instance cmd_ignores_workloads : Ignores commands_kept workloads. Proof. ignores_commands. Qed.
#[export] Instance cmd_ignores_events : Ignores commands_kept events. Proof. ignores_commands. Qed.
#[export] Instance cmd_ignores_outbox : Ignores commands_kept outbox. Proof. ignores_commands. Qed.
#[export] Instance cmd_ignores_usages : Ignores commands_kept usages. Proof. ignores_commands. Qed.
#[export] Instance cmd_ignores_revisions : Ignores commands_kept revisions. Proof. ignores_commands. Qed.
#[export] Instance cmd_ignores_credits : Ignores commands_kept credits. Proof. ignores_commands. Qed.
#[export] Instance cmd_ignores_resolutions : Ignores commands_kept resolutions. Proof. ignores_commands. Qed.
#[export] Instance cmd_ignores_dependencies : Ignores commands_kept dependencies. Proof. ignores_commands. Qed.
#[export] Instance cmd_ignores_units : Ignores commands_kept units. Proof. ignores_commands. Qed.
#[export] Instance cmd_ignores_attempts : Ignores commands_kept attempts. Proof. ignores_commands. Qed.
#[export] Instance cmd_ignores_results : Ignores commands_kept results. Proof. ignores_commands. Qed.
#[export] Instance cmd_ignores_stages : Ignores commands_kept stages. Proof. ignores_commands. Qed.
#[export] Instance cmd_ignores_placements : Ignores commands_kept placements. Proof. ignores_commands. Qed.
#[export] Instance cmd_ignores_sources : Ignores commands_kept sources. Proof. ignores_commands. Qed.
#[export] Instance cmd_ignores_stage_dependencies : Ignores commands_kept stage_dependencies.
Proof. ignores_commands. Qed.
#[export] Instance cmd_ignores_unit_dependencies : Ignores commands_kept unit_dependencies.
Proof. ignores_commands. Qed.
#[export] Instance cmd_ignores_materializations : Ignores commands_kept materializations.
Proof. ignores_commands. Qed.

Section Commands.
Context `{Host}.

Lemma kept_record_command o w k c d r n : guar commands_kept (record_command o w k c d r n).
Proof.
  unfold record_command. guar. apply guar_insert_row. intros s Hnew. unfold commands_kept.
  simpl. by apply insert_subseteq.
Qed.
Hint Resolve kept_record_command : guar.

Lemma kept_settle o w n b m : guar commands_kept (settle o w n b m).
Proof.
  unfold settle, settle_cancellation, settle_exhausted, settle_attention,
    settle_failure_or_pause, cancel_waiting_units, repair_exhausted_units, active_unit_count,
    waiting_unit_exists, exhausted_pending_exists, materialization_attention_count,
    unit_attention_count, untolerated_count. guar.
Qed.
Hint Resolve kept_settle : guar.

Lemma kept_settle_workload o w n : guar commands_kept (settle_workload o w n).
Proof. unfold settle_workload. guar. Qed.
Lemma kept_control o w c k v n : guar commands_kept (control o w c k v n).
Proof. unfold control, settle_after_control, cancel_waiting_units. guar. Qed.
Lemma kept_resolution o w d v k t n :
  guar commands_kept (record_attention_resolution o w d v k t n).
Proof. unfold record_attention_resolution, apply_resolution, active_unit_count. guar. Qed.

Lemma kept_promote n c : guar commands_kept (promote_due_retries n c).
Proof. unfold promote_due_retries. guar. Qed.
Lemma kept_update_pair l a u fa fu what : guar commands_kept (update_pair l a u fa fu what).
Proof. unfold update_pair. guar. Qed.
Lemma kept_lease_matches r l : guar commands_kept (lease_matches r l).
Proof. unfold lease_matches. guar. Qed.
Lemma kept_extend l e n s : guar commands_kept (extend_lease l e n s).
Proof. unfold extend_lease. guar. Qed.
Hint Resolve kept_promote kept_update_pair kept_lease_matches kept_extend : guar.

Lemma kept_claim q w n d : guar commands_kept (claim_next q w n d).
Proof. unfold claim_next, select_claim_row, fence_unit, insert_attempt. guar. Qed.
Lemma kept_mark l n : guar commands_kept (mark_running l n).
Proof. unfold mark_running, select_lease_row, require_expiry. guar. Qed.
Lemma kept_heartbeat l e n : guar commands_kept (heartbeat l e n).
Proof. unfold heartbeat, select_lease_row, require_expiry, parse_started. guar. Qed.
Lemma kept_commit l v d n : guar commands_kept (commit_result l v d n).
Proof.
  unfold commit_result, select_lease_row, parse_started, require_expiry, store_result,
    insert_result. guar.
Qed.
Lemma kept_fail l e d t n : guar commands_kept (fail_attempt l e d t n).
Proof.
  unfold fail_attempt, select_lease_row, require_expiry, deadline_reached,
    parse_started, store_failure, failure_disposition. guar.
Qed.
Lemma kept_abandon l c n : guar commands_kept (abandon_attempt l c n).
Proof. unfold abandon_attempt, select_lease_row, store_abandonment. guar. Qed.
Lemma kept_reconcile n b : guar commands_kept (reconcile_expired n b).
Proof. unfold reconcile_expired, reconcile_one, require_expiry, update_lost. guar. Qed.

Lemma kept_facts l e m d i n : guar commands_kept (record_execution_facts l e m d i n).
Proof. unfold record_execution_facts, select_lease_row. guar. Qed.
Lemma kept_usage l u n : guar commands_kept (record_attempt_usage l u n).
Proof. unfold record_attempt_usage, select_lease_row, of_usage. guar. Qed.
Lemma kept_adopt : guar commands_kept adopt_next.
Proof.
  unfold adopt_next, adopt_candidate, require_attention, store_reuse, insert_attempt,
    insert_result, start_queued_workload. guar.
Qed.

Lemma kept_insert_contents o r ad n : guar commands_kept (insert_contents o r ad n).
Proof.
  apply frame_insert_contents; try apply _. intros acc stage source row.
  unfold insert_initial_unit, stage_id_of. guar.
Qed.
Hint Resolve kept_insert_contents : guar.
Lemma kept_admit o w p i t v c y ct pa uc r :
  guar commands_kept (admit_revision o w p i t v c y ct pa uc r).
Proof. unfold admit_revision, insert_revision, seal_revision. guar. Qed.
End Commands.

#[export] Hint Resolve kept_facts kept_usage kept_adopt kept_admit kept_settle
  kept_settle_workload kept_control kept_resolution kept_claim kept_mark
  kept_heartbeat kept_commit kept_fail kept_abandon kept_reconcile : guar.

Lemma op_step_keeps_commands s s' : op_step s s' -> commands_kept s s'.
Proof.
  destruct 1; match goal with
    | H : ?m _ = Ok (_, _) |- _ =>
        let G := fresh in assert (guar commands_kept m) as G by guar; exact (G _ _ _ H)
    end.
Qed.

Lemma reachable_keeps_commands s s' : reachable_from s s' -> commands_kept s s'.
Proof.
  induction 1 as [|s t u Hst _ IH]; [reflexivity|].
  etrans; [by apply op_step_keeps_commands | exact IH].
Qed.

(** ** Replay *)

Section Replay.
Context `{Host}.

Definition control_digest (command : string) (version : Z) : result schema_error string :=
  digest_json "durable-command"
    (JObj [("command", JStr command); ("expected_version", JInt version)])
    MAX_EVENT_JSON_BYTES.

(** A validation that passed once passes on every store, and reads none. *)
Lemma require_owner_pure o s a s' :
  require_owner o s = Ok (a, s') -> forall t, require_owner o t = Ok (tt, t).
Proof. unfold require_owner. by destruct (_ || _). Qed.

Lemma require_key_pure v n m s k s' :
  require_key v n m s = Ok (k, s') -> k = v /\ forall t, require_key v n m t = Ok (v, t).
Proof.
  unfold require_key. repeat case_match; intros E; try discriminate E. by injection E.
Qed.

Lemma require_version_pure v s x s' :
  require_version v s = Ok (x, s') -> x = v /\ forall t, require_version v t = Ok (v, t).
Proof. unfold require_version. case_match; intros E; try discriminate E. by injection E. Qed.

(** The row a successful command leaves, or found. *)
Lemma post_control o w c k v now s :
  post (control o w c k v now) s (fun r s' =>
    (forall t0, require_owner o t0 = Ok (tt, t0)) /\
    (forall t0, require_key k "idempotency_key" 256 t0 = Ok (k, t0)) /\
    (forall t0, require_version v t0 = Ok (v, t0)) /\
    exists d row, control_digest c v = Ok d /\ commands s' !! (o, w, k) = Some row /\
      cmd_command row = c /\ cmd_digest row = d /\ cmd_result row = r).
Proof.
  unfold control.
  apply post_bind, post_total. intros [] sa H0.
  pose proof (require_owner_pure _ _ _ _ H0) as H1. clear H0.
  apply post_bind, post_total. intros k' sb [-> H2]%require_key_pure.
  apply post_bind, post_total. intros v' sc [-> H3]%require_version_pure.
  fold (control_digest c v).
  apply post_bind, post_lift_result. intros d Hd.
  assert (control_digest c v = Ok d) as Hd' by (destruct (control_digest c v) as [?|[]]; congruence).
  clear Hd. apply post_bind, post_total. intros t s1 _.
  unfold existing_command. apply post_bind, post_bind, post_gets.
  destruct (commands s1 !! (o, w, k)) as [row|] eqn:Hrow.
  - apply post_bind, post_check. intros [Hc%str_eqb_true Hdg%str_eqb_true]%andb_true_iff.
    apply post_ret, post_ret. split_and!; try done. exists d, row. by split_and!.
  - apply post_ret. apply post_bind, post_total. intros ap s2 _.
    apply post_bind, post_total. intros r s3 _. apply post_bind. unfold record_command.
    apply post_bind, post_total. intros x s4 _. apply post_bind, post_ret.
    apply post_total. intros [] s5 [_ ->]%insert_row_inv. apply post_ret.
    split_and!; try done. exists d, (mkCommand c d r t). split_and!; try done. simpl. by rewrite lookup_insert_eq.
Qed.
End Replay.

Lemma require_version_positive v t : 1 <= v -> require_version v t = Ok (v, t).
Proof. intros Hv. unfold require_version. by rewrite (proj2 (Z.ltb_ge _ _) Hv). Qed.

(** A control with valid arguments starts by looking for its record. *)
Lemma control_prologue (h : Host) o w c k v t s d :
  (forall t0, require_owner o t0 = Ok (tt, t0)) ->
  (forall t0, require_key k "idempotency_key" 256 t0 = Ok (k, t0)) ->
  (forall t0, require_version v t0 = Ok (v, t0)) -> control_digest c v = Ok d ->
  @control h o w c k v (Some t) s =
    (replay ← existing_command o w k c d;
     match replay with
     | Some record => mret record
     | None =>
         applied ← apply_control o w c v t;
         result ← settle_after_control o w t applied;
         record_command o w k c d result (Some t) ;;
         mret result
     end) s.
Proof.
  intros H1 H2 H3 Hd. unfold control, mbind, txn_bind. rewrite H1, H2, H3.
  fold (control_digest c v). rewrite Hd. reflexivity.
Qed.
