(* ===== verification/DurableOwners.v ===== *)
(** * Owners do not see each other

    [others o s] is the database without the rows of owner [o].  Every
    operation that names an owner, or a lease or record of one, leaves it as
    it is; [purge_owner] leaves nothing else. *)
From Stdlib Require Import Strings.String.
From S2P Require Import Prelude.
From S2P Require Import PyJson.
From S2P Require Import Instants.
From S2P Require Import DurableModels.
From S2P Require Import DurableRetry.
From S2P Require Import DurableResults.
From S2P Require Import DurableTables.
From S2P Require Import DurableOutbox.
From S2P Require Import DurableWorkflow.
From S2P Require Import DurableLeases.
From S2P Require Import DurableCompletion.
From S2P Require Import DurableAdmission.
From S2P Require Import DurableMaterialize.
From S2P Require Import DurableReuse.
From S2P Require Import DurableFacts.
From S2P Require Import DurableFrames.
Local Open Scope Z_scope.

Definition others (o : string) (s : Store) : Store := mkStore
  (filter (fun kv => kv.1.1 <> o) (workloads s))
  (filter (fun kv => kv.1.1 <> o) (revisions s))
  (filter (fun kv => kv.1.1 <> o) (usages s))
  (filter (fun kv => kv.1.1 <> o) (stages s))
  (filter (fun kv => kv.1.1 <> o) (units s))
  (filter (fun kv => kv.1.1 <> o) (attempts s))
  (filter (fun kv => kv.1.1 <> o) (results s))
  (filter (fun kv => kv.1.1.1 <> o) (events s))
  (filter (fun kv => kv.1.1 <> o) (outbox s))
  (filter (fun kv => kv.1.1 <> o) (credits s))
  (filter (fun kv => kv.1.1.1 <> o) (commands s))
  (filter (fun kv => kv.1.1.1 <> o) (resolutions s))
  (filter (fun kv => kv.1.1 <> o) (artifacts s))
  (filter (fun kv => kv.1.1 <> o) (publications s))
  (filter (fun kv => kv.1.1.1 <> o) (materializations s))
  (filter (fun kv => kv.1.1.1.1 <> o) (stage_dependencies s))
  (filter (fun kv => kv.1.1.1.1 <> o) (unit_dependencies s))
  (filter (fun kv => kv.1.1.1.1.1 <> o) (dependencies s))
  (filter (fun kv => kv.1.1 <> o) (sources s))
  (filter (fun kv => kv.1.1 <> o) (placements s)) O.

Definition isolated (o : string) (s s' : Store) : Prop := others o s' = others o s.

#[export] Instance isolated_preorder o : PreOrder (isolated o).
Proof. split; unfold isolated; [done | intros ???; congruence]. Qed.

(** ** Updates of the owner's rows *)

Class OwnedTable {K R} `{Countable K} (tbl : Store -> gmap K R) `{!Setter tbl}
    (owner_of : K -> string) : Prop :=
  owned_table : forall o s g,
    filter (fun kv => owner_of kv.1 <> o) (g (tbl s)) = filter (fun kv => owner_of kv.1 <> o) (tbl s) ->
    isolated o s (set_field tbl g s).

Ltac owned := intros o s g E; unfold isolated, others; simpl; by rewrite E.
#[export] Instance owned_workloads : OwnedTable workloads fst. Proof. owned. Qed.
#[export] Instance owned_revisions : OwnedTable revisions fst. Proof. owned. Qed.
#[export] Instance owned_usages : OwnedTable usages fst. Proof. owned. Qed.
#[export] Instance owned_units : OwnedTable units fst. Proof. owned. Qed.
#[export] Instance owned_attempts : OwnedTable attempts fst. Proof. owned. Qed.
#[export] Instance owned_results : OwnedTable results fst. Proof. owned. Qed.
#[export] Instance owned_events : OwnedTable events (fun k => k.1.1). Proof. owned. Qed.
#[export] Instance owned_outbox : OwnedTable outbox fst. Proof. owned. Qed.
#[export] Instance owned_credits : OwnedTable credits fst. Proof. owned. Qed.
#[export] Instance owned_commands : OwnedTable commands (fun k => k.1.1). Proof. owned. Qed.
#[export] Instance owned_resolutions : OwnedTable resolutions (fun k => k.1.1). Proof. owned. Qed.
#[export] Instance owned_dependencies : OwnedTable dependencies (fun k => k.1.1.1.1). Proof. owned. Qed.
#[export] Instance owned_stages : OwnedTable stages fst. Proof. owned. Qed.
#[export] Instance owned_placements : OwnedTable placements fst. Proof. owned. Qed.
#[export] Instance owned_sources : OwnedTable sources fst. Proof. owned. Qed.
#[export] Instance owned_stage_dependencies : OwnedTable stage_dependencies (fun k => k.1.1.1).
Proof. owned. Qed.
#[export] Instance owned_unit_dependencies : OwnedTable unit_dependencies (fun k => k.1.1.1).
Proof. owned. Qed.
#[export] Instance owned_materializations : OwnedTable materializations (fun k => k.1.1).
Proof. owned. Qed.

Section Owned.
Context {K R} `{Countable K} (tbl : Store -> gmap K R) `{!Setter tbl} (owner_of : K -> string)
  `{!OwnedTable tbl owner_of}.

Lemma isolated_insert o s k v : owner_of k = o -> isolated o s (set_field tbl <[k := v]> s).
Proof.
  intros Hk. apply owned_table. rewrite map_filter_insert_not; [done|].
  intros y Hy. by apply Hy.
Qed.

Lemma isolated_delete o s k : owner_of k = o -> isolated o s (set_field tbl (delete k) s).
Proof.
  intros Hk. apply owned_table. rewrite map_filter_delete_not; [done|].
  intros y _ Hy. by apply Hy.
Qed.

Lemma isolated_update_at o k ok f : owner_of k = o -> guar (isolated o) (update_at tbl k ok f).
Proof. intros Hk. apply guar_update_at; [apply _|]. intros. by apply isolated_insert. Qed.
Lemma isolated_update_one o k ok f e :
  owner_of k = o -> guar (isolated o) (update_one tbl k ok f e).
Proof. intros Hk. apply guar_update_one. intros. by apply isolated_insert. Qed.
Lemma isolated_insert_row o k v : owner_of k = o -> guar (isolated o) (insert_row tbl k v).
Proof. intros Hk. apply guar_insert_row. intros. by apply isolated_insert. Qed.
Lemma isolated_delete_at o k ok : owner_of k = o -> guar (isolated o) (delete_at tbl k ok).
Proof. intros Hk. apply guar_delete_at; [apply _|]. intros. by apply isolated_delete. Qed.
End Owned.

#[export] Hint Extern 2 (guar (isolated _) (update_at _ _ _ _)) =>
  eapply isolated_update_at; [apply _ | reflexivity] : guar.
#[export] Hint Extern 2 (guar (isolated _) (update_one _ _ _ _ _)) =>
  eapply isolated_update_one; [apply _ | reflexivity] : guar.
#[export] Hint Extern 2 (guar (isolated _) (insert_row _ _ _)) =>
  eapply isolated_insert_row; [apply _ | reflexivity] : guar.
#[export] Hint Extern 2 (guar (isolated _) (delete_at _ _ _)) =>
  eapply isolated_delete_at; [apply _ | reflexivity] : guar.

#[export] Instance isolated_ticks o : Ignores (isolated o) ticks.
Proof. intros s f. reflexivity. Qed.

(** ** The operations of one owner *)

Section Operations.
Context `{Host} (o : string).

Lemma own_append_event w t p : guar (isolated o) (append_event o w t p).
Proof. unfold append_event. guar. Qed.
Hint Resolve own_append_event : guar.

Lemma own_update_outbox i ok f : guar (isolated o) (update_outbox (o, i) ok f).
Proof. unfold update_outbox, guard_unique. guar. Qed.
Hint Resolve own_update_outbox : guar.
Lemma own_enqueue_outbox w e c r k n d : guar (isolated o) (enqueue_outbox o w e c r k n d).
Proof. unfold enqueue_outbox, guard_unique. guar. Qed.
Hint Resolve own_enqueue_outbox : guar.
Lemma own_enqueue_progress w e c r m n : guar (isolated o) (enqueue_progress o w e c r m n).
Proof. unfold enqueue_progress. guar. Qed.
Lemma own_notification w e : guar (isolated o) (enqueue_notification o w e).
Proof. unfold enqueue_notification. guar. Qed.
Hint Resolve own_notification : guar.

Lemma own_create_draft k r p b w : guar (isolated o) (create_draft o k r p b w).
Proof. unfold create_draft. guar. Qed.
Lemma own_update_state w s t v r n : guar (isolated o) (update_state o w s t v r n).
Proof. unfold update_state. guar. Qed.
Hint Resolve own_update_state : guar.
Lemma own_transition w t v p n : guar (isolated o) (transition_workload o w t v p n).
Proof. unfold transition_workload. guar. Qed.
Lemma own_automatic w r t c d n : guar (isolated o) (automatic_transition o w r t c d n).
Proof. unfold automatic_transition. guar. Qed.
Hint Resolve own_automatic : guar.

(** The rows of a revision are rows of its owner. *)
Lemma own_rows (rows : list (key2 * Unit)) (body : key2 * Unit -> db unit) :
  (forall ku, ku ∈ rows -> ku.1.1 = o) ->
  (forall ku, ku.1.1 = o -> guar (isolated o) (body ku)) ->
  guar (isolated o) (for_each rows body).
Proof. intros H1 H2. apply guar_for_each_in; [apply _|]. auto. Qed.

Lemma selected_owner s r n le (p : Unit -> bool) ku :
  ku ∈ limit n (order_by le (select_rows (units s) (fun k u => in_revision o r k u && p u))) ->
  ku.1.1 = o.
Proof.
  destruct ku as [k u]. intros Hin%elem_of_limit. rewrite elem_of_order_by in Hin.
  apply elem_of_select_rows in Hin as [_ Hp]. unfold in_revision in Hp.
  by apply andb_true_iff in Hp as [[E%str_eqb_true _]%andb_true_iff _].
Qed.

Lemma own_cancel_waiting r n c : guar (isolated o) (cancel_waiting_units o r n c).
Proof.
  unfold cancel_waiting_units. apply guar_gets_bind. intros s.
  apply guar_bind; [apply _ | | intros; guar]. apply own_rows; [apply selected_owner|].
  intros ku Hk. by eapply isolated_update_one; [apply _|].
Qed.
Lemma own_repair r n c : guar (isolated o) (repair_exhausted_units o r n c).
Proof.
  unfold repair_exhausted_units. apply guar_gets_bind. intros s. cbv zeta.
  apply guar_bind; [apply _ | | intros; guar].
  apply own_rows; [apply (selected_owner s r c by_update (is_exhausted s o))|].
  intros ku Hk. guar. by eapply isolated_update_one; [apply _|].
Qed.
Hint Resolve own_cancel_waiting own_repair : guar.

Lemma own_add_usage r i u n : guar (isolated o) (add_revision_usage o r i u n).
Proof. unfold add_revision_usage. guar. Qed.
Hint Resolve own_add_usage : guar.
Lemma own_advance_clock r n : guar (isolated o) (advance_revision_clock o r n).
Proof. unfold advance_revision_clock. guar. Qed.
Hint Resolve own_advance_clock : guar.

Lemma own_settle w n b m : guar (isolated o) (settle o w n b m).
Proof.
  unfold settle, settle_cancellation, settle_exhausted, settle_attention,
    settle_failure_or_pause, active_unit_count, waiting_unit_exists, exhausted_pending_exists,
    materialization_attention_count, unit_attention_count, untolerated_count. guar.
Qed.
Hint Resolve own_settle : guar.
Lemma own_settle_workload w n : guar (isolated o) (settle_workload o w n).
Proof. unfold settle_workload. guar. Qed.

(** The checks of a completion only read. *)
Lemma own_required_artifacts s0 r l : guar (isolated o) (required_artifact_checks s0 o r l).
Proof. induction l as [|q l IH]; simpl; [guar|]. unfold artifact_checks. guar. Qed.
Hint Resolve own_required_artifacts : guar.
Lemma own_first_exceeded r l : guar (isolated o) (first_exceeded r l).
Proof. induction l as [|[] l IH]; simpl; [guar|]. unfold plan_budget. guar. Qed.
Hint Resolve own_first_exceeded : guar.
Lemma own_completion w n : guar (isolated o) (evaluate_completion o w n).
Proof.
  unfold evaluate_completion, unit_counters, completion_reasons, budget_violation_in, plan_budget,
    complete_workload. guar.
Qed.

Lemma own_insert_stage r ad n acc numbered :
  guar (isolated o) (insert_stage o r ad n acc numbered).
Proof. unfold insert_stage, insert_placement, checked. guar. Qed.
Lemma own_initial_units r ad n mode key source row acc :
  guar (isolated o) (insert_initial_units o r ad n mode key source row acc).
Proof. unfold insert_initial_units, insert_initial_unit, stage_id_of. guar. Qed.
Hint Resolve own_insert_stage own_initial_units : guar.
Lemma own_insert_contents r ad n : guar (isolated o) (insert_contents o r ad n).
Proof.
  unfold insert_contents, insert_dependencies, insert_source, insert_materialization, stage_id_of.
  guar.
Qed.
Hint Resolve own_insert_contents : guar.
Lemma own_admit w p i t v c y ct pa uc r :
  guar (isolated o) (admit_revision o w p i t v c y ct pa uc r).
Proof. unfold admit_revision, insert_revision, seal_revision. guar. Qed.

Lemma own_insert_binding r unit_id numbered :
  guar (isolated o) (insert_binding o r unit_id numbered).
Proof. destruct numbered as [ordinal [[[result_id offset] length] role]]. unfold insert_binding. guar. Qed.
Hint Resolve own_insert_binding : guar.
Lemma own_materialize w n : guar (isolated o) (materialize_batch o w n).
Proof.
  apply (frame_materialize_batch (isolated o)); intros;
    unfold candidate_step, cursor_step, insert_candidate, insert_unit, bind_dependencies,
      save_cursor, mark_root; guar.
Qed.

Lemma own_insert_dependencies r i seen rows :
  guar (isolated o) (insert_result_dependencies o r i seen rows).
Proof. revert seen. induction rows as [|d rows IH]; intros seen; simpl; guar. Qed.

Lemma own_refresh w : guar (isolated o) (refresh_usage_complete o w).
Proof. unfold refresh_usage_complete. guar. Qed.

Lemma own_record_command w k c d r n : guar (isolated o) (record_command o w k c d r n).
Proof. unfold record_command. guar. Qed.
Hint Resolve own_record_command : guar.
Lemma own_control w c k v n : guar (isolated o) (control o w c k v n).
Proof. unfold control, apply_control, settle_after_control. guar. Qed.
Lemma own_resolution w d v k t n :
  guar (isolated o) (record_attention_resolution o w d v k t n).
Proof.
  unfold record_attention_resolution, apply_resolution, active_unit_count, grant_retry,
    blocked_dependency_count, materialization_attention_count. guar.
Qed.
End Operations.

(** ** The operations of a lease *)

Section LeaseOperations.
Context `{Host} (lease : Lease).
Abbreviation mine := (isolated (l_owner lease)).

Lemma own_update_pair a u fa fu what : guar mine (update_pair lease a u fa fu what).
Proof. unfold update_pair. guar. Qed.
Hint Resolve own_update_pair own_settle : guar.

Lemma own_mark_unaccounted row a n :
  lr_owner row = l_owner lease -> guar mine (mark_unaccounted_usage row a n).
Proof. intros <-. unfold mark_unaccounted_usage. guar. apply own_add_usage. Qed.
Hint Resolve own_mark_unaccounted own_advance_clock own_add_usage : guar.

(** The row a lease matches is a row of its owner. *)
Lemma own_matched {A} s (k : option (LeaseRow * Attempt) -> db A) :
  guar mine (k None) ->
  (forall r a, lr_owner r = l_owner lease -> guar mine (k (Some (r, a)))) ->
  guar mine (lease_matches (lease_row s (l_owner lease) (l_unit lease) (l_attempt lease)) lease
               ≫= k).
Proof.
  intros Hn Hs. unfold lease_matches. destruct (lease_row _ _ _ _) as [r|] eqn:Hrow; [|exact Hn].
  assert (lr_owner r = l_owner lease) as Ho.
  { unfold lease_row in Hrow. apply bind_Some in Hrow as (row & Hrow & H').
    apply bind_Some in H' as (w & _ & [= <-]). unfold joined_row in Hrow.
    repeat (apply bind_Some in Hrow as (? & _ & Hrow)). by injection Hrow as <-. }
  destruct (lr_attempt r) as [a|]; [|exact Hn].
  intros t b t' Hrun. unfold mbind, txn_bind in Hrun.
  destruct (of_value _ t) as [[p t1]|e] eqn:Hp; [|done].
  assert (t1 = t) as -> by (unfold of_value, lift_result in Hp; repeat case_match; congruence).
  unfold mret, txn_ret in Hrun. destruct (lease_matches_with r a p lease).
  - exact (Hs r a Ho _ _ _ Hrun).
  - exact (Hn _ _ _ Hrun).
Qed.

Lemma own_mark_running n : guar mine (mark_running lease n).
Proof.
  unfold mark_running, select_lease_row, require_expiry. guar_step; [guar|].
  apply guar_gets_bind. intros s. apply own_matched; [guar|]. intros lr la Ho. guar.
Qed.

Lemma own_heartbeat e n : guar mine (heartbeat lease e n).
Proof.
  unfold heartbeat, extend_lease, select_lease_row, require_expiry, parse_started.
  do 2 (guar_step; [guar|]).
  apply guar_gets_bind. intros s. apply own_matched; [guar|]. intros lr la Ho. guar.
Qed.

Hint Resolve own_insert_dependencies : guar.

Lemma own_commit v ids n : guar mine (commit_result lease v ids n).
Proof.
  unfold commit_result, select_lease_row, parse_started, require_expiry, store_result,
    account_commit, insert_result.
  do 2 (guar_step; [guar|]). apply guar_gets_bind. intros s. guar_step; [guar|]. guar_step; [guar|].
  apply own_matched; [guar|]. intros lr la Ho. guar.
Qed.

Lemma own_fail e d t n : guar mine (fail_attempt lease e d t n).
Proof.
  unfold fail_attempt, select_lease_row, require_expiry, deadline_reached,
    parse_started, store_failure, failure_disposition.
  do 2 (guar_step; [guar|]). apply guar_gets_bind. intros s.
  apply own_matched; [guar|]. intros lr la Ho. guar.
Qed.

Lemma own_abandon c n : guar mine (abandon_attempt lease c n).
Proof.
  unfold abandon_attempt, select_lease_row, store_abandonment.
  do 2 (guar_step; [guar|]). apply guar_gets_bind. intros s. guar_step; [guar|].
  apply own_matched; [guar|]. intros lr la Ho. guar.
Qed.

Lemma own_facts ex mo d i n : guar mine (record_execution_facts lease ex mo d i n).
Proof.
  unfold record_execution_facts, select_lease_row.
  do 5 (guar_step; [guar|]). apply guar_gets_bind. intros s.
  apply own_matched; [guar|]. intros lr la Ho. guar.
Qed.

Lemma own_usage u n : guar mine (record_attempt_usage lease u n).
Proof.
  unfold record_attempt_usage, select_lease_row, of_usage.
  do 3 (guar_step; [guar|]). apply guar_gets_bind. intros s.
  apply own_matched; [guar|]. intros lr la Ho. guar.
Qed.

Lemma own_delivery_started (record : OutboxRecord) w n :
  guar (isolated (or_owner record)) (mark_outbox_delivery_started record w n).
Proof. unfold mark_outbox_delivery_started. guar. Qed.
Lemma own_confirm (record : OutboxRecord) w a n :
  guar (isolated (or_owner record)) (confirm_outbox record w a n).
Proof. unfold confirm_outbox. guar. Qed.
Lemma own_release (record : OutboxRecord) w t n :
  guar (isolated (or_owner record)) (release_outbox record w t n).
Proof. unfold release_outbox. guar. apply own_update_outbox. Qed.
Lemma own_cancel (record : OutboxRecord) w c n :
  guar (isolated (or_owner record)) (cancel_outbox record w c n).
Proof. unfold cancel_outbox. guar. Qed.
End LeaseOperations.

(** ** Reuse stays with one owner *)

Section ReuseOperations.
Context `{Host}.

Lemma own_start_queued o w row n c : guar (isolated o) (start_queued_workload o w row n c).
Proof. unfold start_queued_workload. guar. apply own_append_event. Qed.
Hint Resolve own_start_queued own_settle own_add_usage own_insert_dependencies : guar.

Lemma own_adopt_candidate row n : guar (isolated (ru_owner row)) (adopt_candidate row n).
Proof.
  unfold adopt_candidate, require_attention, store_reuse, insert_attempt, insert_result.
  guar.
Qed.

Lemma adopt_isolated s row a s' :
  reuse_candidate s = Some row -> adopt_next s = Ok (a, s') -> isolated (ru_owner row) s s'.
Proof.
  intros Hrow. revert a s'. change (post adopt_next s (fun _ s' => isolated (ru_owner row) s s')).
  unfold adopt_next. apply post_bind, post_total. intros now s1 [= <- <-].
  apply post_bind, post_gets.
  match goal with |- post (match ?c with _ => _ end) _ _ => change c with (reuse_candidate s) end.
  rewrite Hrow.
  apply post_bind, (post_guar (isolated (ru_owner row))); [apply own_adopt_candidate|].
  intros n s2 R. by apply post_ret.
Qed.
End ReuseOperations.

(** ** One step of one owner *)

Inductive owner_step (o : string) : Store -> Store -> Prop :=
| own_step_create h k r p b w a s s' :
    @create_draft h o k r p b w s = Ok (a, s') -> owner_step o s s'
| own_step_admit h w p i t v c y ct pa uc r a s s' :
    @admit_revision h o w p i t v c y ct pa uc r s = Ok (a, s') -> owner_step o s s'
| own_step_transition h w t v p n a s s' :
    @transition_workload h o w t v p n s = Ok (a, s') -> owner_step o s s'
| own_step_settle_part h w n l a s s' :
    @settle h o w n true l s = Ok (a, s') -> owner_step o s s'
| own_step_settle h w n a s s' : @settle_workload h o w n s = Ok (a, s') -> owner_step o s s'
| own_step_refresh h w a s s' : @refresh_usage_complete h o w s = Ok (a, s') -> owner_step o s s'
| own_step_materialize h w n a s s' :
    @materialize_batch h o w n s = Ok (a, s') -> owner_step o s s'
| own_step_complete h w n a s s' :
    @evaluate_completion h o w n s = Ok (a, s') -> owner_step o s s'
| own_step_control h w c k v n a s s' :
    @control h o w c k v n s = Ok (a, s') -> owner_step o s s'
| own_step_resolve h w d v k t n a s s' :
    @record_attention_resolution h o w d v k t n s = Ok (a, s') -> owner_step o s s'
| own_step_progress h w e c r m n a s s' :
    @enqueue_progress h o w e c r m n s = Ok (a, s') -> owner_step o s s'
| own_step_mark h l n a s s' : l_owner l = o -> @mark_running h l n s = Ok (a, s') -> owner_step o s s'
| own_step_heartbeat h l e n a s s' :
    l_owner l = o -> @heartbeat h l e n s = Ok (a, s') -> owner_step o s s'
| own_step_facts h l e m d i n a s s' :
    l_owner l = o -> @record_execution_facts h l e m d i n s = Ok (a, s') -> owner_step o s s'
| own_step_usage h l u n a s s' :
    l_owner l = o -> @record_attempt_usage h l u n s = Ok (a, s') -> owner_step o s s'
| own_step_adopt h row a s s' :
    ru_owner row = o -> reuse_candidate s = Some row -> @adopt_next h s = Ok (a, s') ->
    owner_step o s s'
| own_step_commit h l v d n a s s' :
    l_owner l = o -> @commit_result h l v d n s = Ok (a, s') -> owner_step o s s'
| own_step_fail h l e d t n a s s' :
    l_owner l = o -> @fail_attempt h l e d t n s = Ok (a, s') -> owner_step o s s'
| own_step_abandon h l c n a s s' :
    l_owner l = o -> @abandon_attempt h l c n s = Ok (a, s') -> owner_step o s s'
| own_step_started h r w n a s s' :
    or_owner r = o -> @mark_outbox_delivery_started h r w n s = Ok (a, s') -> owner_step o s s'
| own_step_confirm h r w k n a s s' :
    or_owner r = o -> @confirm_outbox h r w k n s = Ok (a, s') -> owner_step o s s'
| own_step_release h r w t n a s s' :
    or_owner r = o -> @release_outbox h r w t n s = Ok (a, s') -> owner_step o s s'
| own_step_cancel h r w c n a s s' :
    or_owner r = o -> @cancel_outbox h r w c n s = Ok (a, s') -> owner_step o s s'.

#[export] Hint Resolve own_admit own_refresh own_materialize own_enqueue_progress own_create_draft
  own_transition own_settle own_settle_workload own_completion own_control own_resolution
  own_mark_running own_heartbeat own_commit own_fail own_abandon own_facts own_usage
  own_delivery_started own_confirm own_release own_cancel : guar.

Lemma owner_step_isolated o s s' : owner_step o s s' -> isolated o s s'.
Proof.
  destruct 1; subst; try (by eapply adopt_isolated); match goal with
    | H : ?m _ = Ok (_, _) |- isolated ?o _ _ =>
        let G := fresh in assert (guar (isolated o) m) as G by guar; exact (G _ _ _ H)
    end.
Qed.

Lemma owner_steps_isolated o s s' : rtc (owner_step o) s s' -> isolated o s s'.
Proof.
  induction 1 as [|s t u Hst _ IH]; [reflexivity|]. etrans; [by apply owner_step_isolated | exact IH].
Qed.

(** ** Purging *)

Lemma post_purge o s (Q : Z -> Store -> Prop) :
  (forall n s', others o s' = others o s -> set_field ticks (fun _ => O) s' = others o s ->
     n = count_rows (workloads s) (fun k _ => str_eqb k.1 o) -> Q n s') ->
  post (purge_owner o) s Q.
Proof.
  intros HQ. unfold purge_owner, require_owner. apply post_bind.
  destruct (_ || _); [apply post_raise|]. apply post_ret.
  apply post_bind, post_gets, post_bind, post_modify, post_ret.
  apply HQ; [|done..]. unfold others. simpl.
  f_equal; apply map_filter_filter_l; tauto.
Qed.
