(* ===== verification/DurableLineage.v ===== *)
(** * Revisions and the workloads they belong to

    A revision row is written once: afterwards only its generation of manual
    retries and its usage flag move.  Every operation but an admission
    [keeps_lineage]: it leaves the revisions without those columns and the
    active revision of every workload as they are, and a workload it creates
    has none. *)
From Stdlib Require Import Strings.String.
From S2P Require Import Prelude.
From S2P Require Import PyJson.
From S2P Require Import Instants.
From S2P Require Import DurableModels.
From S2P Require Import DurableRetry.
From S2P Require Import DurableResults.
From S2P Require Import DurablePlans.
From S2P Require Import DurableTables.
From S2P Require Import DurableOutbox.
From S2P Require Import DurableWorkflow.
From S2P Require Import DurableLeases.
From S2P Require Import DurableCompletion.
From S2P Require Import DurableAdmission.
From S2P Require Import DurableReuse.
From S2P Require Import DurableFacts.
From S2P Require Import DurableSystem.
From S2P Require Import DurableFrames.
From S2P Require Import WorkloadProtocol.
From S2P Require Import DurableAudit.
Local Open Scope Z_scope.

(** What is fixed of a revision. *)
Definition fixed (r : Revision) : Revision :=
  r <| r_manual_generation := 0 |> <| r_usage_complete := false |>.

Definition actives (s : Store) : gmap key2 (option string) := w_active_revision <$> workloads s.

Record keeps_lineage (s s' : Store) : Prop := {
  kl_revisions : fixed <$> revisions s' = fixed <$> revisions s;
  kl_actives : forall k, actives s' !! k = actives s !! k
                         \/ (actives s !! k = None /\ actives s' !! k = Some None);
  kl_usages : dom (usages s') = dom (usages s) }.

#[export] Instance keeps_lineage_preorder : PreOrder keeps_lineage.
Proof.
  split; [intros s; split; auto|]. intros s t u [A1 A2 A3] [B1 B2 B3].
  split; [congruence| |congruence]. intros k. destruct (A2 k) as [E|[]], (B2 k) as [E'|[]];
    [left; congruence | right; split; congruence..].
Qed.

Ltac ignores_lineage := intros s f; split; [reflexivity | by left | reflexivity].
#[export] Instance lin_ignores_ticks : Ignores keeps_lineage ticks. Proof. ignores_lineage. Qed.
#[export] Instance lin_ignores_events : Ignores keeps_lineage events. Proof. ignores_lineage. Qed.
#[export] Instance lin_ignores_outbox : Ignores keeps_lineage outbox. Proof. ignores_lineage. Qed.
#[export] Instance lin_ignores_credits : Ignores keeps_lineage credits. Proof. ignores_lineage. Qed.
#[export] Instance lin_ignores_commands : Ignores keeps_lineage commands. Proof. ignores_lineage. Qed.
#[export] Instance lin_ignores_resolutions : Ignores keeps_lineage resolutions.
Proof. ignores_lineage. Qed.
#[export] Instance lin_ignores_dependencies : Ignores keeps_lineage dependencies.
Proof. ignores_lineage. Qed.
#[export] Instance lin_ignores_units : Ignores keeps_lineage units. Proof. ignores_lineage. Qed.
#[export] Instance lin_ignores_attempts : Ignores keeps_lineage attempts. Proof. ignores_lineage. Qed.
#[export] Instance lin_ignores_results : Ignores keeps_lineage results. Proof. ignores_lineage. Qed.
#[export] Instance lin_ignores_stages : Ignores keeps_lineage stages. Proof. ignores_lineage. Qed.
#[export] Instance lin_ignores_placements : Ignores keeps_lineage placements.
Proof. ignores_lineage. Qed.
#[export] Instance lin_ignores_sources : Ignores keeps_lineage sources. Proof. ignores_lineage. Qed.
#[export] Instance lin_ignores_stage_dependencies : Ignores keeps_lineage stage_dependencies.
Proof. ignores_lineage. Qed.
#[export] Instance lin_ignores_unit_dependencies : Ignores keeps_lineage unit_dependencies.
Proof. ignores_lineage. Qed.
#[export] Instance lin_ignores_materializations : Ignores keeps_lineage materializations.
Proof. ignores_lineage. Qed.

(** An update that leaves a column alone, as seen through that column. *)
Lemma fmap_insert_same `{Countable K} {A B} (g : A -> B) (m : gmap K A) k x y :
  m !! k = Some x -> g y = g x -> g <$> <[k := y]> m = g <$> m.
Proof. intros Hx E. rewrite fmap_insert, E. apply insert_id. by rewrite lookup_fmap, Hx. Qed.

Lemma lineage_workload s k w w' :
  workloads s !! k = Some w -> w_active_revision w' = w_active_revision w ->
  keeps_lineage s (set_field workloads <[k := w']> s).
Proof.
  intros Hw E. split; [done| |done]. left. unfold actives. simpl.
  by rewrite (fmap_insert_same _ _ k w).
Qed.

Lemma lineage_new_workload s k w' :
  workloads s !! k = None -> w_active_revision w' = None ->
  keeps_lineage s (set_field workloads <[k := w']> s).
Proof.
  intros Hw E. split; [done| |done]. intros x. unfold actives. simpl. rewrite fmap_insert, E.
  destruct (decide (x = k)) as [->|]; [right | left; by rewrite lookup_insert_ne].
  by rewrite lookup_insert_eq, lookup_fmap, Hw.
Qed.

Lemma lineage_revision s k r r' :
  revisions s !! k = Some r -> fixed r' = fixed r ->
  keeps_lineage s (set_field revisions <[k := r']> s).
Proof.
  intros Hr E. split; [|by left|done]. simpl. by rewrite (fmap_insert_same _ _ k r).
Qed.

(** A usage row is updated, never made or removed. *)
Lemma lineage_usage s k us us' :
  usages s !! k = Some us -> keeps_lineage s (set_field usages <[k := us']> s).
Proof.
  intros Hu. split; [done | by left |]. simpl. rewrite dom_insert_L.
  apply elem_of_dom_2 in Hu. set_solver.
Qed.

#[export] Hint Extern 2 (guar keeps_lineage (insert_row workloads _ _)) =>
  apply guar_insert_row; intros; apply lineage_new_workload; [assumption | reflexivity] : guar.
#[export] Hint Extern 2 (guar keeps_lineage (update_one workloads _ _ _ _)) =>
  apply guar_update_one; intros; eapply lineage_workload; [eassumption | reflexivity] : guar.
#[export] Hint Extern 2 (guar keeps_lineage (update_at workloads _ _ _)) =>
  apply guar_update_at; [apply _ | intros; eapply lineage_workload; [eassumption | reflexivity]]
  : guar.
#[export] Hint Extern 2 (guar keeps_lineage (update_one usages _ _ _ _)) =>
  apply guar_update_one; intros; eapply lineage_usage; eassumption : guar.
#[export] Hint Extern 2 (guar keeps_lineage (update_at revisions _ _ _)) =>
  apply guar_update_at; [apply _ | intros; eapply lineage_revision; [eassumption | reflexivity]]
  : guar.
#[export] Hint Extern 2 (guar keeps_lineage (update_one revisions _ _ _ _)) =>
  apply guar_update_one; intros; eapply lineage_revision; [eassumption | reflexivity] : guar.

(** ** Every operation but admission *)

Section Lineage.
Context `{Host}.

Lemma lin_add_usage o r i u n : guar keeps_lineage (add_revision_usage o r i u n).
Proof. unfold add_revision_usage. guar. Qed.
Lemma lin_refresh o w : guar keeps_lineage (refresh_usage_complete o w).
Proof. unfold refresh_usage_complete. guar. Qed.
Hint Resolve lin_add_usage : guar.
Lemma lin_advance_clock o r n : guar keeps_lineage (advance_revision_clock o r n).
Proof. unfold advance_revision_clock. guar. Qed.
Hint Resolve lin_advance_clock : guar.
Lemma lin_account_commit l v r a n : guar keeps_lineage (account_commit l v r a n).
Proof. unfold account_commit. guar. Qed.
Lemma lin_mark_unaccounted r a n : guar keeps_lineage (mark_unaccounted_usage r a n).
Proof. unfold mark_unaccounted_usage. guar. Qed.
Hint Resolve lin_account_commit lin_mark_unaccounted : guar.

Lemma lin_append_event o w t p : guar keeps_lineage (append_event o w t p).
Proof. unfold append_event. guar. Qed.
Hint Resolve lin_append_event : guar.
Lemma lin_enqueue_progress o w e c r m n : guar keeps_lineage (enqueue_progress o w e c r m n).
Proof. unfold enqueue_progress. guar. Qed.
Lemma lin_notification o w e : guar keeps_lineage (enqueue_notification o w e).
Proof. unfold enqueue_notification. guar. Qed.
Hint Resolve lin_notification : guar.
Lemma lin_update_state o w s t v r n : guar keeps_lineage (update_state o w s t v r n).
Proof. unfold update_state. guar. Qed.
Hint Resolve lin_update_state : guar.
Lemma lin_create_draft o k r p b w : guar keeps_lineage (create_draft o k r p b w).
Proof. unfold create_draft. guar. Qed.
Lemma lin_transition o w t v p n : guar keeps_lineage (transition_workload o w t v p n).
Proof. unfold transition_workload. guar. Qed.
Lemma lin_automatic o w r t c d n : guar keeps_lineage (automatic_transition o w r t c d n).
Proof. unfold automatic_transition. guar. Qed.
Hint Resolve lin_automatic : guar.

Lemma lin_settle o w n b m : guar keeps_lineage (settle o w n b m).
Proof.
  unfold settle, settle_cancellation, settle_exhausted, settle_attention,
    settle_failure_or_pause, cancel_waiting_units, repair_exhausted_units, active_unit_count,
    waiting_unit_exists, exhausted_pending_exists, materialization_attention_count,
    unit_attention_count, untolerated_count. guar.
Qed.
Hint Resolve lin_settle : guar.
Lemma lin_settle_workload o w n : guar keeps_lineage (settle_workload o w n).
Proof. unfold settle_workload. guar. Qed.

Lemma lin_apply_control o w c v n : guar keeps_lineage (apply_control o w c v n).
Proof. unfold apply_control. guar. Qed.
Lemma lin_control o w c k v n : guar keeps_lineage (control o w c k v n).
Proof. unfold control, apply_control, settle_after_control, cancel_waiting_units. guar. Qed.
Lemma lin_resolution o w d v k t n :
  guar keeps_lineage (record_attention_resolution o w d v k t n).
Proof.
  unfold record_attention_resolution, apply_resolution, active_unit_count, grant_retry,
    blocked_dependency_count, materialization_attention_count. guar.
Qed.
Lemma lin_complete_workload o w r v n t e p :
  guar keeps_lineage (complete_workload o w r v n t e p).
Proof. unfold complete_workload. guar. Qed.
Hint Resolve lin_complete_workload : guar.
Lemma lin_completion o w n : guar keeps_lineage (evaluate_completion o w n).
Proof. unfold evaluate_completion. guar. Qed.

Lemma lin_promote n c : guar keeps_lineage (promote_due_retries n c).
Proof. unfold promote_due_retries. guar. Qed.
Lemma lin_update_pair l a u fa fu what : guar keeps_lineage (update_pair l a u fa fu what).
Proof. unfold update_pair. guar. Qed.
Lemma lin_lease_matches r l : guar keeps_lineage (lease_matches r l).
Proof. unfold lease_matches. guar. Qed.
Lemma lin_extend l e n s : guar keeps_lineage (extend_lease l e n s).
Proof. unfold extend_lease. guar. Qed.
Hint Resolve lin_promote lin_update_pair lin_lease_matches lin_extend : guar.

Lemma lin_claim q w n d : guar keeps_lineage (claim_next q w n d).
Proof.
  unfold claim_next, select_claim_row, fence_unit, insert_attempt, start_queued_workload. guar.
Qed.
Lemma lin_mark l n : guar keeps_lineage (mark_running l n).
Proof. unfold mark_running, select_lease_row, require_expiry. guar. Qed.
Lemma lin_heartbeat l e n : guar keeps_lineage (heartbeat l e n).
Proof. unfold heartbeat, select_lease_row, require_expiry, parse_started. guar. Qed.
Lemma lin_commit l v d n : guar keeps_lineage (commit_result l v d n).
Proof.
  unfold commit_result, select_lease_row, parse_started, require_expiry, store_result,
    insert_result. guar.
Qed.
Lemma lin_fail l e d t n : guar keeps_lineage (fail_attempt l e d t n).
Proof.
  unfold fail_attempt, select_lease_row, require_expiry, deadline_reached,
    parse_started, store_failure, failure_disposition. guar.
Qed.
Lemma lin_abandon l c n : guar keeps_lineage (abandon_attempt l c n).
Proof. unfold abandon_attempt, select_lease_row, store_abandonment. guar. Qed.
Lemma lin_reconcile n b : guar keeps_lineage (reconcile_expired n b).
Proof. unfold reconcile_expired, reconcile_one, require_expiry, update_lost. guar. Qed.
Lemma lin_facts l e m d i n : guar keeps_lineage (record_execution_facts l e m d i n).
Proof. unfold record_execution_facts, select_lease_row. guar. Qed.
Lemma lin_usage l u n : guar keeps_lineage (record_attempt_usage l u n).
Proof. unfold record_attempt_usage, select_lease_row, of_usage. guar. Qed.
Lemma lin_adopt : guar keeps_lineage adopt_next.
Proof.
  unfold adopt_next, adopt_candidate, require_attention, store_reuse, insert_attempt,
    insert_result, start_queued_workload. guar.
Qed.

Lemma lin_outbox :
  (forall c w n d t, guar keeps_lineage (claim_outbox c w n d t)) /\
  (forall r w n, guar keeps_lineage (mark_outbox_delivery_started r w n)) /\
  (forall r w k n, guar keeps_lineage (confirm_outbox r w k n)) /\
  (forall r w t n, guar keeps_lineage (release_outbox r w t n)) /\
  (forall r w c n, guar keeps_lineage (cancel_outbox r w c n)) /\
  (forall a c n, guar keeps_lineage (prune_outbox a c n)).
Proof. split_and!; intros; guar. Qed.
End Lineage.

#[export] Hint Resolve lin_facts lin_usage lin_adopt lin_create_draft lin_transition lin_settle
  lin_settle_workload lin_refresh lin_control
  lin_resolution lin_completion lin_claim lin_mark lin_heartbeat lin_commit lin_fail lin_abandon
  lin_reconcile lin_enqueue_progress : guar.

(** One step of the store is an admission, or keeps the lineage. *)
Lemma op_step_lineage s s' :
  op_step s s' ->
  keeps_lineage s s' \/
  exists h o w p i t v c y ct pa uc r a,
    @admit_revision h o w p i t v c y ct pa uc r s = Ok (a, s').
Proof.
  destruct 1; try (left; match goal with
    | H : ?m _ = Ok (_, _) |- _ =>
        let G := fresh in assert (guar keeps_lineage m) as G by guar; exact (G _ _ _ H)
    end).
  right. eauto 20.
Qed.
