(* ===== verification/DurableHomes.v ===== *)
(** * The plan of a revision and the places of its units

    Only an admission and a materialization write the tables below a revision:
    stages, placements, edges, sources, cursors and unit dependencies, and only
    they create units.  Every other operation [keeps_plan]: the six tables are
    untouched, and every unit stays where it is, with the columns its creation
    gave it. *)
From Stdlib Require Import Strings.String.
From S2P Require Import Prelude.
From S2P Require Import PyJson.
From S2P Require Import Instants.
From S2P Require Import DurableModels.
From S2P Require Import DurableRetry.
From S2P Require Import DurableResults.
From S2P Require Import DurableTables.
From S2P Require Import DurableOutbox.
From S2P Require Import DurableWorkflow.
From S2P Require Import DurableLeases.
From S2P Require Import DurableCompletion.
From S2P Require Import DurableAdmission.
From S2P Require Import DurableMaterialize.
From S2P Require Import DurableReuse.
From S2P Require Import DurableFacts.
From S2P Require Import DurableSystem.
From S2P Require Import DurableFrames.
From S2P Require Import DurableLineage.
Local Open Scope Z_scope.

(** The columns of a unit that no operation changes after the insertion. *)
Record Home : Type := mkHome {
  h_revision : string; h_stage : string; h_key : string; h_deps : Z; h_source : option string;
  h_shard : option string; h_level : option Z; h_ordinal : option Z }.

Definition home (u : Unit) : Home :=
  mkHome (u_revision u) (u_stage u) (DurableTables.u_key u) (u_expected_deps u) (u_source u)
    (u_shard u) (u_level u) (u_ordinal u).

Definition homes (s : Store) : gmap key2 Home := home <$> units s.

Definition plan_tables (s : Store) :=
  (stages s, placements s, stage_dependencies s, sources s, materializations s,
   unit_dependencies s).

Definition keeps_plan (s s' : Store) : Prop :=
  plan_tables s' = plan_tables s /\ homes s' = homes s.

#[export] Instance keeps_plan_preorder : PreOrder keeps_plan.
Proof. split; [done|]. intros s t u [A1 A2] [B1 B2]. split; congruence. Qed.

Ltac ignores_plan := intros s f; split; reflexivity.
#[export] Instance plan_ignores_ticks : Ignores keeps_plan ticks. Proof. ignores_plan. Qed.
#[export] Instance plan_ignores_workloads : Ignores keeps_plan workloads. Proof. ignores_plan. Qed.
#[export] Instance plan_ignores_revisions : Ignores keeps_plan revisions. Proof. ignores_plan. Qed.
#[export] Instance plan_ignores_events : Ignores keeps_plan events. Proof. ignores_plan. Qed.
#[export] Instance plan_ignores_outbox : Ignores keeps_plan outbox. Proof. ignores_plan. Qed.
#[export] Instance plan_ignores_usages : Ignores keeps_plan usages. Proof. ignores_plan. Qed.
#[export] Instance plan_ignores_credits : Ignores keeps_plan credits. Proof. ignores_plan. Qed.
#[export] Instance plan_ignores_commands : Ignores keeps_plan commands. Proof. ignores_plan. Qed.
#[export] Instance plan_ignores_resolutions : Ignores keeps_plan resolutions.
Proof. ignores_plan. Qed.
#[export] Instance plan_ignores_dependencies : Ignores keeps_plan dependencies.
Proof. ignores_plan. Qed.
#[export] Instance plan_ignores_attempts : Ignores keeps_plan attempts. Proof. ignores_plan. Qed.
#[export] Instance plan_ignores_results : Ignores keeps_plan results. Proof. ignores_plan. Qed.

Lemma homes_update s k u u' :
  units s !! k = Some u -> home u' = home u -> keeps_plan s (set_field units <[k := u']> s).
Proof. intros Hu E. split; [done|]. unfold homes. simpl. by rewrite (fmap_insert_same _ _ k u). Qed.

#[export] Hint Extern 2 (guar keeps_plan (update_one units _ _ _ _)) =>
  apply guar_update_one; intros; eapply homes_update; [eassumption | reflexivity] : guar.
#[export] Hint Extern 2 (guar keeps_plan (update_at units _ _ _)) =>
  apply guar_update_at; [apply _ | intros; eapply homes_update; [eassumption | reflexivity]] : guar.

Section Plan.
Context `{Host}.

Lemma plan_settle o w n b m : guar keeps_plan (settle o w n b m).
Proof.
  unfold settle, settle_cancellation, settle_exhausted, settle_attention,
    settle_failure_or_pause, cancel_waiting_units, repair_exhausted_units, active_unit_count,
    waiting_unit_exists, exhausted_pending_exists, materialization_attention_count,
    unit_attention_count, untolerated_count. guar.
Qed.
Hint Resolve plan_settle : guar.
Lemma plan_settle_workload o w n : guar keeps_plan (settle_workload o w n).
Proof. unfold settle_workload. guar. Qed.
Lemma plan_control o w c k v n : guar keeps_plan (control o w c k v n).
Proof. unfold control, settle_after_control, cancel_waiting_units. guar. Qed.
Lemma plan_resolution o w d v k t n : guar keeps_plan (record_attention_resolution o w d v k t n).
Proof. unfold record_attention_resolution, apply_resolution, active_unit_count. guar. Qed.

Lemma plan_promote n c : guar keeps_plan (promote_due_retries n c).
Proof. unfold promote_due_retries. guar. Qed.
Lemma plan_update_pair l a us fa fu what :
  (forall u, home (fu u) = home u) -> guar keeps_plan (update_pair l a us fa fu what).
Proof.
  intros Hf. unfold update_pair. guar. apply guar_update_at; [apply _|]. intros s u Hu _.
  by eapply homes_update.
Qed.
Hint Extern 2 (guar keeps_plan (update_pair _ _ _ _ _ _)) =>
  apply plan_update_pair; intros; reflexivity : guar.
Lemma plan_lease_matches r l : guar keeps_plan (lease_matches r l).
Proof. unfold lease_matches. guar. Qed.
Lemma plan_extend l e n s : guar keeps_plan (extend_lease l e n s).
Proof. unfold extend_lease. guar. Qed.
Hint Resolve plan_promote plan_lease_matches plan_extend : guar.

Lemma plan_claim q w n d : guar keeps_plan (claim_next q w n d).
Proof.
  unfold claim_next, select_claim_row, fence_unit, insert_attempt, start_queued_workload. guar.
Qed.
Lemma plan_mark l n : guar keeps_plan (mark_running l n).
Proof. unfold mark_running, select_lease_row, require_expiry. guar. Qed.
Lemma plan_heartbeat l e n : guar keeps_plan (heartbeat l e n).
Proof. unfold heartbeat, select_lease_row, require_expiry, parse_started. guar. Qed.
Lemma plan_commit l v d n : guar keeps_plan (commit_result l v d n).
Proof.
  unfold commit_result, select_lease_row, parse_started, require_expiry, store_result,
    insert_result. guar.
Qed.
Lemma plan_fail l e d t n : guar keeps_plan (fail_attempt l e d t n).
Proof.
  unfold fail_attempt, select_lease_row, require_expiry, deadline_reached,
    parse_started, store_failure, failure_disposition. guar.
Qed.
Lemma plan_abandon l c n : guar keeps_plan (abandon_attempt l c n).
Proof. unfold abandon_attempt, select_lease_row, store_abandonment. guar. Qed.
Lemma plan_reconcile n b : guar keeps_plan (reconcile_expired n b).
Proof. unfold reconcile_expired, reconcile_one, require_expiry, update_lost. guar. Qed.
Lemma plan_facts l e m d i n : guar keeps_plan (record_execution_facts l e m d i n).
Proof. unfold record_execution_facts, select_lease_row. guar. Qed.
Lemma plan_usage l u n : guar keeps_plan (record_attempt_usage l u n).
Proof. unfold record_attempt_usage, select_lease_row, of_usage. guar. Qed.
Lemma plan_adopt : guar keeps_plan adopt_next.
Proof.
  unfold adopt_next, adopt_candidate, require_attention, store_reuse, insert_attempt,
    insert_result, start_queued_workload. guar.
Qed.
End Plan.

#[export] Hint Resolve plan_facts plan_usage plan_adopt plan_settle plan_settle_workload
  plan_control plan_resolution plan_claim plan_mark
  plan_heartbeat plan_commit plan_fail plan_abandon plan_reconcile : guar.

(** One step of the store is an admission, a materialization, or keeps the
    plan. *)
Lemma op_step_plan s s' :
  op_step s s' ->
  keeps_plan s s'
  \/ (exists h o w p i t v c y ct pa uc r a,
        @admit_revision h o w p i t v c y ct pa uc r s = Ok (a, s'))
  \/ (exists h o w n a, @materialize_batch h o w n s = Ok (a, s')).
Proof.
  destruct 1; try (left; match goal with
    | H : ?m _ = Ok (_, _) |- _ =>
        let G := fresh in assert (guar keeps_plan m) as G by guar; exact (G _ _ _ H)
    end).
  - right. left. eauto 20.
  - right. right. eauto 10.
Qed.
