(* ===== verification/RevisionLayout.v ===== *)
(** * What an admission writes below its revision

    A reference for [insert_contents]: the rows of a revision as relations
    between the plan, the inventory and the tables.  Each table grows by one
    row per item of a list, in order; [insert_contents_lays_out] shows that
    the transaction of the source writes exactly these rows. *)
From Stdlib Require Import Strings.String.
From S2P Require Import Prelude.
From S2P Require Import PyJson.
From S2P Require Import DurableModels.
From S2P Require Import DurableRetry.
From S2P Require Import DurablePlans.
From S2P Require Import DurableInventory.
From S2P Require Import DurableTables.
From S2P Require Import DurableOutbox.
From S2P Require Import DurableWorkflow.
From S2P Require Import DurableAdmission.
From S2P Require Import DurableFrames.
Local Open Scope Z_scope.

(** ** Tables that grow *)

(** [m'] is [m] with the fresh rows [rows]. *)
Record grows `{Countable K} {V} (m m' : gmap K V) (rows : list (K * V)) : Prop := {
  gr_rows : m' = list_to_map rows ∪ m;
  gr_keys : NoDup rows.*1;
  gr_fresh : forall k, k ∈ rows.*1 -> m !! k = None }.

Section Grows.
Context `{Countable K} {V : Type}.
Implicit Types (m : gmap K V) (rows : list (K * V)).

Lemma grows_nil m : grows m m [].
Proof. split; simpl; [by rewrite (left_id_L ∅ (∪)) | constructor | by intros k ?%elem_of_nil]. Qed.

Lemma grows_insert m m' rows k v :
  grows m m' rows -> m' !! k = None -> grows m (<[k := v]> m') (rows ++ [(k, v)]).
Proof.
  intros [-> Hnd Hfr] [Hl Hm]%lookup_union_None.
  apply not_elem_of_list_to_map in Hl.
  assert (NoDup (rows ++ [(k, v)]).*1) as Hnd'.
  { rewrite fmap_app. apply NoDup_app. split_and!; [done | set_solver | apply NoDup_singleton]. }
  split; [| done | rewrite fmap_app; set_solver].
  rewrite list_to_map_snoc by done. by rewrite insert_union_l.
Qed.

Lemma grows_lookup m m' rows k v : grows m m' rows -> (k, v) ∈ rows -> m' !! k = Some v.
Proof.
  intros [-> Hnd _] Hin. apply lookup_union_Some_l. by apply elem_of_list_to_map_1.
Qed.

Lemma grows_old m m' rows k v : grows m m' rows -> m !! k = Some v -> m' !! k = Some v.
Proof.
  intros [-> Hnd Hfr] Hk. rewrite lookup_union_r; [done|].
  apply not_elem_of_list_to_map. intros Hin. rewrite Hfr in Hk; done.
Qed.

Lemma grows_inv m m' rows k v :
  grows m m' rows -> m' !! k = Some v -> (k, v) ∈ rows \/ m !! k = Some v.
Proof.
  intros [-> Hnd _] [Hk|[_ Hk]]%lookup_union_Some_raw; [left | by right].
  by apply elem_of_list_to_map_2.
Qed.
End Grows.

(** ** The rows a plan and an inventory call for *)

Record Items : Type := mkItems {
  it_stages : list (Z * object);
  it_placed : list object;
  it_edges : list (object * (Z * string));
  it_sources : list object;
  it_units : list (object * option object);
  it_marks : list object }.

Record Written : Type := mkWritten {
  wr_stages : list (key2 * Stage);
  wr_placements : list (key2 * Placement);
  wr_edges : list (key3 * string * Z);
  wr_sources : list (key2 * Source);
  wr_units : list (key2 * Unit);
  wr_marks : list (key3 * Materialization) }.

#[export] Instance eta_Items : Settable Items := fun i =>
  mkItems (it_stages i) (it_placed i) (it_edges i) (it_sources i) (it_units i) (it_marks i).
#[export] Instance eta_Written : Settable Written := fun w =>
  mkWritten (wr_stages w) (wr_placements w) (wr_edges w) (wr_sources w) (wr_units w) (wr_marks w).

Definition no_items : Items := mkItems [] [] [] [] [] [].
Definition nothing_written : Written := mkWritten [] [] [] [] [] [].

Definition placed (stage : object) : bool := given "placement" stage.

Definition plan_edges (stages : list object) : list (object * (Z * string)) :=
  flat_map (fun stage => map (pair stage) (enumerate (stage_deps stage))) stages.

Section Layout.
Context (owner rv : string) (ad : Admission) (now : Z).

Definition initial (mode inventory_key : string) : list object :=
  List.filter (fun stage => str_eqb (stage_mode stage) mode) (initial_stages ad inventory_key).

(** One unit for each source of a [per_source] stage, then one for each
    [singleton] stage. *)
Definition planned_units (inventory_key : string) : list (object * option object) :=
  flat_map (fun source => map (fun stage => (stage, Some source))
                            (initial "per_source" inventory_key)) (ad_sources ad)
  ++ map (fun stage => (stage, None)) (initial "singleton" inventory_key).

Definition plan_items (inventory_key : string) : Items :=
  let stages := plan_stages (ad_plan ad) in
  mkItems (enumerate stages) (List.filter placed stages) (plan_edges stages) (ad_sources ad)
    (planned_units inventory_key) stages.

(** The row [id] is the stage of this revision with this key. *)
Definition stage_named (s : Store) (key id : string) (st : Stage) : Prop :=
  stages s !! (owner, id) = Some st /\ s_revision st = rv /\ s_key st = key.

Definition stage_written (numbered : Z * object) (row : key2 * Stage) : Prop :=
  row.1.1 = owner /\ exists kind effect digest,
    runner_kind_of (field "kind" (obj_field "runner" numbered.2)) = Some kind /\
    effect_of (field "effect_profile" numbered.2) = Some effect /\
    stage_digest ad numbered.2 = Ok digest /\
    row.2 = stage_row rv numbered.1 numbered.2 kind effect digest now.

Definition placement_written (s : Store) (stage : object) (row : key2 * Placement) : Prop :=
  exists id st, stage_named s (stage_key stage) id st /\
    row = ((owner, id), mkPlacement rv (text_field "target" (obj_field "placement" stage))
                          (opt_text (obj_get "device" (obj_field "placement" stage)))).

Definition edge_written (s : Store) (edge : object * (Z * string)) (row : key3 * string * Z)
  : Prop :=
  exists id st depends_on dep, stage_named s (stage_key edge.1) id st /\
    stage_named s edge.2.2 depends_on dep /\ row = ((owner, rv, id, depends_on), edge.2.1).

Definition source_written (source : object) (row : key2 * Source) : Prop :=
  row.1.1 = owner /\ row.2 = source_row rv source now.

Definition source_ref (s : Store) (source : option object) (id : option string) : Prop :=
  match source, id with
  | None, None => True
  | Some source, Some id => sources s !! (owner, id) = Some (source_row rv source now)
  | _, _ => False
  end.

Definition unit_written (s : Store) (planned : object * option object) (row : key2 * Unit)
  : Prop :=
  row.1.1 = owner /\ exists id st key source_id,
    stage_named s (stage_key planned.1) id st /\
    digest_json "durable-unit-key"
      (unit_semantic planned.1 (s_invalidation_digest st) planned.2) MAX_PLAN_JSON_BYTES = Ok key /\
    source_ref s planned.2 source_id /\ row.2 = initial_unit rv id key source_id now.

Definition units_of (id : string) (rows : list (key2 * Unit)) : Z :=
  Z.of_nat (length (List.filter (fun row => str_eqb (u_stage row.2) id) rows)).

Definition mark_written (inventory_key : string) (s : Store) (units : list (key2 * Unit))
    (stage : object) (row : key3 * Materialization) : Prop :=
  exists id st, stage_named s (stage_key stage) id st /\
    row = ((owner, rv, id),
           mkMaterialization (is_inventory_stage stage || starts_at inventory_key stage) None
             (-1) (-1) None (-1) (units_of id units) now
             false 0 (-1) false (-1)).

Record matching (inventory_key : string) (s : Store) (it : Items) (w : Written) : Prop := {
  ma_stages : Forall2 stage_written (it_stages it) (wr_stages w);
  ma_placed : Forall2 (placement_written s) (it_placed it) (wr_placements w);
  ma_edges : Forall2 (edge_written s) (it_edges it) (wr_edges w);
  ma_sources : Forall2 source_written (it_sources it) (wr_sources w);
  ma_units : Forall2 (unit_written s) (it_units it) (wr_units w);
  ma_marks : Forall2 (mark_written inventory_key s (wr_units w)) (it_marks it) (wr_marks w) }.

Record written (s s' : Store) (w : Written) : Prop := {
  wn_stages : grows (stages s) (stages s') (wr_stages w);
  wn_placements : grows (placements s) (placements s') (wr_placements w);
  wn_edges : grows (stage_dependencies s) (stage_dependencies s') (wr_edges w);
  wn_sources : grows (sources s) (sources s') (wr_sources w);
  wn_units : grows (units s) (units s') (wr_units w);
  wn_marks : grows (materializations s) (materializations s') (wr_marks w) }.

(** The six tables hold the rows the plan and the inventory call for, and
    nothing else is new in them. *)
Definition laid_out (s s' : Store) (w : Written) : Prop :=
  exists inventory, List.find is_inventory_stage (plan_stages (ad_plan ad)) = Some inventory /\
    written s s' w /\ matching (stage_key inventory) s' (plan_items (stage_key inventory)) w.

(** ** The transaction keeps up with the reference *)

Definition extends (s s' : Store) : Prop := stages s ⊆ stages s' /\ sources s ⊆ sources s'.

Section Monotone.
Context (s s' : Store) (Hext : extends s s').

Lemma named_mono key id st : stage_named s key id st -> stage_named s' key id st.
Proof. intros (H & ?). split; [|done]. by eapply lookup_weaken; [|apply Hext]. Qed.

Lemma source_ref_mono source id : source_ref s source id -> source_ref s' source id.
Proof.
  destruct source, id; simpl; try done. intros H. by eapply lookup_weaken; [|apply Hext].
Qed.

Lemma placement_mono stage row : placement_written s stage row -> placement_written s' stage row.
Proof. intros (id & st & H & ->). exists id, st. split; [by apply named_mono | done]. Qed.

Lemma edge_mono edge row : edge_written s edge row -> edge_written s' edge row.
Proof.
  intros (id & st & d & dep & H1 & H2 & ->). exists id, st, d, dep.
  split_and!; [by apply named_mono.. | done].
Qed.

Lemma unit_mono planned row : unit_written s planned row -> unit_written s' planned row.
Proof.
  intros (Ho & id & st & key & src & H1 & H2 & H3 & H4). split; [done|].
  exists id, st, key, src. split_and!; [by apply named_mono | done | by apply source_ref_mono | done].
Qed.

Lemma mark_mono key us stage row : mark_written key s us stage row -> mark_written key s' us stage row.
Proof. intros (id & st & H & ->). exists id, st. split; [by apply named_mono | done]. Qed.

Lemma matching_mono key it w : matching key s it w -> matching key s' it w.
Proof.
  intros []. split; try done; (eapply Forall2_impl; [eassumption|]); intros x y.
  - apply placement_mono.
  - apply edge_mono.
  - apply unit_mono.
  - apply mark_mono.
Qed.
End Monotone.

Lemma extends_stage s k row :
  stages s !! k = None -> extends s (set_field stages <[k := row]> s).
Proof. intros Hk. split; simpl; [by apply insert_subseteq | done]. Qed.
Lemma extends_source s k row :
  sources s !! k = None -> extends s (set_field sources <[k := row]> s).
Proof. intros Hk. split; simpl; [done | by apply insert_subseteq]. Qed.

(** What the dictionaries of the transaction say. *)
Record known (s : Store) (units : list (key2 * Unit)) (acc : Stages) : Prop := {
  kn_ids : forall key id, st_ids acc !! key = Some id ->
    exists st, stage_named s key id st /\ st_digests acc !! key = Some (s_invalidation_digest st);
  kn_counts : forall key id c, st_ids acc !! key = Some id -> st_counts acc !! key = Some c ->
    c = units_of id units }.

Lemma extends_same s s' : stages s' = stages s -> sources s' = sources s -> extends s s'.
Proof. intros E1 E2. split; [by rewrite E1 | by rewrite E2]. Qed.

Lemma known_mono s s' us acc : extends s s' -> known s us acc -> known s' us acc.
Proof.
  intros He [K1 K2]. split; [|done]. intros key id Hid. destruct (K1 key id Hid) as (st & Hst & Hd).
  exists st. split; [by eapply named_mono | done].
Qed.

Section Progress.
Context (inventory_key : string) (s0 : Store).

Record progress (it : Items) (w : Written) (acc : Stages) (s : Store) : Prop := {
  pr_written : written s0 s w;
  pr_matching : matching inventory_key s it w;
  pr_known : known s (wr_units w) acc }.

Lemma progress_start acc : acc = no_stages -> progress no_items nothing_written acc s0.
Proof.
  intros ->. split.
  - split; apply grows_nil.
  - split; constructor.
  - split; intros *; simpl; by rewrite lookup_empty.
Qed.

(** The same tables, whatever else changed. *)
Lemma progress_same it w acc s s' :
  stages s' = stages s -> placements s' = placements s ->
  stage_dependencies s' = stage_dependencies s -> sources s' = sources s ->
  units s' = units s -> materializations s' = materializations s ->
  progress it w acc s -> progress it w acc s'.
Proof.
  intros E1 E2 E3 E4 E5 E6 [[] M K]. assert (extends s s') as He by (by apply extends_same).
  split; [split; congruence | by eapply matching_mono | by eapply known_mono].
Qed.

Lemma progress_tick it w acc s f : progress it w acc s -> progress it w acc (set_field ticks f s).
Proof. by apply progress_same. Qed.

Lemma Forall2_snoc {A B} (P : A -> B -> Prop) l k x y :
  Forall2 P l k -> P x y -> Forall2 P (l ++ [x]) (k ++ [y]).
Proof. intros H Hx. apply Forall2_app; [done | by constructor]. Qed.

Lemma progress_stage it w acc s numbered id row :
  progress it w acc s -> it_units it = [] ->
  stages s !! (owner, id) = None -> stage_written numbered ((owner, id), row) ->
  progress (it <| it_stages := it_stages it ++ [numbered] |>)
    (w <| wr_stages := wr_stages w ++ [((owner, id), row)] |>)
    (mkStages (<[stage_key numbered.2 := id]> (st_ids acc))
       (<[stage_key numbered.2 := s_invalidation_digest row]> (st_digests acc))
       (<[stage_key numbered.2 := 0]> (st_counts acc)))
    (set_field stages <[(owner, id) := row]> s).
Proof.
  intros [[] M K] Hno Hnew Hrow. pose proof (extends_stage s _ row Hnew) as He.
  assert (wr_units w = []) as Hw.
  { destruct M as [_ _ _ _ Mu _]. rewrite Hno in Mu. by apply Forall2_nil_inv_l in Mu. }
  destruct Hrow as (Ho & kind & effect & digest & H1 & H2 & H3 & Hr). simpl in Hr.
  split.
  - split; simpl; try done. by apply grows_insert.
  - apply (matching_mono _ _ He) in M as []. split; simpl; try done.
    apply Forall2_snoc; [done|]. split; [done|]. by exists kind, effect, digest.
  - destruct (known_mono _ _ _ _ He K) as [K1 K2]. split; simpl; rewrite ?Hw in *.
    + intros key i [[<- <-]|[Hne Hi]]%lookup_insert_Some.
      * exists row. rewrite lookup_insert_eq. split; [|done]. split; simpl.
        -- by rewrite lookup_insert_eq.
        -- by rewrite Hr.
      * rewrite lookup_insert_ne by done. auto.
    + intros key i c [[<- <-]|[Hne Hi]]%lookup_insert_Some.
      * rewrite lookup_insert_eq. by intros [= <-].
      * rewrite lookup_insert_ne by done. apply K2. done.
Qed.

Lemma progress_placement it w acc s stage key row :
  progress it w acc s -> placements s !! key = None ->
  placement_written s stage (key, row) ->
  progress (it <| it_placed := it_placed it ++ [stage] |>)
    (w <| wr_placements := wr_placements w ++ [(key, row)] |>) acc
    (set_field placements <[key := row]> s).
Proof.
  intros [[] [] K] Hnew Hrow. split; [split|split|by apply (known_mono s); [apply extends_same|]]; simpl; try done.
  - by apply grows_insert.
  - by apply Forall2_snoc.
Qed.

Lemma progress_edge it w acc s edge key n :
  progress it w acc s -> stage_dependencies s !! key = None ->
  edge_written s edge (key, n) ->
  progress (it <| it_edges := it_edges it ++ [edge] |>)
    (w <| wr_edges := wr_edges w ++ [(key, n)] |>) acc
    (set_field stage_dependencies <[key := n]> s).
Proof.
  intros [[] [] K] Hnew Hrow. split; [split|split|by apply (known_mono s); [apply extends_same|]]; simpl; try done.
  - by apply grows_insert.
  - by apply Forall2_snoc.
Qed.

Lemma progress_source it w acc s source id row :
  progress it w acc s -> sources s !! (owner, id) = None -> row = source_row rv source now ->
  progress (it <| it_sources := it_sources it ++ [source] |>)
    (w <| wr_sources := wr_sources w ++ [((owner, id), row)] |>) acc
    (set_field sources <[(owner, id) := row]> s).
Proof.
  intros [[] M K] Hnew Hrow. pose proof (extends_source s _ row Hnew) as He.
  apply (matching_mono _ _ He) in M as [].
  split; [split|split|by eapply known_mono]; simpl; try done.
  - by apply grows_insert.
  - by apply Forall2_snoc.
Qed.

Lemma progress_mark it w acc s stage key row :
  progress it w acc s -> materializations s !! key = None ->
  mark_written inventory_key s (wr_units w) stage (key, row) ->
  progress (it <| it_marks := it_marks it ++ [stage] |>)
    (w <| wr_marks := wr_marks w ++ [(key, row)] |>) acc
    (set_field materializations <[key := row]> s).
Proof.
  intros [[] [] K] Hnew Hrow. split; [split|split|by apply (known_mono s); [apply extends_same|]]; simpl; try done.
  - by apply grows_insert.
  - by apply Forall2_snoc.
Qed.

Lemma units_of_snoc id rows row :
  units_of id (rows ++ [row]) = units_of id rows + Z.b2z (str_eqb (u_stage row.2) id).
Proof.
  unfold units_of. rewrite List.filter_app, length_app. simpl. destruct (str_eqb _ id); simpl; lia.
Qed.

(** Two keys name two rows. *)
Lemma named_apart s k k' id id' st st' :
  stage_named s k id st -> stage_named s k' id' st' -> k <> k' -> id <> id'.
Proof. intros (H1 & _ & E1) (H2 & _ & E2) Hne ->. congruence. Qed.

Lemma progress_unit it w acc s planned id row stage_id count :
  progress it w acc s -> it_marks it = [] -> units s !! (owner, id) = None ->
  unit_written s planned ((owner, id), row) ->
  st_ids acc !! stage_key planned.1 = Some stage_id -> u_stage row = stage_id ->
  st_counts acc !! stage_key planned.1 = Some count ->
  progress (it <| it_units := it_units it ++ [planned] |>)
    (w <| wr_units := wr_units w ++ [((owner, id), row)] |>)
    (mkStages (st_ids acc) (st_digests acc)
       (<[stage_key planned.1 := count + 1]> (st_counts acc)))
    (set_field units <[(owner, id) := row]> s).
Proof.
  intros [[] [] [K1 K2]] Hno Hnew Hrow Hid Hst Hc.
  assert (wr_marks w = []) as Hw.
  { rewrite Hno in *. by eapply Forall2_nil_inv_l. }
  split; [split|split|split]; simpl; try done.
  - by apply grows_insert.
  - by apply Forall2_snoc.
  - rewrite Hno, Hw. constructor.
  - intros key i c Hi. rewrite units_of_snoc. simpl. rewrite Hst.
    intros [[<- <-]|[Hne Hcount]]%lookup_insert_Some.
    + assert (i = stage_id) as -> by congruence. rewrite str_eqb_refl.
      rewrite (K2 _ _ count Hid Hc). simpl. lia.
    + rewrite (K2 _ _ _ Hi Hcount).
      destruct (K1 _ _ Hi) as (st1 & N1 & _), (K1 _ _ Hid) as (st2 & N2 & _).
      assert (stage_id <> i) as Hd by (eapply named_apart; [exact N2 | exact N1 | done]).
      unfold str_eqb. rewrite bool_decide_eq_false_2 by done. simpl. lia.
Qed.
(** ** The statements, one by one *)

Context `{Host}.

Lemma post_fresh_id p s (Q : string -> Store -> Prop) :
  (forall id, Q id (set_field ticks S s)) -> post (new_id p) s Q.
Proof. intros HQ. apply post_total. intros id s' [= <- <-]. apply HQ. Qed.

Lemma post_of_schema {A} (r : result schema_error A) s (Q : A -> Store -> Prop) :
  (forall a, r = Ok a -> Q a s) -> post (of_schema r) s Q.
Proof.
  intros HQ. apply post_lift_result. intros a E. apply HQ. destruct r as [b|[]]; congruence.
Qed.

Lemma post_insert_row `{Countable K} {R} (tbl : Store -> gmap K R) `{!Setter tbl} k row s
    (Q : unit -> Store -> Prop) :
  (tbl s !! k = None -> Q tt (set_field tbl <[k := row]> s)) ->
  post (insert_row tbl k row) s Q.
Proof. intros HQ. apply post_total. intros [] s' [Hk ->]%insert_row_inv. auto. Qed.

Lemma post_stage_id_of s us acc key (Q : string -> Store -> Prop) :
  known s us acc ->
  (forall id st, st_ids acc !! key = Some id -> stage_named s key id st ->
     st_digests acc !! key = Some (s_invalidation_digest st) -> Q id s) ->
  post (stage_id_of acc key) s Q.
Proof.
  intros [K1 _] HQ. apply post_of_option. intros id Hid.
  destruct (K1 _ _ Hid) as (st & Hst & Hd). by eapply HQ.
Qed.

Lemma lays_stage it w acc s numbered :
  progress it w acc s -> it_units it = [] ->
  post (insert_stage owner rv ad now acc numbered) s (fun acc' s' => exists w',
    progress (it <| it_stages := it_stages it ++ [numbered] |>
                 <| it_placed := it_placed it ++ List.filter placed [numbered.2] |>) w' acc' s').
Proof.
  intros P Hno. destruct numbered as [position stage]. unfold insert_stage.
  apply post_bind, post_fresh_id. intros id. apply (progress_tick _ _ _ _ S) in P.
  apply post_bind, post_of_schema. intros digest Hd.
  do 5 (apply post_bind, post_of_schema; intros _ _).
  apply post_bind, post_of_option. intros kind Hk. apply post_bind, post_of_option. intros effect He.
  apply post_bind, post_insert_row. intros Hnew.
  eapply (progress_stage _ _ _ _ (position, stage)) in P; [|done|exact Hnew|].
  2:{ split; [done|]. by exists kind, effect, digest. }
  apply post_bind. unfold insert_placement. simpl. unfold placed at 1.
  destruct (given "placement" stage).
  - apply post_insert_row. intros Hfree. apply post_ret. eexists.
    eapply progress_placement in P; [exact P | exact Hfree |].
    exists id. eexists. split; [|reflexivity]. split; simpl; [by rewrite lookup_insert_eq | done].
  - apply post_ret, post_ret. eexists. destruct it. simpl in *. rewrite app_nil_r. exact P.
Qed.

Lemma enumerate_items {A} (l : list A) : map snd (enumerate l) = l.
Proof.
  change (snd <$> enumerate l = l). unfold enumerate. apply list_eq. intros i.
  rewrite list_lookup_fmap, list_lookup_imap. by destruct (l !! i).
Qed.

Lemma lays_stages (stages : list object) s :
  s = s0 ->
  post (fold_steps (enumerate stages) (insert_stage owner rv ad now) no_stages) s
    (fun acc s' => exists w,
       progress (no_items <| it_stages := enumerate stages |>
                          <| it_placed := List.filter placed stages |>) w acc s').
Proof.
  intros ->. pose proof (enumerate_items stages) as E.
  eapply post_mono; [apply (post_fold_steps _ _ (fun done acc s => exists w,
    progress (no_items <| it_stages := done |>
                       <| it_placed := List.filter placed (map snd done) |>) w acc s))|].
  3:{ intros acc s' [w P]. exists w. by rewrite E in P. }
  - exists nothing_written. by apply progress_start.
  - intros ds x rest acc s _ [w P]. eapply post_mono; [exact (lays_stage _ _ _ _ x P eq_refl)|].
    intros acc' s' [w' P']. exists w'. rewrite map_app, List.filter_app. exact P'.
Qed.
Lemma lays_dependencies it w acc s stage :
  progress it w acc s ->
  post (insert_dependencies owner rv acc stage) s (fun _ s' => exists w',
    progress (it <| it_edges := it_edges it ++ map (pair stage) (enumerate (stage_deps stage)) |>)
      w' acc s').
Proof.
  intros P. unfold insert_dependencies.
  apply (post_for_each_done _ _ (fun done s => exists w,
    progress (it <| it_edges := it_edges it ++ map (pair stage) done |>) w acc s)).
  - exists w. destruct it. simpl. by rewrite app_nil_r.
  - clear w s P. intros ds [ordinal dep] s [w P].
    apply post_bind. eapply post_stage_id_of; [exact (pr_known _ _ _ _ P)|]. intros id st _ Hst _.
    apply post_bind. eapply post_stage_id_of; [exact (pr_known _ _ _ _ P)|]. intros did dst _ Hdst _.
    apply post_insert_row. intros Hnew. eexists. rewrite map_app, app_assoc.
    refine (progress_edge _ _ _ _ (stage, (ordinal, dep)) _ ordinal P Hnew _).
    by exists id, st, did, dst.
Qed.

Lemma lays_edges it w acc s (stages : list object) :
  progress it w acc s -> it_edges it = [] ->
  post (for_each stages (insert_dependencies owner rv acc)) s (fun _ s' => exists w',
    progress (it <| it_edges := plan_edges stages |>) w' acc s').
Proof.
  intros P Hno. apply (post_for_each_done _ _ (fun done s => exists w,
    progress (it <| it_edges := plan_edges done |>) w acc s)).
  - exists w. destruct it. simpl in *. by subst.
  - clear w s P. intros ds stage s [w P].
    eapply post_mono; [exact (lays_dependencies _ _ _ _ stage P)|]. intros _ s' [w' P'].
    exists w'. unfold plan_edges. rewrite flat_map_app. simpl. rewrite app_nil_r. exact P'.
Qed.

Lemma lays_unit it w acc s stage source row_id :
  progress it w acc s -> it_marks it = [] -> source_ref s source row_id ->
  post (insert_initial_unit owner rv now acc stage source row_id) s (fun acc' s' =>
    source_ref s' source row_id /\ exists w',
    progress (it <| it_units := it_units it ++ [(stage, source)] |>) w' acc' s').
Proof.
  intros P Hno Hsrc. unfold insert_initial_unit.
  apply post_bind, post_of_option. intros digest Hd.
  apply post_bind, post_of_schema. intros key Hkey.
  apply post_bind, post_fresh_id. intros id. apply (progress_tick _ _ _ _ S) in P.
  apply post_bind. eapply post_stage_id_of; [exact (pr_known _ _ _ _ P)|]. intros sid st Hid Hst Hd'.
  apply post_bind, post_gets, post_bind, post_check. intros _.
  apply post_bind, post_insert_row. intros Hnew. apply post_bind, post_of_option. intros count Hc.
  apply post_ret. split; [done|]. eexists.
  eapply (progress_unit _ _ _ _ (stage, source)); try done.
  split; [done|]. exists sid, st, key, row_id. split_and!; try done. simpl. congruence.
Qed.

Lemma lays_units it w acc s mode source row_id :
  progress it w acc s -> it_marks it = [] -> source_ref s source row_id ->
  post (insert_initial_units owner rv ad now mode inventory_key source row_id acc) s
    (fun acc' s' => exists w',
       progress (it <| it_units := it_units it
                    ++ map (fun stage => (stage, source)) (initial mode inventory_key) |>) w' acc' s').
Proof.
  intros P Hno Hsrc. unfold insert_initial_units. fold (initial mode inventory_key).
  eapply post_mono; [apply (post_fold_steps _ _ (fun done acc s =>
    source_ref s source row_id /\ exists w,
    progress (it <| it_units := it_units it ++ map (fun stage => (stage, source)) done |>) w acc s))|].
  - split; [done|]. exists w. destruct it. simpl. by rewrite app_nil_r.
  - clear w acc s P Hsrc. intros ds stage rest acc s _ [Hsrc [w P]].
    eapply post_mono; [exact (lays_unit _ _ _ _ stage _ _ P Hno Hsrc)|]. intros acc' s' [? [w' P']].
    split; [done|]. exists w'. rewrite map_app, app_assoc. exact P'.
  - intros acc' s' [_ P']. exact P'.
Qed.

Lemma lays_source it w acc s source :
  progress it w acc s -> it_marks it = [] ->
  post (insert_source owner rv ad now inventory_key acc source) s (fun acc' s' => exists w',
    progress (it <| it_sources := it_sources it ++ [source] |>
                 <| it_units := it_units it ++ map (fun stage => (stage, Some source))
                                                 (initial "per_source" inventory_key) |>) w' acc' s').
Proof.
  intros P Hno. unfold insert_source.
  apply post_bind, post_fresh_id. intros id. apply (progress_tick _ _ _ _ S) in P.
  apply post_bind, post_check. intros _. apply post_bind, post_insert_row. intros Hnew.
  eapply progress_source in P; [|exact Hnew|reflexivity].
  eapply post_mono; [apply (lays_units _ _ _ _ "per_source" (Some source) (Some id) P Hno)|].
  - simpl. by rewrite lookup_insert_eq.
  - intros acc' s' [w' P']. exists w'. exact P'.
Qed.

Lemma lays_sources it w acc s (l : list object) :
  progress it w acc s -> it_marks it = [] -> it_sources it = [] -> it_units it = [] ->
  post (fold_steps l (insert_source owner rv ad now inventory_key) acc) s (fun acc' s' => exists w',
    progress (it <| it_sources := l |>
                 <| it_units := flat_map (fun source => map (fun stage => (stage, Some source))
                                  (initial "per_source" inventory_key)) l |>) w' acc' s').
Proof.
  intros P Hno Hs Hu.
  apply (post_fold_steps _ _ (fun done acc s => exists w,
    progress (it <| it_sources := done |>
                 <| it_units := flat_map (fun source => map (fun stage => (stage, Some source))
                                  (initial "per_source" inventory_key)) done |>) w acc s)).
  - exists w. destruct it. simpl in *. by subst.
  - clear w acc s P. intros ds source rest acc s _ [w P].
    eapply post_mono; [exact (lays_source _ _ _ _ source P Hno)|]. intros acc' s' [w' P'].
    exists w'. rewrite flat_map_app. simpl. rewrite app_nil_r. exact P'.
Qed.

Lemma lays_mark it w acc s stage :
  progress it w acc s ->
  post (insert_materialization owner rv now inventory_key acc stage) s (fun _ s' => exists w',
    progress (it <| it_marks := it_marks it ++ [stage] |>) w' acc s').
Proof.
  intros P. unfold insert_materialization.
  apply post_bind. eapply post_stage_id_of; [exact (pr_known _ _ _ _ P)|]. intros id st Hid Hst _.
  apply post_bind, post_of_option. intros count Hc. apply post_insert_row. intros Hnew.
  eexists. refine (progress_mark _ _ _ _ stage _ _ P Hnew _).
  exists id, st. split; [done|].
  by rewrite (kn_counts _ _ _ (pr_known _ _ _ _ P) _ _ _ Hid Hc).
Qed.

Lemma lays_marks it w acc s (stages : list object) :
  progress it w acc s -> it_marks it = [] ->
  post (for_each stages (insert_materialization owner rv now inventory_key acc)) s (fun _ s' =>
    exists w', progress (it <| it_marks := stages |>) w' acc s').
Proof.
  intros P Hno. apply (post_for_each_done _ _ (fun done s => exists w,
    progress (it <| it_marks := done |>) w acc s)).
  - exists w. destruct it. simpl in *. by subst.
  - clear w s P. intros ds stage s [w P].
    eapply post_mono; [exact (lays_mark _ _ _ _ stage P)|]. intros _ s' [w' P'].
    exists w'. exact P'.
Qed.
End Progress.

Lemma insert_contents_lays_out `{Host} s :
  post (insert_contents owner rv ad now) s (fun _ s' => exists w, laid_out s s' w).
Proof.
  unfold insert_contents. cbv zeta.
  remember (default "" (stage_key <$> List.find is_inventory_stage (plan_stages (ad_plan ad))))
    as key eqn:Hkey.
  apply post_bind. eapply post_mono; [by apply (lays_stages key s)|]. intros acc1 s1 [w1 P1].
  apply post_bind. eapply post_mono; [by apply (lays_edges key s _ _ _ _ _ P1)|].
  intros _ s2 [w2 P2]. apply post_bind, post_of_option.
  intros k (inventory & Hfind & ->)%fmap_Some. rewrite Hfind in Hkey. simpl in Hkey. subst key.
  apply post_bind. eapply post_mono; [by apply (lays_sources (stage_key inventory) s _ _ _ _ (ad_sources ad) P2)|].
  intros acc3 s3 [w3 P3].
  apply post_bind. eapply post_mono; [by apply (lays_units (stage_key inventory) s _ _ _ _ "singleton" None None P3)|].
  intros acc4 s4 [w4 P4].
  eapply post_mono; [by apply (lays_marks (stage_key inventory) s _ _ _ _ (plan_stages (ad_plan ad)) P4)|].
  intros _ s5 [w5 [Pw Pm _]]. exists w5, inventory. by split_and!.
Qed.
End Layout.
