(* ===== verification/RevisionInvariant.v ===== *)
(** * One revision per workload

    The effect of a whole admission on every table, and the invariant that a
    revision always is the active one of its workload. *)
From Stdlib Require Import Strings.String.
From S2P Require Import Prelude.
From S2P Require Import PyJson.
From S2P Require Import DurableModels.
From S2P Require Import DurablePlans.
From S2P Require Import DurableTables.
From S2P Require Import DurableOutbox.
From S2P Require Import DurableWorkflow.
From S2P Require Import DurableLeases.
From S2P Require Import DurableCompletion.
From S2P Require Import DurableAdmission.
From S2P Require Import DurableSystem.
From S2P Require Import DurableFrames.
From S2P Require Import WorkloadProtocol.
From S2P Require Import DurableAudit.
From S2P Require Import DurableLineage.
From S2P Require Import RevisionLayout.
Local Open Scope Z_scope.

(** ** Validation does not touch the store *)

Lemma storeless_require_owner o : storeless (require_owner o).
Proof. unfold require_owner. storeless. Qed.
Lemma storeless_require_version v : storeless (require_version v).
Proof. unfold require_version. storeless. Qed.
Lemma storeless_of_plan {A} (r : result plan_error A) : storeless (of_plan r).
Proof. apply storeless_lift_result. Qed.
Lemma storeless_of_schema {A} (r : result schema_error A) : storeless (of_schema r).
Proof. apply storeless_lift_result. Qed.
#[export] Hint Resolve storeless_require_owner storeless_require_version storeless_of_plan
  storeless_of_schema : guar.

Lemma storeless_prepare p i t c y a b d : storeless (prepare_admission p i t c y a b d).
Proof. unfold prepare_admission, check_inventory, policy_rules, policy_rule. storeless. Qed.
#[export] Hint Resolve storeless_prepare : guar.

(** ** The tables an admission leaves alone *)

Definition below (s : Store) : Store :=
  s <| stages := ∅ |> <| placements := ∅ |> <| stage_dependencies := ∅ |> <| sources := ∅ |>
    <| units := ∅ |> <| materializations := ∅ |> <| ticks := O |>.

Definition keeps_above (s s' : Store) : Prop := below s' = below s.

#[export] Instance keeps_above_preorder : PreOrder keeps_above.
Proof. split; unfold keeps_above; [done | intros ???; congruence]. Qed.

Ltac ignores_above := intros s f; reflexivity.
#[export] Instance above_ignores_ticks : Ignores keeps_above ticks. Proof. ignores_above. Qed.
#[export] Instance above_ignores_stages : Ignores keeps_above stages. Proof. ignores_above. Qed.
#[export] Instance above_ignores_placements : Ignores keeps_above placements.
Proof. ignores_above. Qed.
#[export] Instance above_ignores_edges : Ignores keeps_above stage_dependencies.
Proof. ignores_above. Qed.
#[export] Instance above_ignores_sources : Ignores keeps_above sources. Proof. ignores_above. Qed.
#[export] Instance above_ignores_units : Ignores keeps_above units. Proof. ignores_above. Qed.
#[export] Instance above_ignores_marks : Ignores keeps_above materializations.
Proof. ignores_above. Qed.

Lemma above_insert_contents `{Host} o r ad n : guar keeps_above (insert_contents o r ad n).
Proof.
  apply frame_insert_contents; try apply _. intros acc stage source row.
  unfold insert_initial_unit, stage_id_of. guar.
Qed.

Definition outside_outbox (s : Store) : Store := s <| outbox := ∅ |> <| ticks := O |>.
Definition keeps_but_outbox (s s' : Store) : Prop := outside_outbox s' = outside_outbox s.

#[export] Instance keeps_but_outbox_preorder : PreOrder keeps_but_outbox.
Proof. split; unfold keeps_but_outbox; [done | intros ???; congruence]. Qed.
#[export] Instance but_outbox_ticks : Ignores keeps_but_outbox ticks. Proof. ignores_above. Qed.
#[export] Instance but_outbox_outbox : Ignores keeps_but_outbox outbox. Proof. ignores_above. Qed.

(** ** The effect of an admission *)

Section Effect.
Context (owner workload_id rv : string) (ad : Admission) (now : Z).

Definition admitted_row (number : Z) : Revision :=
  (revision_row workload_id ad number now) <| r_admitted := Some now |>.

Definition aside (s : Store) :=
  (attempts s, results s, credits s, commands s, resolutions s, artifacts s, publications s,
   unit_dependencies s, dependencies s).

(** A first admission of the draft [w]. *)
Record admission_effect (s s' : Store) (w : Workload) : Prop := {
  ae_workload : workloads s !! (owner, workload_id) = Some w;
  ae_draft : w_state w = DRAFT;
  ae_fresh : revisions s !! (owner, rv) = None;
  ae_revisions :
    revisions s' = <[(owner, rv) := admitted_row (next_number owner workload_id s)]> (revisions s);
  ae_workloads : workloads s' = <[(owner, workload_id) :=
      w <| w_active_revision := Some rv |> <| w_state := ADMITTED |>
        <| w_version := w_version w + 1 |> <| w_updated := now |>
        <| w_next_event := w_next_event w + 1 |>]> (workloads s);
  ae_usages : usages s' = <[(owner, rv) := new_usage now]> (usages s);
  ae_below : exists rows, laid_out owner rv ad now s s' rows;
  ae_aside : aside s' = aside s }.

Definition six (s : Store) :=
  (stages s, placements s, stage_dependencies s, sources s, units s, materializations s).

Lemma laid_out_same s t s' t' rows :
  six t = six s -> six t' = six s' ->
  laid_out owner rv ad now s s' rows -> laid_out owner rv ad now t t' rows.
Proof.
  intros [= E1 E2 E3 E4 E5 E6] [= F1 F2 F3 F4 F5 F6] (inv & Hf & [] & M). exists inv. split_and!.
  - done.
  - split; congruence.
  - eapply matching_mono; [|exact M]. by apply extends_same.
Qed.

Lemma insert_revision_effect `{Host} expected w s :
  workloads s !! (owner, workload_id) = Some w ->
  post (insert_revision owner workload_id rv ad now expected w) s (fun record s' =>
    w_version w = expected /\ admission_effect s s' w /\
    record = row_to_revision owner rv (admitted_row (next_number owner workload_id s))).
Proof.
  intros Hw. unfold insert_revision.
  apply post_bind, post_check. intros Hv%Z.eqb_eq.
  apply post_bind, post_check. intros Hd%bool_decide_eq_true.
  apply post_bind, post_gets, post_bind, post_check. intros Hfresh%bool_decide_eq_true.
  apply post_bind, post_gets, post_bind, post_insert_row. intros _.
  apply post_bind, post_insert_row. intros _.
  apply post_bind, post_total. intros [] s1 Hrun.
  pose proof (above_insert_contents _ _ _ _ _ _ _ Hrun) as Habove.
  apply insert_contents_lays_out in Hrun as [rows Hrows].
  destruct s1 as [w1 r1 us1 st1 un1 at1 re1 ev1 ob1 cr1 co1 rs1 ar1 pu1 ma1 sd1 ud1 de1 so1 pl1 ti1].
  injection Habove as -> -> -> -> -> -> -> -> -> -> -> -> -> ->.
  unfold seal_revision. apply post_bind, post_bind, post_total.
  intros [] s2 (r & Hr & _ & ->)%update_one_inv. simpl in Hr.
  rewrite lookup_insert_eq in Hr. injection Hr as <-.
  apply post_total. intros [] s3 (w' & Hw' & _ & ->)%update_one_inv. simpl in Hw'.
  assert (w' = w) as -> by congruence.
  apply post_bind, post_append_event_rows. intros row e Hrow _ _ _. simpl in Hrow.
  rewrite lookup_insert_eq in Hrow. injection Hrow as <-.
  apply post_bind. apply (post_guar keeps_but_outbox); [guar|].
  intros [] s4 Hk.
  destruct s4 as [w4 r4 us4 st4 un4 at4 re4 ev4 ob4 cr4 co4 rs4 ar4 pu4 ma4 sd4 ud4 de4 so4 pl4 ti4].
  injection Hk as -> -> -> -> -> -> -> -> -> -> -> -> -> -> -> -> -> -> ->.
  apply post_bind, post_gets. simpl. rewrite lookup_insert_eq.
  apply post_bind, post_ret, post_ret. split_and!; [done | | done].
  split; simpl; try done.
  - by rewrite insert_insert_eq.
  - by rewrite insert_insert_eq.
  - exists rows. by eapply laid_out_same; [| |exact Hrows].
Qed.
End Effect.

(** The two outcomes of an admission. *)
Definition request (plan inventory : json) (retain : bool) (catalog policy : option json)
    (caps partial usage : bool) (ad : Admission) : Prop :=
  forall t, prepare_admission plan inventory retain catalog policy caps partial usage t = Ok (ad, t).

Definition same_but_ticks (s s' : Store) : Prop := s' <| ticks := O |> = s <| ticks := O |>.

#[export] Instance same_but_ticks_preorder : PreOrder same_but_ticks.
Proof. split; unfold same_but_ticks; [done | intros ???; congruence]. Qed.
#[export] Instance same_but_ticks_ticks : Ignores same_but_ticks ticks.
Proof. intros s f. reflexivity. Qed.

(** [r] is the revision of the workload with the plan and inventory asked for. *)
Definition is_duplicate (owner workload_id : string) (ad : Admission) (k : key2) (r : Revision)
  : bool :=
  str_eqb k.1 owner && str_eqb (r_workload r) workload_id
  && str_eqb (r_plan_digest r) (ad_plan_digest ad)
  && sql_eq (r_inventory_digest r) (ad_inventory_digest ad).

Lemma is_duplicate_true owner workload_id ad k r :
  is_duplicate owner workload_id ad k r = true <->
  k.1 = owner /\ r_workload r = workload_id /\ r_plan_digest r = ad_plan_digest ad /\
  r_inventory_digest r = Some (ad_inventory_digest ad).
Proof.
  unfold is_duplicate. rewrite !andb_true_iff, !str_eqb_true. unfold sql_eq.
  destruct (r_inventory_digest r); [rewrite str_eqb_true|]; naive_solver.
Qed.

Lemma post_admit `{Host} o w p i t v c y ct pa uc rid s :
  post (admit_revision o w p i t v c y ct pa uc rid) s (fun record s' => exists ad,
    request p i t c y ct pa uc ad /\
    ((exists k r, revisions s !! k = Some r /\ is_duplicate o w ad k r = true /\
        same_inputs r ad = true /\ record = row_to_revision k.1 k.2 r /\ same_but_ticks s s')
     \/ (exists rv now w0, w_version w0 = v /\ admission_effect o w rv ad now s s' w0 /\
        (forall k r, revisions s !! k = Some r -> is_duplicate o w ad k r = false) /\
        record = row_to_revision o rv (admitted_row w ad now (next_number o w s))))).
Proof.
  unfold admit_revision.
  apply post_bind, post_total. intros [] sa [-> _]%storeless_require_owner.
  apply post_bind, post_total. intros expected sb E.
  pose proof E as [-> _]%storeless_require_version.
  assert (expected = v) as ->.
  { unfold require_version in E. case_match; [done|]. by injection E as <-. }
  apply post_bind, post_total. intros ad sc [-> Hreq]%storeless_prepare.
  apply post_bind. apply (post_guar same_but_ticks); [unfold chosen_id; guar|]. intros rv s1 H1.
  do 2 (apply post_bind, post_of_schema; intros _ _).
  apply post_bind. apply (post_guar same_but_ticks); [guar|]. intros now s2 H2.
  assert (same_but_ticks s s2) as H12 by (by etrans). clear H1 H2 E s1.
  apply post_bind, post_select_workload. intros w0 Hw0.
  unfold find_duplicate. apply post_bind, post_gets.
  destruct s as [x1 x2 x3 x4 x5 x6 x7 x8 x9 x10 x11 x12 x13 x14 x15 x16 x17 x18 x19 x20 tk].
  destruct s2 as [y1 y2 y3 y4 y5 y6 y7 y8 y9 y10 y11 y12 y13 y14 y15 y16 y17 y18 y19 y20 tk2].
  injection H12 as -> -> -> -> -> -> -> -> -> -> -> -> -> -> -> -> -> -> -> ->.
  destruct (head _) as [[k r]|] eqn:Hhead.
  - apply post_bind, post_check. intros Hsame. apply post_ret. exists ad. split; [done|]. left.
    exists k, r. apply head_Some_elem_of, elem_of_select_rows in Hhead as [Hr Hd]. by split_and!.
  - eapply post_mono; [by apply insert_revision_effect|].
    intros record s' (Hv & [E1 E2 E3 E4 E5 E6 [rows E7] E8] & ->). exists ad. split; [done|]. right. exists rv, now, w0.
    split_and!; [done | | | done].
    + split; try done. exists rows. by eapply laid_out_same; [| |exact E7].
    + intros k r Hr. apply head_None in Hhead.
      destruct (is_duplicate o w ad k r) eqn:Hd; [|done].
      assert ((k, r) ∈ select_rows x2 (is_duplicate o w ad)) as Hin
        by (by apply elem_of_select_rows).
      change (select_rows x2 (is_duplicate o w ad) = []) in Hhead. rewrite Hhead in Hin.
      by apply elem_of_nil in Hin.
Qed.

(** ** The invariant *)

(** Every revision is sealed, admitted, the first of its workload, and the
    active one; an active revision is a row of its workload. *)
Record one_revision (s : Store) : Prop := {
  or_active : forall k r, revisions s !! k = Some r ->
    exists w, workloads s !! (k.1, r_workload r) = Some w /\ w_state w <> DRAFT /\
              w_active_revision w = Some k.2;
  or_sealed : forall k r, revisions s !! k = Some r ->
    r_number r = 1 /\ r_sealed r = true /\ is_Some (r_admitted r) /\ is_Some (r_inventory_digest r);
  or_row : forall k w rv, workloads s !! k = Some w -> w_active_revision w = Some rv ->
    exists r, revisions s !! (k.1, rv) = Some r /\ r_workload r = k.2 }.

Lemma empty_one_revision : one_revision empty_store.
Proof. split; intros *; simpl; by rewrite lookup_empty. Qed.

Lemma drafts_are_left a b : rtc workload_step a b -> a <> DRAFT -> b <> DRAFT.
Proof.
  induction 1 as [|a b c Hab _ IH]; [done|]. intros _. apply IH. intros ->.
  unfold workload_step in Hab. destruct a; by apply (bool_decide_pack _) in Hab.
Qed.

Lemma revision_kept s s' k r' :
  keeps_lineage s s' -> revisions s' !! k = Some r' ->
  exists r, revisions s !! k = Some r /\ fixed r' = fixed r.
Proof.
  intros [E _ _] Hr. apply (f_equal (lookup k)) in E. rewrite !lookup_fmap, Hr in E.
  destruct (revisions s !! k) as [r|]; [|done]. apply (inj Some) in E. by exists r.
Qed.

Lemma revision_keeps s s' k r :
  keeps_lineage s s' -> revisions s !! k = Some r ->
  exists r', revisions s' !! k = Some r' /\ fixed r' = fixed r.
Proof.
  intros [E _ _] Hr. apply (f_equal (lookup k)) in E. rewrite !lookup_fmap, Hr in E.
  destruct (revisions s' !! k) as [r'|]; [|done]. apply (inj Some) in E. by exists r'.
Qed.

Lemma workload_keeps s s' k w :
  keeps_lineage s s' -> audits s s' -> workloads s !! k = Some w ->
  exists w', workloads s' !! k = Some w' /\ w_active_revision w' = w_active_revision w /\
             (w_state w <> DRAFT -> w_state w' <> DRAFT).
Proof.
  intros [_ E _] Ha Hw. destruct (log_steps_evolve _ _ Ha) as [F _].
  destruct (F k _ (log_flow_lookup _ _ _ Hw)) as (f & Hf & Hst & _).
  simpl in Hf. rewrite lookup_fmap in Hf. destruct (workloads s' !! k) as [w'|] eqn:Hw'; [|done].
  injection Hf as <-. exists w'. split_and!; [done | | intros Hd; by eapply drafts_are_left].
  specialize (E k). unfold actives in E. rewrite !lookup_fmap, Hw, Hw' in E. simpl in E.
  destruct E as [E|[E _]]; congruence.
Qed.

Lemma keeps_one_revision s s' :
  keeps_lineage s s' -> audits s s' -> one_revision s -> one_revision s'.
Proof.
  intros Hk Ha [I1 I2 I3]. split.
  - intros k r' Hr'. destruct (revision_kept _ _ _ _ Hk Hr') as (r & Hr & E).
    destruct (I1 k r Hr) as (w & Hw & Hd & Hact).
    destruct (workload_keeps _ _ _ _ Hk Ha Hw) as (w' & Hw' & Hact' & Hd').
    exists w'. rewrite (f_equal r_workload E : r_workload r' = r_workload r).
    split_and!; [done | auto | congruence].
  - intros k r' Hr'. destruct (revision_kept _ _ _ _ Hk Hr') as (r & Hr & E).
    destruct (I2 k r Hr) as (A & B & C & D).
    rewrite (f_equal r_number E : r_number r' = r_number r),
      (f_equal r_sealed E : r_sealed r' = r_sealed r),
      (f_equal r_admitted E : r_admitted r' = r_admitted r),
      (f_equal r_inventory_digest E : r_inventory_digest r' = r_inventory_digest r). done.
  - intros k w' rv Hw' Hact. destruct Hk as [E1 E2 E3].
    assert (exists w, workloads s !! k = Some w /\ w_active_revision w = Some rv) as (w & Hw & Hrv).
    { specialize (E2 k). unfold actives in E2. rewrite !lookup_fmap, Hw' in E2. simpl in E2.
      rewrite Hact in E2. destruct (workloads s !! k) as [w|]; simpl in E2; [|by destruct E2 as [|[]]].
      exists w. split; [done|]. destruct E2 as [E2|[]]; congruence. }
    destruct (I3 k w rv Hw Hrv) as (r & Hr & Hwl).
    destruct (revision_keeps _ _ _ _ (Build_keeps_lineage _ _ E1 E2 E3) Hr) as (r' & Hr' & E).
    exists r'. split; [done|]. by rewrite (f_equal r_workload E : r_workload r' = r_workload r).
Qed.

Lemma draft_has_no_revision s o w w0 :
  one_revision s -> workloads s !! (o, w) = Some w0 -> w_state w0 = DRAFT ->
  forall k r, revisions s !! k = Some r -> k.1 = o -> r_workload r <> w.
Proof.
  intros [I1 _ _] Hw Hd k r Hr Ho Hwl. destruct (I1 k r Hr) as (w1 & Hw1 & Hnd & _).
  rewrite Ho, Hwl, Hw in Hw1. congruence.
Qed.

Lemma first_number s o w w0 :
  one_revision s -> workloads s !! (o, w) = Some w0 -> w_state w0 = DRAFT -> next_number o w s = 1.
Proof.
  intros Hi Hw Hd. unfold next_number.
  destruct (select_rows _ _) as [|[k r] l] eqn:E; [done|]. exfalso.
  assert ((k, r) ∈ (k, r) :: l) as Hin by left. rewrite <- E in Hin.
  apply elem_of_select_rows in Hin as [Hr [Ho%str_eqb_true Hwl%str_eqb_true]%andb_true_iff].
  by destruct (draft_has_no_revision s o w w0 Hi Hw Hd k r).
Qed.

Lemma admission_one_revision o w rv ad now s s' w0 :
  admission_effect o w rv ad now s s' w0 -> one_revision s -> one_revision s'.
Proof.
  intros [A1 A2 A3 A4 A5 _ _ _] Hi. pose proof (first_number _ _ _ _ Hi A1 A2) as Hn.
  pose proof (draft_has_no_revision _ _ _ _ Hi A1 A2) as Hfree.
  destruct Hi as [I1 I2 I3]. split; rewrite ?A4, ?A5.
  - intros k r [[<- <-]|[Hne Hr]]%lookup_insert_Some.
    + eexists. simpl. rewrite lookup_insert_eq. by split_and!.
    + destruct (I1 k r Hr) as (w1 & Hw1 & Hd & Hact). exists w1.
      rewrite lookup_insert_ne; [done|]. intros [= Ho Hwl]. by apply (Hfree k r).
  - intros k r [[<- <-]|[Hne Hr]]%lookup_insert_Some; [|eauto]. simpl. rewrite Hn. by split_and!.
  - intros k w1 rv1 [[<- <-]|[Hne Hw1]]%lookup_insert_Some Hact.
    + simpl in Hact. injection Hact as <-. eexists. simpl. rewrite lookup_insert_eq. by split.
    + destruct (I3 k w1 rv1 Hw1 Hact) as (r & Hr & Hwl). exists r.
      rewrite lookup_insert_ne; [done|]. intros E. rewrite <- E in Hr. congruence.
Qed.

Lemma same_but_ticks_keeps s s' : same_but_ticks s s' -> keeps_lineage s s'.
Proof. unfold same_but_ticks. destruct s, s'. intros [=]. subst. split; [done | by left | done]. Qed.

Lemma op_step_one_revision s s' : op_step s s' -> one_revision s -> one_revision s'.
Proof.
  intros Hstep Hi. pose proof (op_step_audits _ _ Hstep) as Ha.
  destruct (op_step_lineage _ _ Hstep) as [Hk|(h&o&w&p&i&t&v&c&y&ct&pa&uc&r&a&Hrun)];
    [by eapply keeps_one_revision|].
  destruct (post_admit _ _ _ _ _ _ _ _ _ _ _ _ _ _ _ Hrun) as (ad & _ & [(k&rv&_&_&_&_&Hs)|H]).
  - by eapply keeps_one_revision; [apply same_but_ticks_keeps| |].
  - destruct H as (rv & now & w0 & _ & He & _). by eapply admission_one_revision.
Qed.

Lemma reachable_one_revision s s' : reachable_from s s' -> one_revision s -> one_revision s'.
Proof. induction 1; eauto using op_step_one_revision. Qed.

(** At most one revision answers to a workload. *)
Lemma one_revision_unique s k k' r r' :
  one_revision s -> revisions s !! k = Some r -> revisions s !! k' = Some r' ->
  k.1 = k'.1 -> r_workload r = r_workload r' -> k = k'.
Proof.
  intros [I1 _ _] Hr Hr' Ho Hw. destruct (I1 k r Hr) as (w & Hw1 & _ & E1).
  destruct (I1 k' r' Hr') as (w' & Hw2 & _ & E2). rewrite Ho, Hw, Hw2 in Hw1.
  destruct k, k'. simpl in *. congruence.
Qed.
