(* ===== verification/WorkloadProperties.v ===== *)
(** * Properties of workloads, events and commands

    The theorems about the workload half of the store: the audit log, the
    declared transitions, settlement and the owner's commands. *)
From Stdlib Require Import Strings.String.
From S2P Require Import Prelude.
From S2P Require Import PyJson.
From S2P Require Import Instants.
From S2P Require Import DurableModels.
From S2P Require Import DurableRetry.
From S2P Require Import DurableResults.
From S2P Require Import DurableTables.
From S2P Require Import DurableOutbox.
From S2P Require Import DurableWorkflow.
From S2P Require Import DurableLeases.
From S2P Require Import DurableSystem.
From S2P Require Import DurableFrames.
From S2P Require Import WorkloadProtocol.
From S2P Require Import DurableAudit.
From S2P Require Import DurableCommands.
From S2P Require Import DurableFixture.
Local Open Scope Z_scope.

Definition log_consistent (s : Store) : Prop := log_inv (log s).

Lemma empty_log_consistent : log_consistent empty_store.
Proof. split; intros *; simpl; rewrite ?fmap_empty, lookup_empty; [done | by intros []]. Qed.

(** A draft created in an empty database, then admitted and queued. *)
Definition demo_draft : Store :=
  store_of (@create_draft demo_host "alice" "request-1" [] "normal" None (Some "workload-1")
              empty_store).

Lemma demo_draft_step : op_step empty_store demo_draft.
Proof.
  eapply (op_create demo_host "alice" "request-1" [] "normal" None (Some "workload-1")).
  vm_compute. reflexivity.
Qed.

(** C21: the event log is a complete audit trail.  In every store reachable
    from a consistent one the events of a workload are numbered from 1 to its
    version without a gap, the first is its creation, event n records version
    n, and the last one says which state the workload is in: by name, or by
    its type when it is the admission of a revision; the event of a completion,
    always the last, is of its own kind and records its target, and no other
    event leads to a completed workload; no event belongs to a missing
    workload. *)
Theorem log_is_complete (s s' : Store) :
  log_consistent s -> reachable_from s s' -> log_consistent s'.
Proof. intros Hi Hr. eapply log_steps_inv; [by apply reachable_audits | exact Hi]. Qed.

Lemma log_is_complete_witness : log_consistent demo_draft.
Proof.
  apply (log_is_complete empty_store demo_draft empty_log_consistent).
  apply rtc_once, demo_draft_step.
Defined.



(** C24: an owner command is applied once.  After a successful command, in
    every store later operations can reach, the same command under the same
    key answers the same record and changes nothing, at any time and under any
    host; another command under that key is refused as an idempotency
    conflict, and so is another expected version unless the two requests have
    the same digest. *)
Theorem control_is_idempotent `{Host} (owner workload_id command key : string) (version : Z)
    (now : option Z) (s s1 s2 : Store) (r : WorkloadRecord) :
  control owner workload_id command key version now s = Ok (r, s1) -> reachable_from s1 s2 ->
  (forall (h : Host) t,
     @control h owner workload_id command key version (Some t) s2 = Ok (r, s2)) /\
  (forall (h : Host) t command' version' d, 1 <= version' ->
     control_digest command' version' = Ok d ->
     command' <> command \/ control_digest command version <> Ok d ->
     @control h owner workload_id command' key version' (Some t) s2
     = Err IdempotencyConflictError).
Proof.
  intros Hrun Hr. destruct (post_control _ _ _ _ _ _ _ _ _ Hrun)
    as (H1 & H2 & H3 & d0 & row & Hd0 & Hrow & R1 & R2 & R3).
  assert (commands s2 !! (owner, workload_id, key) = Some row) as Hrow2
    by (eapply lookup_weaken; [exact Hrow | by apply reachable_keeps_commands]).
  split.
  - intros h t. rewrite (control_prologue h owner workload_id command key version t s2 d0) by done.
    unfold existing_command, mbind, txn_bind, gets, check, mret, txn_ret. rewrite Hrow2.
    by rewrite R1, R2, !str_eqb_refl, R3.
  - intros h t c' v' d Hv Hd Hne.
    rewrite (control_prologue h owner workload_id c' key v' t s2 d)
      by (try done; intros t0; by apply require_version_positive).
    unfold existing_command, mbind, txn_bind, gets, check, mret, txn_ret. rewrite Hrow2, R1, R2.
    destruct (str_eqb command c' && str_eqb d0 d) eqn:E; [|done].
    apply andb_true_iff in E as [->%str_eqb_true ->%str_eqb_true]. by destruct Hne.
Qed.

Definition demo_pause : db WorkloadRecord :=
  @control demo_host "alice" "workload-1" "pause" "pause-key-1" 3 (Some T0).
Definition demo_paused : Store := store_of (demo_pause demo_store).

Lemma control_is_idempotent_witness :
  exists r, demo_pause demo_paused = Ok (r, demo_paused) /\ wr_state r = PAUSED.
Proof.
  assert (exists r, demo_pause demo_store = Ok (r, demo_paused) /\ wr_state r = PAUSED)
    as (r & Hrun & Hst) by (eexists; split; [vm_compute; reflexivity | reflexivity]).
  exists r. split; [|exact Hst].
  exact (proj1 (@control_is_idempotent demo_host "alice" "workload-1" "pause" "pause-key-1" 3
    (Some T0) demo_store demo_paused demo_paused r Hrun (rtc_refl _ _)) demo_host T0).
Defined.
