(* ===== verification/OwnerProperties.v ===== *)
(** * Properties of owners and of the notification outbox *)
From Stdlib Require Import Strings.String.
From S2P Require Import Prelude.
From S2P Require Import PyJson.
From S2P Require Import Instants.
From S2P Require Import DurableModels.
From S2P Require Import DurableRetry.
From S2P Require Import DurableResults.
From S2P Require Import DurableTables.
From S2P Require Import DurableOutbox.
From S2P Require Import DurableWorkflow.
From S2P Require Import DurableLeases.
From S2P Require Import DurableOwners.
From S2P Require Import DurableFixture.
Local Open Scope Z_scope.

(** ** Isolation *)

(** C30: owners are isolated.  Any sequence of operations that name one owner
    (drafts, transitions, settlement, completion, commands, progress, the
    operations of that owner's leases and deliveries) leaves every row of
    every other owner, in every table, exactly as it is. *)
Theorem owners_are_isolated (owner : string) (s s' : Store) :
  rtc (owner_step owner) s s' -> others owner s' = others owner s.
Proof. apply owner_steps_isolated. Qed.

Lemma owners_are_isolated_witness : others "alice" demo_running = others "alice" demo_leased.
Proof.
  apply owners_are_isolated, rtc_once.
  apply (own_step_mark "alice" demo_host demo_lease (Some (T0 + second)) APPLIED);
    vm_compute; reflexivity.
Defined.

Lemma count_rows_filtered {V} (m : gmap key2 V) o :
  count_rows (filter (fun kv => kv.1.1 <> o) m) (fun k _ => str_eqb k.1 o) = 0.
Proof.
  unfold count_rows. destruct (select_rows _ _) as [|[k v] l] eqn:E; [done|].
  assert ((k, v) ∈ select_rows (filter (fun kv => kv.1.1 <> o) m) (fun k _ => str_eqb k.1 o))
    as [Hm Hk]%elem_of_select_rows by (rewrite E; left).
  apply map_lookup_filter_Some in Hm as [_ Hne]. by apply str_eqb_true in Hk.
Qed.

Lemma purge_runs o s :
  require_owner o s = Ok (tt, s) ->
  purge_owner o s = Ok (count_rows (workloads s) (fun k _ => str_eqb k.1 o),
                        set_field ticks (fun _ => ticks s) (others o s)).
Proof.
  unfold purge_owner, mbind, txn_bind. intros ->. unfold gets, modify, mret, txn_ret. reflexivity.
Qed.

Lemma others_idem o s t : others o (set_field ticks t (others o s)) = others o s.
Proof. unfold others. simpl. f_equal; apply map_filter_filter_l; tauto. Qed.

(** A purge removes one owner completely and touches nobody else.  The
    store it leaves is the database without the owner's rows, in every table;
    it returns the number of workloads removed, and a second purge removes
    nothing and changes nothing. *)
Theorem purge_owner_erases (owner : string) (s : Store) :
  require_owner owner s = Ok (tt, s) ->
  exists n s', purge_owner owner s = Ok (n, s') /\
    s' = set_field ticks (fun _ => ticks s) (others owner s) /\
    n = count_rows (workloads s) (fun k _ => str_eqb k.1 owner) /\
    purge_owner owner s' = Ok (0, s').
Proof.
  intros Ho. eexists _, _. split; [by apply purge_runs|]. split_and!; try done.
  rewrite purge_runs.
  - rewrite others_idem. do 2 f_equal. exact (count_rows_filtered (workloads s) owner).
  - revert Ho. unfold require_owner. by destruct (_ || _).
Qed.

Lemma purge_owner_erases_witness :
  exists n s', purge_owner "alice" demo_running = Ok (n, s') /\ n = 1 /\
               purge_owner "alice" s' = Ok (0, s').
Proof.
  destruct (purge_owner_erases "alice" demo_running) as (n & s' & H1 & _ & H2 & H3).
  - vm_compute. reflexivity.
  - exists n, s'. split; [exact H1|]. split; [|exact H3]. rewrite H2. vm_compute. reflexivity.
Defined.

(** ** Claiming deliveries *)

Definition record_key (r : OutboxRecord) : key2 := (or_owner r, or_outbox r).

(** What a claimed record says of the row it was made from. *)
Record granted (worker : string) (current expiry : Z) (r : OutboxRecord) (o : Outbox) : Prop := {
  gr_due : outbox_due current o = true;
  gr_quiet : o_state o = O_LEASED -> delivery_started o = false;
  gr_fence : o_fence (or_row r) = o_fence o + 1;
  gr_attempts : o_attempts (or_row r) = o_attempts o + 1;
  gr_holder : holds_delivery r worker (or_row r) = true /\ o_expires (or_row r) = Some expiry;
  gr_same : o_workload (or_row r) = o_workload o /\ o_event (or_row r) = o_event o /\
            o_channel (or_row r) = o_channel o /\ o_recipient (or_row r) = o_recipient o }.

Definition ambiguous (o : Outbox) : bool :=
  bool_decide (o_state o = O_LEASED) && delivery_started o.

(** The fate of one candidate. *)
Definition settled_row (worker : string) (current expiry : Z) (k : key2) (o : Outbox)
    (out : option OutboxRecord) (s' : Store) : Prop :=
  if ambiguous o then
    out = None /\ exists o', outbox s' !! k = Some o' /\ o_state o' = O_CANCELLED /\
      o_fence o' = o_fence o /\ o_worker o' = None
  else exists r, out = Some r /\ record_key r = k /\ granted worker current expiry r o /\
    outbox s' !! k = Some (or_row r).

Lemma post_claim_row worker current expiry k o s :
  outbox s !! k = Some o -> outbox_due current o = true ->
  post (claim_row worker current expiry (k, o)) s (fun out s' =>
    settled_row worker current expiry k o out s' /\
    forall k', k' <> k -> outbox s' !! k' = outbox s !! k').
Proof.
  intros Hk Hdue. unfold claim_row, settled_row, ambiguous.
  destruct (bool_decide (o_state o = O_LEASED) && delivery_started o) eqn:Hamb.
  - apply post_bind, post_total. intros [] s1 (o' & Ho' & _ & ->)%update_one_inv. apply post_ret.
    assert (o' = o) as -> by congruence. split; [|intros k' Hk'; simpl; by rewrite lookup_insert_ne].
    split; [done|]. eexists. simpl. by rewrite lookup_insert_eq.
  - apply post_bind, post_total. intros b s1 Hup.
    unfold update_at in Hup. rewrite Hk, Hdue in Hup. injection Hup as <- <-.
    unfold outbox_row. apply post_bind, post_bind, post_gets. simpl.
    destruct k as [ko ki]. simpl. rewrite lookup_insert_eq.
    apply post_bind, post_of_option. intros row [= <-]. apply post_ret, post_ret.
    split; [|intros k' Hk'; simpl; by rewrite lookup_insert_ne].
    eexists. split; [reflexivity|]. split; [done|]. simpl; rewrite lookup_insert_eq. split; [|done].
    split; simpl; try done.
    + intros Hs. rewrite Hs, bool_decide_true in Hamb by done. done.
    + unfold holds_delivery. simpl. rewrite str_eqb_refl, Z.eqb_refl. done.
Qed.

Lemma post_claim_rows worker current expiry l : forall s,
  NoDup l.*1 -> (forall k o, (k, o) ∈ l -> outbox s !! k = Some o /\ outbox_due current o = true) ->
  post (collect l (claim_row worker current expiry)) s (fun rs s' =>
    (forall k', k' ∉ l.*1 -> outbox s' !! k' = outbox s !! k') /\
    (forall r, r ∈ rs -> exists o, (record_key r, o) ∈ l /\ ambiguous o = false /\
       granted worker current expiry r o /\ outbox s' !! record_key r = Some (or_row r)) /\
    (forall k o, (k, o) ∈ l -> ambiguous o = true ->
       exists o', outbox s' !! k = Some o' /\ o_state o' = O_CANCELLED)).
Proof.
  induction l as [|[k o] l IH]; intros s Hnd Hin; simpl.
  { apply post_ret. split_and!; [done | |]; intros ??; set_solver. }
  apply NoDup_cons in Hnd as [Hk Hnd]. destruct (Hin k o) as [Hko Hdue]; [left|].
  apply post_bind. eapply post_mono; [by apply post_claim_row|]. intros out s1 [Hout Hframe].
  apply post_bind. eapply post_mono; [apply (IH s1 Hnd)|].
  { intros k' o' Hin'. rewrite Hframe; [by apply Hin; right|].
    intros ->. apply Hk. by apply (list_elem_of_fmap_2 fst l (k, o')). }
  intros rs s2 (F2 & G2 & A2). apply post_ret.
  assert (outbox s2 !! k = outbox s1 !! k) as Ek by (by apply F2).
  split_and!.
  - intros k' Hk'. rewrite F2, Hframe; [done | set_solver..].
  - intros r Hr. unfold settled_row in Hout.
    destruct (ambiguous o) eqn:Ho; [destruct Hout as [-> _] | destruct Hout as (r0 & -> & E & Hg & Hl)].
    + destruct (G2 r Hr) as (o' & ? & ?). exists o'. split; [by right | done].
    + apply elem_of_cons in Hr as [->|Hr].
      * exists o. subst k. rewrite Ek. split_and!; try done. left.
      * destruct (G2 r Hr) as (o' & ? & ?). exists o'. split; [by right | done].
  - intros k' o' [[= -> ->]|Hin']%elem_of_cons Ha; [|by apply (A2 k' o')].
    unfold settled_row in Hout. rewrite Ha in Hout. destruct Hout as (_ & o1 & ? & ? & _).
    exists o1. by rewrite Ek.
Qed.

Lemma claim_candidates channel current count s k o :
  (k, o) ∈ limit count (order_by
    (fun a b : key2 * Outbox => then_by (o_created a.2 ?= o_created b.2)
                  (then_by (compare_str a.1.2 b.1.2) (str_leb a.1.1 b.1.1)))
    (select_rows (outbox s) (fun _ o => str_eqb (o_channel o) channel && outbox_due current o))) ->
  outbox s !! k = Some o /\ outbox_due current o = true /\ o_channel o = channel.
Proof.
  intros Hin%elem_of_limit. rewrite elem_of_order_by in Hin.
  apply elem_of_select_rows in Hin as [Hk [Hc%str_eqb_true Hd]%andb_true_iff]. done.
Qed.

Lemma selected_keys_nodup {V} (m : gmap key2 V) p le n :
  NoDup (limit n (order_by le (select_rows m p))).*1.
Proof.
  unfold limit. rewrite fmap_take. eapply sublist_NoDup; [|apply sublist_take].
  unfold order_by. rewrite (merge_sort_Permutation _ _). unfold select_rows.
  pose proof (NoDup_fst_map_to_list m) as Hnd. induction (map_to_list m) as [|[k v] l IH]; [done|].
  simpl in *. apply NoDup_cons in Hnd as [Hk Hnd]. case_match; simpl; [|by apply IH].
  apply NoDup_cons. split; [|by apply IH]. intros ([k' v'] & -> & Hin)%list_elem_of_fmap.
  apply Hk. rewrite list_elem_of_In in Hin. apply List.filter_In in Hin as [Hin _].
  rewrite <- list_elem_of_In in Hin. by apply (list_elem_of_fmap_2 fst l (k', v')).
Qed.

Lemma limit_all {A} n (l : list A) : Z.of_nat (length l) <= n -> limit n l = l.
Proof. intros Hn. unfold limit. apply take_ge. lia. Qed.

(** C32: a started delivery is never handed out again.  Every record that
    [claim_outbox] returns was due on that channel, had not been marked as
    started under an earlier lease, and is now leased to this worker under the
    next fence, as the store also says.  A row whose lease lapsed after its
    delivery was started is never returned: it is left untouched or cancelled,
    and cancelled for certain when the limit covers every due row. *)
Theorem claim_outbox_grants_once `{Host} (channel worker : string) (count d : Z) (t : Z)
    (s s' : Store) (rs : list OutboxRecord) :
  claim_outbox channel worker count d (Some t) s = Ok (rs, s') ->
  (forall r, r ∈ rs -> exists o, outbox s !! record_key r = Some o /\ o_channel o = channel /\
     granted worker t (t + d) r o /\ outbox s' !! record_key r = Some (or_row r)) /\
  (forall k o, outbox s !! k = Some o -> ambiguous o = true ->
     (forall r, r ∈ rs -> record_key r <> k) /\
     (outbox s' !! k = Some o \/ exists o', outbox s' !! k = Some o' /\ o_state o' = O_CANCELLED)) /\
  (forall k o, outbox s !! k = Some o -> ambiguous o = true -> o_channel o = channel ->
     outbox_due t o = true ->
     count_rows (outbox s) (fun _ o => str_eqb (o_channel o) channel && outbox_due t o) <= count ->
     exists o', outbox s' !! k = Some o' /\ o_state o' = O_CANCELLED).
Proof.
  revert rs s'. unfold claim_outbox, outbox_channel. apply post_bind, post_bind, post_check. intros _.
  apply post_ret. apply post_bind, post_lift_result. intros w Hw.
  assert (w = worker) as -> by (unfold require_worker_id in Hw; destruct (worker_re worker); congruence).
  unfold require_limit. apply post_bind. destruct (negb _); [apply post_raise|]. apply post_ret.
  apply post_bind, post_lift_result. intros dd Hd.
  assert (dd = d) as -> by (unfold require_lease_duration in Hd; destruct (_ || _); congruence).
  apply post_bind, post_check. intros _. apply post_bind, post_ret. apply post_bind, post_gets.
  set (p := fun (_ : key2) o => str_eqb (o_channel o) channel && outbox_due t o).
  eapply post_mono; [apply post_claim_rows; [apply selected_keys_nodup|]|].
  { intros k o (? & ? & _)%claim_candidates. done. }
  set (l := limit count _). intros rs s' (F & G & A). split_and!.
  - intros r Hr. destruct (G r Hr) as (o & Hin & _ & Hg & Hl).
    apply claim_candidates in Hin as (? & ? & ?). eauto.
  - intros k o Hk Ha. split.
    + intros r Hr <-. destruct (G r Hr) as (o' & Hin & Ho' & _ & _).
      apply claim_candidates in Hin as (? & _). congruence.
    + destruct (decide (k ∈ l.*1)) as [Hin|Hout]; [right|left; by rewrite F].
      apply list_elem_of_fmap in Hin as ([k' o'] & -> & Hin).
      pose proof Hin as (? & _)%claim_candidates. simpl in *.
      apply (A k' o'); [done | congruence].
  - intros k o Hk Ha Hc Hdue Hcount. apply (A k o); [|done].
    unfold l. rewrite limit_all; [|by unfold order_by; rewrite (merge_sort_Permutation _ _)].
    rewrite elem_of_order_by. apply elem_of_select_rows. split; [done|].
    unfold p. by rewrite <- Hc, str_eqb_refl, Hdue.
Qed.

(** One pending progress row, claimed by a first worker. *)
Definition demo_event : Event := mkEvent E_QUEUED [] T0.
Definition demo_outbox_store : Store :=
  demo_store <| events := {[ ("alice", "workload-1", 2) := demo_event;
                             ("alice", "workload-1", 3) := demo_event ]} |>.
Definition demo_progress (event : Z) : db OutboxRecord :=
  @enqueue_progress demo_host "alice" "workload-1" event "telegram" "alice" 0 (Some T0).
Definition demo_enqueued : Store := store_of (demo_progress 2 demo_outbox_store).
Definition demo_delivery (worker : string) (t : Z) : db (list OutboxRecord) :=
  @claim_outbox demo_host "telegram" worker 10 (60 * second) (Some t).
Definition demo_sending : Store := store_of (demo_delivery "worker-1" T0 demo_enqueued).

Lemma claim_outbox_grants_once_witness :
  exists r o, demo_delivery "worker-1" T0 demo_enqueued = Ok ([r], demo_sending) /\
    granted "worker-1" T0 (T0 + 60 * second) r o.
Proof.
  assert (exists r, demo_delivery "worker-1" T0 demo_enqueued = Ok ([r], demo_sending))
    as [r Hrun] by (eexists; vm_compute; reflexivity).
  destruct (proj1 (@claim_outbox_grants_once demo_host "telegram" "worker-1" 10 (60 * second) T0
    demo_enqueued demo_sending [r] Hrun) r) as (o & _ & _ & H & _); [left|].
  exists r, o. split; [exact Hrun | exact H].
Defined.

(** A stale delivery is powerless.  Unless the stored row is leased to
    that worker under the record's fence, starting, confirming, releasing and
    cancelling all answer false and leave the store exactly as it is. *)
Theorem stale_delivery_is_powerless `{Host} (r : OutboxRecord) (worker : string) (t : Z)
    (s : Store) :
  worker_re worker = true ->
  (forall o, outbox s !! record_key r = Some o -> holds_delivery r worker o = false) ->
  mark_outbox_delivery_started r worker (Some t) s = Ok (false, s) /\
  (forall ack text, canonical_json (JObj (match ack with [] => [("delivery", JStr "sent")]
                                          | _ => ack end)) MAX_EVENT_JSON_BYTES = Ok text ->
     confirm_outbox r worker ack (Some t) s = Ok (false, s)) /\
  (forall retry, release_outbox r worker retry (Some t) s = Ok (false, s)) /\
  (forall code, code ∈ OUTBOX_CANCEL_REASONS ->
     cancel_outbox r worker code (Some t) s = Ok (false, s)).
Proof.
  intros Hw Hno. unfold record_key in Hno.
  assert (of_value (require_worker_id worker) s = Ok (worker, s)) as Hwk
    by (unfold of_value, require_worker_id, lift_result; by rewrite Hw).
  split_and!; intros;
    unfold mark_outbox_delivery_started, confirm_outbox, release_outbox, cancel_outbox,
      operation_now, update_outbox, mbind, txn_bind, gets, check, mret, txn_ret; rewrite Hwk.
  - unfold update_at. destruct (outbox s !! _) as [o|] eqn:E; [|done]. by rewrite (Hno o eq_refl).
  - unfold of_schema, lift_result.
    match goal with E : canonical_json _ _ = Ok _ |- _ => rewrite E end.
    unfold update_at. destruct (outbox s !! _) as [o|] eqn:E; [|done]. by rewrite (Hno o eq_refl).
  - destruct (outbox s !! _) as [o|] eqn:E; [|done]. by rewrite (Hno o eq_refl).
  - rewrite bool_decide_true by done.
    unfold update_at. destruct (outbox s !! _) as [o|] eqn:E; [|done]. by rewrite (Hno o eq_refl).
Qed.

Definition demo_claimed : OutboxRecord :=
  match value_of (demo_delivery "worker-1" T0 demo_enqueued) with
  | Some (r :: _) => r
  | _ => mkOutboxRecord "" "" (mkOutbox "" 0 "" "" O_PENDING 0 None None None 0 None None 0 0)
  end.

Lemma demo_fence :
  holds_delivery demo_claimed "worker-1" <$> outbox demo_enqueued !! record_key demo_claimed
  = Some false.
Proof. vm_compute. reflexivity. Qed.

Lemma stale_delivery_is_powerless_witness :
  @mark_outbox_delivery_started demo_host demo_claimed "worker-1" (Some T0) demo_enqueued
  = Ok (false, demo_enqueued).
Proof.
  refine (proj1 (@stale_delivery_is_powerless demo_host demo_claimed "worker-1" T0 demo_enqueued
    _ _)); [vm_compute; reflexivity|].
  intros o Ho. pose proof demo_fence as Hf. rewrite Ho in Hf. by apply (inj Some) in Hf.
Defined.

(** A release can be refused.  When a newer progress row of the
    same coalescing key was enqueued while the first was being delivered,
    releasing the first one raises an integrity error: the claimed row keeps
    its lease although [release_outbox] promises to return it. *)
Theorem release_blocked_by_newer_progress :
  let newer := store_of (demo_progress 3 demo_sending) in
  holds_delivery demo_claimed "worker-1" <$> outbox newer !! record_key demo_claimed = Some true /\
  error_of (@release_outbox demo_host demo_claimed "worker-1" None (Some (T0 + second)) newer)
  = Some (IntegrityError "UNIQUE constraint failed: outbox").
Proof. vm_compute. done. Qed.
