(* ===== verification/ReuseGuarantees.v ===== *)
(** * What an adoption leaves behind

    The lemmas of ReuseProperties.v: a settlement with a unit in attention or
    a violated budget, a parked unit, and a stored adoption. *)
From Stdlib Require Import Strings.String.
From S2P Require Import Prelude.
From S2P Require Import PyJson.
From S2P Require Import DurableModels.
From S2P Require Import DurableResults.
From S2P Require Import DurableTables.
From S2P Require Import DurableOutbox.
From S2P Require Import DurableWorkflow.
From S2P Require Import DurableLeases.
From S2P Require Import DurableMaterialize.
From S2P Require Import DurableReuse.
From S2P Require Import DurableFrames.
From S2P Require Import LeaseProtocol.
From S2P Require Import WorkloadProtocol.
From S2P Require Import DurableRefinement.
From S2P Require Import DurableAudit.
From S2P Require Import CompletionGuarantees.
Local Open Scope Z_scope.

(** ** Attempts and results *)

Definition keeps_history (s s' : Store) : Prop :=
  attempts s' = attempts s /\ results s' = results s.

#[export] Instance keeps_history_preorder : PreOrder keeps_history.
Proof. split; unfold keeps_history; [done | intros ???; intuition congruence]. Qed.

Ltac ignores_history := intros s f; by split.
#[export] Instance history_ignores_ticks : Ignores keeps_history ticks. Proof. ignores_history. Qed.
#[export] Instance history_ignores_workloads : Ignores keeps_history workloads.
Proof. ignores_history. Qed.
#[export] Instance history_ignores_events : Ignores keeps_history events. Proof. ignores_history. Qed.
#[export] Instance history_ignores_outbox : Ignores keeps_history outbox. Proof. ignores_history. Qed.
#[export] Instance history_ignores_usages : Ignores keeps_history usages. Proof. ignores_history. Qed.
#[export] Instance history_ignores_revisions : Ignores keeps_history revisions.
Proof. ignores_history. Qed.
#[export] Instance history_ignores_credits : Ignores keeps_history credits.
Proof. ignores_history. Qed.
#[export] Instance history_ignores_units : Ignores keeps_history units. Proof. ignores_history. Qed.
#[export] Instance history_ignores_dependencies : Ignores keeps_history dependencies.
Proof. ignores_history. Qed.

Section Settle.
Context `{Host}.

Lemma history_settle o w n b l : guar keeps_history (settle o w n b l).
Proof.
  unfold settle, settle_exhausted, settle_attention, settle_failure_or_pause,
    settle_cancellation, cancel_waiting_units, repair_exhausted_units, waiting_unit_exists,
    active_unit_count, untolerated_count, unit_attention_count, materialization_attention_count,
    exhausted_pending_exists.
  guar.
Qed.

(** An automatic transition ends in its target. *)
Definition in_state (s : Store) (k : key2) (st : WorkloadState) : Prop :=
  exists w, workloads s !! k = Some w /\ w_state w = st.

Lemma in_state_flow s k f :
  lg_flow (log s) !! k = Some f -> in_state s k (f_state f).
Proof.
  simpl. rewrite lookup_fmap. unfold in_state. destruct (workloads s !! k) as [w|] eqn:E; [|done].
  intros [= <-]. eauto.
Qed.

Lemma post_automatic_state o w row tgt c d now s :
  workloads s !! (o, w) = Some row ->
  post (automatic_transition o w row tgt c d now) s (fun _ s' => in_state s' (o, w) tgt).
Proof.
  intros Hrow. unfold automatic_transition. apply post_bind, post_check. intros _.
  apply post_bind, post_update_state. intros r row' s1 Hrow' _ _ _ _ Hlog.
  apply post_bind, post_of_option. intros ty _.
  apply post_bind, post_append_event. intros f e s2 Hf _ _ _ H2.
  apply post_bind, (post_guar keeps_log); [guar|]. intros _ s3 H3. apply post_ret.
  rewrite Hlog in Hf. simpl in Hf. rewrite lookup_insert_eq in Hf. injection Hf as <-.
  apply (in_state_flow s3 (o, w) (mkFlow tgt (w_version row + 1) (w_next_event row' + 1))).
  rewrite H3, H2. apply lookup_insert_eq.
Qed.

(** The workload stops: units, attempts and results stay. *)
Definition stopped (s s' : Store) (k : key2) : Prop :=
  keeps_core s s' /\ in_state s' k NEEDS_ATTENTION.

Lemma post_stop o w row c d now s :
  workloads s !! (o, w) = Some row ->
  post (automatic_transition o w row NEEDS_ATTENTION c d now) s (fun _ s' => stopped s s' (o, w)).
Proof.
  intros Hrow r s' Hrun. split.
  - assert (guar keeps_core (automatic_transition o w row NEEDS_ATTENTION c d now)) as G by guar.
    exact (G _ _ _ Hrun).
  - exact (post_automatic_state o w row _ c d now s Hrow r s' Hrun).
Qed.

(** A unit that counts as attention of its revision. *)
Definition demands_attention (s : Store) (o rev uid : string) : Prop :=
  exists u r, units s !! (o, uid) = Some u /\ u_revision u = rev /\
    u_state u = U_NEEDS_ATTENTION /\ revisions s !! (o, rev) = Some r /\
    r_manual_generation r <= u_generation u.

Lemma unit_attention_demanded s o rev uid :
  demands_attention s o rev uid ->
  exists n, unit_attention_count o rev s = Ok (n, s) /\ (n =? 0) = false.
Proof.
  intros (u & r & Hu & Hrev & Hst & Hr & Hgen). eexists. split; [reflexivity|]. rewrite Hr.
  apply Z.eqb_neq. intros Hz.
  assert (forall k x, units s !! k = Some x -> in_revision o rev k x
    && bool_decide (u_state x = U_NEEDS_ATTENTION) && (r_manual_generation r <=? u_generation x)
    = false) as Hall by (apply count_rows_false; by apply Z.ltb_ge; lia).
  pose proof (Hall _ _ Hu) as Hf. unfold in_revision in Hf. simpl in Hf.
  rewrite Hrev, !str_eqb_refl, bool_decide_true, (proj2 (Z.leb_le _ _) Hgen) in Hf by done. done.
Qed.

#[local] Instance eq_preorder : PreOrder (@eq Store).
Proof. split; [done | intros ???; congruence]. Qed.

Lemma budget_violation_reads o w rev now : guar eq (budget_violation_in o w rev now).
Proof. guar. Qed.

(** A violated budget or a unit in attention stops an executing workload. *)
Lemma post_settle_stops o w now l s row rev uid v :
  workloads s !! (o, w) = Some row -> w_active_revision row = Some rev ->
  w_state row ∈ [QUEUED; RUNNING] -> budget_violation_in o w rev now s = Ok (v, s) ->
  is_Some v \/ demands_attention s o rev uid ->
  post (settle o w now false l) s (fun _ s' => stopped s s' (o, w)).
Proof.
  intros Hrow Hact Hst Hb Hwhy. unfold settle. apply post_bind, post_select_workload.
  intros row' Hrow'. assert (row' = row) as -> by congruence. rewrite Hact.
  assert (bool_decide (w_state row ∈ TERMINAL_WORKLOAD_STATES) = false) as ->
    by (list_cases Hst; by rewrite Hst).
  rewrite (bool_decide_false (w_state row = CANCEL_REQUESTED)) by (list_cases Hst; by rewrite Hst).
  rewrite (bool_decide_true (w_state row ∈ [ADMITTED; QUEUED; RUNNING; PAUSE_REQUESTED; PAUSED]))
    by set_solver.
  apply post_bind, post_total. intros v' s1 Hb'. assert (v' = v /\ s1 = s) as [-> ->] by (split; congruence).
  destruct v as [v|].
  { apply post_bind. eapply post_mono; [by apply post_stop|]. intros r s' Hs. by apply post_ret. }
  destruct Hwhy as [[? [=]]|Hwhy]. apply unit_attention_demanded in Hwhy as (n & Hn & Hz).
  unfold settle_exhausted, settle_attention.
  rewrite (bool_decide_false (w_state row = NEEDS_ATTENTION)) by (list_cases Hst; by rewrite Hst).
  unfold materialization_attention_count. apply post_bind, post_gets.
  assert (forall c d (k : WorkloadRecord -> Z), post (r ← automatic_transition o w row NEEDS_ATTENTION c d (Some now);
            mret (r, k r)) s (fun _ s' => stopped s s' (o, w))) as Hgo.
  { intros c d k. apply post_bind. eapply post_mono; [by apply post_stop|]. intros r s' Hs.
    by apply post_ret. }
  destruct (negb _); [apply Hgo|].
  apply post_bind, post_total. intros n' s2 Hn'. assert (n' = n /\ s2 = s) as [-> ->] by (split; congruence).
  unfold artifact_attention_count. apply post_bind, post_gets. rewrite Hz. apply Hgo.
Qed.
End Settle.

(** ** The counters of a revision *)

Definition counters (s : Store) : gmap key2 (list Z) := usage_list <$> usages s.
Definition keeps_counters (s s' : Store) : Prop := counters s' = counters s.

#[export] Instance keeps_counters_preorder : PreOrder keeps_counters.
Proof. split; unfold keeps_counters; [done | intros ???; congruence]. Qed.

Ltac ignores_counters := intros s f; reflexivity.
#[export] Instance counters_ignore_ticks : Ignores keeps_counters ticks. Proof. ignores_counters. Qed.
#[export] Instance counters_ignore_workloads : Ignores keeps_counters workloads.
Proof. ignores_counters. Qed.
#[export] Instance counters_ignore_events : Ignores keeps_counters events.
Proof. ignores_counters. Qed.
#[export] Instance counters_ignore_outbox : Ignores keeps_counters outbox.
Proof. ignores_counters. Qed.
#[export] Instance counters_ignore_credits : Ignores keeps_counters credits.
Proof. ignores_counters. Qed.
#[export] Instance counters_ignore_units : Ignores keeps_counters units. Proof. ignores_counters. Qed.

#[export] Instance counters_ignore_revisions : Ignores keeps_counters revisions.
Proof. ignores_counters. Qed.

Lemma counters_update s k us us' :
  usages s !! k = Some us -> usage_list us' = usage_list us ->
  keeps_counters s (set_field usages <[k := us']> s).
Proof.
  intros Hus E. unfold keeps_counters, counters. simpl. rewrite fmap_insert, E.
  apply insert_id. by rewrite lookup_fmap, Hus.
Qed.
#[export] Hint Extern 2 (guar keeps_counters (update_one usages _ _ _ _)) =>
  apply guar_update_one; intros; eapply counters_update; [eassumption | reflexivity] : guar.

(** ** A unit at rest stays at rest *)

(** The unit waits for attention or has been cancelled since. *)
Definition parked_unit (s : Store) (k : key2) (fence : Z) : Prop :=
  exists u, units s !! k = Some u /\ u_state u ∈ [U_NEEDS_ATTENTION; U_CANCELLED] /\
    u_fence u = fence.

Definition keeps_parked (s s' : Store) : Prop :=
  forall k fence, parked_unit s k fence -> parked_unit s' k fence.

#[export] Instance keeps_parked_preorder : PreOrder keeps_parked.
Proof. split; unfold keeps_parked; [intros s k f Hp; exact Hp | intros s t u ????; eauto]. Qed.

Ltac ignores_parked := intros s f k fence Hp; exact Hp.
#[export] Instance parked_ignores_ticks : Ignores keeps_parked ticks. Proof. ignores_parked. Qed.
#[export] Instance parked_ignores_workloads : Ignores keeps_parked workloads.
Proof. ignores_parked. Qed.
#[export] Instance parked_ignores_events : Ignores keeps_parked events. Proof. ignores_parked. Qed.
#[export] Instance parked_ignores_outbox : Ignores keeps_parked outbox. Proof. ignores_parked. Qed.
#[export] Instance parked_ignores_usages : Ignores keeps_parked usages. Proof. ignores_parked. Qed.
#[export] Instance parked_ignores_credits : Ignores keeps_parked credits.
Proof. ignores_parked. Qed.

#[export] Instance parked_ignores_revisions : Ignores keeps_parked revisions.
Proof. ignores_parked. Qed.

Lemma parked_update s k u u' :
  units s !! k = Some u -> u_state u' ∈ [U_NEEDS_ATTENTION; U_CANCELLED] ->
  u_fence u' = u_fence u -> keeps_parked s (set_field units <[k := u']> s).
Proof.
  intros Hu Hs Hf x fence (v & Hv & Hvs & Hvf). unfold parked_unit. simpl.
  destruct (decide (x = k)) as [->|Hx].
  - exists u'. rewrite lookup_insert_eq. split_and!; congruence.
  - exists v. by rewrite lookup_insert_ne.
Qed.
#[export] Hint Extern 2 (guar keeps_parked (update_one units _ _ _ _)) =>
  apply guar_update_one; intros; eapply parked_update;
    [eassumption | simpl; set_solver | reflexivity] : guar.

Section Rest.
Context `{Host}.

Lemma counters_automatic o w r t c d n : guar keeps_counters (automatic_transition o w r t c d n).
Proof. unfold automatic_transition, update_state. guar. Qed.
Hint Resolve counters_automatic : guar.

Lemma counters_settle o w n b l : guar keeps_counters (settle o w n b l).
Proof.
  unfold settle, settle_exhausted, settle_attention, settle_failure_or_pause,
    settle_cancellation, cancel_waiting_units, repair_exhausted_units, waiting_unit_exists,
    active_unit_count, untolerated_count, unit_attention_count, materialization_attention_count,
    exhausted_pending_exists.
  guar.
Qed.

Lemma parked_settle o w n b l : guar keeps_parked (settle o w n b l).
Proof.
  unfold settle, settle_exhausted, settle_attention, settle_failure_or_pause,
    settle_cancellation, cancel_waiting_units, repair_exhausted_units, waiting_unit_exists,
    active_unit_count, untolerated_count, unit_attention_count, materialization_attention_count,
    exhausted_pending_exists.
  guar.
Qed.
End Rest.

(** ** Parking *)

(** The unit is parked, nothing ran; a generation of retries the unit has
    already seen stops the workload. *)
Record parked_facts (s s' : Store) (row : ReuseRow) (reason : string) : Prop := {
  pf_history : keeps_history s s';
  pf_unit : parked_unit s' (ru_owner row, ru_unit_id row) (u_fence (ru_unit row));
  pf_stops : r_manual_generation (ru_revision row) <= u_generation (ru_unit row) ->
    in_state s' (ru_owner row, ru_workload_id row) NEEDS_ATTENTION /\
    exists u, units s' !! (ru_owner row, ru_unit_id row) = Some u /\
      u_state u = U_NEEDS_ATTENTION /\ u_error u = Some reason }.

Section Outcomes.
Context `{Host}.

Lemma post_settle_stops_any o w now l s row rev uid :
  workloads s !! (o, w) = Some row -> w_active_revision row = Some rev ->
  w_state row ∈ [QUEUED; RUNNING] -> demands_attention s o rev uid ->
  post (settle o w now false l) s (fun _ s' => stopped s s' (o, w)).
Proof.
  intros Hrow Hact Hst Hd.
  destruct (budget_violation_in o w rev now s) as [[v s1]|e] eqn:Hb.
  - assert (s1 = s) as -> by (symmetry; exact (budget_violation_reads o w rev now s v s1 Hb)).
    eapply post_settle_stops; eauto.
  - unfold settle. apply post_bind, post_select_workload.
    intros row' Hrow'. assert (row' = row) as -> by congruence. rewrite Hact.
    assert (bool_decide (w_state row ∈ TERMINAL_WORKLOAD_STATES) = false) as ->
      by (list_cases Hst; by rewrite Hst).
    rewrite (bool_decide_false (w_state row = CANCEL_REQUESTED)) by (list_cases Hst; by rewrite Hst).
    rewrite (bool_decide_true (w_state row ∈ [ADMITTED; QUEUED; RUNNING; PAUSE_REQUESTED; PAUSED]))
      by set_solver.
    apply post_bind, post_total. intros v' s1 Hb'. congruence.
Qed.

Lemma post_attention row reason now s :
  reuse_facts s row ->
  post (require_attention row reason now) s (fun n s' => n = 1 /\ parked_facts s s' row reason).
Proof.
  intros [Hu _ Hr Hw Hof Hact Hex _ _ _ _ _]. unfold require_attention.
  apply post_bind, post_total. intros txt s1 H1.
  assert (s1 = s) as -> by (unfold of_schema, lift_result in H1; repeat case_match; congruence).
  apply post_bind, post_total. intros [] s1 (u & Hu1 & _ & ->)%update_one_inv.
  assert (u = ru_unit row) as -> by congruence.
  apply post_bind, post_total. intros settled s2 Hs. apply post_ret. split; [done|].
  set (u1 := (ru_unit row) <| u_state := U_NEEDS_ATTENTION |> <| u_error := Some reason |>
    <| u_detail := Some (terminal_detail reason) |> <| u_updated := now |>) in Hs.
  set (k := (ru_owner row, ru_unit_id row)) in *.
  set (s1 := set_field units <[k := u1]> s) in Hs.
  assert (units s1 !! k = Some u1) as Hk by (apply lookup_insert_eq).
  change (workloads s !! (ru_owner row, ru_workload_id row)) with
    (workloads s1 !! (ru_owner row, ru_workload_id row)) in Hw.
  split.
  - pose proof (history_settle _ _ _ _ _ _ _ _ Hs) as Hh. exact Hh.
  - apply (parked_settle _ _ _ _ _ _ _ _ Hs). exists u1. split; [done|]. split; [left | done].
  - intros Hgen.
    assert (demands_attention s1 (ru_owner row)
              (u_revision (ru_unit row)) (ru_unit_id row)) as Hd
      by (exists u1, (ru_revision row); by split_and!).
    destruct (post_settle_stops_any _ _ now UNIT_STATE_BATCH_SIZE s1 (ru_workload row) _ _
                Hw Hact Hex Hd _ _ Hs) as [Hcore Hstate].
    split; [done|]. exists u1. split; [|done]. by rewrite (keeps_units _ _ Hcore).
Qed.
End Outcomes.

(** ** Adoption *)

(** What the store holds once the unit has taken [q] over: a new attempt of no
    worker, a result of the same digest, schema and payload that names where
    it comes from, and the bytes charged. *)
Record adopted_facts (s s' : Store) (row : ReuseRow) (now : Z) (aid rid : string)
    (u : Unit) (a : Attempt) (r : Result) : Prop := {
  af_unit : units s' !! (ru_owner row, ru_unit_id row) = Some u;
  af_committed : u_state u = U_COMMITTED /\ u_result u = Some rid;
  af_attempts : attempts s !! (ru_owner row, aid) = None /\
    attempts s' = <[(ru_owner row, aid) := a]> (attempts s);
  af_attempt : a_unit a = ru_unit_id row /\ a_worker a = "result-reuse" /\ a_number a = 1 /\
    a_state a = A_SUCCEEDED /\ a_started a = now /\ a_ended a = Some now;
  af_results : results s !! (ru_owner row, rid) = None /\
    results s' = <[(ru_owner row, rid) := r]> (results s);
  af_result : res_unit r = ru_unit_id row /\ res_attempt r = aid /\
    res_digest r = res_digest (ru_result row) /\ res_schema r = res_schema (ru_result row) /\
    res_payload r = res_payload (ru_result row) /\
    obj_get "source_result_id" (res_provenance r) = Some (JStr (ru_result_id row));
  af_charged : exists us, usages s' !! (ru_owner row, u_revision (ru_unit row)) = Some us /\
    us_output_bytes us = us_output_bytes (ru_usage row)
                         + byte_len (dumps (JObj (res_payload (ru_result row)))) }.

(** The tables an adoption is judged by. *)
Definition view (s : Store) :=
  (units s, attempts s, results s, usages s).
Definition keeps_view (s s' : Store) : Prop := view s' = view s.

#[export] Instance keeps_view_preorder : PreOrder keeps_view.
Proof. split; unfold keeps_view; [done | intros ???; congruence]. Qed.
#[export] Instance view_ignores_ticks : Ignores keeps_view ticks. Proof. by intros s f. Qed.
#[export] Instance view_ignores_dependencies : Ignores keeps_view dependencies.
Proof. by intros s f. Qed.

(** Parts that keep the view [v], one after the other. *)
Lemma post_view {A B} v (m : db A) (k : A -> db B) (P : A -> Prop) (Q : B -> Store -> Prop) :
  guar keeps_view m -> yields P m -> (forall a, P a -> forall s, view s = v -> post (k a) s Q) ->
  forall s, view s = v -> post (m ≫= k) s Q.
Proof.
  intros Hm Hy Hk s Hs. apply post_bind, (post_guar_yields keeps_view P); [done..|].
  intros a s' Hs' Ha. apply Hk; [done|]. by rewrite <- Hs.
Qed.

Section Adoption.
Context `{Host}.

Lemma yields_any {A} (m : db A) : yields (fun _ => True) m.
Proof. by intros s a s' _. Qed.

Lemma yields_reuse_provenance row v aid fence count :
  yields (fun p => obj_get "source_result_id" p = Some (JStr (ru_result_id row)))
    (reuse_provenance row v aid fence count).
Proof.
  unfold reuse_provenance. repeat (apply yields_bind; intros ?). by apply yields_ret.
Qed.

(** The tail of the transaction keeps what the adoption wrote. *)
Definition reuse_tail (row : ReuseRow) (now : Z) : db Z :=
  start_queued_workload (ru_owner row) (ru_workload_id row) (ru_workload row) now
    "first_result_reused" ;;
  settle (ru_owner row) (ru_workload_id row) now false UNIT_STATE_BATCH_SIZE ;;
  mret 1.

Lemma tail_history row now : guar keeps_history (reuse_tail row now).
Proof. pose proof history_settle. unfold reuse_tail. guar. Qed.
Lemma tail_counters row now : guar keeps_counters (reuse_tail row now).
Proof. pose proof counters_settle. unfold reuse_tail, start_queued_workload. guar. Qed.
Lemma tail_refines row now : guar refines (reuse_tail row now).
Proof. unfold reuse_tail. guar. Qed.

Lemma tail_one row now : yields (fun n => n = 1) (reuse_tail row now).
Proof. unfold reuse_tail. repeat (apply yields_bind; intros ?). by apply yields_ret. Qed.

Lemma post_add_output_bytes o rev n now us s (Q : unit -> Store -> Prop) :
  usages s !! (o, rev) = Some us ->
  (forall us', usage_list us' = usage_list (add_usage (Build_increments 0 n 0 0 0 0) false now us) ->
     Q tt (set_field usages <[(o, rev) := us']> s)) ->
  post (add_revision_usage o rev (Build_increments 0 n 0 0 0 0) false now) s Q.
Proof.
  intros Hus HQ. unfold add_revision_usage. repeat post_step.
  apply post_total. intros [] s' (u & Hu & _ & ->)%update_one_inv. apply post_ret.
  apply HQ. congruence.
Qed.

(** From the committed unit on nothing that was written changes. *)
Lemma post_charge_and_tail row now n us u rid s :
  units s !! (ru_owner row, ru_unit_id row) = Some u ->
  u_state u = U_COMMITTED -> u_result u = Some rid ->
  usages s !! (ru_owner row, u_revision (ru_unit row)) = Some us ->
  post (add_revision_usage (ru_owner row) (u_revision (ru_unit row))
          (Build_increments 0 n 0 0 0 0) false now ;; reuse_tail row now) s
    (fun z s' => z = 1 /\ keeps_history s s' /\
      (exists u', units s' !! (ru_owner row, ru_unit_id row) = Some u' /\
         u_state u' = U_COMMITTED /\ u_result u' = Some rid) /\
      (exists us', usages s' !! (ru_owner row, u_revision (ru_unit row)) = Some us' /\
         us_output_bytes us' = us_output_bytes us + n)).
Proof.
  intros Hu Hs Hr Hus. apply post_bind. eapply post_add_output_bytes; [exact Hus|].
  intros us' [= _ Hout _ _ _ _]. apply post_total. intros z s' Hrun.
  set (s1 := set_field usages _ s) in Hrun.
  pose proof (tail_history row now s1 z s' Hrun) as Hh.
  pose proof (tail_counters row now s1 z s' Hrun) as Hc.
  pose proof (core_steps_evolve _ _ (tail_refines row now s1 z s' Hrun)) as [Hev _ _].
  split; [exact (tail_one row now s1 z s' Hrun)|]. split; [exact Hh|]. split.
  - destruct (Hev (ru_owner row, ru_unit_id row) u Hu) as (u' & Hu' & [_ _ _ Hst Hres]).
    exists u'. split; [done|]. rewrite Hs in Hst. split; [by apply committed_sink | by apply Hres].
  - assert (counters s' !! (ru_owner row, u_revision (ru_unit row)) = Some (usage_list us')) as E.
    { rewrite Hc. unfold counters. simpl. by rewrite lookup_fmap, lookup_insert_eq. }
    unfold counters in E. rewrite lookup_fmap in E.
    apply fmap_Some in E as (us2 & Hus2 & [= _ E _ _ _ _]). exists us2. split; [done | congruence].
Qed.

Lemma post_store_reuse row v now s :
  reuse_facts s row -> revalidated row = Some v ->
  post (store_reuse row v now) s (fun n s' => n = 1 /\
    exists aid rid u a r, adopted_facts s s' row now aid rid u a r).
Proof.
  intros [Hu0 Hun _ _ _ _ _ Hus _ _ _ _] (Hvs & Hvp & Hvd)%revalidated_inv. unfold store_reuse.
  generalize (eq_refl (view s)). generalize s at 1 3.
  eapply post_view; [solve [guar] | apply yields_any | intros planned _].
  eapply post_view; [solve [guar] | apply yields_any | intros aid _].
  eapply post_view; [solve [guar] | apply yields_any | intros rid _].
  eapply post_view; [solve [guar] | apply yields_reuse_provenance | intros prov Hprov].
  eapply post_view; [solve [guar] | apply yields_any | intros _ _].
  intros s1 [= Hu1 Ha1 Hr1 Hus1].
  apply post_bind, post_insert_attempt. intros Hnew _.
  apply post_bind, post_insert_result. intros Hrnew _. change (results s1 !! (ru_owner row, rid) = None) in Hrnew.
  match goal with |- post _ ?s2 _ => generalize (eq_refl (view s2)); generalize s2 at 1 3 end.
  eapply post_view; [solve [guar] | apply yields_any | intros _ _].
  eapply post_view; [solve [guar] | apply yields_any | intros detail _].
  intros s2 [= Hu2 Ha2 Hr2 Hus2].
  apply post_bind, post_total.
  intros [] s3 (u & Hu & Hok & ->)%update_one_inv.
  eapply post_mono; [eapply (post_charge_and_tail row now _ (ru_usage row) _ rid)|].
  - apply lookup_insert_eq.
  - reflexivity.
  - reflexivity.
  - change (usages s2 !! (ru_owner row, u_revision (ru_unit row)) = Some (ru_usage row)).
    congruence.
  - intros z s' (-> & [Ha Hr] & (u' & Hu' & Hst & Hres) & Hch).
    change (attempts s' = attempts s2) in Ha. change (results s' = results s2) in Hr.
    split; [done|]. do 5 eexists. split; [exact Hu' | by split | | | | | ].
    + rewrite Ha, Ha2, <- Ha1. by split.
    + unfold untried in Hun. rewrite !andb_true_iff, Z.eqb_eq in Hun.
      destruct Hun as [[_ ->] _]. by split_and!.
    + rewrite Hr, Hr2, <- Hr1. by split.
    + by split_and!.
    + by rewrite <- Hvp.
Qed.
End Adoption.
