(* ===== verification/ReuseProperties.v ===== *)
(** * Properties of the reuse of results

    What one transaction of [adopt_reusable_results] does on each of its
    branches, and what goes wrong when a revision has been granted a manual
    retry before. *)
From Stdlib Require Import Strings.String.
From S2P Require Import Prelude.
From S2P Require Import PyJson.
From S2P Require Import DurableModels.
From S2P Require Import DurableRetry.
From S2P Require Import DurableResults.
From S2P Require Import DurableTables.
From S2P Require Import DurableOutbox.
From S2P Require Import DurableWorkflow.
From S2P Require Import DurableLeases.
From S2P Require Import DurableMaterialize.
From S2P Require Import DurableReuse.
From S2P Require Import DurableSystem.
From S2P Require Import DurableFrames.
From S2P Require Import LeaseProtocol.
From S2P Require Import DurableRefinement.
From S2P Require Import DurableFixture.
From S2P Require Import ReuseGuarantees.
Local Open Scope Z_scope.

(** All the results the unit could take have one digest. *)
Definition reusable_agree (s : Store) (row : ReuseRow) : Prop :=
  forall rid q, reusable s row rid q -> res_digest q = res_digest (ru_result row).

(** The stored text of a result still hashes to its digest, under the schema
    the stage promises. *)
Definition intact (row : ReuseRow) : Prop :=
  exists c, canonical_result (res_schema (ru_result row)) (res_payload (ru_result row)) = Ok c /\
    c.2 = res_digest (ru_result row) /\
    json_is_str (output_name (ru_stage row)) (res_schema (ru_result row)) = true.

Definition reused_bytes (row : ReuseRow) : Z :=
  us_output_bytes (ru_usage row) + byte_len (dumps (JObj (res_payload (ru_result row)))).

Inductive parked_because (s : Store) (row : ReuseRow) : string -> Prop :=
| because_conflict rid q rid' q' :
    reusable s row rid q -> reusable s row rid' q' -> res_digest q <> res_digest q' ->
    parked_because s row "result_digest_conflict"
| because_invalid :
    reusable_agree s row -> revalidated row = None ->
    parked_because s row "reusable_result_invalid"
| because_budget bound :
    reusable_agree s row -> intact row ->
    budget_column (ru_revision row) "max_bytes_written" = Some bound -> bound < reused_bytes row ->
    parked_because s row "budget_limit_exceeded".

Inductive reuse_outcome (s s' : Store) (row : ReuseRow) (now : Z) : Z -> Prop :=
| outcome_over_budget v n :
    budget_violation_in (ru_owner row) (ru_workload_id row) (u_revision (ru_unit row)) now s
      = Ok (Some v, s) ->
    1 <= n -> stopped s s' (ru_owner row, ru_workload_id row) ->
    reuse_outcome s s' row now n
| outcome_parked reason :
    parked_because s row reason -> parked_facts s s' row reason -> reuse_outcome s s' row now 1
| outcome_adopted bound aid rid u a r :
    reusable_agree s row -> intact row ->
    budget_column (ru_revision row) "max_bytes_written" = Some bound ->
    reused_bytes row <= bound ->
    adopted_facts s s' row now aid rid u a r -> reuse_outcome s s' row now 1.

Lemma prior_digests_reusable s row d :
  d ∈ prior_digests s row <-> exists rid q, reusable s row rid q /\ res_digest q = d.
Proof.
  unfold prior_digests. rewrite list_elem_of_omap. split.
  - intros ([k pu] & [Hk Hp]%elem_of_select_rows & E). apply bind_Some in E as (st & Hst & E).
    case_match eqn:Hc; [|done]. simpl in *.
    destruct (result_of (ru_owner row) s pu) as [[rid q]|] eqn:Hq; [|done]. injection E as <-.
    exists rid, q. split; [|done]. exists k, pu, st. by split_and!.
  - intros (rid & q & (k & pu & st & Hk & Hp & Hst & Hc & Hq) & <-).
    exists (k, pu). split; [by apply elem_of_select_rows|]. simpl. rewrite Hst. simpl.
    by rewrite Hc, Hq.
Qed.

Lemma digests_agree l d e :
  digests_conflict l = false -> d ∈ l -> e ∈ l -> d = e.
Proof.
  destruct l as [|x l]; simpl; [by intros _ ?%elem_of_nil|]. intros Hl.
  assert (forall y, y ∈ x :: l -> y = x) as Hall.
  { intros y [->|Hy]%elem_of_cons; [done|].
    pose proof (existsb_false _ _ y Hl Hy) as E. by apply negb_false_iff, str_eqb_true in E. }
  intros Hd He. by rewrite (Hall d Hd), (Hall e He).
Qed.

Lemma digests_differ l :
  digests_conflict l = true -> exists d e, d ∈ l /\ e ∈ l /\ d <> e.
Proof.
  destruct l as [|x l]; simpl; [done|]. intros (e & He & Hne)%existsb_exists.
  exists e, x. split; [right; by apply list_elem_of_In|]. split; [left|]. intros ->.
  by rewrite str_eqb_refl in Hne.
Qed.

Lemma agree_of_no_conflict s row :
  reuse_facts s row -> digests_conflict (prior_digests s row) = false -> reusable_agree s row.
Proof.
  intros Hf Hc rid q Hq. apply (digests_agree _ _ _ Hc); apply prior_digests_reusable; [by eauto|].
  exists (ru_result_id row), (ru_result row). split; [apply Hf | done].
Qed.

Lemma intact_of_revalidated row v : revalidated row = Some v -> intact row.
Proof.
  unfold revalidated, validated_result_post_init, intact.
  destruct (domain_outcome _); simpl; [|done]. destruct (completion_outcome _); simpl; [|done].
  destruct (canonical_result _ _) as [c|] eqn:Hc; simpl; [|done].
  destruct (str_eqb c.2 _) eqn:E; [|done]. simpl. case_match eqn:Hn; [|done]. intros _.
  exists c. split_and!; [done | by apply str_eqb_true | done].
Qed.

Section Sound.
Context `{Host}.

Lemma post_over_budget row v now s :
  reuse_facts s row ->
  budget_violation_in (ru_owner row) (ru_workload_id row) (u_revision (ru_unit row)) now s
    = Ok (Some v, s) ->
  post ('(_, settled) ← settle (ru_owner row) (ru_workload_id row) now false UNIT_STATE_BATCH_SIZE;
        check (1 <=? settled) (DurableStoreError "budget violation did not settle the workload") ;;
        mret settled) s (fun n s' => reuse_outcome s s' row now n).
Proof.
  intros [_ _ _ Hw _ Hact Hex _ _ _ _ _] Hb. apply post_bind.
  eapply post_mono; [eapply (post_settle_stops _ _ _ _ _ _ _ (ru_unit_id row)); eauto|]. intros [r n] s' Hs. simpl.
  apply post_bind, post_check. intros Hn%Z.leb_le. apply post_ret. by econstructor.
Qed.

Lemma post_parked row reason now s :
  reuse_facts s row -> parked_because s row reason ->
  post (require_attention row reason now) s (fun n s' => reuse_outcome s s' row now n).
Proof.
  intros Hf Hb. eapply post_mono; [by apply post_attention|]. intros n s' [-> Hp].
  by econstructor.
Qed.

Lemma post_adopt_candidate row now s :
  reuse_facts s row ->
  post (adopt_candidate row now) s (fun n s' => reuse_outcome s s' row now n).
Proof.
  intros Hf. unfold adopt_candidate. apply post_bind, post_total. intros found s1 Hb.
  assert (s1 = s) as -> by (symmetry; exact (budget_violation_reads _ _ _ _ s found s1 Hb)).
  destruct found as [v|]; [by eapply post_over_budget|].
  apply post_bind, post_gets. destruct (digests_conflict _) eqn:Hc.
  { apply post_parked; [done|]. apply digests_differ in Hc as (d & e & Hd & He & Hne).
    apply prior_digests_reusable in Hd as (rid & q & Hq & <-), He as (rid' & q' & Hq' & <-).
    exact (because_conflict s row rid q rid' q' Hq Hq' Hne). }
  pose proof (agree_of_no_conflict s row Hf Hc) as Hagree.
  destruct (revalidated row) as [v|] eqn:Hv; [|apply post_parked; [done | by apply because_invalid]].
  pose proof (intact_of_revalidated row v Hv) as Hint.
  apply post_bind, post_of_option. intros bound Hbound.
  assert (us_output_bytes (ru_usage row) + byte_len (dumps (JObj (vr_payload v)))
          = reused_bytes row) as ->.
  { unfold reused_bytes. apply revalidated_inv in Hv as (_ & -> & _). reflexivity. }
  destruct (bound <? reused_bytes row) eqn:Hlt.
  { apply post_parked; [done|]. apply Z.ltb_lt in Hlt. by eapply because_budget. }
  apply Z.ltb_ge in Hlt. eapply post_mono; [by apply post_store_reuse|].
  intros n s' (-> & aid & rid & u & a & r & Ha). by eapply outcome_adopted.
Qed.
End Sound.

(** C13: a result is reused only where it means the same.  One transaction of
    [adopt_reusable_results] that finds no candidate changes nothing but the
    clock reading.  Otherwise it picks a unit no worker has tried, of a pure
    stage of an executing workload, with a committed result of an earlier
    revision of the same owner, the same unit key and the same stage contract.
    A violated budget stops the workload.  When the results the unit could
    take disagree, the stored text no longer matches its digest and schema, or
    its bytes exceed the budget, the unit is parked for attention and nothing
    else is written.  Only otherwise the unit is committed with a result of
    the same digest, schema and payload that names its source, by an attempt
    of no worker, and its bytes are charged. *)
Theorem reuse_is_sound `{Host} (s s' : Store) (a : option Z) :
  adopt_next s = Ok (a, s') ->
  let begun := set_field ticks S s in
  match reuse_candidate begun with
  | None => a = None /\ s' = begun
  | Some row => reuse_facts begun row /\
      exists n, a = Some n /\ reuse_outcome begun s' row (host_clock (ticks s)) n
  end.
Proof.
  unfold adopt_next, mbind, txn_bind, utc_now, gets. set (begun := set_field ticks S s). simpl.
  destruct (reuse_candidate begun) as [row|] eqn:Hrow; [|by intros [= <- <-]].
  pose proof (reuse_candidate_facts begun row Hrow) as Hf.
  destruct (adopt_candidate row _ begun) as [[n s2]|e] eqn:Hrun; [|done].
  intros [= <- <-]. split; [done|]. exists n. split; [done|].
  exact (post_adopt_candidate row _ begun Hf n s2 Hrun).
Qed.

(** ** A database with something to reuse *)

Definition prior_revision (n : string) : Revision := demo_revision <| r_workload := "workload-" +:+ n |>.
Definition prior_stage (n : string) : Stage :=
  mkStage ("revision-" +:+ n) "map" R_INTERNAL "sealed_inventory" PURE
    [("name", JStr "metnos.entries/1")] (policy_mapping demo_policy) 60
    (Build_resources 1 0 0 0 0 0) None "map" "singleton" true
    1 1 [] ["source.digest"] "sha256:3" None None T0.
Definition committed_unit (n : string) : Unit :=
  demo_unit <| u_revision := "revision-" +:+ n |> <| u_stage := "stage-" +:+ n |>
            <| u_state := U_COMMITTED |> <| u_attempt_count := 1 |> <| u_fence := 1 |>
            <| u_result := Some ("result-" +:+ n) |>.
Definition prior_result (n : string) (v : ValidatedResult) : Result :=
  mkResult ("revision-" +:+ n) ("unit-" +:+ n) ("attempt-" +:+ n) 1 (vr_digest v) (vr_schema v)
    (vr_payload v) [] T0.

(** The revision of an earlier workload whose unit of the same key is
    committed with [v]. *)
Definition with_prior (n : string) (v : ValidatedResult) (s : Store) : Store :=
  s <| revisions := <[("alice", "revision-" +:+ n) := prior_revision n]> (revisions s) |>
    <| stages := <[("alice", "stage-" +:+ n) := prior_stage n]> (stages s) |>
    <| units := <[("alice", "unit-" +:+ n) := committed_unit n]> (units s) |>
    <| results := <[("alice", "result-" +:+ n) := prior_result n v]> (results s) |>.

Definition reuse_store : Store := with_prior "0002" demo_result demo_store.

Definition other_result : ValidatedResult :=
  match from_payload "metnos.entries/1" [("entries", JArr [JObj [("id", JInt 1)]])] with
  | Ok v => v
  | Err _ => demo_result
  end.

(** A second revision committed another result, and the owner has granted the
    current revision a manual retry before. *)
Definition conflict_store : Store :=
  with_prior "0003" other_result reuse_store
  <| revisions := <[("alice", "revision-1") := demo_revision <| r_manual_generation := 1 |>]>
       (revisions (with_prior "0003" other_result reuse_store)) |>.

Definition demo_adopt : db (option Z) := @adopt_next demo_host.

Definition demo_adopted : Store := store_of (demo_adopt reuse_store).

Lemma demo_adopt_runs : demo_adopt reuse_store = Ok (Some 1, demo_adopted).
Proof. vm_compute. reflexivity. Qed.

Lemma reuse_is_sound_witness :
  exists row n, reuse_candidate (set_field ticks S reuse_store) = Some row /\
    reuse_facts (set_field ticks S reuse_store) row /\
    reuse_outcome (set_field ticks S reuse_store) demo_adopted row T0 n /\
    ru_result_id row = "result-0002".
Proof.
  destruct (reuse_candidate (set_field ticks S reuse_store)) as [row|] eqn:Hrow;
    [|vm_compute in Hrow; discriminate Hrow].
  pose proof (@reuse_is_sound demo_host reuse_store demo_adopted (Some 1) demo_adopt_runs) as H.
  cbv zeta in H. rewrite Hrow in H. destruct H as (Hf & n & _ & Ho).
  exists row, n. split; [done|]. split; [done|]. split; [exact Ho|].
  assert (ru_result_id <$> reuse_candidate (set_field ticks S reuse_store) = Some "result-0002") as E
    by (vm_compute; reflexivity).
  rewrite Hrow in E. by injection E.
Defined.

Definition conflict_parked : Store := store_of (demo_adopt conflict_store).

