(* ===== verification/FactsProperties.v ===== *)
(** * Properties of what a running attempt records

    The snapshots an attempt runs with are frozen, and its usage is checked
    against them, charged to its revision, and charged once. *)
From Stdlib Require Import Strings.String.
From S2P Require Import Prelude.
From S2P Require Import PyJson.
From S2P Require Import JsonText.
From S2P Require Import DurableModels.
From S2P Require Import DurableRetry.
From S2P Require Import DurableResults.
From S2P Require Import DurableTables.
From S2P Require Import DurableOutbox.
From S2P Require Import DurableWorkflow.
From S2P Require Import DurableLeases.
From S2P Require Import DurableReuse.
From S2P Require Import DurableFacts.
From S2P Require Import DurableSystem.
From S2P Require Import DurableFrames.
From S2P Require Import DurableRefinement.
From S2P Require Import DurableAudit.
From S2P Require Import FrozenFacts.
From S2P Require Import DurableFixture.
From S2P Require Import ReuseGuarantees.
Local Open Scope Z_scope.

#[export] Instance view_ignores_revisions : Ignores keeps_view revisions.
Proof. by intros s f. Qed.

(** ** What an applied record leaves *)

Section Records.
Context `{Host}.

Lemma coalesce_agrees stored proposed (x : string) :
  negb (frozen_against stored proposed) = true -> proposed = Some x ->
  coalesce stored proposed = Some x.
Proof.
  intros Hf ->. destruct stored as [y|]; [|done]. simpl in *.
  by apply negb_true_iff, negb_false_iff, str_eqb_true in Hf as ->.
Qed.

Lemma post_facts lease ex mo d i now s :
  post (record_execution_facts lease ex mo d i now) s (fun st s' => st = APPLIED ->
    exists a, attempts s' !! attempt_key lease = Some a /\ a_executor a = ex /\ a_model a = mo /\
      (forall x, d = Some x -> a_device a = Some x) /\
      (forall x, i = Some x -> a_invocation a = Some x)).
Proof.
  unfold record_execution_facts, select_lease_row.
  do 5 (apply post_bind; apply post_total; intros ? ? _).
  apply post_bind, post_gets, post_bind, post_matched_attempt; [by apply post_ret|].
  intros r att Ha _. apply post_bind, post_open_to_facts; [by intros; apply post_ret|].
  intros _ _. read_steps. apply post_total. intros [] s2 (x & Hx & _ & ->)%update_one_inv.
  apply post_bind, (post_guar keeps_attempts); [guar|]. intros _ s3 E. apply post_ret. intros _.
  eexists. rewrite E. split; [apply lookup_insert_eq|].
  assert (x = att) as -> by congruence.
  split_and!; [done | done | intros y Hy; by apply coalesce_agrees..].
Qed.

(** The counters and the flag of a usage row after a summary was charged. *)
Definition charged (usage : object) (us us' : Usage) : Prop :=
  usage_list us' =
    [us_input_bytes us; us_output_bytes us; us_input_tokens us + int_of "input_tokens" usage;
     us_output_tokens us + int_of "output_tokens" usage;
     us_cost_micros us + int_of "cost_micros" usage; us_artifacts us] /\
  us_unknown us' = us_unknown us || (flag_of "usage_missing" usage || flag_of "cost_unknown" usage).

Record usage_facts (lease : Lease) (usage : object) (s s' : Store) : Prop := {
  uf_checked : exists records a, validated_attempt_usage usage lease = Ok records /\
    attempts s !! attempt_key lease = Some a /\ recorded_usage a = None /\
    model_is_llm a = true /\ usage_within_snapshot usage records (a_model a) = Ok tt;
  uf_recorded : exists a, attempts s' !! attempt_key lease = Some a /\
    recorded_usage a = Some (JObj usage);
  uf_charged : exists us us', usages s !! (l_owner lease, l_revision lease) = Some us /\
    usages s' !! (l_owner lease, l_revision lease) = Some us' /\ charged usage us us' }.

Lemma clock_counters c (u : Usage) : usage_list (u <| us_clock_high_water := c |>) = usage_list u.
Proof. reflexivity. Qed.
Lemma clock_unknown c (u : Usage) : us_unknown (u <| us_clock_high_water := c |>) = us_unknown u.
Proof. reflexivity. Qed.
Lemma add_unknown i b n (u : Usage) : us_unknown (add_usage i b n u) = us_unknown u || b.
Proof. unfold add_usage. simpl. reflexivity. Qed.

Lemma add_counters i b n (u : Usage) :
  usage_list (add_usage i b n u) =
    [us_input_bytes u + inc_input_bytes i; us_output_bytes u + inc_output_bytes i;
     us_input_tokens u + inc_input_tokens i; us_output_tokens u + inc_output_tokens i;
     us_cost_micros u + inc_cost_micros i; us_artifacts u + inc_artifacts i].
Proof. unfold usage_list, add_usage. simpl. reflexivity. Qed.

Lemma recorded_summary (a : Attempt) m u w :
  recorded_usage (a <| a_metrics := obj_update m [("llm_usage", JObj u); ("usage_missing", w)] |>)
  = Some (JObj u).
Proof.
  unfold recorded_usage. change (a_metrics _) with
    (obj_set "usage_missing" w (obj_set "llm_usage" (JObj u) m)).
  by rewrite obj_get_set_ne, obj_get_set_eq.
Qed.

Lemma post_charge {A : Type} o rev i unknown now (k : unit -> db A) s (Q : A -> Store -> Prop) :
  (forall us us' s', usages s !! (o, rev) = Some us ->
     usages s' = <[(o, rev) := us']> (usages s) -> attempts s' = attempts s ->
     usage_list us' = usage_list (add_usage i unknown now us) ->
     us_unknown us' = us_unknown us || unknown -> post (k tt) s' Q) ->
  post (add_revision_usage o rev i unknown now ≫= fun _ =>
        advance_revision_clock o rev now ≫= k) s Q.
Proof.
  intros HQ. unfold add_revision_usage. apply post_bind. repeat post_step.
  apply post_total. intros [] s1 (us & Hus & _ & ->)%update_one_inv.
  apply (post_guar keeps_view); [guar|]. intros _ s2 [= _ Ha2 _ Hus2].
  unfold advance_revision_clock. apply post_bind, post_total.
  intros [] s3 (us2 & Hl & _ & ->)%update_one_inv. rewrite Hus2, lookup_insert_eq in Hl.
  injection Hl as <-. eapply HQ.
  - exact Hus.
  - etrans; [apply (f_equal (<[(o, rev) := _]>) Hus2) | apply insert_insert_eq].
  - exact Ha2.
  - apply clock_counters.
  - rewrite clock_unknown. apply add_unknown.
Qed.

(** The writes of a summary that was accepted. *)
Lemma post_apply_usage lease u att current s :
  attempts s !! attempt_key lease = Some att ->
  post (metrics ← attempt_metrics att
          [("llm_usage", JObj u); ("usage_missing", JBool (flag_of "usage_missing" u))];
        update_one attempts (attempt_key lease) (attempt_held lease [A_RUNNING])
          (fun a => a <| a_metrics := metrics |>)
          (DurableStoreError "attempt usage compare-and-set failed") ;;
        add_revision_usage (l_owner lease) (l_revision lease)
          (Build_increments 0 0 (int_of "input_tokens" u) (int_of "output_tokens" u)
             (int_of "cost_micros" u) 0)
          (flag_of "usage_missing" u || flag_of "cost_unknown" u) current ;;
        advance_revision_clock (l_owner lease) (l_revision lease) current ;;
        mret APPLIED) s (fun _ s' =>
    (exists a, attempts s' !! attempt_key lease = Some a /\ recorded_usage a = Some (JObj u)) /\
    exists us us', usages s !! (l_owner lease, l_revision lease) = Some us /\
      usages s' !! (l_owner lease, l_revision lease) = Some us' /\ charged u us us').
Proof.
  intros Ha. apply post_bind. unfold attempt_metrics. apply post_bind, post_total. intros txt s0 H0.
  assert (s0 = s) as -> by (unfold of_schema, lift_result in H0; repeat case_match; congruence).
  apply post_ret, post_bind, post_total. intros [] s1 (x & Hx & _ & ->)%update_one_inv.
  apply post_charge. intros us us' s2 Hus Hus2 Ha2 Hl Hun. apply post_ret. split.
  - eexists. rewrite Ha2. split; [apply lookup_insert_eq|]. apply recorded_summary.
  - exists us, us'. split; [exact Hus|]. rewrite Hus2. split; [apply lookup_insert_eq|].
    split; [|exact Hun]. rewrite Hl, add_counters. simpl. by rewrite !Z.add_0_r.
Qed.

(** A summary is applied only to an attempt that has none, and then all of it
    is charged. *)
Lemma post_usage lease u now s :
  post (record_attempt_usage lease u now) s (fun st s' =>
    (st = APPLIED -> usage_facts lease u s s') /\
    (forall a v, attempts s !! attempt_key lease = Some a -> recorded_usage a = Some v ->
       st <> APPLIED /\ usages s' = usages s)).
Proof.
  unfold record_attempt_usage, select_lease_row, of_usage.
  apply post_bind; apply post_total; intros txt s0 H0.
  assert (s0 = s) as -> by (unfold of_schema, lift_result in H0; repeat case_match; congruence).
  apply post_bind, post_lift_result. intros records Hrec.
  destruct (validated_attempt_usage u lease) as [recs|] eqn:Hv; [|done]. injection Hrec as ->.
  apply post_bind, (post_guar keeps_view); [guar|]. intros current s1 [= _ Ha1 _ Hus1].
  apply post_bind, post_gets, post_bind, post_matched_attempt.
  { apply post_ret. rewrite Hus1. by split. }
  intros r att Ha _. rewrite Ha1 in Ha. apply post_bind, post_open_to_facts.
  { intros status Hst. apply post_ret. rewrite Hus1. by split. }
  intros _ _. apply post_bind, post_check. intros Hllm.
  apply post_bind, post_lift_result. intros [] Hsnap.
  destruct (usage_within_snapshot u records (a_model att)) as [[]|] eqn:Hw; [|done].
  destruct (recorded_usage att) as [v|] eqn:Hru.
  - assert (exists rec, obj_get "llm_usage" (a_metrics att) = Some rec /\ rec <> JNull) as (rec & Hg & Hn).
    { unfold recorded_usage in Hru. destruct (obj_get _ _) as [[]|]; try done; eexists; split; reflexivity || done. }
    rewrite Hg. destruct rec; try done; apply post_bind, post_check; intros _; apply post_ret;
      rewrite Hus1; by split.
  - assert (obj_get "llm_usage" (a_metrics att) = None \/
            obj_get "llm_usage" (a_metrics att) = Some JNull) as [Hg|Hg].
    { unfold recorded_usage in Hru. destruct (obj_get _ _) as [[]|]; try done; [by right | by left]. }
    all: rewrite Hg; eapply post_mono; [eapply (post_apply_usage lease u att); rewrite Ha1; exact Ha|].
    all: intros st s' (Hrecd & us & us' & Hus & Hus' & Hch); rewrite Hus1 in Hus.
    all: split; [|intros b v Hb Hbv; congruence].
    all: intros _; split; [exists records, att; by split_and! | done | exists us, us'; by split_and!].
Qed.
End Records.

(** ** A charged summary is bounded by the frozen contract *)

Definition known_within (name : string) (bound : Z) (r : object) : Prop := int_of name r <= bound.

Lemma total_bounded name bound records :
  Forall (known_within name bound) records ->
  total name records <= Z.of_nat (length records) * bound.
Proof.
  unfold total, known_within. induction 1 as [|r l Hr _ IH]; simpl; lia.
Qed.

Lemma int_of_unknown name r : unknown name r = true -> int_of name r = 0.
Proof. unfold unknown, int_of. rewrite bool_decide_eq_true. by intros ->. Qed.

Lemma int_within_of low high name o :
  int_within low high (obj_get name o) = true -> low <= int_of name o <= high.
Proof.
  unfold int_within, int_of. destruct (obj_get _ _) as [[]|]; try done.
  intros [H1%Z.leb_le H2%Z.leb_le]%andb_true_iff. by split.
Qed.

Lemma call_within_inv m r :
  0 <= int_of "max_input_tokens" m -> 0 <= int_of "max_output_tokens" m ->
  call_within m r = Ok tt ->
  known_within "in_tokens" (int_of "max_input_tokens" m) r /\
  known_within "out_tokens" (int_of "max_output_tokens" m) r /\ int_of "cost_micros" r = 0.
Proof.
  intros Hi Ho. unfold call_within, known_within. destruct (negb (forallb _ _)); [done|].
  destruct (negb (unknown "in_tokens" r) && _) eqn:E1; [done|].
  destruct (negb (unknown "out_tokens" r) && _) eqn:E2; [done|].
  destruct (int_within 0 0 _) eqn:E3; [|done]. intros _. split_and!.
  - destruct (unknown "in_tokens" r) eqn:U; [by rewrite int_of_unknown|]. simpl in E1. lia.
  - destruct (unknown "out_tokens" r) eqn:U; [by rewrite int_of_unknown|]. simpl in E2. lia.
  - apply int_within_of in E3. lia.
Qed.

Lemma calls_within_all m records :
  calls_within m records = Ok tt -> Forall (fun r => call_within m r = Ok tt) records.
Proof.
  induction records as [|r l IH]; [constructor|]. simpl.
  destruct (call_within m r) as [[]|] eqn:E; [|done]. simpl. constructor; [done | auto].
Qed.

Record contract_bounds (usage model : object) : Prop := {
  cb_calls : int_of "dropped" usage <= int_of "max_calls" model;
  cb_input : int_of "input_tokens" usage
             <= int_of "max_calls" model * int_of "max_input_tokens" model;
  cb_output : int_of "output_tokens" usage
              <= int_of "max_calls" model * int_of "max_output_tokens" model;
  cb_cost : int_of "cost_micros" usage = 0 }.

Lemma zero_total name records :
  Forall (fun r => int_of name r = 0) records -> total name records = 0.
Proof. unfold total. induction 1 as [|r l Hr _ IH]; simpl; lia. Qed.

Lemma summary_bounded lease usage records model :
  validated_attempt_usage usage lease = Ok records ->
  usage_within_snapshot usage records model = Ok tt -> contract_bounds usage model.
Proof.
  unfold validated_attempt_usage, usage_within_snapshot.
  destruct (valid_header _ _) as [l|] eqn:Hh; [|done]. destruct (all_objects l); [|done].
  destruct (negb _); [done|]. destruct (aggregates_agree usage _) eqn:Ha; [|done]. intros [= ->].
  assert (0 <= int_of "dropped" usage) as Hd.
  { unfold valid_header in Hh. destruct (default _ _); try done. case_match eqn:Hc; [|done].
    rewrite !andb_true_iff in Hc. destruct Hc as [[[[_ _] _] Hf] _]. simpl in Hf.
    rewrite !andb_true_iff in Hf. destruct Hf as [Hf _]. by apply int_within_of in Hf as [? _]. }
  destruct (negb _); [done|]. destruct (negb _) eqn:Hm; [done|].
  apply negb_false_iff in Hm. rewrite !andb_true_iff in Hm. destruct Hm as [[[H1 H2] H3] _].
  apply int_within_of in H1, H2, H3. destruct (_ <? _) eqn:Hc; [done|]. apply Z.ltb_ge in Hc.
  intros Hall%calls_within_all.
  assert (Forall (fun r => known_within "in_tokens" (int_of "max_input_tokens" model) r /\
            known_within "out_tokens" (int_of "max_output_tokens" model) r /\
            int_of "cost_micros" r = 0) records) as Hk.
  { eapply Forall_impl; [exact Hall|]. intros r. apply call_within_inv; lia. }
  rewrite !Forall_and in Hk. destruct Hk as (K1 & K2 & K3).
  apply total_bounded in K1, K2. apply zero_total in K3.
  unfold aggregates_agree in Ha. rewrite !andb_true_iff, !Z.eqb_eq in Ha.
  destruct Ha as [[[[[A1 A2] A3] _] _] _]. split; [lia | nia | nia | lia].
Qed.

(** ** The properties *)



(** ** A running attempt of a language model *)

Definition demo_digest : string :=
  "sha256:0123456789abcdef0123456789abcdef0123456789abcdef0123456789abcdef".
Definition demo_executor : object :=
  [("schema_version", JStr "metnos.durable-executor-snapshot/1"); ("mode", JStr "llm")].
Definition demo_model : object :=
  [("schema_version", JStr "metnos.durable-model-snapshot/2"); ("mode", JStr "llm");
   ("runner_name", JStr "describe"); ("binding_digest", JStr demo_digest);
   ("prompt_digest", JStr demo_digest); ("prompt_language", JStr "en");
   ("provider", JStr "local"); ("model_digest", JStr demo_digest); ("tier", JStr "small");
   ("kind", JStr "chat"); ("max_calls", JInt 2); ("max_input_tokens", JInt 1000);
   ("max_output_tokens", JInt 500); ("cost_policy", JStr "zero")].
Definition demo_call : object :=
  [("schema_version", JStr "metnos.durable-llm-call/1"); ("workload_id", JStr "workload-1");
   ("stage_id", JStr "stage-01"); ("unit_key", JStr "unit-key-1");
   ("attempt_id", JStr (l_attempt demo_lease)); ("provider", JStr "local");
   ("model_digest", JStr demo_digest); ("tier", JStr "small"); ("kind", JStr "chat");
   ("in_tokens", JInt 700); ("out_tokens", JInt 40); ("latency_ms", JNull);
   ("cost_micros", JInt 0)].
Definition demo_usage_summary : object :=
  [("schema_version", JStr "metnos.durable-model-usage/2"); ("records", JArr [JObj demo_call]);
   ("dropped", JInt 0); ("input_tokens", JInt 700); ("output_tokens", JInt 40);
   ("cost_micros", JInt 0); ("usage_missing", JBool false); ("cost_unknown", JBool false);
   ("zero_calls_verified", JBool false)].

Definition demo_facts : db LeaseMutationStatus :=
  @record_execution_facts demo_host demo_lease demo_executor demo_model (Some "device-1") None
    (Some (T0 + 2 * second)).
Definition demo_recorded : Store := store_of (demo_facts demo_running).
Definition demo_record_usage : db LeaseMutationStatus :=
  @record_attempt_usage demo_host demo_lease demo_usage_summary (Some (T0 + 3 * second)).
Definition demo_charged : Store := store_of (demo_record_usage demo_recorded).

Lemma demo_facts_run : demo_facts demo_running = Ok (APPLIED, demo_recorded).
Proof. vm_compute. reflexivity. Qed.

Lemma demo_usage_runs : demo_record_usage demo_recorded = Ok (APPLIED, demo_charged).
Proof. vm_compute. reflexivity. Qed.


