(* ===== verification/JsonScanProperties.v ===== *)
(** * The entry scanner reads what the kernel wrote

    The payloads of committed results are canonical text.  On such a text the
    scanner of JsonScan finds the array called [entries], walks its items one
    by one, decodes each to the entry that was stored and reports the offsets
    that cut its canonical text out of the payload. *)
From stdpp Require Import sorting.
From Stdlib Require Import Strings.Ascii Strings.String.
From S2P Require Import Prelude.
From S2P Require Import PyJson.
From S2P Require Import PyStrings.
From S2P Require Import JsonText.
From S2P Require Import JsonScan.
Local Open Scope Z_scope.

(** ** Lengths and positions *)

Lemma string_app_length a b : String.length (a +:+ b) = (String.length a + String.length b)%nat.
Proof. induction a as [|c a IH]; [done|]. rewrite string_app_cons. simpl. by rewrite IH. Qed.

Lemma py_len_app a b : py_len (a +:+ b) = py_len a + py_len b.
Proof. induction a as [|c a IH]; [done|]. rewrite string_app_cons. simpl. rewrite IH. lia. Qed.

Lemma py_len_nonneg s : 0 <= py_len s.
Proof. induction s as [|c s IH]; simpl; [done|]. destruct (_ && _); lia. Qed.

(** The text starts with a character. *)
Definition on_boundary (s : string) : Prop :=
  match s with EmptyString => True | String c _ => is_continuation (byte_of c) = false end.

Lemma drop_chars_app pre rest : on_boundary rest ->
  drop_chars (Z.to_nat (py_len pre)) (pre +:+ rest) = rest.
Proof.
  intros Hr. induction pre as [|c pre IH].
  - destruct rest as [|c rest]; [done|]. change (EmptyString +:+ ?x) with x. cbn in Hr |- *. by rewrite Hr.
  - rewrite string_app_cons. cbn [drop_chars py_len]. fold (is_continuation (byte_of c)).
    destruct (is_continuation (byte_of c)); [exact IH|]. pose proof (py_len_nonneg pre).
    rewrite Z2Nat.inj_add by lia. exact IH.
Qed.

Lemma take_chars_app s rest : on_boundary rest ->
  take_chars (Z.to_nat (py_len s)) (s +:+ rest) = s.
Proof.
  intros Hr. induction s as [|c s IH].
  - destruct rest as [|c rest]; [done|]. change (EmptyString +:+ ?x) with x. cbn in Hr |- *. by rewrite Hr.
  - rewrite string_app_cons. cbn [take_chars py_len]. fold (is_continuation (byte_of c)).
    destruct (is_continuation (byte_of c)); [by f_equal|]. pose proof (py_len_nonneg s).
    rewrite Z2Nat.inj_add by lia. by apply (f_equal (String c)).
Qed.

Lemma offset_of_app pre rest : offset_of (pre +:+ rest) rest = py_len pre.
Proof. unfold offset_of. rewrite py_len_app. lia. Qed.

Lemma text_at_app pre rest : on_boundary rest -> text_at (pre +:+ rest) (py_len pre) = rest.
Proof. apply drop_chars_app. Qed.

(** ** White space: canonical text has none between its tokens *)

Definition visible (c : ascii) : bool :=
  forallb (fun w => match w with String a _ => negb (Ascii.eqb a c) | EmptyString => false end) py_spaces.

Lemma visible_ascii c : 33 <= byte_of c <= 126 -> visible c = true.
Proof.
  destruct c as [[] [] [] [] [] [] [] []]; intros [H1 H2];
    first [by vm_compute | by destruct H1 | by destruct H2].
Qed.

Lemma space_end_visible c s : visible c = true -> space_end (String c s) = String c s.
Proof.
  intros Hc. unfold space_end. cbn [String.length json_space_end].
  replace (omap _ py_spaces) with (@nil string); [done|]. symmetry.
  unfold visible in Hc. apply forallb_Forall in Hc.
  induction Hc as [|w l Hw Hl IH]; [done|]. cbn [omap list_omap].
  destruct w as [|a w]; [done|]. cbn [strip_prefix]. apply negb_true_iff in Hw. by rewrite Hw.
Qed.

Lemma skip_space_visible c s : visible c = true -> skip_space (String c s) = String c s.
Proof.
  intros Hc. cbn [skip_space]. destruct (is_json_space (byte_of c)) eqn:E; [|done]. exfalso.
  destruct c as [[] [] [] [] [] [] [] []]; first [vm_compute in E; discriminate | vm_compute in Hc; discriminate].
Qed.

Lemma kind_head_range v z : kind_head v z -> 33 <= z <= 126.
Proof. intros H. destruct v as [|[]|?|s|l|kvs]; cbn in H; unfold is_digit in *; lia. Qed.

Lemma kind_head_visible v c : kind_head v (byte_of c) -> visible c = true.
Proof. intros H%kind_head_range. by apply visible_ascii. Qed.

Lemma dumps_visible v r : exists c rest, dumps v +:+ r = String c rest /\ kind_head v (byte_of c)
  /\ visible c = true.
Proof.
  destruct (dumps_head v) as (c & rest & E & Hk). rewrite E, string_app_cons.
  exists c, (rest +:+ r). split; [done|]. split; [done | by eapply kind_head_visible].
Qed.

Lemma space_end_dumps v r : space_end (dumps v +:+ r) = dumps v +:+ r.
Proof. destruct (dumps_visible v r) as (c & rest & -> & _ & Hv). by apply space_end_visible. Qed.

Lemma skip_space_dumps v r : skip_space (dumps v +:+ r) = dumps v +:+ r.
Proof. destruct (dumps_visible v r) as (c & rest & -> & _ & Hv). by apply skip_space_visible. Qed.

(** ** Strings *)

Lemma scan_escape_char n c s :
  scan_string (S n) (escape_char c s) = q ← scan_string n s; Some (String c q.1, q.2).
Proof. destruct c as [[] [] [] [] [] [] [] []]; reflexivity. Qed.

Lemma scan_escape s r n : (String.length s < n)%nat ->
  scan_string n (escape s +:+ String (chr 34) r) = Some (s, r).
Proof.
  revert n. induction s as [|c s IH]; intros [|n] Hn; simpl in Hn; try lia; [done|].
  cbn [escape]. rewrite escape_char_app, scan_escape_char, IH by lia. done.
Qed.

Lemma escape_char_length c s : (S (String.length s) <= String.length (escape_char c s))%nat.
Proof.
  unfold escape_char. repeat (destruct (_ =? _); [simpl; lia|]). destruct (_ <? _); simpl; lia.
Qed.

Lemma escape_length s : (String.length s <= String.length (escape s))%nat.
Proof.
  induction s as [|c s IH]; [done|]. cbn [escape]. pose proof (escape_char_length c (escape s)).
  simpl. lia.
Qed.

Lemma quoted_app s r : quoted s +:+ r = String (chr 34) (escape s +:+ String (chr 34) r).
Proof. unfold quoted. by rewrite string_app_cons, string_app_assoc. Qed.

Lemma scan_quoted s r text : text = escape s +:+ String (chr 34) r ->
  scan_string (S (String.length text)) text = Some (s, r).
Proof.
  intros ->. apply scan_escape. rewrite string_app_length. pose proof (escape_length s). simpl. lia.
Qed.

(** ** Numbers *)

Lemma scan_digits_read acc s : scan_digits acc s = read_digits acc s.
Proof.
  revert acc. induction s as [|c s IH]; intros acc; [done|]. cbn [scan_digits read_digits].
  by destruct (is_digit _).
Qed.

Lemma delimited_not_float r : delimited r -> is_float_tail r = false.
Proof.
  destruct r as [|a [|b r]]; [done..|]. cbn [delimited is_float_tail]. intros H.
  repeat (rewrite (proj2 (Z.eqb_neq _ _)) by lia). done.
Qed.

(** No number but zero starts with the digit zero. *)
Lemma pos_digits_nonzero n z acc : 0 < z < 10 ^ Z.of_nat n ->
  exists c rest, pos_digits n z acc = String c rest /\ is_digit (byte_of c) = true /\ byte_of c <> 48.
Proof.
  revert z acc. induction n as [|n IH]; intros z acc Hz; [simpl in Hz; lia|].
  cbn [pos_digits]. fold (digit (z mod 10)).
  pose proof (Z.mod_pos_bound z 10 ltac:(lia)) as Hm. pose proof (Z.div_mod z 10 ltac:(lia)) as Hd.
  destruct (z / 10 =? 0) eqn:E.
  - do 2 eexists. split; [done|]. rewrite is_digit_digit, byte_of_digit by done. split; [done|]. lia.
  - apply IH. rewrite Nat2Z.inj_succ, Z.pow_succ_r in Hz by lia.
    pose proof (Z.div_pos z 10 ltac:(lia) ltac:(lia)).
    split; [lia|]. apply Z.div_lt_upper_bound; lia.
Qed.

Lemma int_text_pos z r : 0 < z -> exists c rest,
  int_text z +:+ r = String c rest /\ is_digit (byte_of c) = true /\ byte_of c <> 48.
Proof.
  intros Hz. pose proof (digits_enough (Z.abs z) ltac:(lia)) as Hb. unfold int_text.
  replace (z <? 0) with false by lia. rewrite pos_digits_app. rewrite (Z.abs_eq z) in * by lia.
  apply pos_digits_nonzero. split; [done | apply Hb].
Qed.

Lemma scan_natural_text z r : 0 <= z -> delimited r -> scan_natural (int_text z +:+ r) = Some (z, r).
Proof.
  intros Hz Hr. destruct (decide (z = 0)) as [->|Hn].
  - change (int_text 0 +:+ r) with (String "0" r). unfold scan_natural.
    change (byte_of "0" =? 48) with true. change (is_digit (byte_of "0")) with true. cbv iota.
    by rewrite (delimited_not_float r Hr).
  - pose proof (read_int_text z r Hr) as Hread.
    destruct (int_text_pos z r ltac:(lia)) as (c & rest & E & Hc & H0).
    rewrite E in *. unfold read_int in Hread. unfold scan_natural.
    replace (byte_of c =? 45) with false in Hread by (unfold is_digit in Hc; lia).
    replace (byte_of c =? 48) with false by lia.
    by rewrite scan_digits_read, Hread, Hc, delimited_not_float.
Qed.

Lemma int_text_neg z r : z < 0 -> int_text z +:+ r = String "-" (int_text (- z) +:+ r).
Proof.
  intros Hz. unfold int_text. replace (z <? 0) with true by lia. replace (- z <? 0) with false by lia.
  rewrite string_app_cons. by rewrite Z.abs_opp.
Qed.

Lemma scan_number_text z r : delimited r -> scan_number (int_text z +:+ r) = Some (JInt z, r).
Proof.
  intros Hr. destruct (Z.lt_ge_cases z 0) as [Hz|Hz].
  - rewrite int_text_neg by done. cbn [scan_number]. change (byte_of "-" =? 45) with true. cbv iota.
    rewrite scan_natural_text by (done || lia). simpl. by rewrite Z.opp_involutive.
  - destruct (pos_digits_head (Z.to_nat (Z.log2 (Z.abs z) + 1)) z (EmptyString +:+ r)) as (c & rest & E & Hc).
    pose proof (scan_natural_text z r Hz Hr) as Hs. unfold int_text in *.
    replace (z <? 0) with false in * by lia. rewrite pos_digits_app in *. rewrite E in *.
    unfold scan_number. replace (byte_of c =? 45) with false by (unfold is_digit in Hc; lia).
    by rewrite Hs.
Qed.

Lemma strip_prefix_app w r : strip_prefix w (w +:+ r) = Some r.
Proof. induction w as [|a w IH]; [done|]. rewrite string_app_cons. simpl. by rewrite Ascii.eqb_refl. Qed.

Lemma scan_word_number c s : is_digit (byte_of c) = true \/ byte_of c = 45 ->
  scan_word (String c s) = scan_number (String c s).
Proof.
  intros H. unfold scan_word. cbn [strip_prefix].
  repeat match goal with |- context [Ascii.eqb ?a c] =>
    destruct (Ascii.eqb_spec a c) as [<-|_]; [exfalso; vm_compute in H; destruct H; discriminate|] end.
  done.
Qed.

(** ** Values *)

(** A value is read back from its canonical text, up to the order of fields. *)
Definition reads_back (v : json) : Prop :=
  exists w, same_json v w /\ forall n r, delimited r ->
    (2 * String.length (dumps v +:+ r) <= n)%nat -> scan_value n (dumps v +:+ r) = Some (w, r).

Lemma atom_reads_back v : is_atom v = true -> reads_back v.
Proof.
  intros Ha. exists v. split; [by constructor|]. intros n r Hr Hn.
  destruct v as [|[]|z|s|l|kvs]; try done; cbn [dumps] in *.
  1-3: destruct n as [|n]; [rewrite string_app_length in Hn; simpl in Hn; lia | reflexivity].
  - destruct (dumps_head (JInt z)) as (c & rest & E & Hk). cbn [dumps kind_head] in E, Hk.
    pose proof (scan_number_text z r Hr) as Hs. rewrite E, string_app_cons in *.
    destruct n as [|n]; [simpl in Hn; lia|]. cbn [scan_value].
    unfold is_digit in Hk. repeat (rewrite (proj2 (Z.eqb_neq _ _)) by lia).
    rewrite scan_word_number by (unfold is_digit; tauto). exact Hs.
  - rewrite quoted_app in *. destruct n as [|n]; [simpl in Hn; lia|]. cbn [scan_value].
    change (byte_of (chr 34) =? 34) with true. cbv iota. by erewrite scan_quoted.
Qed.

Lemma string_app_head c a r : String c a +:+ r = String c (a +:+ r).
Proof. reflexivity. Qed.

Lemma tails_delimits {A} (pr : A -> string) ys c r : closes c -> delimited (tails pr ys (String c r)).
Proof. intros Hc. destruct ys; [by destruct Hc; cbn; auto | by left]. Qed.

Lemma visible_comma : visible "," = true.
Proof. by vm_compute. Qed.
Lemma visible_bracket : visible "]" = true.
Proof. by vm_compute. Qed.
Lemma visible_brace : visible "}" = true.
Proof. by vm_compute. Qed.
Lemma visible_colon : visible ":" = true.
Proof. by vm_compute. Qed.

Lemma elements_read_back l : Forall reads_back l -> exists ws, Forall2 same_json l ws /\
  forall x xs, l = x :: xs -> forall n r,
    (2 * String.length (dumps x +:+ tails dumps xs (String "]" r)) + 1 <= n)%nat ->
    scan_elements n (dumps x +:+ tails dumps xs (String "]" r)) = Some (ws, r).
Proof.
  intros Hl. induction Hl as [|x l (w & Hs & Hw) Hl (ws & HF & IH)]; [by exists []|].
  exists (w :: ws). split; [by constructor|]. intros ? ? [= <- <-] n r Hn.
  destruct n as [|n]; [lia|]. cbn [scan_elements].
  rewrite Hw by (try lia; apply tails_delimits; by left).
  simpl. destruct l as [|y l]; cbn [tails].
  - inversion HF; subst ws. rewrite skip_space_visible by done. done.
  - rewrite skip_space_visible by done. change (byte_of "," =? 93) with false.
    change (byte_of "," =? 44) with true. cbv iota. rewrite skip_space_dumps.
    rewrite (IH y l eq_refl n r); [done|]. cbn [tails] in Hn. rewrite string_app_length in Hn. simpl in Hn. lia.
Qed.

Lemma dumps_array_app x xs r :
  dumps (JArr (x :: xs)) +:+ r = String "[" (dumps x +:+ tails dumps xs (String "]" r)).
Proof.
  cbn [dumps]. rewrite string_app_cons, string_app_assoc, string_app_cons, join_tails. done.
Qed.

Lemma array_reads_back l : Forall reads_back l -> reads_back (JArr l).
Proof.
  intros Hl. destruct (elements_read_back l Hl) as (ws & HF & Hw).
  exists (JArr ws). split; [by constructor|]. intros n r Hr Hn.
  destruct l as [|x l].
  - inversion HF; subst ws. destruct n as [|n]; [|done].
    rewrite string_app_length in Hn. simpl in Hn. lia.
  - rewrite dumps_array_app in *. destruct n as [|n]; [simpl in Hn; lia|]. cbn [scan_value].
    change (byte_of "[" =? 34) with false. change (byte_of "[" =? 91) with true. cbv iota.
    rewrite skip_space_dumps. cbn [String.length] in Hn. specialize (Hw x l eq_refl n r ltac:(lia)).
    destruct (dumps_visible x (tails dumps l (String "]" r))) as (c & rest & E & Hk & _). rewrite E in *.
    replace (byte_of c =? 93) with false; [by rewrite Hw|].
    destruct x as [|[]|z|s|l'|kvs]; cbn in Hk; unfold is_digit in Hk; lia.
Qed.

(** ** Objects *)

Lemma obj_set_new k v acc : k ∉ acc.*1 -> obj_set k v acc = acc ++ [(k, v)].
Proof.
  induction acc as [|[k' v'] acc IH]; [done|]. rewrite fmap_cons, not_elem_of_cons. intros [Hn H].
  cbn [obj_set]. unfold str_eqb. rewrite bool_decide_eq_false_2 by done. by rewrite IH.
Qed.

Definition same_field (a b : string * json) : Prop := a.1 = b.1 /\ same_json a.2 b.2.

Lemma dump_field_app kv r :
  dump_field kv +:+ r = String (chr 34) (escape kv.1 +:+ String (chr 34) (String ":" (dumps kv.2 +:+ r))).
Proof.
  unfold dump_field, field_text. cbn [fst snd]. rewrite string_app_assoc, string_app_cons, quoted_app. done.
Qed.

Lemma members_read_back l : Forall (fun kv => reads_back kv.2) l -> exists ws, Forall2 same_field l ws /\
  forall x xs, l = x :: xs -> forall n acc r, NoDup (acc ++ l).*1 ->
    (2 * String.length (dump_field x +:+ tails dump_field xs (String "}" r)) + 1 <= n)%nat ->
    scan_members n acc (dump_field x +:+ tails dump_field xs (String "}" r)) = Some (acc ++ ws, r).
Proof.
  intros Hl. induction Hl as [|[k v] l (w & Hs & Hw) Hl (ws & HF & IH)]; [by exists []|].
  exists ((k, w) :: ws). split; [by constructor|]. intros ? ? [= <- <-] n acc r Hd Hn.
  destruct n as [|n]; [lia|]. rewrite dump_field_app in *. cbn [fst snd scan_members] in *.
  change (byte_of (chr 34) =? 34) with true. cbv iota.
  erewrite scan_quoted by reflexivity. unfold mbind at 1, option_bind at 1. cbn [fst snd].
  rewrite skip_space_visible by done. change (byte_of ":" =? 58) with true. cbv iota.
  rewrite skip_space_dumps.
  cbn [String.length] in Hn. rewrite string_app_length in Hn. cbn [String.length] in Hn.
  rewrite Hw by (try lia; apply tails_delimits; by right).
  unfold mbind at 1, option_bind at 1. cbn [fst snd].
  rewrite fmap_app, fmap_cons in Hd. cbn [fst] in Hd.
  rewrite obj_set_new by (apply NoDup_app in Hd as (_ & Hd & _); intros Hin; apply (Hd k Hin); left).
  destruct l as [|y l]; cbn [tails].
  - inversion HF; subst ws. rewrite skip_space_visible by done. done.
  - rewrite skip_space_visible by done. change (byte_of "," =? 125) with false.
    change (byte_of "," =? 44) with true. cbv iota.
    replace (skip_space (dump_field y +:+ _)) with (dump_field y +:+ tails dump_field l (String "}" r)).
    2: { rewrite dump_field_app. by rewrite skip_space_visible. }
    rewrite (IH y l eq_refl n (acc ++ [(k, w)]) r).
    + by rewrite <- app_assoc.
    + rewrite <- app_assoc, fmap_app. exact Hd.
    + cbn [tails] in Hn. rewrite string_app_length in Hn. cbn [String.length] in Hn. lia.
Qed.

Lemma dumps_object_app x xs r kvs : dumps (JObj kvs) = String "{" (join_comma (map dump_field (x :: xs)) +:+ "}") ->
  dumps (JObj kvs) +:+ r = String "{" (dump_field x +:+ tails dump_field xs (String "}" r)).
Proof. intros ->. rewrite string_app_cons, string_app_assoc, string_app_cons, join_tails. done. Qed.

Lemma same_fields_object kvs ks ws : NoDup kvs.*1 -> ks ≡ₚ kvs -> Forall2 same_field ks ws ->
  same_json (JObj kvs) (JObj ws).
Proof. intros Hn Hp HF. by apply (same_object_in_order kvs ks ws ws). Qed.

Lemma object_reads_back kvs : NoDup kvs.*1 -> Forall (fun kv => reads_back kv.2) kvs ->
  reads_back (JObj kvs).
Proof.
  intros Hd Hl. destruct (dumps_object_in_order kvs) as (ks & Hp & Ht). rewrite <- Hp in Hl.
  destruct (members_read_back ks Hl) as (ws & HF & Hw).
  exists (JObj ws). split; [by eapply same_fields_object|]. intros n r Hr Hn.
  destruct ks as [|x ks].
  - inversion HF; subst ws. rewrite Ht in *. destruct n as [|n]; [simpl in Hn; lia | done].
  - rewrite (dumps_object_app x ks r kvs Ht) in *. destruct n as [|n]; [simpl in Hn; lia|].
    cbn [String.length] in Hn.
    specialize (Hw x ks eq_refl n [] r ltac:(cbn [app]; by rewrite Hp) ltac:(lia)).
    cbn [scan_value]. change (byte_of "{" =? 34) with false. change (byte_of "{" =? 91) with false.
    change (byte_of "{" =? 123) with true. cbv iota. rewrite dump_field_app in *.
    rewrite skip_space_visible by done. change (byte_of (chr 34) =? 125) with false. cbv iota.
    by rewrite Hw.
Qed.

Theorem well_formed_reads_back v : well_formed v = true -> reads_back v.
Proof.
  induction v as [|b|z|s|l IH|kvs IH] using json_induction; intros Hv; try by apply atom_reads_back.
  - apply array_reads_back. cbn [well_formed] in Hv. apply forallb_Forall in Hv.
    rewrite Forall_forall in *. auto.
  - cbn [well_formed] in Hv. apply andb_true_iff in Hv as [Hd%bool_decide_eq_true Hv].
    apply object_reads_back; [done|]. apply forallb_Forall in Hv. rewrite Forall_forall in *. auto.
Qed.

Lemma raw_decode_dumps v r : well_formed v = true -> delimited r ->
  exists w, same_json v w /\ raw_decode (dumps v +:+ r) = Some (w, r).
Proof.
  intros Hv Hr. destruct (well_formed_reads_back v Hv) as (w & Hs & Hw).
  exists w. split; [done|]. unfold raw_decode. apply Hw; [done | lia].
Qed.

(** ** Skipping a value *)

(** Characters that neither end a scalar nor open or close anything. *)
Definition plain (z : Z) : bool := is_digit z || is_lower z || (z =? 45).

Lemma plain_not z k : plain z = true -> negb (plain k) = true -> (z =? k) = false.
Proof. intros Hz Hk. apply Z.eqb_neq. intros ->. by rewrite Hz in Hk. Qed.

Lemma nest_end_char cl c s : negb ((byte_of c =? 34) || (byte_of c =? 91) || (byte_of c =? 123)
    || (byte_of c =? 93) || (byte_of c =? 125)) = true ->
  nest_end cl false false (String c s) = nest_end cl false false s.
Proof. cbn [nest_end]. by do 5 (destruct (_ =? _)). Qed.

Lemma nest_end_plain cl text r : forall_chars plain text = true ->
  nest_end cl false false (text +:+ r) = nest_end cl false false r.
Proof.
  induction text as [|c text IH]; [done|]. cbn [forall_chars]. intros [Hc H]%andb_true_iff.
  rewrite string_app_cons, nest_end_char; [by apply IH|]. by rewrite !(plain_not _ _ Hc).
Qed.

Lemma scalar_end_plain text r : forall_chars plain text = true -> delimited r ->
  scalar_end (text +:+ r) = r.
Proof.
  intros Ht Hr. induction text as [|c text IH].
  - change (EmptyString +:+ r) with r. destruct r as [|c r]; [done|]. cbn [scalar_end]. cbn in Hr.
    unfold ends_scalar. replace (_ || _) with true; [done|]. symmetry. lia.
  - cbn [forall_chars] in Ht. apply andb_true_iff in Ht as [Hc Ht].
    rewrite string_app_cons. cbn [scalar_end]. unfold ends_scalar, is_json_space.
    rewrite !(plain_not _ _ Hc) by done. by apply IH.
Qed.

Lemma pos_digits_plain fuel z acc : forall_chars plain acc = true ->
  forall_chars plain (pos_digits fuel z acc) = true.
Proof.
  revert z acc. induction fuel as [|n IH]; intros z acc H; [done|]. cbn [pos_digits]. fold (digit (z mod 10)).
  assert (forall_chars plain (String (digit (z mod 10)) acc) = true) as H'.
  { cbn [forall_chars]. unfold plain at 1. rewrite is_digit_digit by (apply Z.mod_pos_bound; lia). done. }
  destruct (_ =? _); [done | by apply IH].
Qed.

Lemma scalar_plain v : match v with JNull | JBool _ | JInt _ => True | _ => False end ->
  forall_chars plain (dumps v) = true.
Proof.
  destruct v as [|[]|z|s|l|kvs]; try done. intros _. cbn [dumps]. unfold int_text.
  destruct (z <? 0); [cbn [forall_chars]; apply andb_true_iff; split; [done|]|]; by apply pos_digits_plain.
Qed.

Lemma nest_end_escape cl s r :
  nest_end cl true false (escape s +:+ String (chr 34) r) = nest_end cl false false r.
Proof.
  induction s as [|c s IH]; [reflexivity|]. cbn [escape]. rewrite escape_char_app, <- IH.
  destruct c as [[] [] [] [] [] [] [] []]; reflexivity.
Qed.

Lemma string_end_escape s r : string_end false (escape s +:+ String (chr 34) r) = Ok r.
Proof.
  induction s as [|c s IH]; [reflexivity|]. cbn [escape]. rewrite escape_char_app, <- IH.
  destruct c as [[] [] [] [] [] [] [] []]; reflexivity.
Qed.

Lemma nest_end_quoted cl s r : nest_end cl false false (quoted s +:+ r) = nest_end cl false false r.
Proof. rewrite quoted_app. apply nest_end_escape. Qed.

(** Inside brackets a text is passed over. *)
Definition passed (text : string) : Prop := forall cl r, cl <> [] ->
  nest_end cl false false (text +:+ r) = nest_end cl false false r.

Lemma passed_join {A} (pr : A -> string) l : Forall (fun x => passed (pr x)) l ->
  passed (join_comma (map pr l)).
Proof.
  intros Hl cl r Hcl. destruct Hl as [|x l Hx Hl]; [done|]. rewrite join_tails, Hx by done.
  induction Hl as [|y l Hy Hl IH]; [done|]. cbn [tails]. rewrite nest_end_char by done. by rewrite Hy.
Qed.

Lemma nest_end_close cl z c s : (z = 93 \/ z = 125) -> byte_of c = z -> cl <> [] ->
  nest_end (z :: cl) false false (String c s) = nest_end cl false false s.
Proof. intros Hz Hc Hcl. cbn [nest_end]. rewrite Hc, Z.eqb_refl. by destruct Hz as [-> | ->], cl. Qed.

Lemma passed_field kv : passed (dumps kv.2) -> passed (dump_field kv).
Proof.
  intros H cl r Hcl. unfold dump_field, field_text. cbn [fst snd].
  rewrite string_app_assoc, string_app_cons, nest_end_quoted, nest_end_char by done. by apply H.
Qed.

Lemma passed_dumps v : passed (dumps v).
Proof.
  induction v as [|b|z|s|l IH|kvs IH] using json_induction; intros cl r Hcl;
    try (apply nest_end_plain, scalar_plain; exact I).
  - apply nest_end_quoted.
  - cbn [dumps]. rewrite string_app_cons, string_app_assoc, string_app_cons.
    transitivity (nest_end (93 :: cl) false false (join_comma (map dumps l) +:+ String "]" r)); [reflexivity|].
    rewrite (passed_join dumps l IH) by done. apply nest_end_close; [by left | done | done].
  - destruct (dumps_object_in_order kvs) as (ks & Hp & ->). rewrite <- Hp in IH.
    rewrite string_app_cons, string_app_assoc, string_app_cons.
    transitivity (nest_end (125 :: cl) false false (join_comma (map dump_field ks) +:+ String "}" r));
      [reflexivity|].
    rewrite (passed_join dump_field ks) by (first [done | eapply Forall_impl; [exact IH|]; intros ?; apply passed_field]).
    apply nest_end_close; [by right | done | done].
Qed.

Definition is_scalar (v : json) : Prop :=
  match v with JNull | JBool _ | JInt _ => True | _ => False end.

Lemma json_value_end_scalar v r : is_scalar v -> delimited r -> json_value_end (dumps v +:+ r) = Ok r.
Proof.
  intros Hv Hr. unfold json_value_end. rewrite space_end_dumps.
  pose proof (scalar_end_plain (dumps v) r (scalar_plain v Hv) Hr) as Hs.
  destruct (dumps_visible v r) as (c & rest & E & Hk & _). rewrite E in *. cbn [scalar_end] in Hs.
  assert (Hc : plain (byte_of c) = true).
  { destruct v as [|[]|z| | |]; try done; cbn in Hk; unfold plain, is_digit, is_lower in *; lia. }
  assert (He : ends_scalar (byte_of c) = false).
  { unfold ends_scalar, is_json_space. by rewrite !(plain_not _ _ Hc). }
  cbv beta iota zeta. rewrite He, !(plain_not _ _ Hc) by done. rewrite He in Hs. by rewrite Hs.
Qed.

(** [_json_value_end] stops where the value does. *)
Lemma json_value_end_dumps v r : delimited r -> json_value_end (dumps v +:+ r) = Ok r.
Proof.
  intros Hr. destruct v as [|b|z|s|l|kvs]; try by apply json_value_end_scalar.
  all: unfold json_value_end; rewrite space_end_dumps.
  - cbn [dumps]. rewrite quoted_app. apply string_end_escape.
  - cbn [dumps]. rewrite string_app_cons, string_app_assoc, string_app_cons.
    transitivity (nest_end [93] false false (join_comma (map dumps l) +:+ String "]" r)); [reflexivity|].
    rewrite passed_join by (first [done | apply Forall_forall; intros ? _; apply passed_dumps]).
    reflexivity.
  - destruct (dumps_object_in_order kvs) as (ks & Hp & ->).
    rewrite string_app_cons, string_app_assoc, string_app_cons.
    transitivity (nest_end [125] false false (join_comma (map dump_field ks) +:+ String "}" r)); [reflexivity|].
    rewrite passed_join
      by (first [done | apply Forall_forall; intros ? _; apply passed_field, passed_dumps]).
    reflexivity.
Qed.

(** ** Finding the entries *)

Lemma raw_decode_quoted k r : raw_decode (quoted k +:+ r) = Some (JStr k, r).
Proof.
  unfold raw_decode. rewrite quoted_app. cbn [scan_value].
  change (byte_of (chr 34) =? 34) with true. cbv iota. by erewrite scan_quoted by reflexivity.
Qed.

Lemma more_members k r :
  bool_decide (quoted k +:+ r = EmptyString) || head_is 125 (quoted k +:+ r) = false.
Proof. rewrite quoted_app. by rewrite bool_decide_eq_false_2. Qed.

Lemma tails_app {A} (pr : A -> string) a b r : tails pr (a ++ b) r = tails pr a (tails pr b r).
Proof. induction a as [|x a IH]; [done|]. cbn [tails app]. by rewrite IH. Qed.

(** The items of an array up to its closing bracket. *)
Definition items (l : list json) (r : string) : string := join_comma (map dumps l) +:+ String "]" r.

Lemma items_head l r : exists c rest, items l r = String c rest /\ 33 <= byte_of c <= 126.
Proof.
  unfold items. destruct l as [|x l]; [by do 2 eexists|]. rewrite join_tails.
  destruct (dumps_visible x (tails dumps l (String "]" r))) as (c & rest & -> & Hc & _).
  exists c, rest. split; [done | by eapply kind_head_range].
Qed.

Lemma space_end_items l r : space_end (items l r) = items l r.
Proof. destruct (items_head l r) as (c & rest & -> & Hc). by apply space_end_visible, visible_ascii. Qed.

Lemma items_on_boundary l r : on_boundary (items l r).
Proof.
  destruct (items_head l r) as (c & rest & -> & Hc). cbn. unfold is_continuation. lia.
Qed.

Definition entries_field (l : list json) : string * json := ("entries", JArr l).

Lemma find_entries_here n l r :
  find_entries (S n) (dump_field (entries_field l) +:+ r) = Ok (items l r).
Proof.
  unfold dump_field, field_text. cbn [fst snd entries_field].
  rewrite string_app_assoc, string_app_cons.
  assert (E : dumps (JArr l) +:+ r = String "[" (items l r)).
  { cbn [dumps]. by rewrite string_app_cons, string_app_assoc, string_app_cons. }
  rewrite E. cbn [find_entries].
  rewrite more_members, raw_decode_quoted. cbn [expect mbind result_bind].
  rewrite space_end_visible by done. cbn [head_is tail_of].
  rewrite space_end_visible by done. change (byte_of ":" =? 58) with true.
  rewrite str_eqb_refl. cbn [head_is tail_of]. change (byte_of "[" =? 91) with true.
  simpl. by rewrite space_end_items.
Qed.

Lemma find_entries_later n kv x r : kv.1 <> "entries" ->
  find_entries (S n) (dump_field kv +:+ String "," (dump_field x +:+ r))
    = find_entries n (dump_field x +:+ r).
Proof.
  intros Hk. destruct kv as [k v]. unfold dump_field at 1, field_text. cbn [fst snd] in *.
  rewrite !string_app_assoc, !string_app_cons. cbn [find_entries].
  rewrite more_members, raw_decode_quoted. cbn [expect mbind result_bind].
  rewrite space_end_visible by done. cbn [head_is tail_of].
  change (byte_of ":" =? 58) with true. cbn [require].
  rewrite space_end_dumps. unfold str_eqb. rewrite bool_decide_eq_false_2 by done.
  rewrite json_value_end_dumps by (by left). cbn [mbind result_bind].
  rewrite space_end_visible by done. cbn [head_is tail_of].
  change (byte_of "," =? 44) with true. cbv iota.
  replace (space_end (dump_field x +:+ r)) with (dump_field x +:+ r); [done|].
  rewrite dump_field_app. by rewrite space_end_visible.
Qed.

(** The fields from [x] on, up to the closing brace. *)
Definition fields_text (x : string * json) (xs : list (string * json)) : string :=
  dump_field x +:+ tails dump_field xs "}".

Lemma fields_text_length x xs : (length (x :: xs) <= String.length (fields_text x xs))%nat.
Proof.
  unfold fields_text. rewrite dump_field_app. simpl. apply le_n_S.
  rewrite string_app_length. simpl. rewrite string_app_length.
  assert (length xs <= String.length (tails dump_field xs "}"))%nat; [|lia].
  induction xs as [|y xs IH]; [simpl; lia|]. cbn [tails String.length length].
  rewrite string_app_length. lia.
Qed.

Lemma find_entries_spec pre l post x xs n : x :: xs = pre ++ entries_field l :: post ->
  "entries" ∉ pre.*1 -> (length pre < n)%nat ->
  exists p r, fields_text x xs = p +:+ items l r /\ find_entries n (fields_text x xs) = Ok (items l r).
Proof.
  revert x xs n. induction pre as [|y pre IH]; intros x xs n E Hn Hlt; destruct n as [|n]; try lia.
  - injection E as -> ->. unfold fields_text. rewrite find_entries_here.
    exists (quoted "entries" +:+ ":["), (tails dump_field post "}"). split; [|done].
    unfold dump_field, field_text, items. cbn [fst snd entries_field dumps].
    by rewrite !string_app_assoc, !string_app_cons, !string_app_assoc.
  - injection E as -> Exs. rewrite fmap_cons, not_elem_of_cons in Hn. destruct Hn as [Hk Hn].
    destruct xs as [|z xs]; [by destruct pre|]. simpl in Hlt.
    destruct (IH z xs n Exs Hn ltac:(lia)) as (p & r & Ep & Ef).
    exists (dump_field y +:+ String "," p), r. unfold fields_text in *. cbn [tails].
    rewrite find_entries_later by done. split; [|exact Ef].
    by rewrite Ep, string_app_assoc, string_app_cons.
Qed.

(** [_entry_array_offset] on the text of an object with entries. *)
Lemma entry_array_offset_dumps payload l : NoDup payload.*1 -> entries_field l ∈ payload ->
  exists p r, dumps (JObj payload) = p +:+ items l r
    /\ entry_array_offset (dumps (JObj payload)) = Ok (py_len p).
Proof.
  intros Hd Hin. destruct (dumps_object_in_order payload) as (ks & Hp & Et).
  rewrite <- Hp in Hin, Hd. apply list_elem_of_split in Hin as (pre & post & Eks).
  assert (Hpre : "entries" ∉ pre.*1).
  { rewrite Eks, fmap_app, fmap_cons in Hd. apply NoDup_app in Hd as (_ & Hd & _).
    intros Hin. apply (Hd _ Hin). left. }
  destruct ks as [|x ks]; [by destruct pre|].
  rewrite join_tails in Et. fold (fields_text x ks) in Et.
  assert (Hlen : (length pre < String.length (dumps (JObj payload)))%nat).
  { rewrite Et. simpl. pose proof (fields_text_length x ks). rewrite Eks, length_app in H. simpl in H. lia. }
  destruct (find_entries_spec pre l post x ks _ Eks Hpre Hlen) as (p & r & Ep & Ef).
  exists (String "{" p), r. rewrite string_app_cons, <- Ep. split; [done|].
  assert (Es : space_end (dumps (JObj payload)) = String "{" (fields_text x ks))
    by (rewrite Et; by apply space_end_visible).
  unfold entry_array_offset. rewrite Es. cbn [head_is tail_of].
  change (byte_of "{" =? 123) with true. cbn [require mbind result_bind].
  replace (space_end (fields_text x ks)) with (fields_text x ks).
  2: { unfold fields_text. rewrite dump_field_app. by rewrite space_end_visible. }
  rewrite Ef. cbn [mbind result_bind]. rewrite Et, Ep, <- string_app_cons. f_equal. apply offset_of_app.
Qed.

(** ** Walking the entries *)

Lemma next_entry_at_end p r :
  next_entry (p +:+ String "]" r) (py_len p)
    = Ok (mkEntry None (py_len p + 1) true (py_len p) (py_len p)).
Proof.
  unfold next_entry. rewrite text_at_app by done. rewrite space_end_visible by done.
  rewrite bool_decide_eq_false_2 by done. cbn. by rewrite offset_of_app.
Qed.

(** One item of the array: [p] is the text before it, [q] the text with it. *)
Lemma next_entry_item p kvs l r : well_formed (JObj kvs) = true ->
  let q := p +:+ dumps (JObj kvs) in
  exists ws, same_json (JObj kvs) (JObj ws) /\
  next_entry (q +:+ tails dumps l (String "]" r)) (py_len p) =
    Ok (mkEntry (Some ws) (py_len q + 1) (bool_decide (l = [])) (py_len p) (py_len q)).
Proof.
  intros Hv q. set (rest := tails dumps l (String "]" r)).
  assert (Hr : delimited rest) by (apply tails_delimits; by left).
  destruct (raw_decode_dumps (JObj kvs) rest Hv Hr) as (w & Hs & Hw).
  destruct w as [|b|z|s|l'|ws]; try (by inversion Hs). exists ws. split; [done|].
  assert (Ep : q +:+ rest = p +:+ (dumps (JObj kvs) +:+ rest)) by apply string_app_assoc.
  destruct (dumps_visible (JObj kvs) rest) as (c & text & E & Hk & _). cbn [kind_head] in Hk.
  unfold next_entry. rewrite Ep, text_at_app.
  2: { rewrite E. cbn. by rewrite Hk. }
  rewrite space_end_dumps, Hw, <- Ep. rewrite bool_decide_eq_false_2 by (by rewrite E).
  cbn [negb require mbind result_bind expect]. replace (head_is 93 _) with false by (rewrite E; cbn; lia).
  assert (Eo : offset_of (q +:+ rest) (dumps (JObj kvs) +:+ rest) = py_len p)
    by (rewrite Ep; apply offset_of_app).
  rewrite Eo. subst rest. destruct l as [|x l]; cbn [tails].
  - rewrite space_end_visible by done. cbn [head_is]. rewrite bool_decide_eq_false_2 by done.
    cbn. by rewrite offset_of_app.
  - rewrite space_end_visible by done. cbn [head_is tail_of]. rewrite bool_decide_eq_false_2 by done.
    cbn [negb require mbind result_bind]. change (byte_of "," =? 44) with true. cbv iota.
    rewrite space_end_dumps. rewrite !offset_of_app. do 2 f_equal.
    replace (q +:+ String "," _) with ((q +:+ ",") +:+ (dumps x +:+ tails dumps l (String "]" r)))
      by (by rewrite string_app_assoc, string_app_cons).
    rewrite offset_of_app, py_len_app. done.
Qed.

(** What a stage sees of one entry: its fields, and the slice of the payload
    the units bound to it read. *)
Definition read_as (text : string) (entry : list (string * json)) (x : Entry) : Prop :=
  (exists kvs, en_entry x = Some kvs /\ same_json (JObj entry) (JObj kvs))
  /\ entry_slice text (en_start x) (en_end x - en_start x) = dumps (JObj entry).

Lemma entry_slice_app p s rest : on_boundary (s +:+ rest) -> on_boundary rest ->
  entry_slice ((p +:+ s) +:+ rest) (py_len p) (py_len (p +:+ s) - py_len p) = s.
Proof.
  intros H1 H2. unfold entry_slice. rewrite string_app_assoc, text_at_app by done.
  rewrite py_len_app. replace (py_len p + py_len s - py_len p) with (py_len s) by lia.
  by apply take_chars_app.
Qed.

Lemma tails_on_boundary l r : on_boundary (tails dumps l (String "]" r)).
Proof. by destruct l. Qed.

Lemma dumps_on_boundary v r : on_boundary (dumps v +:+ r).
Proof.
  destruct (dumps_visible v r) as (c & rest & -> & Hk%kind_head_range & _). cbn.
  unfold is_continuation. lia.
Qed.

Lemma entries_from_items entries : Forall (fun e => well_formed (JObj e) = true) entries ->
  forall p r n, (length entries < n)%nat ->
  exists found, entries_from n (p +:+ items (map JObj entries) r) (py_len p) = Ok found
    /\ Forall2 (read_as (p +:+ items (map JObj entries) r)) entries found.
Proof.
  intros He. induction He as [|e es He Hes IH]; intros p r n Hn; destruct n as [|n]; try (simpl in Hn; lia).
  - exists []. split; [|done]. cbn [entries_from]. unfold items. simpl.
    change (EmptyString +:+ ?x) with x. by rewrite next_entry_at_end.
  - unfold items in *. rewrite map_cons, join_tails.
    destruct (next_entry_item p e (map JObj es) r He) as (ws & Hs & Hx).
    set (q := p +:+ dumps (JObj e)) in *.
    set (text := p +:+ (dumps (JObj e) +:+ tails dumps (map JObj es) (String "]" r))).
    assert (Et : q +:+ tails dumps (map JObj es) (String "]" r) = text) by apply string_app_assoc.
    rewrite Et in Hx. cbn [entries_from]. rewrite Hx. cbn [mbind result_bind en_finished en_entry en_next].
    set (x := mkEntry _ _ _ _ _).
    assert (Hread : read_as text e x).
    { split; [by exists ws|]. rewrite <- Et. apply entry_slice_app;
        [apply dumps_on_boundary | apply tails_on_boundary]. }
    destruct es as [|e' es].
    + exists [x]. split; [done | by constructor].
    + destruct (IH (q +:+ ",") r n ltac:(simpl in *; lia)) as (found & Hf & HF).
      rewrite map_cons in *. rewrite join_tails in Hf, HF. cbn [tails] in *.
      assert (Et' : (q +:+ ",") +:+ (dumps (JObj e') +:+ tails dumps (map JObj es) (String "]" r)) = text).
      { rewrite <- Et. by rewrite string_app_assoc, string_app_cons. }
      rewrite Et', py_len_app in *. exists (x :: found). split; [|by constructor].
      rewrite bool_decide_eq_false_2 by done. change (py_len ",") with 1 in Hf. by rewrite Hf.
Qed.

(** C40: the entry scanner is a left inverse of the canonical printer.  For a
    stored payload (a dictionary whose fields are dictionaries and values) with
    an array of objects [entries], [_entry_array_offset] succeeds on its
    canonical text, and [_next_entry], iterated from there, returns exactly the
    stored entries in order, each equal up to the order of its fields, with
    offsets that cut precisely its own canonical text out of the payload,
    whatever the other fields contain (brackets, quotes, escapes and characters
    of several bytes included). *)
Theorem entries_are_read_back (payload : list (string * json)) (entries : list (list (string * json))) :
  well_formed (JObj payload) = true ->
  obj_get "entries" payload = Some (JArr (map JObj entries)) ->
  exists offset found,
    entry_array_offset (dumps (JObj payload)) = Ok offset
    /\ entries_from (S (length entries)) (dumps (JObj payload)) offset = Ok found
    /\ Forall2 (read_as (dumps (JObj payload))) entries found.
Proof.
  intros Hv Hget. cbn [well_formed] in Hv. apply andb_true_iff in Hv as [Hd%bool_decide_eq_true Hv].
  assert (Hin : entries_field (map JObj entries) ∈ payload).
  { clear Hd Hv. induction payload as [|[k v] l IH]; [done|]. cbn [obj_get] in Hget.
    destruct (str_eqb "entries" k) eqn:E; [|right; auto].
    apply str_eqb_true in E as <-. injection Hget as ->. left. }
  assert (He : Forall (fun e => well_formed (JObj e) = true) entries).
  { apply forallb_Forall in Hv. rewrite Forall_forall in Hv. specialize (Hv _ Hin).
    cbn [snd entries_field well_formed] in Hv. apply forallb_Forall in Hv. by apply Forall_map in Hv. }
  destruct (entry_array_offset_dumps payload (map JObj entries) Hd Hin) as (p & r & Et & Eo).
  destruct (entries_from_items entries He p r (S (length entries)) ltac:(lia)) as (found & Hf & HF).
  exists (py_len p), found. rewrite Et in *. done.
Qed.

Lemma entries_are_read_back_witness :
  exists offset found,
    entry_array_offset (dumps (JObj [("entries", JArr (map JObj [[("q", JStr "x]"); ("a", JInt (-7))]; []])); ("b", JStr "}")])) = Ok offset
    /\ entries_from 3 (dumps (JObj [("entries", JArr (map JObj [[("q", JStr "x]"); ("a", JInt (-7))]; []])); ("b", JStr "}")])) offset = Ok found
    /\ length found = 2%nat.
Proof.
  destruct (entries_are_read_back
    [("entries", JArr (map JObj [[("q", JStr "x]"); ("a", JInt (-7))]; []])); ("b", JStr "}")]
    [[("q", JStr "x]"); ("a", JInt (-7))]; []]) as (o & f & Ho & Hf & HF);
    [vm_compute; reflexivity | reflexivity |].
  exists o, f. split; [exact Ho|]. split; [exact Hf|]. symmetry. exact (Forall2_length _ _ _ HF).
Defined.
