(* ===== verification/DurablePlanGraph.v ===== *)
(** * The search for cycles

    [visit] and [_assert_acyclic] of
    src/runtime/durable_workloads/schema.py: the search ends, and accepts
    exactly the graphs whose dependencies are stages and have no cycle. *)
From stdpp Require Import relations.
From Stdlib Require Import Strings.String.
From S2P Require Import Prelude.
From S2P Require Import PyJson.
From S2P Require Import DurablePlans.
Local Open Scope Z_scope.

(** [a] is a stage and lists [b] under [depends_on]. *)
Definition depends (g : graph) (a b : string) : Prop := a ∈ g.*1 /\ b ∈ graph_get g a.

Definition cyclic (g : graph) : Prop := exists a, tc (depends g) a a.

Definition cycle_error : plan_error :=
  Invalid (SchemaValidationError "stage graph contains a cycle").

(** ** The graph of a list of stages *)

Lemma graph_set_keys k ds g x : x ∈ (graph_set k ds g).*1 <-> x = k \/ x ∈ g.*1.
Proof.
  induction g as [|[k' ds'] g IH]; simpl; [set_solver|].
  destruct (str_eqb k k') eqn:E; simpl.
  - apply str_eqb_true in E. set_solver.
  - rewrite !elem_of_cons, IH. tauto.
Qed.

Lemma graph_set_NoDup k ds g : NoDup g.*1 -> NoDup (graph_set k ds g).*1.
Proof.
  induction g as [|[k' ds'] g IH]; simpl; intros Hg.
  - apply NoDup_singleton.
  - apply NoDup_cons in Hg as [Hk Hg]. destruct (str_eqb k k') eqn:E; simpl.
    + by apply NoDup_cons.
    + apply NoDup_cons. split; [|by apply IH]. rewrite graph_set_keys.
      intros [->|]; [|done]. by rewrite str_eqb_refl in E.
Qed.

Lemma stage_graph_NoDup stages : NoDup (stage_graph stages).*1.
Proof.
  unfold stage_graph. assert (H : NoDup ([] : graph).*1) by constructor.
  revert H. generalize ([] : graph). induction stages as [|st stages IH]; intros g Hg; [done|].
  apply IH. by apply graph_set_NoDup.
Qed.

Lemma graph_get_entry g k ds : NoDup g.*1 -> (k, ds) ∈ g -> graph_get g k = ds.
Proof.
  induction g as [|[k' ds'] g IH]; intros Hn Hin; [by apply elem_of_nil in Hin|].
  apply NoDup_cons in Hn as [Hk Hn]. apply elem_of_cons in Hin as [[= -> ->]|Hin]; simpl.
  - by rewrite str_eqb_refl.
  - destruct (str_eqb k k') eqn:E; [|by apply IH]. apply str_eqb_true in E as ->.
    destruct Hk. by apply (list_elem_of_fmap_2 fst) in Hin.
Qed.

Lemma graph_get_spec g k : k ∈ g.*1 -> (k, graph_get g k) ∈ g.
Proof.
  induction g as [|[k' ds'] g IH]; simpl; [by intros ?%elem_of_nil|].
  destruct (str_eqb k k') eqn:E.
  - apply str_eqb_true in E as ->. left.
  - intros [->|H]%elem_of_cons; [by rewrite str_eqb_refl in E|]. right. auto.
Qed.

Lemma graph_set_fresh k ds g : k ∉ g.*1 -> graph_set k ds g = g ++ [(k, ds)].
Proof.
  induction g as [|[k' ds'] g IH]; simpl; [done|]. intros [Hk Hg]%not_elem_of_cons.
  destruct (str_eqb k k') eqn:E; [by apply str_eqb_true in E|]. by rewrite IH.
Qed.

(** With different keys the graph is the list of the stages. *)
Lemma stage_graph_unique stages : NoDup (map stage_key stages) ->
  stage_graph stages = map (fun st => (stage_key st, stage_deps st)) stages.
Proof.
  intros Hn. unfold stage_graph.
  enough (H : forall g, (forall st, st ∈ stages -> stage_key st ∉ g.*1) ->
    fold_left (fun g st => graph_set (stage_key st) (stage_deps st) g) stages g
    = g ++ map (fun st => (stage_key st, stage_deps st)) stages) by
    (apply H; intros ? _; apply not_elem_of_nil).
  induction stages as [|st stages IH]; intros g Hg; simpl; [by rewrite app_nil_r|].
  apply NoDup_cons in Hn as [Hst Hn]. rewrite graph_set_fresh by (apply Hg; left).
  rewrite IH; [by rewrite <- app_assoc | done |].
  intros st' Hin. rewrite fmap_app, elem_of_app. intros [Hi|Hi].
  - revert Hi. apply Hg. by right.
  - apply list_elem_of_singleton in Hi. simpl in Hi. apply Hst. rewrite <- Hi.
    by apply list_elem_of_fmap_2.
Qed.

(** ** The search *)

Lemma size_list_to_set_le (l : list string) :
  (size (list_to_set l : gset string) <= length l)%nat.
Proof.
  induction l as [|k l IH]; [by rewrite list_to_set_nil, size_empty|].
  rewrite list_to_set_cons, size_union_alt, size_singleton. simpl.
  assert (size (list_to_set l ∖ {[k]} : gset string) <= size (list_to_set l : gset string))%nat
    by (apply subseteq_size; set_solver). lia.
Qed.

Section Search.
Context (g : graph) (closed : forall a b, depends g a b -> b ∈ g.*1).

(** Stages that are done are on no cycle, and neither is anything below. *)
Definition finished (d : gset string) : Prop :=
  forall a, a ∈ d -> ~ tc (depends g) a a /\ forall b, depends g a b -> b ∈ d.

Lemma finished_reach d a b : finished d -> tc (depends g) a b -> a ∈ d -> b ∈ d.
Proof.
  intros Hd. induction 1 as [a b Hab|a b c Hab _ IH]; intros Ha.
  - by apply (Hd a).
  - apply IH. by apply (Hd a).
Qed.

Lemma finished_add d n : finished d -> (forall b, depends g n b -> b ∈ d) ->
  finished ({[n]} ∪ d).
Proof.
  intros Hd Hn a [Ha|Ha]%elem_of_union.
  - apply elem_of_singleton in Ha as ->. split; [|set_solver].
    intros Hc. assert (Hin : n ∈ d).
    { inversion Hc as [? ? H|? b ? H Ht]; subst; [by apply Hn |].
      apply (finished_reach d b n); auto. }
    by destruct (Hd n Hin).
  - destruct (Hd a Ha). split; [done|set_solver].
Qed.

(** What a visit of the nodes [ds] from [v] has done. *)
Definition outcome (ds : list string) (v : Visit) (r : result plan_error Visit) : Prop :=
  match r with
  | Ok v' => visiting v' = visiting v /\ visited v ⊆ visited v'
             /\ (forall d, d ∈ ds -> d ∈ visited v') /\ finished (visited v')
  | Err e => e = cycle_error /\ cyclic g
  end.

Lemma visits_error n ds e :
  foldl (fun acc d => acc ≫= visit n g d) (Err e) ds = Err e.
Proof. induction ds; [done | exact IHds]. Qed.

Lemma visits_outcome n ds v :
  finished (visited v) ->
  (forall d v0, d ∈ ds -> visiting v0 = visiting v -> finished (visited v0) ->
     outcome [d] v0 (visit n g d v0)) ->
  outcome ds v (foldl (fun acc d => acc ≫= visit n g d) (Ok v) ds).
Proof.
  revert v. induction ds as [|d ds IH]; intros v Hv H; simpl.
  - split_and!; auto. by intros ? ?%elem_of_nil.
  - pose proof (H d v ltac:(left) eq_refl Hv) as Hd. cbn [mbind result_bind].
    destruct (visit n g d v) as [v1|e].
    + destruct Hd as (E1 & S1 & D1 & F1).
      pose proof (IH v1 F1) as Hrest. rewrite E1 in Hrest.
      specialize (Hrest ltac:(intros; apply H; [by right | congruence | done])).
      destruct (foldl _ (Ok v1) ds) as [v2|e]; [|exact Hrest].
      destruct Hrest as (E2 & S2 & D2 & F2). split_and!; [congruence | set_solver | | done].
      intros x [->|Hx]%elem_of_cons; [|auto]. apply S2, D1. by left.
    + by rewrite visits_error.
Qed.

Lemma path_is_short (V : gset string) (n : nat) :
  V ⊆ list_to_set g.*1 -> (size V + n = S (length g))%nat -> n <> O.
Proof.
  intros HV Hs ->. apply subseteq_size in HV.
  pose proof (size_list_to_set_le g.*1) as H. rewrite length_fmap in H. lia.
Qed.

Lemma visit_outcome n node v :
  node ∈ g.*1 -> visiting v ⊆ list_to_set g.*1 ->
  (size (visiting v) + n = S (length g))%nat ->
  (forall a, a ∈ visiting v -> tc (depends g) a node) -> finished (visited v) ->
  outcome [node] v (visit n g node v).
Proof.
  revert node v. induction n as [|n IH]; intros node v Hnode Hsub Hsize Hpath Hfin.
  { by destruct (path_is_short _ _ Hsub Hsize). }
  cbn [visit]. case_bool_decide as Hvi; [split; [done | exists node; auto]|].
  case_bool_decide as Hvd.
  { split_and!; auto. by intros d ->%list_elem_of_singleton. }
  set (v1 := mkVisit ({[node]} ∪ visiting v) (visited v)).
  assert (H : outcome (graph_get g node) v1
    (foldl (fun acc d => acc ≫= visit n g d) (Ok v1) (graph_get g node))).
  { apply visits_outcome; [done|]. subst v1. cbn [visiting visited]. intros d v0 Hd E Hf.
    assert (depends g node d) by done. apply IH; rewrite ?E; eauto.
    - set_solver.
    - rewrite size_union by set_solver. rewrite size_singleton. lia.
    - intros a [->%elem_of_singleton|Ha]%elem_of_union; [by constructor|].
      etrans; [by apply Hpath | by constructor]. }
  fold v1. destruct (foldl _ _ _) as [v'|e]; cbn [mbind result_bind]; [|exact H].
  destruct H as (E & HS & HD & HF). subst v1.
  cbn [outcome visiting visited] in *. split_and!; [set_solver | set_solver | set_solver |].
  apply finished_add; [done|]. intros b [_ Hb]. auto.
Qed.

Lemma search_outcome :
  outcome g.*1 (mkVisit ∅ ∅)
    (foldl (fun acc name => acc ≫= visit (S (length g)) g name) (Ok (mkVisit ∅ ∅)) g.*1).
Proof.
  apply visits_outcome; [by intros ? ?%elem_of_empty|]. cbn [visiting].
  intros d v0 Hd E Hf. apply visit_outcome; rewrite ?E; auto; set_solver.
Qed.
End Search.

(** ** What the search decides *)

Definition all_known (g : graph) : bool :=
  forallb (fun kv => forallb (fun d => bool_decide (d ∈ g.*1)) kv.2) g.

Lemma all_known_spec g : NoDup g.*1 ->
  all_known g = true <-> forall a b, depends g a b -> b ∈ g.*1.
Proof.
  intros Hn. unfold all_known. rewrite forallb_forall. split.
  - intros H a b [Ha Hb]. apply graph_get_spec, list_elem_of_In in Ha.
    specialize (H _ Ha). rewrite forallb_forall in H.
    apply list_elem_of_In, H, bool_decide_eq_true in Hb. exact Hb.
  - intros H [k ds] Hin. apply list_elem_of_In in Hin. apply forallb_forall. intros d Hd.
    apply bool_decide_eq_true, (H k). apply list_elem_of_In in Hd. split.
    + by apply (list_elem_of_fmap_2 fst) in Hin.
    + by rewrite (graph_get_entry g k ds).
Qed.

Lemma finished_all_acyclic g d : finished g d -> (forall a, a ∈ g.*1 -> a ∈ d) -> ~ cyclic g.
Proof.
  intros Hf Hd [a Ha]. assert (a ∈ g.*1) by (inversion Ha as [? ? []|? ? ? []]; done).
  by destruct (Hf a (Hd a ltac:(done))).
Qed.

Lemma assert_acyclic_cases stages :
  let g := stage_graph stages in
  match assert_acyclic stages with
  | Ok _ => (forall a b, depends g a b -> b ∈ g.*1) /\ ~ cyclic g
  | Err e => e <> RecursionError /\ ((exists a b, depends g a b /\ b ∉ g.*1) \/ cyclic g)
  end.
Proof.
  intros g. unfold assert_acyclic. fold g. fold (all_known g).
  pose proof (stage_graph_NoDup stages : NoDup g.*1) as Hn.
  destruct (all_known g) eqn:Hk.
  - pose proof (proj1 (all_known_spec g Hn) Hk) as Hc. pose proof (search_outcome g Hc) as H.
    cbn [negb reject_if mbind result_bind]. destruct (foldl _ _ _) as [v|e]; cbn [outcome] in H.
    + destruct H as (_ & _ & HD & HF). split; [done|]. by eapply finished_all_acyclic.
    + destruct H as [-> H]. split; [done | by right].
  - cbn. split; [done | left]. apply forallb_false in Hk as ([a ds] & Ha & Hds).
    apply forallb_false in Hds as (b & Hb & Hnb). apply bool_decide_eq_false in Hnb.
    exists a, b. split_and!; [split | done].
    + by apply (list_elem_of_fmap_2 fst) in Ha.
    + by rewrite (graph_get_entry g a ds).
Qed.
