(* ===== verification/DurablePlanSpec.v ===== *)
(** * What an accepted plan is

    The specification of the plans [validate_plan] of
    src/runtime/durable_workloads/schema.py accepts, as the rest of the kernel
    relies on it ([StageOk], [PlanOk]), and what each check of the validation
    establishes. *)
From stdpp Require Import relations.
From Stdlib Require Import Strings.String.
From S2P Require Import Prelude.
From S2P Require Import PyJson.
From S2P Require Import DurableModels.
From S2P Require Import DurableRetry.
From S2P Require Import DurablePlans.
From S2P Require Import DurablePlanGraph.
Local Open Scope Z_scope.

(** ** Well-formed plans *)

(** The runner of a stage. *)
Definition runs (item : list (string * json)) (kind : RunnerKind) (name : string) : Prop :=
  runner_kind_of (field "kind" (obj_field "runner" item)) = Some kind
  /\ field "name" (obj_field "runner" item) = JStr name.

(** A reference to the result of another stage. *)
Definition refers_to (item : list (string * json)) (d : json) : Prop :=
  exists name reference, (name, JObj reference) ∈ obj_field "input_bindings" item
  /\ String.prefix "dependency." (py_str (field "ref" reference)) = true
  /\ default JNull (obj_get "stage" reference) = d.

(** The retry policy is one the store can read ([RetryPolicy.from_mapping]
    is what it applies to the stored text), amounts are integers in their
    ranges, references point to direct dependencies. *)
Record StageOk (item : list (string * json)) : Prop := {
  so_key : key_re (stage_key item) = true;
  so_deps : NoDup (stage_deps item) /\ stage_key item ∉ stage_deps item;
  so_runner : exists kind name, runs item kind name /\ runner_re name = true
    /\ (kind = R_INTERNAL -> name ∈ INTERNAL_RUNNERS);
  so_effect : exists effect policy, effect_of (field "effect_profile" item) = Some effect
    /\ from_mapping (field "retry" item) = Ok policy
    /\ max_attempts policy = stage_max_attempts item
    /\ (effect = MANUAL_ONLY -> max_attempts policy = 1);
  so_units : 1 <= stage_max_units item <= 10000000;
  so_timeout : 1 <= int_field "timeout_s" item <= 86400;
  so_resources : forall r, r ∈ RESOURCE_KEYS -> exists z,
    obj_get r (obj_field "resources" item) = Some (JInt z) /\ 0 <= z <= resource_cap r;
  so_bindings : forall d, refers_to item d -> exists name, d = JStr name /\ name ∈ stage_deps item;
  so_inventory : stage_type_of (field "type" item) = Some S_INVENTORY ->
    stage_deps item = [] /\ runs item R_INTERNAL "sealed_inventory" }.

Definition is_inventory (item : list (string * json)) : bool :=
  bool_decide (stage_type_of (field "type" item) = Some S_INVENTORY).

(** One stage directly needs another. *)
Definition needs (stages : list (list (string * json))) (a b : string) : Prop :=
  exists st, st ∈ stages /\ stage_key st = a /\ b ∈ stage_deps st.

Record PlanOk (plan : list (string * json)) (stages : list (list (string * json))) : Prop := {
  po_fields : forall k, k ∈ plan.*1 <-> k ∈ plan_fields;
  po_stages : field "stages" plan = JArr (map JObj stages);
  po_count : (1 <= length stages <= 64)%nat;
  po_each : forall st, st ∈ stages -> StageOk st;
  po_keys : NoDup (map stage_key stages);
  po_inventory : exists st, st ∈ stages /\ is_inventory st = true
    /\ forall st', st' ∈ stages -> is_inventory st' = true -> st' = st;
  po_known : forall a b, needs stages a b -> b ∈ map stage_key stages;
  po_acyclic : forall a, ~ tc (needs stages) a a;
  po_units : sum_list (map stage_max_units stages)
    <= int_field "max_units" (obj_field "budgets" plan) <= 10000000;
  po_attempts : forall st, st ∈ stages ->
    stage_max_attempts st <= int_field "max_attempts_per_unit" (obj_field "budgets" plan) <= 32 }.

(** ** What the checks establish *)

Lemma reject_ok b what u : reject_if b what = Ok u -> b = false.
Proof. by destruct b. Qed.

Lemma known_ok {A} (o : option A) what a : known o what = Ok a -> o = Some a.
Proof. destruct o; [|done]. by intros [= ->]. Qed.

(** Split the checks a run has passed. *)
Ltac passed :=
  repeat match goal with
  | H : _ ≫= _ = Ok _ |- _ => apply bind_ok in H as (? & ? & H)
  | H : reject_if _ _ = Ok _ |- _ => apply reject_ok in H
  | H : known _ _ = Ok _ |- _ => apply known_ok in H
  | H : Ok _ = Ok _ |- _ => injection H as H
  | H : Err _ = Ok _ |- _ => discriminate H
  | H : invalid _ = Ok _ |- _ => discriminate H
  | H : negb _ = false |- _ => apply negb_false_iff in H
  | H : _ || _ = false |- _ => apply orb_false_iff in H as [? H]
  | H : _ && _ = true |- _ => apply andb_true_iff in H as [? H]
  | H : bool_decide _ = true |- _ => apply bool_decide_eq_true in H
  | H : bool_decide _ = false |- _ => apply bool_decide_eq_false in H
  end.

Lemma obj_get_field k kvs v : v <> JNull -> field k kvs = v -> obj_get k kvs = Some v.
Proof. unfold field. destruct (obj_get k kvs); simpl; congruence. Qed.

Lemma obj_get_in k kvs v : obj_get k kvs = Some v -> (k, v) ∈ kvs.
Proof.
  induction kvs as [|[k' v'] kvs IH]; simpl; [done|]. destruct (str_eqb k k') eqn:E.
  - apply str_eqb_true in E as ->. intros [= ->]. left.
  - intros H. right. auto.
Qed.

Lemma obj_get_key k (kvs : list (string * json)) : k ∈ kvs.*1 -> exists v, obj_get k kvs = Some v.
Proof.
  induction kvs as [|[k' v'] kvs IH]; simpl; [by intros ?%elem_of_nil|].
  intros [->|H]%elem_of_cons; [rewrite str_eqb_refl; eauto|].
  destruct (str_eqb k k'); eauto.
Qed.

Lemma object_ok v c req all kvs : object_ v c req all = Ok kvs ->
  v = JObj kvs /\ (forall k, k ∈ req -> k ∈ kvs.*1) /\ (forall k, k ∈ kvs.*1 -> k ∈ all).
Proof.
  unfold object_. destruct v; try done. intros H. passed. subst kvs.
  repeat match goal with H : forallb _ _ = true |- _ => rewrite forallb_forall in H end.
  split_and!; [done | |]; intros k Hk; apply list_elem_of_In in Hk;
    match goal with H : forall x, In x _ -> _, Hk : In _ _ |- _ => apply H in Hk end;
    by apply bool_decide_eq_true in Hk.
Qed.

Lemma integer_ok v c low high z : integer_ v c low high = Ok z ->
  v = JInt z /\ low <= z /\ (forall m, high = Some m -> z <= m).
Proof.
  unfold integer_. destruct v; try done. intros H. passed. subst.
  unfold within in *. passed. split_and!; [done | lia |]. intros m ->. lia.
Qed.

Lemma string_ok v c low high s : string_ v c low high = Ok s -> v = JStr s.
Proof. unfold string_. destruct v; try done. intros H. passed. by subst. Qed.

Lemma array_ok v c l : array_ v c = Ok l -> v = JArr l.
Proof. unfold array_. destruct v; try done. by intros [= ->]. Qed.

Lemma closed_strings_ok v c m items : closed_strings v c m = Ok items ->
  exists l, v = JArr l /\ mapM as_str l = Some items /\ omap as_str l = items
    /\ Z.of_nat (length l) <= m /\ NoDup items.
Proof.
  unfold closed_strings. intros H. passed. subst.
  match goal with H : array_ _ _ = _ |- _ => apply array_ok in H as -> end.
  match goal with H : mapM _ _ = _ |- _ => apply mapM_ok in H; rename H into HM end.
  eexists. split; [done|]. split_and!; [| | lia | done].
  - apply mapM_Some. eapply Forall2_impl; [exact HM|]. intros a b Hab. unfold closed_string in Hab.
    passed. subst. match goal with H : string_ _ _ _ _ = _ |- _ => by apply string_ok in H as -> end.
  - clear -HM. induction HM as [|a b l k Hab HM IH]; [done|]. unfold closed_string in Hab.
    passed. subst. match goal with H : string_ _ _ _ _ = _ |- _ => by apply string_ok in H as -> end.
Qed.

Lemma is_text_true v t : is_text v t = true -> v = JStr t.
Proof. unfold is_text, json_is_str. destruct v; try done. by intros ->%str_eqb_true. Qed.

Ltac checked :=
  passed; subst;
  repeat match goal with
  | H : object_ _ _ _ _ = Ok _ |- _ => apply object_ok in H as (? & ? & ?)
  | H : integer_ _ _ _ _ = Ok _ |- _ => apply integer_ok in H as (? & ? & ?)
  | H : string_ _ _ _ _ = Ok _ |- _ => apply string_ok in H
  | H : array_ _ _ = Ok _ |- _ => apply array_ok in H
  end.

Lemma validate_runner_ok v kind name : validate_runner v = Ok (kind, name) ->
  exists kvs, v = JObj kvs /\ runner_kind_of (field "kind" kvs) = Some kind
    /\ field "name" kvs = JStr name /\ runner_re name = true
    /\ (kind = R_INTERNAL -> name ∈ INTERNAL_RUNNERS).
Proof.
  unfold validate_runner. intros H. checked.
  eexists. split_and!; try done. intros ->.
  match goal with H : _ && _ = false |- _ => apply andb_false_iff in H as [E|E] end.
  - by apply bool_decide_eq_false in E.
  - apply negb_false_iff in E. by apply bool_decide_eq_true in E.
Qed.

Lemma validate_cardinality_ok t v kvs : validate_cardinality t v = Ok kvs ->
  v = JObj kvs /\ exists z, field "max_units" kvs = JInt z /\ 1 <= z <= 10000000.
Proof. unfold validate_cardinality. intros H. checked. naive_solver. Qed.

Lemma validate_binding_ok deps name reference u :
  validate_binding deps (name, JObj reference) = Ok u ->
  String.prefix "dependency." (py_str (field "ref" reference)) = true ->
  exists d, obj_get "stage" reference = Some (JStr d) /\ d ∈ deps.
Proof.
  unfold validate_binding, validate_reference. cbn [fst snd]. intros H Hp. checked.
  match goal with H : JObj _ = JObj _ |- _ => injection H as <- end.
  clear H.
  match goal with H : (if is_text ?ref "literal" then _ else _) = Ok _ |- _ =>
    destruct (is_text ref "literal") eqn:El end.
  { apply is_text_true in El. by rewrite El in Hp. }
  match goal with H : (if has_key "value" ?r then _ else _) = Ok _ |- _ =>
    destruct (has_key "value" r); [done|]; rewrite Hp in H end.
  passed. match goal with H : is_one_of _ _ = true |- _ => unfold is_one_of in H;
    apply existsb_exists in H as (d & Hd & Hs) end.
  exists d. split; [|by apply list_elem_of_In]. unfold json_is_str in Hs.
  destruct (obj_get "stage" reference) as [[]|]; try done. by apply str_eqb_true in Hs as ->.
Qed.

Lemma validate_bindings_ok deps card v u : validate_bindings deps card v = Ok u ->
  exists bindings, v = JObj bindings /\
    forall name reference, (name, JObj reference) ∈ bindings ->
    String.prefix "dependency." (py_str (field "ref" reference)) = true ->
    exists d, obj_get "stage" reference = Some (JStr d) /\ d ∈ deps.
Proof.
  unfold validate_bindings. destruct v; try done. intros H. checked.
  exists kvs. split; [done|]. intros name reference Hin.
  match goal with H : mapM _ _ = Ok _ |- _ => apply mapM_ok in H; rename H into HM end.
  apply list_elem_of_lookup in Hin as (i & Hi).
  destruct (Forall2_lookup_l _ _ _ _ _ HM Hi) as (y & _ & Hy).
  by eapply validate_binding_ok.
Qed.

Lemma from_mapping_intro kvs attempts base maximum l errors :
  same_keys kvs retry_keys = true ->
  obj_get "max_attempts" kvs = Some (JInt attempts) -> 1 <= attempts <= 32 ->
  obj_get "base_delay_ms" kvs = Some (JInt base) -> 0 <= base <= maximum ->
  obj_get "max_delay_ms" kvs = Some (JInt maximum) -> maximum <= 86400000 ->
  obj_get "retryable_error_classes" kvs = Some (JArr l) -> Z.of_nat (length l) <= 32 ->
  mapM as_str l = Some errors -> forallb error_class_re errors = true -> NoDup errors ->
  from_mapping (JObj kvs) = Ok {| max_attempts := attempts; base_delay_ms := base;
    max_delay_ms := maximum; retryable_error_classes := errors |}.
Proof.
  intros Hk Ha Ha' Hb Hb' Hm Hm' Hl Hl' HM He Hn. unfold from_mapping.
  rewrite Hk, Ha, Hb, Hm, Hl, HM, He, (bool_decide_eq_true_2 _ Hn). cbn [as_int negb].
  repeat match goal with
    | |- context [?a <=? ?b] => replace (a <=? b) with true by (symmetry; apply Z.leb_le; lia)
    end.
  by replace (32 <? Z.of_nat _) with false by (symmetry; apply Z.ltb_ge; lia).
Qed.

Lemma validate_retry_ok effect v u : validate_retry effect v = Ok u ->
  exists kvs policy, v = JObj kvs /\ from_mapping v = Ok policy
    /\ max_attempts policy = int_field "max_attempts" kvs
    /\ (effect = MANUAL_ONLY -> max_attempts policy = 1).
Proof.
  unfold validate_retry. intros H. checked.
  match goal with H : closed_strings _ _ _ = Ok ?e |- _ =>
    apply closed_strings_ok in H as (l & Hl & HM & _ & Hlen & Hnd) end.
  match goal with H1 : field "max_attempts" ?kvs = JInt ?a, H2 : field "base_delay_ms" _ = JInt ?b,
    H3 : field "max_delay_ms" _ = JInt ?m, H4 : (?m <? ?b) = false |- _ =>
    rename a into attempts, kvs into retry, H1 into Ha, H2 into Hb, H3 into Hm, H4 into Hbm end.
  eexists _, _. split; [done|]. subst v. split.
  { eapply from_mapping_intro; try (apply obj_get_field; [done | eassumption]); try eassumption.
    - apply same_keys_true. split; auto.
    - split; [done|]. auto.
    - apply Z.ltb_ge in Hbm. done.
    - auto. }
  cbn [max_attempts]. unfold int_field. rewrite Ha. split; [done|]. intros ->.
  match goal with H : _ && _ = false |- _ => apply andb_false_iff in H as [E|E] end.
  - by apply bool_decide_eq_false in E.
  - apply negb_false_iff in E. lia.
Qed.

Lemma validate_resources_ok v u : validate_resources v = Ok u ->
  exists kvs, v = JObj kvs /\ forall r, r ∈ RESOURCE_KEYS ->
    exists z, obj_get r kvs = Some (JInt z) /\ 0 <= z <= resource_cap r.
Proof.
  unfold validate_resources. intros H. checked. eexists. split; [done|]. intros r Hr.
  match goal with H : mapM _ _ = Ok _ |- _ => apply mapM_ok in H; rename H into HM end.
  destruct (obj_get_key r x) as (w & Hw); [auto|].
  pose proof (obj_get_in _ _ _ Hw) as (i & Hi)%list_elem_of_lookup.
  destruct (Forall2_lookup_l _ _ _ _ _ HM Hi) as (y & _ & Hy). cbn [fst snd] in Hy.
  apply integer_ok in Hy as (-> & Hlo & Hhi). exists y. split; [done|]. split; auto.
Qed.

Lemma validate_role_ok deps kind name effect card u :
  validate_role S_INVENTORY deps kind name effect card = Ok u ->
  deps = [] /\ kind = R_INTERNAL /\ name = "sealed_inventory".
Proof.
  unfold validate_role.
  destruct (bool_decide (S_INVENTORY = S_INVENTORY)) eqn:E;
    [|by apply bool_decide_eq_false in E].
  intros H. passed.
  repeat match goal with H : str_eqb _ _ = true |- _ => apply str_eqb_true in H end. done.
Qed.

Lemma obj_field_is k kvs o : field k kvs = JObj o -> obj_field k kvs = o.
Proof. unfold obj_field. by intros ->. Qed.

Lemma validate_stage_ok v item : validate_stage v = Ok item -> v = JObj item /\ StageOk item.
Proof.
  unfold validate_stage. intros H. checked.
  match goal with
  | Ek : field "key" item = JStr ?k, Et : stage_type_of _ = Some ?t, Es : field "timeout_s" _ = _,
    Ed : closed_strings (field "depends_on" _) _ _ = Ok ?ds, Er : validate_runner _ = Ok ?r,
    Eb : validate_bindings _ _ _ = _, Ec : validate_cardinality _ _ = _,
    Ey : validate_retry _ _ = _, Ea : validate_resources _ = _, Ex : validate_role _ _ _ _ _ _ = _ |- _ =>
    rename k into key, t into ty, ds into deps, r into runner, Er into Hrun, Ex into Hrole,
      Et into Hty, Ek into Hkey, Es into Htime;
    apply closed_strings_ok in Ed as (l & Hl & _ & Hdeps & _ & Hnd);
    apply validate_bindings_ok in Eb as (bindings & Hb & Hrefs);
    apply validate_cardinality_ok in Ec as (Hc & units & Hu & Hu');
    apply validate_retry_ok in Ey as (retry & policy & Hy & Hpol & Hatt & Hman);
    apply validate_resources_ok in Ea as (res & Ha & Hres)
  end.
  destruct runner as [kind name].
  apply validate_runner_ok in Hrun as (run & Hr & Hkind & Hname & Hre & Hin).
  assert (Ek : stage_key item = key) by (unfold stage_key; by rewrite Hkey).
  assert (Ed : stage_deps item = deps) by (unfold stage_deps; by rewrite Hl).
  split; [done|]. split; rewrite ?Ek, ?Ed.
  - done.
  - done.
  - exists kind, name. unfold runs. rewrite (obj_field_is _ _ _ Hr). done.
  - eexists _, policy. unfold stage_max_attempts. rewrite (obj_field_is _ _ _ Hy). done.
  - unfold stage_max_units. rewrite (obj_field_is _ _ _ Hc). unfold int_field. by rewrite Hu.
  - unfold int_field. rewrite Htime. auto.
  - rewrite (obj_field_is _ _ _ Ha). done.
  - intros d (nm & reference & Hn & Hp & <-). rewrite (obj_field_is _ _ _ Hb) in Hn.
    destruct (Hrefs nm reference Hn Hp) as (d & -> & Hd). by exists d.
  - intros Hi. rewrite Hty in Hi. injection Hi as ->. unfold runs. rewrite (obj_field_is _ _ _ Hr).
    cbn [fst snd] in Hrole. apply validate_role_ok in Hrole as (-> & -> & ->). done.
Qed.

Lemma validate_stages_mapM raw stages : mapM validate_stage raw = Ok stages ->
  raw = map JObj stages /\ forall st, st ∈ stages -> StageOk st.
Proof.
  intros H%mapM_ok. induction H as [|v st raw stages Hv H IH]; [by split; [|intros ? ?%elem_of_nil]|].
  apply validate_stage_ok in Hv as [-> Hst]. destruct IH as [-> IH]. split; [done|].
  intros st' [->|Hin]%elem_of_cons; auto.
Qed.

(** The stages of the type of inventories, as the plan counts them. *)
Definition inventory_count (stages : list (list (string * json))) : Z :=
  sum_list (map (fun st =>
    if is_text (field "type" st) (stage_type_value S_INVENTORY) then 1 else 0) stages).

Lemma is_inventory_text st :
  is_text (field "type" st) (stage_type_value S_INVENTORY) = is_inventory st.
Proof.
  unfold is_inventory, is_text, stage_type_of, member_of, json_is_str.
  destruct (field "type" st) as [| | |s| |]; try done.
  destruct (str_eqb s (stage_type_value S_INVENTORY)) eqn:E.
  - apply str_eqb_true in E as ->. symmetry. by apply bool_decide_eq_true.
  - symmetry. apply bool_decide_eq_false. intros H. apply List.find_some in H as [_ H].
    apply str_eqb_true in H. rewrite <- H, str_eqb_refl in E. done.
Qed.

Lemma inventory_count_cons st stages :
  inventory_count (st :: stages) = (if is_inventory st then 1 else 0) + inventory_count stages.
Proof. unfold inventory_count. simpl. by rewrite is_inventory_text. Qed.

Lemma inventory_count_nonneg stages : 0 <= inventory_count stages.
Proof.
  induction stages as [|st stages IH]; [done|]. rewrite inventory_count_cons.
  destruct (is_inventory st); lia.
Qed.

Lemma inventory_count_zero stages st :
  inventory_count stages = 0 -> st ∈ stages -> is_inventory st = false.
Proof.
  induction stages as [|st' stages IH]; intros Hc Hin; [by apply elem_of_nil in Hin|].
  rewrite inventory_count_cons in Hc. pose proof (inventory_count_nonneg stages).
  apply elem_of_cons in Hin as [->|Hin].
  - destruct (is_inventory st'); [lia | done].
  - apply IH; [destruct (is_inventory st'); lia | done].
Qed.

Lemma inventory_count_one stages : inventory_count stages = 1 ->
  exists st, st ∈ stages /\ is_inventory st = true
    /\ forall st', st' ∈ stages -> is_inventory st' = true -> st' = st.
Proof.
  induction stages as [|st stages IH]; [done|]. rewrite inventory_count_cons. intros Hc.
  destruct (is_inventory st) eqn:E.
  - exists st. split_and!; [left | done |]. intros st' [->|Hin]%elem_of_cons Hi; [done|].
    rewrite (inventory_count_zero stages st' ltac:(lia) Hin) in Hi. done.
  - destruct IH as (st0 & H0 & Hi0 & Hu); [lia|]. exists st0. split_and!; [by right | done |].
    intros st' [->|Hin]%elem_of_cons Hi; [congruence | auto].
Qed.

(** The search ran on the relation the plan means. *)
Lemma needs_depends stages a b : NoDup (map stage_key stages) ->
  needs stages a b <-> depends (stage_graph stages) a b.
Proof.
  intros Hn. pose proof (stage_graph_NoDup stages) as Hg.
  unfold depends. rewrite (stage_graph_unique stages Hn) in *. split.
  - intros (st & Hin & <- & Hb). split.
    + rewrite <- list_fmap_compose. by apply (list_elem_of_fmap_2 stage_key).
    + rewrite (graph_get_entry _ _ (stage_deps st)); [done | exact Hg |].
      by apply (list_elem_of_fmap_2 (fun st => (stage_key st, stage_deps st))).
  - intros [Ha Hb]. apply graph_get_spec in Ha.
    apply (list_elem_of_fmap_1 (fun st => (stage_key st, stage_deps st))) in Ha as (st & E & Hin).
    injection E as -> E. exists st. rewrite <- E. done.
Qed.

Lemma stage_graph_keys stages : NoDup (map stage_key stages) ->
  (stage_graph stages).*1 = map stage_key stages.
Proof. intros Hn. rewrite (stage_graph_unique _ Hn). by rewrite <- list_fmap_compose. Qed.
