(* ===== verification/DurablePlanProperties.v ===== *)
(** * Properties of plan validation

    What [validate_plan] of src/runtime/durable_workloads/schema.py guarantees
    about a plan it accepts, what its search for cycles decides, and the
    malformed plans on which it raises a [TypeError]. *)
From stdpp Require Import relations.
From Stdlib Require Import Strings.String.
From S2P Require Import Prelude.
From S2P Require Import PyJson.
From S2P Require Import DurableRetry.
From S2P Require Import DurablePlans.
From S2P Require Import DurablePlanGraph.
From S2P Require Import DurablePlanSpec.
Local Open Scope Z_scope.

(** ** The parts of the plan *)

Lemma validate_budgets_ok v budgets : validate_budgets v = Ok budgets ->
  v = JObj budgets /\ int_field "max_units" budgets <= 10000000
  /\ int_field "max_attempts_per_unit" budgets <= 32.
Proof.
  unfold validate_budgets. intros H. checked. split; [done|]. unfold int_field.
  repeat match goal with E : field ?k _ = JInt _ |- context [field ?k _] => rewrite E end. auto.
Qed.

Lemma validate_stages_ok budgets v stages : validate_stages budgets v = Ok stages ->
  v = JArr (map JObj stages) /\ (1 <= length stages <= 64)%nat
  /\ (forall st, st ∈ stages -> StageOk st) /\ NoDup (map stage_key stages)
  /\ inventory_count stages = 1 /\ assert_acyclic stages = Ok tt
  /\ sum_list (map stage_max_units stages) <= int_field "max_units" budgets
  /\ forall st, st ∈ stages -> stage_max_attempts st <= int_field "max_attempts_per_unit" budgets.
Proof.
  unfold validate_stages. intros H. checked.
  match goal with E : mapM validate_stage ?l = Ok _ |- _ =>
    apply validate_stages_mapM in E as [-> Hst] end.
  rewrite length_map in *.
  match goal with E : (_ =? 1) = true, F : existsb _ _ = false, U : (_ <? _) = false |- _ =>
    apply Z.eqb_eq in E; rename E into Hinv; rename F into Hatt; apply Z.ltb_ge in U end.
  match goal with E : assert_acyclic _ = Ok ?u |- _ => destruct u end.
  split_and!; try done; try lia.
  intros st Hin. pose proof (existsb_false _ _ _ Hatt Hin) as Hf. cbn beta in Hf. lia.
Qed.

(** C26: a plan is accepted only when it is what the rest of the kernel takes it
    for ([PlanOk]): its stages have different keys and depend on stages of the
    plan without a cycle, exactly one is the inventory, a root run by the
    sealed inventory; every retry policy is one the store can read and lies
    within the budget, like the number of units; amounts of resources and
    references to other stages are in order.  The text returned is the
    canonical text of the plan, within its limit. *)
Theorem accepted_plan_is_well_formed (value : json) (text : string) :
  validate_plan value = Ok text ->
  exists plan stages, value = JObj plan /\ PlanOk plan stages
    /\ text = dumps value /\ byte_len text <= MAX_PLAN_JSON_BYTES.
Proof.
  intros H. unfold validate_plan in H. checked.
  match goal with E : validate_budgets _ = Ok _, F : validate_stages _ _ = Ok ?l |- _ =>
    apply validate_budgets_ok in E as (Hb & Hbu & Hba);
    apply validate_stages_ok in F as (Hs & Hlen & Hst & Hn & Hinv & Hac & Hu & Ha);
    rename l into stages end.
  eexists _, stages. split; [done|]. unfold canonical_json in H.
  destruct (_ <? _) eqn:Hl in H; [done|]. injection H as <-. apply Z.ltb_ge in Hl.
  split; [|by subst].
  pose proof (assert_acyclic_cases stages) as Hc. cbn zeta in Hc. rewrite Hac in Hc.
  destruct Hc as [Hk Hcyc]. rewrite <- (obj_field_is _ _ _ Hb) in *.
  split; try done.
  - split; auto.
  - by apply inventory_count_one.
  - intros a b Hab. rewrite <- stage_graph_keys by done.
    apply (Hk a). by apply needs_depends.
  - intros a Hcy. apply Hcyc. exists a. eapply tc_congruence with (f := id); [|exact Hcy].
    intros c d Hcd. by apply needs_depends.
  - split; auto.
Qed.

(** C28: the search for cycles always ends before its fuel does, and accepts
    exactly the stages that depend on known stages only and, directly or not,
    never on themselves. *)
Theorem acyclicity_check_is_exact (stages : list (list (string * json))) :
  NoDup (map stage_key stages) ->
  assert_acyclic stages <> Err RecursionError
  /\ (assert_acyclic stages = Ok tt <->
      (forall a b, needs stages a b -> b ∈ map stage_key stages)
      /\ forall a, ~ tc (needs stages) a a).
Proof.
  intros Hn. pose proof (assert_acyclic_cases stages) as Hc. cbn zeta in Hc.
  rewrite (stage_graph_keys stages Hn) in Hc.
  assert (Ht : forall a b, tc (needs stages) a b <-> tc (depends (stage_graph stages)) a b).
  { intros a b. split; intros H; (eapply tc_congruence with (f := id); [|exact H]);
      intros c d Hcd; by apply needs_depends. }
  destruct (assert_acyclic stages) as [[]|e].
  - split; [done|]. split; [|done]. intros _. destruct Hc as [Hk Hcyc]. split.
    + intros a b Hab. apply (Hk a). by apply needs_depends.
    + intros a Ha. apply Hcyc. exists a. by apply Ht.
  - destruct Hc as [He Hc]. split; [congruence|]. split; [done|]. intros [Hk Hcyc].
    destruct Hc as [(a & b & Hab & Hb)|[a Ha]].
    + destruct Hb. apply (Hk a). by apply needs_depends.
    + destruct (Hcyc a). by apply Ht.
Qed.

(** ** A plan *)

Definition sample_stage (key kind name type : string) (deps : list string) (effect : string)
    (attempts : Z) : json :=
  JObj [("key", JStr key); ("type", JStr type); ("depends_on", JArr (map JStr deps));
        ("runner", JObj [("kind", JStr kind); ("name", JStr name)]);
        ("effect_profile", JStr effect);
        ("cardinality", JObj [("mode", JStr "singleton"); ("max_units", JInt 10)]);
        ("input_bindings", JObj (map (fun d => (d, JObj [("ref", JStr "dependency.result");
                                                        ("stage", JStr d)])) deps));
        ("output_schema", JObj [("schema_version", JStr "metnos.output-schema-ref/1");
                                ("name", JStr "metnos.out/1")]);
        ("retry", JObj [("max_attempts", JInt attempts); ("base_delay_ms", JInt 1000);
                        ("max_delay_ms", JInt 60000);
                        ("retryable_error_classes", JArr [JStr "network_error"])]);
        ("timeout_s", JInt 60); ("invalidation_keys", JArr [JStr "source.digest"]);
        ("resources", JObj (map (fun r => (r, JInt 1)) RESOURCE_KEYS));
        ("required", JBool true)].

Definition sample_stages : list json :=
  [sample_stage "publish" "internal" "artifact_store_publish" "publish" ["describe"; "list"]
     "idempotent" 3;
   sample_stage "describe" "executor" "describe_images" "map" ["list"] "pure" 3;
   sample_stage "list" "internal" "sealed_inventory" "inventory" [] "pure" 1].

Definition sample_plan (stages : list json) (policy_mode : json) : json :=
  JObj [("schema_version", JStr PLAN_SCHEMA_VERSION); ("plan_id", JStr "describe-photos");
        ("objective_redacted", JStr "describe the photos");
        ("inventory", JObj [("mode", JStr "sealed"); ("dynamic", JBool false);
           ("max_sources", JInt 10); ("max_total_bytes", JInt 1000000); ("max_depth", JInt 4);
           ("symlink_policy", JStr "ignore"); ("unstable_policy", JStr "reject");
           ("missing_policy", JStr "needs_attention")]);
        ("terminal_criteria", JObj [("require_inventory_sealed", JBool true);
           ("require_usage_complete", JBool true);
           ("reject_unaccepted_truncation", JBool true)]);
        ("error_policy", JObj [("mode", policy_mode); ("allowed_error_classes", JArr [])]);
        ("budgets", JObj (("max_units", JInt 100) :: ("max_attempts_per_unit", JInt 5)
           :: ("max_wall_time_s", JInt 3600) :: ("max_artifacts", JInt 1)
           :: ("max_concurrency", JInt 4)
           :: map (fun k => (k, JInt 1000))
                ["max_bytes_read"; "max_bytes_written"; "max_tokens"; "max_cost_micros"]));
        ("stages", JArr stages);
        ("required_artifacts", JArr [JObj [("name", JStr "index"); ("mime_type", JStr "text/html");
           ("schema_version", JStr "metnos.index/1"); ("publication", JStr "internal_store")]])].

Lemma accepted_plan_is_well_formed_witness :
  validate_plan (sample_plan sample_stages (JStr "strict"))
    = Ok (dumps (sample_plan sample_stages (JStr "strict")))
  /\ exists plan stages, PlanOk plan stages /\ length stages = 3%nat.
Proof.
  assert (H : validate_plan (sample_plan sample_stages (JStr "strict"))
    = Ok (dumps (sample_plan sample_stages (JStr "strict")))) by (vm_compute; reflexivity).
  split; [exact H|].
  destruct (accepted_plan_is_well_formed _ _ H) as (plan & stages & E & Hok & _).
  exists plan, stages. split; [exact Hok|]. pose proof (po_stages _ _ Hok) as Hs.
  injection E as <-. change (JArr sample_stages = JArr (map JObj stages)) in Hs.
  injection Hs as Hs. apply (f_equal length) in Hs. by rewrite length_map in Hs.
Defined.

(** A cycle of two stages is refused. *)
Definition looping_stages : list (list (string * json)) :=
  [[("key", JStr "a"); ("depends_on", JArr [JStr "b"])];
   [("key", JStr "b"); ("depends_on", JArr [JStr "a"])]].

Lemma acyclicity_check_is_exact_witness :
  assert_acyclic looping_stages = Err cycle_error
  /\ ~ ((forall a b, needs looping_stages a b -> b ∈ map stage_key looping_stages)
        /\ forall a, ~ tc (needs looping_stages) a a).
Proof.
  assert (E : assert_acyclic looping_stages = Err cycle_error) by (vm_compute; reflexivity).
  split; [exact E|]. intros H.
  apply (acyclicity_check_is_exact looping_stages
    ltac:(by apply (bool_decide_unpack (NoDup (map stage_key looping_stages))))) in H.
  rewrite E in H. discriminate H.
Defined.

(** A mode that is a list or an object is malformed, but is not reported as a
    [SchemaValidationError]: the test of membership in a set hashes it. *)
Lemma unhashable_mode_is_a_type_error :
  validate_plan (sample_plan sample_stages (JArr [])) = Err (TypeError "unhashable type").
Proof. vm_compute. reflexivity. Qed.
