(* ===== verification/DurableInventoryProperties.v ===== *)
(** * The streaming encoding of inventories

    The loop of [validate_inventory] in
    src/runtime/durable_workloads/schema.py against the definitions it avoids:
    the set of all identifiers, the canonical text of all sources, the
    canonical text of the whole inventory. *)
From stdpp Require Import sorting.
From Stdlib Require Import Strings.Ascii Strings.String.
From S2P Require Import Prelude.
From S2P Require Import Sha256.
From S2P Require Import PyJson.
From S2P Require Import PyStrings.
From S2P Require Import JsonText.
From S2P Require Import DurablePlans.
From S2P Require Import DurablePlanSpec.
From S2P Require Import DurableInventory.
Local Open Scope Z_scope.

(** ** The set of identifiers *)

(** The values held, in memory or in the table, never in both. *)
Definition holds (b : BoundedUniqueValues) (values : gset string) : Prop :=
  (memory b = Some values /\ connection b = None)
  \/ (memory b = None /\ connection b = Some values).

Lemma no_values_holds : holds no_values ∅.
Proof. by left. Qed.

Lemma add_value_spec limit b values value : holds b values ->
  exists b', add_value limit b value = Ok (bool_decide (value ∉ values), b')
    /\ holds b' ({[value]} ∪ values).
Proof.
  assert (Hold : value ∈ values -> {[value]} ∪ values = values) by set_solver.
  intros [[Hm Hc]|[Hm Hc]]; unfold add_value; rewrite Hm, ?Hc; case_bool_decide as Hin;
    rewrite ?(bool_decide_eq_false_2 (value ∉ values)), ?(bool_decide_eq_true_2 (value ∉ values))
      by (intros ?; auto).
  - exists b. split; [done|]. rewrite (Hold Hin). by left.
  - case_match; (eexists; split; [done|]).
    + by left.
    + by right.
  - exists b. split; [done|]. rewrite (Hold Hin). by right.
  - eexists. split; [done|]. by right.
Qed.

(** The answers to a sequence of [add], for any size of the memory. *)
Fixpoint add_values (limit : nat) (b : BoundedUniqueValues) (values : list string)
  : result plan_error (list bool) :=
  match values with
  | [] => Ok []
  | value :: rest =>
      added ← add_value limit b value;
      answers ← add_values limit added.2 rest;
      Ok (added.1 :: answers)
  end.

Lemma add_values_spec limit values b seen : holds b seen ->
  exists answers, add_values limit b values = Ok answers /\ length answers = length values
    /\ forall i value, values !! i = Some value ->
         answers !! i = Some (bool_decide (value ∉ seen ∪ list_to_set (take i values))).
Proof.
  revert b seen. induction values as [|v values IH]; intros b seen Hb; [by exists []|].
  destruct (add_value_spec limit b seen v Hb) as (b' & Ha & Hb').
  destruct (IH b' _ Hb') as (answers & Hr & Hlen & Hans).
  exists (bool_decide (v ∉ seen) :: answers). simpl. rewrite Ha. simpl. rewrite Hr.
  split_and!; [done | simpl; congruence |].
  intros [|i] value; simpl.
  - intros [= ->]. f_equal. apply bool_decide_ext. set_solver.
  - intros Hi. rewrite (Hans i value Hi). f_equal. apply bool_decide_ext. set_solver.
Qed.

(** ** Texts *)

Ltac string_normal :=
  repeat match goal with
  | |- context [quoted (String ?c ?s)] =>
      let q := eval vm_compute in (quoted (String c s)) in change (quoted (String c s)) with q
  | |- context [quoted INVENTORY_SCHEMA_VERSION] =>
      let q := eval vm_compute in (quoted INVENTORY_SCHEMA_VERSION) in
      change (quoted INVENTORY_SCHEMA_VERSION) with q
  end;
  repeat first [rewrite string_app_cons | rewrite string_app_assoc
               | match goal with |- context [EmptyString +:+ ?x] => change (EmptyString +:+ x) with x end].

Lemma byte_len_app a b : byte_len (a +:+ b) = byte_len a + byte_len b.
Proof. unfold byte_len. induction a as [|x a IH]; [done|]. rewrite string_app_cons. cbn [String.length]. lia. Qed.

Lemma byte_len_cons c a : byte_len (String c a) = 1 + byte_len a.
Proof. unfold byte_len. cbn [String.length]. lia. Qed.

Lemma byte_len_nonneg a : 0 <= byte_len a.
Proof. unfold byte_len. lia. Qed.

(** What the loop appends for the sources from [index] on. *)
Fixpoint commas (index : Z) (texts : list string) : string :=
  match texts with
  | [] => EmptyString
  | t :: rest => comma_before index t +:+ commas (index + 1) rest
  end.

Lemma commas_pos index texts : 0 < index ->
  commas index texts = match texts with [] => EmptyString | _ => String "," (join_comma texts) end.
Proof.
  revert index. induction texts as [|t texts IH]; intros index Hi; [done|].
  simpl. unfold comma_before. destruct (index =? 0) eqn:E; [lia|].
  rewrite IH by lia. destruct texts; simpl; [by rewrite string_app_empty | done].
Qed.

Lemma commas_zero texts : commas 0 texts = join_comma texts.
Proof.
  destruct texts as [|t texts]; [done|]. simpl. rewrite commas_pos by lia.
  destruct texts; [apply string_app_empty | done].
Qed.

Lemma comma_before_len index text : 0 <= index ->
  byte_len (comma_before index text) = Z.b2z (0 <? index) + byte_len text.
Proof.
  intros Hi. unfold comma_before. destruct (index =? 0) eqn:E.
  - by replace (0 <? index) with false by lia.
  - rewrite byte_len_cons. by replace (0 <? index) with true by lia.
Qed.

Lemma escape_char_len c rest : byte_len (escape_char c rest) <= 6 + byte_len rest.
Proof.
  unfold escape_char. pose proof (byte_len_nonneg rest).
  repeat (destruct (_ =? _); [rewrite !byte_len_cons; lia|]).
  destruct (_ <? _); rewrite !byte_len_cons; lia.
Qed.

Lemma quoted_len s : byte_len (quoted s) <= 6 * byte_len s + 2.
Proof.
  unfold quoted. rewrite byte_len_cons, byte_len_app. change (byte_len (String _ EmptyString)) with 1.
  enough (byte_len (escape s) <= 6 * byte_len s) by lia.
  induction s as [|c s IH]; [done|]. cbn [escape].
  pose proof (escape_char_len c (escape s)). rewrite byte_len_cons. lia.
Qed.

(** ** The loop *)

Definition source_id_of (source : json) : string :=
  match source with JObj kvs => py_str (field "source_id" kvs) | _ => EmptyString end.
Definition has_ordinal (source : json) (index : Z) : Prop :=
  exists kvs, source = JObj kvs /\ equals_int (field "ordinal" kvs) index = true.

Lemma validate_source_ok index ids seen raw ids' : holds ids seen ->
  validate_source index ids raw = Ok ids' ->
  has_ordinal raw index /\ source_id_of raw ∉ seen /\ holds ids' ({[source_id_of raw]} ∪ seen).
Proof.
  intros Hids. unfold validate_source. intros H. checked.
  match goal with E : field "source_id" _ = JStr ?i, A : add_value _ _ ?i = Ok _ |- _ =>
    destruct (add_value_spec MEMORY_LIMIT ids seen i Hids) as (b & Hb & Hholds);
    rewrite Hb in A; injection A as <-; assert (Hid : source_id_of (JObj x) = i) by
      (simpl; by rewrite E) end.
  cbn [fst snd] in *. passed. subst raw. rewrite Hid. split_and!; [by exists x | done | done].
Qed.

Definition room (index : Z) (st : Stream) (texts : list string) : bool :=
  inline_bytes st + byte_len (commas index texts) <=? MAX_INVENTORY_JSON_BYTES.

Lemma write_source_ok index st ids text :
  0 <= index -> inline_bytes st <= MAX_INVENTORY_JSON_BYTES ->
  let st' := write_source index st ids text in
  source_ids st' = ids /\ hasher st' = hasher st +:+ comma_before index text
  /\ inline_bytes st' <= MAX_INVENTORY_JSON_BYTES
  /\ forall texts,
       (if room (index + 1) st' texts
        then (fun b => b +:+ commas (index + 1) texts) <$> inline_buffer st' else None)
       = (if room index st (text :: texts)
          then (fun b => b +:+ commas index (text :: texts)) <$> inline_buffer st else None).
Proof.
  intros Hi Hb. unfold write_source, room. cbn [commas].
  pose proof (comma_before_len index text Hi) as Hc.
  destruct (inline_buffer st) as [buffer|].
  2: { split_and!; try done. intros texts. cbn [inline_buffer fmap option_fmap option_map].
       by repeat case_match. }
  destruct (_ <=? _) eqn:Hfits; cbn [source_ids hasher inline_bytes inline_buffer].
  - split_and!; try done; [lia|]. intros texts. rewrite byte_len_app, Hc.
    replace (inline_bytes st + (Z.b2z (0 <? index) + byte_len text)
             + byte_len (commas (index + 1) texts))
      with (inline_bytes st + (Z.b2z (0 <? index) + byte_len text
             + byte_len (commas (index + 1) texts))) by lia.
    destruct (_ <=? _); [|done]. cbn. by rewrite string_app_assoc.
  - split_and!; try done. intros texts. rewrite byte_len_app, Hc.
    pose proof (byte_len_nonneg (commas (index + 1) texts)).
    apply Z.leb_gt in Hfits. trans (None : option string); [by destruct (_ <=? _)|].
    by rewrite (proj2 (Z.leb_gt _ _)) by lia.
Qed.

Lemma source_json_ok raw text : inventory_source_json raw = Ok text -> text = dumps raw.
Proof.
  unfold inventory_source_json, canonical_json. destruct (_ <? _); [done|]. by intros [= ->].
Qed.

Lemma stream_sources_ok sources index st seen st' :
  0 <= index -> inline_bytes st <= MAX_INVENTORY_JSON_BYTES -> holds (source_ids st) seen ->
  stream_sources sources index st = Ok st' ->
  let texts := map dumps sources in
  hasher st' = hasher st +:+ commas index texts
  /\ inline_buffer st' = (if room index st texts
                          then (fun b => b +:+ commas index texts) <$> inline_buffer st else None)
  /\ NoDup (map source_id_of sources) /\ (forall s, s ∈ sources -> source_id_of s ∉ seen)
  /\ (forall i s, sources !! i = Some s -> has_ordinal s (index + Z.of_nat i)).
Proof.
  revert index st seen. induction sources as [|raw sources IH]; intros index st seen Hi Hb Hids H;
    cbn [stream_sources] in H; passed.
  { subst st'. cbn [map commas]. unfold room. cbn [commas]. rewrite string_app_empty.
    change (byte_len EmptyString) with 0. replace (_ <=? _) with true by lia.
    split_and!; try done.
    - destruct (inline_buffer st); simpl; by rewrite ?string_app_empty.
    - constructor.
    - by intros s ?%elem_of_nil. }
  apply validate_source_ok with (seen := seen) in H0 as (Hord & Hnew & Hids'); [|done].
  apply source_json_ok in H1 as ->.
  destruct (write_source_ok index st x (dumps raw) Hi Hb) as (Eids & Ehash & Ebytes & Ebuf).
  rewrite <- Eids in Hids'.
  destruct (IH (index + 1) _ _ ltac:(lia) Ebytes Hids' H) as (Hh & Hbuf & Hnd & Hfresh & Hords).
  split_and!.
  - rewrite Hh, Ehash. apply string_app_assoc.
  - rewrite Hbuf. apply Ebuf.
  - cbn [map]. apply NoDup_cons. split; [|done].
    intros (s & Es & Hs)%list_elem_of_fmap. apply (Hfresh s Hs). set_solver.
  - intros s [->|Hs]%elem_of_cons; [done|]. specialize (Hfresh s Hs). set_solver.
  - intros [|i] s Hs; cbn in Hs.
    + injection Hs as <-. by rewrite Z.add_0_r.
    + replace (index + Z.of_nat (S i)) with (index + 1 + Z.of_nat i) by lia. auto.
Qed.

(** ** The whole inventory *)

Lemma obj_get_NoDup k v (kvs : list (string * json)) :
  NoDup kvs.*1 -> (k, v) ∈ kvs -> obj_get k kvs = Some v.
Proof.
  induction kvs as [|[k' v'] kvs IH]; intros Hn Hin; [by apply elem_of_nil in Hin|].
  apply NoDup_cons in Hn as [Hk Hn]. apply elem_of_cons in Hin as [[= -> ->]|Hin]; simpl.
  - by rewrite str_eqb_refl.
  - destruct (str_eqb k k') eqn:E; [|auto]. apply str_eqb_true in E as ->.
    destruct Hk. by apply (list_elem_of_fmap_2 fst) in Hin.
Qed.

(** A dictionary with exactly these keys is this list of fields, in some
    order. *)
Lemma fields_permutation (kvs : list (string * json)) keys :
  NoDup kvs.*1 -> NoDup keys -> (forall k, k ∈ keys -> k ∈ kvs.*1) ->
  (forall k, k ∈ kvs.*1 -> k ∈ keys) -> kvs ≡ₚ map (fun k => (k, field k kvs)) keys.
Proof.
  intros Hn Hk H1 H2. apply NoDup_Permutation.
  - by apply (NoDup_fmap_1 fst).
  - apply (NoDup_fmap_1 fst). rewrite <- list_fmap_compose. by rewrite list_fmap_id.
  - intros [k v]. rewrite list_elem_of_fmap. unfold field. split.
    + intros Hin. exists k. rewrite (obj_get_NoDup k v kvs Hn Hin). split; [done|].
      apply H2. by apply (list_elem_of_fmap_2 fst) in Hin.
    + intros (k' & [= -> ->] & Hin). destruct (obj_get_key k' kvs (H1 k' Hin)) as (v & Hv).
      rewrite Hv. simpl. by apply obj_get_in.
Qed.

Lemma inline_text_is_canonical kvs d sources :
  NoDup kvs.*1 -> (forall k, k ∈ envelope_fields -> k ∈ kvs.*1) ->
  (forall k, k ∈ kvs.*1 -> k ∈ envelope_fields) ->
  field "digest" kvs = JStr d -> field "schema_version" kvs = JStr INVENTORY_SCHEMA_VERSION ->
  field "sealed" kvs = JBool true -> field "sources" kvs = JArr sources ->
  dumps (JObj kvs) = inline_prefix d +:+ (join_comma (map dumps sources) +:+ "]}").
Proof.
  intros Hn H1 H2 Hd Hv Hs Hso.
  set (keys := ["digest"; "schema_version"; "sealed"; "sources"]).
  assert (Hp : kvs ≡ₚ map (fun k => (k, field k kvs)) keys).
  { apply fields_permutation; [done | by apply (bool_decide_unpack (NoDup keys)) | |];
      intros k Hk; [apply H1 | apply H2 in Hk]; subst keys; set_solver. }
  rewrite (dumps_permuted _ _ Hn Hp). subst keys. cbn [map]. rewrite Hd, Hv, Hs, Hso.
  rewrite dumps_object, sort_sorted_fields.
  - unfold object_text, inline_prefix. cbn [dumped map field_text join_comma fst snd dumps].
    unfold field_text. cbn [fst snd]. generalize (quoted d), (join_comma (map dumps sources)).
    intros q text. string_normal. reflexivity.
  - by apply (bool_decide_unpack (NoDup ["digest"; "schema_version"; "sealed"; "sources"])).
  - repeat constructor.
Qed.

Lemma prefix_has_room d : digest_re d = true ->
  byte_len (inline_prefix d) + 2 <= MAX_INVENTORY_JSON_BYTES.
Proof.
  intros H. unfold digest_re in H. apply andb_true_iff in H as [_ H].
  unfold inline_prefix. rewrite !byte_len_app. pose proof (quoted_len d).
  string_normal. repeat match goal with |- context [byte_len (String ?c ?s)] =>
    let n := eval vm_compute in (byte_len (String c s)) in change (byte_len (String c s)) with n end.
  unfold MAX_INVENTORY_JSON_BYTES. lia.
Qed.

Lemma hashed_text sources :
  inventory_hasher +:+ commas 0 (map dumps sources) +:+ "]"
  = "metnos:" +:+ "durable-inventory" +:+ ":1" +:+ String (chr 0) (dumps (JArr sources)).
Proof.
  rewrite commas_zero. cbn [dumps]. generalize (join_comma (map dumps sources)). intros text.
  unfold inventory_hasher. string_normal. reflexivity.
Qed.

Lemma hash_sources_ok sources index h : 0 <= index ->
  (forall s, s ∈ sources -> byte_len (dumps s) <= MAX_INVENTORY_JSON_BYTES) ->
  hash_sources sources index h = Ok (h +:+ commas index (map dumps sources)).
Proof.
  revert index h. induction sources as [|s sources IH]; intros index h Hi Hs.
  - cbn. by rewrite string_app_empty.
  - cbn [hash_sources map commas]. unfold inventory_source_json, canonical_json.
    rewrite (proj2 (Z.ltb_ge _ _)) by (apply Hs; left). cbn [of_schema_result mbind result_bind].
    rewrite IH; [by rewrite string_app_assoc | lia |]. intros s' Hin. apply Hs. by right.
Qed.

Lemma streamed_sources_fit sources index st st' :
  stream_sources sources index st = Ok st' ->
  forall s, s ∈ sources -> byte_len (dumps s) <= MAX_INVENTORY_JSON_BYTES.
Proof.
  revert index st. induction sources as [|raw sources IH]; intros index st H s Hin;
    [by apply elem_of_nil in Hin|].
  cbn [stream_sources] in H. passed. apply elem_of_cons in Hin as [->|Hin]; [|eauto].
  match goal with E : inventory_source_json _ = Ok _ |- _ =>
    unfold inventory_source_json, canonical_json in E; destruct (_ <? _) eqn:El in E; [done|] end.
  by apply Z.ltb_ge.
Qed.

(** C27: when an inventory is accepted, the text the loop has written piece by
    piece is the canonical text of the whole inventory, kept exactly when the
    sources are a plain array and the text is within the limit; the digest the
    inventory declares is the one [digest_json] gives for all its sources at
    once; and the set that spills to a table has found every repetition: the
    identifiers are different, the ordinals count from zero. *)
Theorem inventory_stream_is_canonical (retain : bool) (kvs : list (string * json))
    (canonical : option string) (sources : list json) :
  NoDup kvs.*1 ->
  validate_inventory retain (JObj kvs) = Ok (canonical, sources) ->
  let text := dumps (JObj kvs) in
  field "sources" kvs = JArr sources
  /\ canonical = (if retain && (byte_len text <=? MAX_INVENTORY_JSON_BYTES) then Some text else None)
  /\ digest_json "durable-inventory" (JArr sources) (byte_len (dumps (JArr sources)))
     = Ok (py_str (field "digest" kvs))
  /\ inventory_digest sources = Ok (py_str (field "digest" kvs))
  /\ NoDup (map source_id_of sources)
  /\ (forall i s, sources !! i = Some s -> has_ordinal s (Z.of_nat i)).
Proof.
  intros Hn H. unfold validate_inventory in H. checked.
  match goal with
  | E : JObj _ = JObj _, Ev : is_text _ _ = true, Es : is_bool _ _ = true, Ed : matches _ _ = true,
    Et : stream_sources _ _ _ = Ok ?t, Eh : str_eqb _ _ = true |- _ =>
    injection E as <-; rename Et into Hstream, t into st'; apply is_text_true in Ev as Hv;
    apply str_eqb_true in Eh as Hh; rename Ed into Hre, Es into Hsealed
  end.
  destruct (field "digest" kvs) as [| | |d| |] eqn:Hd; try done. cbn [py_str matches] in *.
  assert (Hs : field "sealed" kvs = JBool true)
    by (destruct (field "sealed" kvs) as [|[]| | | |]; done).
  pose proof (prefix_has_room d Hre) as Hroom.
  pose proof (streamed_sources_fit _ _ _ _ Hstream) as Hfit.
  apply stream_sources_ok with (seen := ∅) in Hstream; [|lia | exact Hroom | exact no_values_holds].
  destruct Hstream as (Ehash & Ebuf & Hnd & _ & Hord). cbn [hasher inline_buffer] in Ehash, Ebuf.
  rewrite (inline_text_is_canonical kvs d sources) by done.
  split_and!; try done.
  - rewrite Ebuf. unfold room. cbn [inline_bytes]. rewrite commas_zero, !byte_len_app.
    change (byte_len "]}") with 2.
    replace (byte_len (inline_prefix d) + 2 + byte_len (join_comma (map dumps sources)))
      with (byte_len (inline_prefix d) + (byte_len (join_comma (map dumps sources)) + 2)) by lia.
    destruct retain, (_ <=? _); cbn; by rewrite ?string_app_assoc.
  - unfold digest_json, canonical_json. rewrite Z.ltb_irrefl.
    cbn [mbind result_bind]. change (_ || _) with false. cbv iota.
    rewrite Hh, Ehash. unfold hasher_digest.
    rewrite string_app_assoc, hashed_text. done.
  - unfold inventory_digest. rewrite hash_sources_ok by done. cbn [mbind result_bind].
    rewrite Hh, Ehash. done.
Qed.

(** ** A sealed inventory of two sources *)

Definition sample_source (id : string) (ordinal : Z) : json :=
  JObj [("source_id", JStr id); ("ordinal", JInt ordinal); ("device_id", JStr "laptop");
        ("locator_redacted", JStr "photos/a.jpg"); ("kind", JStr "file");
        ("size_bytes", JInt 1024); ("mtime_ns", JInt 5);
        ("content_digest", JStr ("sha256:" +:+ hexdigest (sha256 [1; 2])));
        ("state", JStr "ready"); ("accounted", JBool false)].

Definition sample_sources : list json :=
  [sample_source "source-a" 0; sample_source "source-b" 1].

Definition sample_inventory : list (string * json) :=
  [("sealed", JBool true); ("sources", JArr sample_sources);
   ("schema_version", JStr INVENTORY_SCHEMA_VERSION);
   ("digest", match inventory_digest sample_sources with Ok d => JStr d | Err _ => JNull end)].

Lemma inventory_stream_is_canonical_witness :
  validate_inventory true (JObj sample_inventory)
    = Ok (Some (dumps (JObj sample_inventory)), sample_sources)
  /\ NoDup (map source_id_of sample_sources)
  /\ field "sources" sample_inventory = JArr sample_sources.
Proof.
  assert (H : validate_inventory true (JObj sample_inventory)
    = Ok (Some (dumps (JObj sample_inventory)), sample_sources)) by (vm_compute; reflexivity).
  destruct (inventory_stream_is_canonical true sample_inventory _ _
    ltac:(by apply (bool_decide_unpack (NoDup sample_inventory.*1))) H) as (Hs & _ & _ & _ & Hn & _).
  split; [exact H | split; [exact Hn | exact Hs]].
Defined.
