(* ===== verification/RevisionFixture.v ===== *)
(** * Runs of the store from the empty database

    One owner drafts a workload, admits a plan of three stages over a sealed
    inventory of two sources, queues it, and a worker claims, starts and
    commits the first unit, then the second.  In a second run two owners have
    a workload each and one worker claims with the store's own query. *)
From Stdlib Require Import Strings.String.
From S2P Require Import Prelude.
From S2P Require Import PyJson.
From S2P Require Import Instants.
From S2P Require Import DurableModels.
From S2P Require Import DurableRetry.
From S2P Require Import DurableResults.
From S2P Require Import DurablePlans.
From S2P Require Import DurableInventory.
From S2P Require Import DurableTables.
From S2P Require Import DurableOutbox.
From S2P Require Import DurableWorkflow.
From S2P Require Import DurableLeases.
From S2P Require Import DurableCompletion.
From S2P Require Import DurableAdmission.
From S2P Require Import DurableMaterialize.
From S2P Require Import DurableRanking.
From S2P Require Import DurableSweeps.
From S2P Require Import DurableSystem.
From S2P Require Import DurableFixture.
From S2P Require Import DurablePlanProperties.
From S2P Require Import DurableInventoryProperties.
Local Open Scope Z_scope.

(** The stage of the plan that has one unit for each source. *)
Definition per_source (stage : json) : json :=
  match stage with
  | JObj kvs => JObj (obj_set "cardinality"
      (JObj [("mode", JStr "per_source"); ("max_units", JInt 10)]) kvs)
  | other => other
  end.

(** The same for a stage the plan can do without, of at most [n] units. *)
Definition optional_per_source (n : Z) (stage : json) : json :=
  match stage with
  | JObj kvs => JObj (obj_set "required" (JBool false) (obj_set "cardinality"
      (JObj [("mode", JStr "per_source"); ("max_units", JInt n)]) kvs))
  | other => other
  end.

Definition run_plan : json := sample_plan
  [sample_stage "publish" "internal" "artifact_store_publish" "publish" ["describe"; "list"]
     "idempotent" 3;
   per_source (sample_stage "describe" "executor" "describe_images" "map" ["list"] "pure" 3);
   sample_stage "list" "internal" "sealed_inventory" "inventory" [] "pure" 1] (JStr "strict").

Definition run_inventory : json := JObj sample_inventory.

Definition run_draft : Store := store_of (@create_draft demo_host "alice" "request-1"
  [] "normal" None (Some "workload-1") empty_store).

Definition run_admit (usage_complete : bool) : db RevisionRecord :=
  @admit_revision demo_host "alice" "workload-1" run_plan run_inventory true 1 None None
    false false usage_complete (Some "revision-1").

Definition run_admission : result store_error (RevisionRecord * Store) :=
  run_admit true run_draft.
Definition run_admitted : Store := store_of run_admission.

Definition run_queued : Store := store_of
  (@transition_workload demo_host "alice" "workload-1" QUEUED 2 None (Some T0) run_admitted).

Definition run_candidate (s : Store) : option Candidate :=
  match select_rows (units s) (fun _ u => bool_decide (u_state u = U_PENDING)) with
  | (k, u) :: _ => Some (mkCandidate k.1 "workload-1" (u_revision u) (u_stage u) None 0 0)
  | [] => None
  end.

Definition run_claim : db (option Lease) :=
  @claim_next demo_host run_candidate "worker-1" T0 (60 * second).
Definition run_leased : Store := store_of (run_claim run_queued).
Definition lease_or_none (claimed : option (option Lease)) : Lease :=
  match claimed with Some (Some l) => l | _ => no_lease end.
Definition run_lease : Lease := lease_or_none (value_of (run_claim run_queued)).
Definition run_running : Store :=
  store_of (@mark_running demo_host run_lease (Some (T0 + second)) run_leased).
Definition run_result : ValidatedResult :=
  match from_payload "metnos.out/1" [("entries", JArr [])] with
  | Ok v => v
  | Err _ => mkValidatedResult "" [] ""
  end.
Definition run_committed : Store := store_of
  (@commit_result demo_host run_lease run_result [] (Some (T0 + 2 * second)) run_running).

(** The same draft admitted without a claim about usage, then its usage facts
    refreshed. *)
Definition run_unclaimed_admission : result store_error (RevisionRecord * Store) :=
  run_admit false run_draft.
Definition run_unclaimed : Store := store_of run_unclaimed_admission.
Definition run_refreshed : Store :=
  store_of (@refresh_usage_complete demo_host "alice" "workload-1" run_unclaimed).

Definition run_key : key2 := ("alice", "revision-1").
Definition usage_flag (s : Store) : option bool :=
  r_usage_complete <$> revisions s !! run_key.

Definition record_key (r : result store_error (RevisionRecord * Store)) : option key2 :=
  (fun a => (rr_owner a, rr_revision a)) <$> value_of r.

(** The error of each step, in one evaluation. *)
Definition run_errors : list (option store_error) :=
  [error_of (@create_draft demo_host "alice" "request-1" [] "normal" None (Some "workload-1")
               empty_store);
   error_of run_admission;
   error_of (@transition_workload demo_host "alice" "workload-1" QUEUED 2 None (Some T0)
               run_admitted);
   error_of (run_claim run_queued);
   error_of (@mark_running demo_host run_lease (Some (T0 + second)) run_leased);
   error_of (@commit_result demo_host run_lease run_result [] (Some (T0 + 2 * second))
               run_running);
   error_of run_unclaimed_admission;
   error_of (@refresh_usage_complete demo_host "alice" "workload-1" run_unclaimed)].

(** The units of the committed store, with their states. *)
Definition run_outcome : list (string * UnitState * bool) :=
  map (fun ku => (ku.1.1, u_state ku.2, bool_decide (is_Some (u_result ku.2))))
    (map_to_list (units run_committed)).

Lemma run_succeeds :
  (run_errors, run_outcome, (usage_flag run_admitted, usage_flag run_refreshed),
   (record_key run_admission, record_key run_unclaimed_admission)) =
  (repeat None 8, [("alice", U_PENDING, false); ("alice", U_COMMITTED, true)],
   (Some true, Some true), (Some run_key, Some run_key)).
Proof. vm_compute. reflexivity. Qed.

Lemma committed_run {A} (r : result store_error (A * Store)) :
  error_of r = None -> exists a, r = Ok (a, store_of r).
Proof. destruct r as [[a s]|e]; [eauto | done]. Qed.

Lemma run_steps : Forall (fun e => e = None) run_errors.
Proof.
  assert (run_errors = repeat None 8) as -> by exact (f_equal (fun x => x.1.1.1) run_succeeds).
  repeat constructor.
Qed.

Lemma run_step i e : run_errors !! i = Some e -> e = None.
Proof. intros H. exact (Forall_lookup_1 _ _ _ _ run_steps H). Qed.

Lemma run_flags : usage_flag run_admitted = Some true /\ usage_flag run_refreshed = Some true.
Proof.
  split; [exact (f_equal (fun x => x.1.2.1) run_succeeds)
         | exact (f_equal (fun x => x.1.2.2) run_succeeds)].
Qed.

Lemma run_record_key usage a s :
  run_admit usage run_draft = Ok (a, s) -> (rr_owner a, rr_revision a) = run_key.
Proof.
  intros E. assert (record_key (run_admit usage run_draft) = Some run_key) as Hk.
  { destruct usage;
      [exact (f_equal (fun x => x.2.1) run_succeeds)
      | exact (f_equal (fun x => x.2.2) run_succeeds)]. }
  rewrite E in Hk. by apply (inj Some) in Hk.
Qed.

Lemma run_admits : exists a, run_admit true run_draft = Ok (a, run_admitted).
Proof. exact (committed_run _ (run_step 1 _ eq_refl)). Qed.

Lemma run_admits_unclaimed : exists a, run_admit false run_draft = Ok (a, run_unclaimed).
Proof. exact (committed_run _ (run_step 6 _ eq_refl)). Qed.

Lemma run_draft_is_new : map_to_list (revisions run_draft) = [].
Proof. vm_compute. reflexivity. Qed.

Lemma run_draft_reachable : reachable_from empty_store run_draft.
Proof.
  destruct (committed_run _ (run_step 0 _ eq_refl)) as [a H].
  apply rtc_once. exact (op_create _ _ _ _ _ _ _ _ _ _ H).
Qed.

Lemma run_refresh_step : op_step run_unclaimed run_refreshed.
Proof.
  destruct (committed_run _ (run_step 7 _ eq_refl)) as [a H]. exact (op_refresh _ _ _ _ _ _ H).
Qed.

Lemma run_reachable : reachable_from empty_store run_committed.
Proof.
  unfold reachable_from. etrans; [exact run_draft_reachable|]. destruct run_admits as [a2 H2].
  destruct (committed_run _ (run_step 2 _ eq_refl)) as [a3 H3].
  destruct (committed_run _ (run_step 3 _ eq_refl)) as [a4 H4].
  destruct (committed_run _ (run_step 4 _ eq_refl)) as [a5 H5].
  destruct (committed_run _ (run_step 5 _ eq_refl)) as [a6 H6].
  eapply rtc_l; [exact (op_admit _ _ _ _ _ _ _ _ _ _ _ _ _ _ _ _ H2)|].
  eapply rtc_l; [exact (op_transition _ _ _ _ _ _ _ _ _ _ H3)|].
  eapply rtc_l; [exact (op_claim _ _ _ _ _ _ _ _ H4)|].
  eapply rtc_l; [exact (op_mark _ _ _ _ _ _ H5)|].
  apply rtc_once. exact (op_commit _ _ _ _ _ _ _ _ H6).
Qed.

(** ** The run goes on

    A worker claims, starts and commits the second unit; then the last stage
    can be materialized. *)

Definition second_claim : result store_error (option Lease * Store) := run_claim run_committed.
Definition next_lease : Lease := lease_or_none (value_of second_claim).
Definition second_running : result store_error (LeaseMutationStatus * Store) :=
  @mark_running demo_host next_lease (Some (T0 + 3 * second)) (store_of second_claim).
Definition second_commit := @commit_result demo_host next_lease run_result []
  (Some (T0 + 4 * second)) (store_of second_running).
Definition run_settled : Store := store_of second_commit.

Definition run_batch : db (Z * Z) := @materialize_batch demo_host "alice" "workload-1" 10.
Definition run_materialized : Store := store_of (run_batch run_settled).

Definition run_sweep : Store * result store_error Z :=
  @materialize_all_ready_units demo_host 5 run_settled.
Definition run_swept : result store_error Z := run_sweep.2.

Definition run_units (s : Store) : list (UnitState * Z) :=
  map (fun ku => (u_state ku.2, u_expected_deps ku.2)) (map_to_list (units s)).

(** The new unit waits for a worker with the two results it consumes; a sweep
    of the store does the same. *)
Lemma run_materializes :
  (error_of second_claim, error_of second_running, error_of second_commit,
   value_of (run_batch run_settled), run_units run_materialized,
   map fst (map_to_list (unit_dependencies run_materialized)),
   run_swept) =
  (None, None, None, Some (1, 1), [(U_PENDING, 2); (U_COMMITTED, 0); (U_COMMITTED, 0)],
   [("alice", "revision-1", "unt_0123456789abcdefw", "res_0123456789abcdefs");
    ("alice", "revision-1", "unt_0123456789abcdefw", "res_0123456789abcdefu")], Ok 1).
Proof. vm_compute. reflexivity. Qed.

Lemma second_steps :
  error_of second_claim = None /\ error_of second_running = None /\ error_of second_commit = None.
Proof.
  split_and!; [exact (f_equal (fun x => x.1.1.1.1.1.1) run_materializes)
    | exact (f_equal (fun x => x.1.1.1.1.1.2) run_materializes)
    | exact (f_equal (fun x => x.1.1.1.1.2) run_materializes)].
Qed.

Lemma run_bindings : map fst (map_to_list (unit_dependencies run_materialized)) =
  [("alice", "revision-1", "unt_0123456789abcdefw", "res_0123456789abcdefs");
   ("alice", "revision-1", "unt_0123456789abcdefw", "res_0123456789abcdefu")].
Proof. exact (f_equal (fun x => x.1.2) run_materializes). Qed.

Lemma run_settled_reachable : reachable_from empty_store run_settled.
Proof.
  unfold reachable_from. etrans; [exact run_reachable|]. destruct second_steps as (E1 & E2 & E3).
  destruct (committed_run _ E1) as [a1 H1]. destruct (committed_run _ E2) as [a2 H2].
  destruct (committed_run _ E3) as [a3 H3].
  eapply rtc_l; [exact (op_claim _ _ _ _ _ _ _ _ H1)|].
  eapply rtc_l; [exact (op_mark _ _ _ _ _ _ H2)|].
  apply rtc_once. exact (op_commit _ _ _ _ _ _ _ _ H3).
Qed.

Lemma value_run {A} (r : result store_error (A * Store)) a :
  value_of r = Some a -> r = Ok (a, store_of r).
Proof. destruct r as [[b s]|e]; [|done]. by intros [= ->]. Qed.

Lemma run_batch_succeeds : run_batch run_settled = Ok (1, 1, run_materialized).
Proof. exact (value_run _ _ (f_equal (fun x => x.1.1.1.2) run_materializes)). Qed.

Lemma run_materialized_reachable : reachable_from empty_store run_materialized.
Proof.
  unfold reachable_from. etrans; [exact run_settled_reachable|]. apply rtc_once.
  exact (op_materialize _ _ _ _ _ _ _ run_batch_succeeds).
Qed.

Lemma run_sweeps : run_swept = Ok 1.
Proof. pose proof run_materializes as E. by apply pair_equal_spec in E as [_ E]. Qed.

(** ** A run of two owners with the store's own query

    Each owner drafts, admits and queues a workload; one worker claims twice. *)

Definition demo_caps : WorkerCapabilities := {|
  runner_bindings := [(R_EXECUTOR, "describe_images"); (R_INTERNAL, "sealed_inventory")];
  resource_limits := [("cpu", 1); ("device", 1); ("llm", 1); ("local_io", 1); ("network_io", 1);
                      ("vlm", 1)];
  effect_profiles := [PURE] |}.

(** The same stage without a model. *)
Definition without_model (stage : json) : json :=
  match stage with
  | JObj kvs => JObj (obj_set "resources" (JObj (map (fun k =>
      (k, JInt (if str_eqb k "llm" || str_eqb k "vlm" then 0 else 1))) RESOURCE_KEYS)) kvs)
  | other => other
  end.

Definition pair_plan : json := sample_plan
  [sample_stage "publish" "internal" "artifact_store_publish" "publish" ["describe"; "list"]
     "idempotent" 3;
   without_model
     (per_source (sample_stage "describe" "executor" "describe_images" "map" ["list"] "pure" 3));
   sample_stage "list" "internal" "sealed_inventory" "inventory" [] "pure" 1] (JStr "strict").

Definition pair_create (owner request workload : string) : db WorkloadRecord :=
  @create_draft demo_host owner request [] "normal" None (Some workload).
Definition pair_admit (owner workload revision : string) : db RevisionRecord :=
  @admit_revision demo_host owner workload pair_plan run_inventory true 1 None None
    false false true (Some revision).
Definition pair_queue (owner workload : string) : db WorkloadRecord :=
  @transition_workload demo_host owner workload QUEUED 2 None (Some T0).

Definition alice_draft : Store := store_of (pair_create "alice" "request-1" "workload-1" empty_store).
Definition alice_admitted : Store :=
  store_of (pair_admit "alice" "workload-1" "revision-1" alice_draft).
Definition alice_queued : Store := store_of (pair_queue "alice" "workload-1" alice_admitted).
Definition bob_draft : Store := store_of (pair_create "bob" "request-2" "workload-2" alice_queued).
Definition bob_admitted : Store := store_of (pair_admit "bob" "workload-2" "revision-2" bob_draft).
Definition pair_queued : Store := store_of (pair_queue "bob" "workload-2" bob_admitted).

Definition pair_claim : db (option Lease) :=
  @claim_ranked demo_host "worker-1" T0 (60 * second) demo_caps.
Definition pair_first : Store := store_of (pair_claim pair_queued).
Definition first_lease : Lease := lease_or_none (value_of (pair_claim pair_queued)).
Definition pair_second : Store := store_of (pair_claim pair_first).
Definition second_lease : Lease := lease_or_none (value_of (pair_claim pair_first)).
Definition promoted_first : Store := store_of (promote_due_retries T0 1000 pair_first).
Definition promoted_queued : Store := store_of (promote_due_retries T0 1000 pair_queued).

Definition pair_ranked (s : Store) : list Ranked := @ranked_workloads demo_host demo_caps T0 s.

Definition is_granted (r : result store_error (option Lease * Store)) : bool :=
  bool_decide (is_Some (value_of r ≫= id)).

(** The errors of the steps, and the last three are grants and a promotion. *)
Definition pair_errors : list (option store_error) :=
  [error_of (pair_create "alice" "request-1" "workload-1" empty_store);
   error_of (pair_admit "alice" "workload-1" "revision-1" alice_draft);
   error_of (pair_queue "alice" "workload-1" alice_admitted);
   error_of (pair_create "bob" "request-2" "workload-2" alice_queued);
   error_of (pair_admit "bob" "workload-2" "revision-2" bob_draft);
   error_of (pair_queue "bob" "workload-2" bob_admitted);
   error_of (pair_claim pair_queued); error_of (pair_claim pair_first);
   error_of (promote_due_retries T0 1000 pair_first);
   error_of (promote_due_retries T0 1000 pair_queued)].

(** Who is ranked, in order: at first both owners, and after the first claim
    the one that has not been served. *)
Definition ranked_owners (s : Store) : list (string * bool) :=
  map (fun c => (rk_owner c, over_reserved (ranked_limit c))) (pair_ranked s).

Lemma pair_run :
  (pair_errors, (is_granted (pair_claim pair_queued), is_granted (pair_claim pair_first)),
   (l_owner first_lease, l_owner second_lease),
   (ranked_owners promoted_queued, ranked_owners promoted_first),
   bool_decide (is_Some (credits pair_first !! (l_owner first_lease, l_workload first_lease))),
   (active_units pair_second "alice" "revision-1", active_units pair_second "bob" "revision-2"))
  = (repeat None 10, (true, true), ("alice", "bob"),
     ([("alice", false); ("bob", false)], [("bob", false); ("alice", false)]), true, (1, 1)).
Proof. vm_compute. reflexivity. Qed.

Lemma pair_no_errors i e : pair_errors !! i = Some e -> e = None.
Proof.
  assert (pair_errors = repeat None 10) as ->
    by exact (f_equal (fun x => x.1.1.1.1.1) pair_run).
  intros H. apply list_elem_of_lookup_2, list_elem_of_In, repeat_spec in H. done.
Qed.

Lemma granted_run (r : result store_error (option Lease * Store)) :
  error_of r = None -> is_granted r = true -> r = Ok (Some (lease_or_none (value_of r)), store_of r).
Proof. destruct r as [[[l|] s]|e]; [done | done | done]. Qed.

Lemma first_granted : pair_claim pair_queued = Ok (Some first_lease, pair_first).
Proof.
  apply granted_run; [exact (pair_no_errors 6 _ eq_refl)|].
  exact (f_equal (fun x => x.1.1.1.1.2.1) pair_run).
Qed.

Lemma second_granted : pair_claim pair_first = Ok (Some second_lease, pair_second).
Proof.
  apply granted_run; [exact (pair_no_errors 7 _ eq_refl)|].
  exact (f_equal (fun x => x.1.1.1.1.2.2) pair_run).
Qed.

(** The steps before the claims, whatever the queries. *)
Lemma pair_queued_steps Q : rtc (op_step_under Q) empty_store pair_queued.
Proof.
  destruct (committed_run _ (pair_no_errors 0 _ eq_refl)) as [a1 H1].
  destruct (committed_run _ (pair_no_errors 1 _ eq_refl)) as [a2 H2].
  destruct (committed_run _ (pair_no_errors 2 _ eq_refl)) as [a3 H3].
  destruct (committed_run _ (pair_no_errors 3 _ eq_refl)) as [a4 H4].
  destruct (committed_run _ (pair_no_errors 4 _ eq_refl)) as [a5 H5].
  destruct (committed_run _ (pair_no_errors 5 _ eq_refl)) as [a6 H6].
  eapply rtc_l; [exact (op_create _ _ _ _ _ _ _ _ _ _ H1)|].
  eapply rtc_l; [exact (op_admit _ _ _ _ _ _ _ _ _ _ _ _ _ _ _ _ H2)|].
  eapply rtc_l; [exact (op_transition _ _ _ _ _ _ _ _ _ _ H3)|].
  eapply rtc_l; [exact (op_create _ _ _ _ _ _ _ _ _ _ H4)|].
  eapply rtc_l; [exact (op_admit _ _ _ _ _ _ _ _ _ _ _ _ _ _ _ _ H5)|].
  apply rtc_once. exact (op_transition _ _ _ _ _ _ _ _ _ _ H6).
Qed.
