(* ===== verification/RevisionProperties.v ===== *)
(** * Properties of plan admission

    What every reachable store satisfies, what an admission writes, and what
    asking again for the same admission answers. *)
From Stdlib Require Import Strings.String.
From S2P Require Import Prelude.
From S2P Require Import PyJson.
From S2P Require Import DurableModels.
From S2P Require Import DurableRetry.
From S2P Require Import DurablePlans.
From S2P Require Import DurableInventory.
From S2P Require Import DurableTables.
From S2P Require Import DurableOutbox.
From S2P Require Import DurableWorkflow.
From S2P Require Import DurableLeases.
From S2P Require Import DurableCompletion.
From S2P Require Import DurableAdmission.
From S2P Require Import DurableReuse.
From S2P Require Import DurableSystem.
From S2P Require Import LeaseProtocol.
From S2P Require Import WorkloadProtocol.
From S2P Require Import DurableRefinement.
From S2P Require Import DurableAudit.
From S2P Require Import DurableFixture.
From S2P Require Import DurableCommands.
From S2P Require Import DurableLineage.
From S2P Require Import RevisionLayout.
From S2P Require Import RevisionInvariant.
From S2P Require Import WorkloadProperties.
From S2P Require Import DurablePlanSpec.
From S2P Require Import DurablePlanProperties.
From S2P Require Import RevisionFixture.
Local Open Scope Z_scope.

Record sound (s : Store) : Prop := {
  so_leases : core_inv (core s);
  so_log : log_consistent s;
  so_revisions : one_revision s }.

Lemma empty_sound : sound empty_store.
Proof.
  split; [|apply empty_log_consistent | apply empty_one_revision].
  split; intros *; simpl; by rewrite lookup_empty.
Qed.

(** C3: every store the operations can reach from the empty database is
    sound: units, attempts and results obey the lease protocol, the event log
    is a complete audit trail, and every revision is sealed, admitted and the
    one active revision of its workload. *)
Theorem reachable_stores_are_sound (s : Store) : reachable_from empty_store s -> sound s.
Proof.
  intros Hr. destruct empty_sound as [H1 H2 H3]. split.
  - eapply core_steps_inv; [by apply reachable_refines | done].
  - eapply log_steps_inv; [by apply reachable_audits | done].
  - by eapply reachable_one_revision.
Qed.

Lemma reachable_stores_are_sound_witness :
  sound run_committed
  /\ run_outcome = [("alice", U_PENDING, false); ("alice", U_COMMITTED, true)].
Proof.
  split; [exact (reachable_stores_are_sound run_committed run_reachable)|].
  exact (f_equal (fun x => x.1.1.2) run_succeeds).
Defined.

(** ** What a checked request promises *)

Record request_checked (plan inventory : json) (retain : bool) (ad : Admission) : Prop := {
  rq_plan : exists text, validate_plan plan = Ok text;
  rq_object : plan = JObj (ad_plan ad);
  rq_digest : plan_digest plan = Ok (ad_plan_digest ad);
  rq_inventory : exists sources,
    validate_inventory retain inventory = Ok (ad_inventory_json ad, sources) /\
    ad_sources ad = omap as_obj sources;
  rq_count : Z.of_nat (length (ad_sources ad))
             <= int_field "max_sources" (obj_field "inventory" (ad_plan ad));
  rq_bytes : sum_list (map (int_field "size_bytes") (ad_sources ad))
             <= int_field "max_total_bytes" (obj_field "inventory" (ad_plan ad));
  rq_caps : forall stage, stage ∈ plan_stages (ad_plan ad) -> stage_required stage = true ->
    stage_mode stage = "per_source" ->
    Z.of_nat (length (ad_sources ad)) <= stage_max_units stage }.

Lemma post_of_plan {A} (r : result plan_error A) s (Q : A -> Store -> Prop) :
  (forall a, r = Ok a -> Q a s) -> post (of_plan r) s Q.
Proof.
  intros HQ. apply post_lift_result. intros a E. apply HQ.
  destruct r as [b|[[]| | |]]; congruence.
Qed.

Lemma validated_object plan text : validate_plan plan = Ok text -> exists kvs, plan = JObj kvs.
Proof. unfold validate_plan. intros H. checked. by eexists. Qed.

Lemma request_is_checked p i t c y ct pa uc ad :
  request p i t c y ct pa uc ad -> request_checked p i t ad /\ ad_usage_complete ad = uc.
Proof.
  intros H. specialize (H empty_store). revert H. generalize empty_store at 2. revert ad.
  change (post (prepare_admission p i t c y ct pa uc) empty_store
    (fun ad _ => request_checked p i t ad /\ ad_usage_complete ad = uc)).
  unfold prepare_admission.
  apply post_bind, post_of_plan. intros text Hv. apply post_bind, post_of_plan. intros digest Hd.
  apply post_bind, post_of_plan. intros [text' sources] Hi. cbv zeta.
  unfold check_inventory. apply post_bind.
  apply post_bind, post_check. intros Hcount%Z.leb_le.
  apply post_bind, post_check. intros Hbytes%Z.leb_le.
  apply post_bind, post_check. intros _. apply post_check. intros Hcaps%negb_true_iff.
  destruct (default catalog_default c) as [| | | | |catalog]; try apply post_raise.
  destruct (default policy_default y) as [| | | | |policy]; try apply post_raise.
  do 6 (apply post_bind, post_total; intros ? ? _). apply post_ret. split; [|done].
  destruct (validated_object _ _ Hv) as [kvs ->]. simpl in *. split; simpl; try done; eauto.
  intros stage Hin Hreq Hmode. pose proof (existsb_false _ _ _ Hcaps Hin) as Hu.
  unfold undersized in Hu. rewrite Hreq, Hmode in Hu. by apply Z.ltb_ge in Hu.
Qed.

(** C8: an admission either answers an earlier revision of the workload with
    the same plan, inventory, snapshots and flags and changes nothing, or
    turns the draft it was asked for, at the version it was asked for, into an
    admitted workload.  Either way the plan and the inventory are valid, and
    within the limits the plan sets.  A new revision is written once under a
    fresh identifier, and the tables of stages, placements, dependencies,
    sources, units and materialization marks grow by exactly the rows that the
    plan and the inventory call for; no other table but the log and the outbox
    changes. *)
Theorem admission_writes_the_plan `{Host} (o w : string) (plan inventory : json) (retain : bool)
    (v : Z) (catalog policy : option json) (caps partial usage : bool) (rid : option string)
    (s s' : Store) (record : RevisionRecord) :
  admit_revision o w plan inventory retain v catalog policy caps partial usage rid s
    = Ok (record, s') ->
  exists ad, request_checked plan inventory retain ad /\
    ((exists k r, revisions s !! k = Some r /\ is_duplicate o w ad k r = true /\
        same_inputs r ad = true /\ record = row_to_revision k.1 k.2 r /\ same_but_ticks s s')
     \/ (exists rv now w0, w_version w0 = v /\ admission_effect o w rv ad now s s' w0 /\
        (forall k r, revisions s !! k = Some r -> is_duplicate o w ad k r = false) /\
        record = row_to_revision o rv (admitted_row w ad now (next_number o w s)))).
Proof.
  intros (ad & Hreq & Hcases)%post_admit. exists ad. split; [|exact Hcases].
  by eapply request_is_checked.
Qed.

(** The admission of the draft of two sources is a new one. *)
Lemma admission_writes_the_plan_witness :
  exists ad rv now w0, request_checked run_plan run_inventory true ad /\
    admission_effect "alice" "workload-1" rv ad now run_draft run_admitted w0.
Proof.
  destruct run_admits as [a Ha].
  destruct (@admission_writes_the_plan demo_host "alice" "workload-1" run_plan run_inventory true 1
    None None false false true (Some "revision-1") run_draft run_admitted a Ha)
    as (ad & Hreq & [(k & r & Hr & _)|(rv & now & w0 & _ & Heff & _)]).
  - exfalso. apply elem_of_map_to_list in Hr. rewrite run_draft_is_new in Hr.
    by apply elem_of_nil in Hr.
  - exists ad, rv, now, w0. split; [exact Hreq | exact Heff].
Defined.

(** ** Asking again *)

(** The stored row an admission answers with. *)
Lemma admission_stored `{Host} o w p i t v c y ct pa uc rid s record s' :
  admit_revision o w p i t v c y ct pa uc rid s = Ok (record, s') ->
  exists ad k r, request p i t c y ct pa uc ad /\ revisions s' !! k = Some r /\
    is_duplicate o w ad k r = true /\ same_inputs r ad = true /\
    record = row_to_revision k.1 k.2 r.
Proof.
  intros (ad & Hreq & [(k & r & Hr & Hd & Hs & -> & Ht)|H'])%post_admit.
  - exists ad, k, r. split_and!; try done. unfold same_but_ticks in Ht. destruct s, s'.
    injection Ht as -> ->. done.
  - destruct H' as (rv & now & w0 & _ & [] & _ & ->). exists ad, (o, rv). eexists.
    split_and!; [done | rewrite ae_revisions; by rewrite lookup_insert_eq | | | done].
    + by apply is_duplicate_true.
    + unfold same_inputs. simpl. by rewrite !str_eqb_refl, !eqb_reflx.
Qed.

(** A row is kept by every later operation. *)
Lemma op_step_keeps_revision s s' k r :
  op_step s s' -> revisions s !! k = Some r ->
  exists r', revisions s' !! k = Some r' /\ fixed r' = fixed r.
Proof.
  intros Hstep Hr.
  destruct (op_step_lineage _ _ Hstep) as [Hk|(h&o&w&p&i&t&v&c&y&ct&pa&uc&rid&a&Hrun)];
    [by eapply revision_keeps|].
  destruct (post_admit _ _ _ _ _ _ _ _ _ _ _ _ _ _ _ Hrun) as (ad & _ & [(x&rv&_&_&_&_&Hs)|H]).
  - by eapply revision_keeps; [apply same_but_ticks_keeps|].
  - destruct H as (rv & now & w0 & _ & [] & _ & _). exists r. rewrite ae_revisions.
    rewrite lookup_insert_ne; [done | congruence].
Qed.

Lemma reachable_keeps_revision s s' k r :
  reachable_from s s' -> revisions s !! k = Some r ->
  exists r', revisions s' !! k = Some r' /\ fixed r' = fixed r.
Proof.
  intros Hr. revert r. induction Hr as [s|s t u Hst _ IH]; intros r Hk; [by exists r|].
  destruct (op_step_keeps_revision _ _ _ _ Hst Hk) as (r1 & H1 & E1).
  destruct (IH _ H1) as (r2 & H2 & E2). exists r2. split; [done | congruence].
Qed.

(** What a first success says of the arguments alone. *)
Record accepted (o : string) (ad : Admission) (x : string) : Prop := {
  ac_owner : forall t, require_owner o t = Ok (tt, t);
  ac_id : id_re x = true;
  ac_tolerated : exists text, canonical_json
    (field "allowed_error_classes" (obj_field "error_policy" (ad_plan ad))) MAX_EVENT_JSON_BYTES
    = Ok text;
  ac_artifacts : exists text, canonical_json (field "required_artifacts" (ad_plan ad))
    MAX_EVENT_JSON_BYTES = Ok text }.

Lemma admission_accepts `{Host} o w p i t v c y ct pa uc x s record s' ad :
  request p i t c y ct pa uc ad ->
  admit_revision o w p i t v c y ct pa uc (Some x) s = Ok (record, s') -> accepted o ad x.
Proof.
  intros Hreq. revert record s'. change (post (admit_revision o w p i t v c y ct pa uc (Some x)) s
    (fun _ _ => accepted o ad x)). unfold admit_revision.
  apply post_bind, post_total. intros [] sa [_ Ho]%storeless_require_owner.
  apply post_bind, post_total. intros expected sb _.
  apply post_bind, post_total. intros ad' sc Hrun. rewrite Hreq in Hrun. injection Hrun as <- <-.
  unfold chosen_id. apply post_bind, post_bind, post_ret.
  destruct (id_re x) eqn:Hid; [|apply post_raise]. apply post_ret.
  apply post_bind, post_of_schema. intros t1 E1. apply post_bind, post_of_schema. intros t2 E2.
  intros record s' _. split; eauto.
Qed.

(** With accepted arguments an admission starts by looking for its revision. *)
Lemma admission_prologue `{Host} o w p i t v c y ct pa uc x s ad w0 :
  request p i t c y ct pa uc ad -> accepted o ad x -> 1 <= v ->
  workloads s !! (o, w) = Some w0 ->
  admit_revision o w p i t v c y ct pa uc (Some x) s =
    match head (select_rows (revisions s) (is_duplicate o w ad)) with
    | Some (k, r) =>
        (check (same_inputs r ad) IdempotencyConflictError ;;
         mret (row_to_revision k.1 k.2 r))
    | None => insert_revision o w x ad (host_clock (ticks s)) v w0
    end (set_field ticks S s).
Proof.
  intros Hreq [Ho Hid [t1 E1] [t2 E2]] Hv Hw.
  unfold admit_revision, chosen_id, select_workload, find_duplicate, utc_now, gets, of_option,
    mbind, txn_bind, mret, txn_ret.
  rewrite Ho, (require_version_positive v s Hv), Hreq, Hid, E1, E2. simpl. rewrite Hw.
  change (fun k r => _) with (is_duplicate o w ad).
  by destruct (head _) as [[k r]|].
Qed.

Lemma duplicate_found s o w ad k r :
  one_revision s -> revisions s !! k = Some r -> is_duplicate o w ad k r = true ->
  head (select_rows (revisions s) (is_duplicate o w ad)) = Some (k, r).
Proof.
  intros Hi Hr Hd.
  assert ((k, r) ∈ select_rows (revisions s) (is_duplicate o w ad)) as Hin
    by (by apply elem_of_select_rows).
  destruct (select_rows _ _) as [|[k' r'] l] eqn:E; [by apply elem_of_nil in Hin|]. simpl.
  assert ((k', r') ∈ select_rows (revisions s) (is_duplicate o w ad)) as Hin'
    by (rewrite E; left).
  apply elem_of_select_rows in Hin' as [Hr' (Ho' & Hw' & _)%is_duplicate_true].
  apply is_duplicate_true in Hd as (Ho & Hw & _).
  assert (k = k') as <- by (apply (one_revision_unique s k k' r r'); congruence). congruence.
Qed.

(** C25: an admission is idempotent.  After a first success, in every store
    later operations can reach, the same request, at any version and under any
    host, finds its revision and answers the same record, writing nothing; but
    the completion flag it carries is compared with the column that
    [refresh_usage_complete] and the accounting of usage rewrite meanwhile,
    and when that column has moved the same request is refused as an
    idempotency conflict. *)
Theorem admission_is_idempotent (h : Host) (o w : string) (plan inventory : json) (retain : bool)
    (v : Z) (catalog policy : option json) (caps partial usage : bool) (x : string)
    (s s1 s2 : Store) (record : RevisionRecord) :
  one_revision s -> reachable_from s1 s2 ->
  @admit_revision h o w plan inventory retain v catalog policy caps partial usage (Some x) s
    = Ok (record, s1) ->
  exists r, revisions s2 !! (rr_owner record, rr_revision record) = Some r /\
  forall (h' : Host) (v' : Z), 1 <= v' ->
    let again := @admit_revision h' o w plan inventory retain v' catalog policy caps partial usage
                   (Some x) s2 in
    if Bool.eqb (r_usage_complete r) usage
    then exists s3, again = Ok (record, s3) /\ same_but_ticks s2 s3
    else again = Err IdempotencyConflictError.
Proof.
  intros Hi Hreach Hrun.
  pose proof (reachable_one_revision _ _ Hreach
    (op_step_one_revision _ _ (op_admit _ _ _ _ _ _ _ _ _ _ _ _ _ _ _ _ Hrun) Hi)) as Hi2.
  destruct (admission_stored _ _ _ _ _ _ _ _ _ _ _ _ _ _ _ Hrun)
    as (ad & k & r1 & Hreq & Hr1 & Hd & Hs & ->).
  pose proof (admission_accepts _ _ _ _ _ _ _ _ _ _ _ _ _ _ _ ad Hreq Hrun) as Hacc.
  destruct (reachable_keeps_revision _ _ _ _ Hreach Hr1) as (r & Hr & E).
  exists r. split; [by destruct k|]. intros h' v' Hv'. cbv zeta.
  assert (is_duplicate o w ad k r = true) as Hdup.
  { rewrite <- Hd. unfold is_duplicate.
    by rewrite (f_equal r_workload E : r_workload r = r_workload r1),
      (f_equal r_plan_digest E : r_plan_digest r = r_plan_digest r1),
      (f_equal r_inventory_digest E : r_inventory_digest r = r_inventory_digest r1). }
  assert (same_inputs r ad = Bool.eqb (r_usage_complete r) usage) as Hsame.
  { rewrite <- (proj2 (request_is_checked _ _ _ _ _ _ _ _ _ Hreq)). revert Hs. unfold same_inputs.
    rewrite (f_equal r_catalog E : r_catalog r = r_catalog r1),
      (f_equal r_policy E : r_policy r = r_policy r1),
      (f_equal r_caps_truncated E : r_caps_truncated r = r_caps_truncated r1),
      (f_equal r_partial_accepted E : r_partial_accepted r = r_partial_accepted r1).
    intros [-> _]%andb_true_iff. done. }
  destruct (or_active _ Hi2 k r Hr) as (w2 & Hw2 & _).
  apply is_duplicate_true in Hdup as Hdup'. destruct Hdup' as (Ho & Hwl & _).
  rewrite Ho, Hwl in Hw2.
  rewrite (admission_prologue o w _ _ _ v' _ _ _ _ _ x s2 ad w2 Hreq Hacc Hv' Hw2).
  rewrite (duplicate_found s2 o w ad k r Hi2 Hr Hdup). unfold mbind, txn_bind, check.
  rewrite Hsame. destruct (Bool.eqb _ _); [|done]. exists (set_field ticks S s2). split; [|reflexivity].
  unfold mret, txn_ret. unfold row_to_revision.
  by rewrite (f_equal r_workload E : r_workload r = r_workload r1),
    (f_equal r_number E : r_number r = r_number r1),
    (f_equal r_plan_digest E : r_plan_digest r = r_plan_digest r1),
    (f_equal r_inventory_digest E : r_inventory_digest r = r_inventory_digest r1),
    (f_equal r_sealed E : r_sealed r = r_sealed r1),
    (f_equal r_expected_sources E : r_expected_sources r = r_expected_sources r1),
    (f_equal r_admitted E : r_admitted r = r_admitted r1).
Qed.

(** The retry of an admission that claimed complete usage is answered; the
    retry of one that did not is refused once the facts were refreshed. *)
Lemma admission_is_idempotent_witness :
  (exists a s3, run_admit true run_draft = Ok (a, run_admitted) /\
                run_admit true run_admitted = Ok (a, s3)) /\
  run_admit false run_refreshed = Err IdempotencyConflictError.
Proof.
  assert (one_revision run_draft) as Hi
    by (eapply reachable_one_revision; [exact run_draft_reachable | exact empty_one_revision]).
  destruct run_flags as [Hf1 Hf2]. split.
  - destruct run_admits as [a Ha].
    destruct (admission_is_idempotent demo_host "alice" "workload-1" run_plan run_inventory true 1
      None None false false true "revision-1" run_draft run_admitted run_admitted a Hi
      (rtc_refl _ _) Ha) as (r & Hr & Hagain).
    rewrite (run_record_key _ _ _ Ha) in Hr. unfold usage_flag in Hf1. rewrite Hr in Hf1.
    apply (inj Some) in Hf1. specialize (Hagain demo_host 1 ltac:(lia)). cbv zeta in Hagain.
    rewrite Hf1 in Hagain. destruct Hagain as (s3 & H3 & _). exists a, s3. split; [exact Ha | exact H3].
  - destruct run_admits_unclaimed as [a Ha].
    destruct (admission_is_idempotent demo_host "alice" "workload-1" run_plan run_inventory true 1
      None None false false false "revision-1" run_draft run_unclaimed run_refreshed a Hi
      (rtc_once _ _ run_refresh_step) Ha) as (r & Hr & Hagain).
    rewrite (run_record_key _ _ _ Ha) in Hr. unfold usage_flag in Hf2. rewrite Hr in Hf2.
    apply (inj Some) in Hf2. specialize (Hagain demo_host 1 ltac:(lia)). cbv zeta in Hagain.
    rewrite Hf2 in Hagain. exact Hagain.
Defined.

(** ** A cap that is not applied *)

(** The same plan with the stage of the sources optional and capped at one unit. *)
Definition capped_plan : json := sample_plan
  [sample_stage "publish" "internal" "artifact_store_publish" "publish" ["describe"; "list"]
     "idempotent" 3;
   optional_per_source 1
     (sample_stage "describe" "executor" "describe_images" "map" ["list"] "pure" 3);
   sample_stage "list" "internal" "sealed_inventory" "inventory" [] "pure" 1] (JStr "strict").

Definition capped_admitted : Store := store_of
  (@admit_revision demo_host "alice" "workload-1" capped_plan run_inventory true 1 None None
     false false true (Some "revision-1") run_draft).

(** The stages that have more units than they may, with both numbers. *)
Definition over_cap (s : Store) : list (string * Z * Z) :=
  omap (fun kv : key2 * Stage =>
    let n := count_rows (units s) (fun _ u => str_eqb (u_stage u) kv.1.2) in
    if s_max_units kv.2 <? n then Some (s_key kv.2, s_max_units kv.2, n) else None)
    (map_to_list (stages s)).

(** Only a required stage is held against its cap: an optional stage gets one
    unit for each source all the same. *)
Lemma optional_stage_exceeds_its_cap : over_cap capped_admitted = [("describe", 1, 2)].
Proof. vm_compute. reflexivity. Qed.

(** ** Accounted revisions

    Every revision of a reachable store has a usage row, and the budgets of
    its plan are numbers: what the queries of budgets rely on. *)

Definition budget_names : list string :=
  ["max_bytes_read"; "max_bytes_written"; "max_tokens"; "max_cost_micros"; "max_artifacts";
   "max_wall_time_s"].

Definition budgets_readable (r : Revision) : Prop :=
  forall name, name ∈ budget_names -> is_Some (budget_column r name).

Definition accounted (s : Store) : Prop :=
  forall k r, revisions s !! k = Some r -> is_Some (usages s !! k) /\ budgets_readable r.

(** ** A valid plan has every budget *)

Lemma field_int k kvs z : field k kvs = JInt z -> obj_get k kvs = Some (JInt z).
Proof. unfold field. destruct (obj_get k kvs); simpl; [by intros -> | done]. Qed.

Lemma validated_budgets v budgets : validate_budgets v = Ok budgets ->
  v = JObj budgets /\ forall name, name ∈ budget_names -> is_Some (as_int (obj_get name budgets)).
Proof.
  unfold validate_budgets. intros H. checked. split; [done|].
  match goal with H : mapM _ _ = Ok _ |- _ => apply mapM_ok in H; rename H into HM end.
  assert (forall name, name ∈ ["max_bytes_read"; "max_bytes_written"; "max_tokens";
    "max_cost_micros"] -> exists z, field name budgets = JInt z) as Hfour.
  { intros name Hin. apply list_elem_of_lookup in Hin as (i & Hi).
    destruct (Forall2_lookup_l _ _ _ _ _ HM Hi) as (y & _ & Hy).
    apply integer_ok in Hy as (z & ? & ?). eauto. }
  intros name Hin.
  assert (exists z, field name budgets = JInt z) as [z ->%field_int]; [|by eexists].
  unfold budget_names in Hin. rewrite !elem_of_cons in Hin.
  destruct Hin as [-> | [-> | [-> | [-> | [-> | [-> | []%not_elem_of_nil]]]]]];
    solve [eauto | apply Hfour; set_solver].
Qed.

Lemma plan_budgets plan text : validate_plan (JObj plan) = Ok text ->
  exists budgets, obj_get "budgets" plan = Some (JObj budgets) /\
    forall name, name ∈ budget_names -> is_Some (as_int (obj_get name budgets)).
Proof.
  unfold validate_plan. intros H. checked.
  match goal with E : validate_budgets _ = Ok ?b |- _ =>
    apply validated_budgets in E as [Hf Hb]; exists b end.
  split; [|done]. match goal with E : JObj plan = JObj _ |- _ => injection E as -> end.
  unfold field in Hf. destruct (obj_get "budgets" _); simpl in Hf; congruence.
Qed.

Lemma admitted_readable p i t c y ct pa uc ad w now n :
  request p i t c y ct pa uc ad -> budgets_readable (admitted_row w ad now n).
Proof.
  intros [[[text Hv] -> _ _ _ _ _] _]%request_is_checked name Hin.
  destruct (plan_budgets _ _ Hv) as (budgets & Hb & Hn). unfold budget_column. simpl.
  rewrite Hb. auto.
Qed.

(** ** The invariant *)

Lemma empty_accounted : accounted empty_store.
Proof. intros k r Hr. simpl in Hr. by rewrite lookup_empty in Hr. Qed.

Lemma keeps_accounted s s' : keeps_lineage s s' -> accounted s -> accounted s'.
Proof.
  intros Hk Hi k r' Hr'. destruct (revision_kept _ _ _ _ Hk Hr') as (r & Hr & E).
  destruct (Hi k r Hr) as [Hu Hb]. split.
  - apply elem_of_dom. rewrite (kl_usages _ _ Hk). by apply elem_of_dom.
  - intros name Hin. unfold budget_column.
    rewrite (f_equal r_plan E : r_plan r' = r_plan r). by apply Hb.
Qed.

Lemma op_step_accounted s s' : op_step s s' -> accounted s -> accounted s'.
Proof.
  intros Hstep Hi.
  destruct (op_step_lineage _ _ Hstep) as [Hk|(h&o&w&p&i&t&v&c&y&ct&pa&uc&r&a&Hrun)];
    [by eapply keeps_accounted|].
  destruct (post_admit _ _ _ _ _ _ _ _ _ _ _ _ _ _ _ Hrun) as (ad & Hreq & [(k&rv&_&_&_&_&Hs)|H]).
  - by eapply keeps_accounted; [apply same_but_ticks_keeps|].
  - destruct H as (rv & now & w0 & _ & [_ _ _ Er _ Eu _ _] & _).
    intros k r0. rewrite Er, Eu. intros [[<- <-]|[Hne Hr]]%lookup_insert_Some.
    + rewrite lookup_insert_eq. split; [by eexists | by eapply admitted_readable].
    + rewrite lookup_insert_ne by done. by apply Hi.
Qed.

Lemma reachable_accounted s : reachable_from empty_store s -> accounted s.
Proof.
  intros Hr. cut (accounted empty_store); [|exact empty_accounted].
  revert Hr. induction 1; eauto using op_step_accounted.
Qed.
