(* ===== verification/RankingGuarantees.v ===== *)
(** * What the ranking of claims guarantees

    The lemmas of RankingProperties.v: the order of the candidates, the unit
    behind a candidate, the attempts and the credits a claim writes, and that
    no other operation opens an attempt or raises a credit. *)
From Stdlib Require Import Strings.String.
From S2P Require Import Prelude.
From S2P Require Import PyJson.
From S2P Require Import PyStrings.
From S2P Require Import DurableModels.
From S2P Require Import DurableRetry.
From S2P Require Import DurableResults.
From S2P Require Import DurableTables.
From S2P Require Import DurableOutbox.
From S2P Require Import DurableWorkflow.
From S2P Require Import DurableLeases.
From S2P Require Import DurableAdmission.
From S2P Require Import DurableMaterialize.
From S2P Require Import DurableReuse.
From S2P Require Import DurableFacts.
From S2P Require Import DurableRanking.
From S2P Require Import DurableSystem.
From S2P Require Import DurableFrames.
From S2P Require Import LeaseProtocol.
From S2P Require Import DurableRefinement.
From S2P Require Import ClaimGuarantees.
From S2P Require Import CompletionGuarantees.
From S2P Require Import FrozenFacts.
From S2P Require Import RevisionLayout.
From S2P Require Import RevisionInvariant.
From S2P Require Import ReuseGuarantees.
Local Open Scope Z_scope.

(** ** Lexicographic orders *)

Record linear {A} (leb : A -> A -> bool) : Prop := {
  lin_total : forall a b, leb a b = true \/ leb b a = true;
  lin_trans : forall a b c, leb a b = true -> leb b c = true -> leb a c = true }.

Lemma linear_text {A} (f : A -> string) : linear (fun a b => str_leb (f a) (f b)).
Proof. split; [intros; apply str_leb_total | intros *; apply str_leb_trans]. Qed.

Lemma linear_number {A} (f : A -> Z) leb :
  linear leb -> linear (fun a b => then_by (f a ?= f b) (leb a b)).
Proof.
  intros [Ht Hr]. split.
  - intros a b. rewrite (Z.compare_antisym (f a) (f b)). destruct (f a ?= f b); simpl; auto.
  - intros a b c. destruct (Z.compare_spec (f a) (f b)), (Z.compare_spec (f b) (f c)),
      (Z.compare_spec (f a) (f c)); simpl; try done; try lia. by apply Hr.
Qed.

Lemma compare_str_spec a b :
  (compare_str a b = Eq /\ a = b) \/ (compare_str a b = Lt /\ a <> b /\ str_leb a b = true)
  \/ (compare_str a b = Gt /\ a <> b /\ str_leb a b = false).
Proof.
  unfold compare_str. destruct (str_eqb a b) eqn:E; [apply str_eqb_true in E; auto|].
  assert (a <> b) by (intros ->; by rewrite str_eqb_refl in E).
  destruct (str_leb a b); auto.
Qed.

Lemma linear_name {A} (f : A -> string) leb :
  linear leb -> linear (fun a b => then_by (compare_str (f a) (f b)) (leb a b)).
Proof.
  intros [Ht Hr]. split.
  - intros a b. destruct (compare_str_spec (f a) (f b)) as [[-> E]|[(-> & _)|(-> & Hn & Hl)]];
      [|by left|].
    + destruct (compare_str_spec (f b) (f a)) as [[-> _]|[(-> & _)|(_ & Hn & _)]];
        simpl; auto; by destruct Hn.
    + right. destruct (str_leb_total (f a) (f b)) as [?|Hb]; [congruence|].
      destruct (compare_str_spec (f b) (f a)) as [[_ ?]|[(-> & _)|(_ & _ & ?)]];
        [by destruct Hn | done | congruence].
  - intros a b c.
    destruct (compare_str_spec (f a) (f b)) as [[-> E]|[(-> & Hn & Hl)|(-> & _)]];
      [| |done];
    destruct (compare_str_spec (f b) (f c)) as [[-> E']|[(-> & Hn' & Hl')|(-> & _)]]; try done;
    destruct (compare_str_spec (f a) (f c)) as [[-> E'']|[(-> & _)|(-> & Hn'' & Hl'')]];
      try done; try congruence; simpl.
    + by apply Hr.
    + exfalso. apply Hn, str_leb_antisym; [done|]. by rewrite E''.
    + exfalso. by rewrite (str_leb_trans _ _ _ Hl Hl') in Hl''.
Qed.

Lemma head_of_order {A} (leb : A -> A -> bool) l x :
  linear leb -> head (order_by leb l) = Some x ->
  x ∈ l /\ forall y, y ∈ l -> leb x y = true.
Proof.
  intros [Ht Hr] Hx. split; [by apply (elem_of_order_by leb), head_Some_elem_of|].
  intros y Hy. apply (elem_of_order_by leb) in Hy.
  assert (StronglySorted (order_of leb) (order_by leb l)) as Hs.
  { unfold order_by. apply StronglySorted_merge_sort.
    - intros a b c. apply Hr.
    - intros a b. apply Ht. }
  destruct (order_by leb l) as [|z rest]; [done|]. injection Hx as ->.
  apply StronglySorted_inv in Hs as [_ Hall].
  apply elem_of_cons in Hy as [->|Hy]; [by destruct (Ht x x)|].
  by apply (proj1 (List.Forall_forall _ _) Hall), list_elem_of_In.
Qed.

Lemma by_rank_linear : linear by_rank.
Proof.
  apply (linear_number (fun c => Z.b2z (over_reserved (ranked_limit c)))).
  apply (linear_number rk_owner_seq), (linear_number rk_seq).
  apply (linear_number (fun c => priority_rank (w_priority (rk_workload c)))).
  apply (linear_number (fun c => w_created (rk_workload c))).
  apply (linear_name rk_owner), linear_text.
Qed.

(** ** The unit behind a candidate *)

Record ranked_row `{Host} (caps : WorkerCapabilities) (now : Z) (s : Store) (c : Ranked) : Prop := {
  rr_workload : workloads s !! (rk_owner c, rk_workload_id c) = Some (rk_workload c);
  rr_active : w_active_revision (rk_workload c) = Some (rk_revision_id c);
  rr_revision_row : revisions s !! (rk_owner c, rk_revision_id c) = Some (rk_revision c);
  rr_usage : usages s !! (rk_owner c, rk_revision_id c) = Some (rk_usage c);
  rr_executing : w_state (rk_workload c) ∈ [QUEUED; RUNNING];
  rr_budgets : within_budgets (rk_revision c) (rk_usage c) now = true;
  rr_room : has_room s (rk_owner c) (rk_revision_id c) (rk_revision c) = true;
  rr_stage : stages s !! (rk_owner c, rk_stage_id c) = Some (rk_stage c);
  rr_stage_revision : s_revision (rk_stage c) = rk_revision_id c;
  rr_ready : ready_stage caps s (rk_revision c) (rk_usage c)
    (model_reservations s (rk_owner c) (rk_revision_id c) (rk_revision c)) now
    (rk_owner c, rk_stage_id c) (rk_stage c) = true;
  rr_owner_seq : rk_owner_seq c = owner_seq s (rk_owner c) }.

Section Ranking.
Context `{Host}.

Lemma ranked_row_of caps now s c : c ∈ ranked_workloads caps now s -> ranked_row caps now s c.
Proof.
  unfold ranked_workloads. rewrite elem_of_order_by, list_elem_of_omap.
  intros ([k w] & Hw%elem_of_map_to_list & E). unfold ranked_of in E. simpl in E.
  apply bind_Some in E as (rv & Hrv & E). apply bind_Some in E as (r & Hr & E).
  apply bind_Some in E as (us & Hus & E).
  destruct (_ && _) eqn:Hc in E; [|done]. apply bind_Some in E as ([sk st] & Hbest & E).
  injection E as <-. rewrite !andb_true_iff, bool_decide_eq_true in Hc.
  destruct Hc as [[Hex Hbud] Hroom]. unfold best_stage in Hbest.
  apply head_Some_elem_of in Hbest. rewrite elem_of_order_by in Hbest.
  apply elem_of_select_rows in Hbest as [Hst Hok]. rewrite !andb_true_iff, !str_eqb_true in Hok.
  destruct Hok as [[Ho Hrev] Hready]. destruct k as [o w0], sk as [so sid]. simpl in *. subst so.
  by split.
Qed.


Lemma ranked_first caps now s c :
  head (ranked_workloads caps now s) = Some c ->
  forall c', c' ∈ ranked_workloads caps now s -> by_rank c c' = true.
Proof.
  intros [_ Hmin]%(head_of_order _ _ _ by_rank_linear) c' Hc'. apply Hmin.
  unfold ranked_workloads in Hc'. by rewrite elem_of_order_by in Hc'.
Qed.

Lemma promoted_one_revision s s1 : promotes s s1 -> one_revision s -> one_revision s1.
Proof.
  intros [_ _ P3 P4 _] [I1 I2 I3].
  split; intros *; rewrite ?P3, ?P4; [apply I1 | apply I2 | apply I3].
Qed.

(** A ready stage has a unit that can be claimed. *)
Lemma ready_unit_inv s o sid st r now :
  ready_unit s (o, sid) st r now = true ->
  exists k u, units s !! k = Some u /\ k.1 = o /\ u_revision u = s_revision st /\
    u_stage u = sid /\ claimable s k u st r now = true.
Proof.
  unfold ready_unit, exists_row. destruct (select_rows _ _) as [|[k u] l] eqn:E; [done|].
  intros _. assert ((k, u) ∈ (k, u) :: l) as Hin by left. rewrite <- E in Hin.
  apply elem_of_select_rows in Hin as [Hu Hp]. rewrite !andb_true_iff, !str_eqb_true in Hp.
  exists k, u. by destruct Hp as [[[-> ->] ->] ->].
Qed.

(** The row a candidate leads to is the one it was ranked by. *)
Record found (c : Ranked) (s : Store) (now : Z) (row : ClaimRow) : Prop := {
  fo_selected : selected s now row;
  fo_owner : cr_owner row = rk_owner c;
  fo_revision_id : u_revision (cr_unit row) = rk_revision_id c;
  fo_stage_id : u_stage (cr_unit row) = rk_stage_id c;
  fo_revision : cr_revision row = rk_revision c;
  fo_workload_id : r_workload (cr_revision row) = rk_workload_id c;
  fo_workload : cr_workload row = rk_workload c;
  fo_stage : cr_stage row = rk_stage c }.

Lemma claim_row_found caps now s c k u row :
  one_revision s -> ranked_row caps now s c -> units s !! k = Some u ->
  claim_row_of s (candidate_of c) now k u = Some row -> found c s now row.
Proof.
  intros Hi Hc Hu Hrow. pose proof (claim_row_selected _ _ _ _ _ _ Hu Hrow) as Hsel.
  unfold claim_row_of in Hrow. apply bind_Some in Hrow as (r & Hr & E).
  apply bind_Some in E as (w & Hw & E). apply bind_Some in E as (st & Hst & E).
  case_match eqn:Hok; [|done]. injection E as <-. rewrite !andb_true_iff, !str_eqb_true in Hok.
  destruct Hok as [[[[Ho Hrv] Hsid] _] _]. simpl in *.
  destruct Hc as [C1 C2 C3 _ _ _ _ C8 _ _ _].
  destruct (or_row _ Hi _ _ _ C1 C2) as (r' & Hr' & Hwl). simpl in *.
  assert (r = rk_revision c) as -> by (rewrite Ho, Hrv in Hr; congruence).
  assert (rk_revision c = r') as <- by congruence.
  unfold stage_of in Hst. apply bind_Some in Hst as (st' & Hst' & E). case_match; [|done].
  injection E as <-. rewrite Ho, Hsid, C8 in Hst'. injection Hst' as <-.
  rewrite Ho, Hwl, C1 in Hw. injection Hw as <-. by split.
Qed.

Lemma claim_row_exists caps now s c :
  one_revision s -> ranked_row caps now s c ->
  exists row, select_claim_row (candidate_of c) now s = Ok (Some row, s) /\ found c s now row.
Proof.
  intros Hi Hc. pose proof Hc as [C1 C2 C3 _ _ _ _ C8 C9 C10 _].
  unfold ready_stage in C10. rewrite !andb_true_iff in C10. destruct C10 as [[Hready _] _].
  apply ready_unit_inv in Hready as (k & u & Hu & Ho & Hrv & Hsid & Hcl).
  destruct (or_row _ Hi _ _ _ C1 C2) as (r' & Hr' & Hwl). simpl in *.
  assert (rk_revision c = r') as <- by congruence.
  assert (exists row, claim_row_of s (candidate_of c) now k u = Some row) as [row0 Hrow0].
  { unfold claim_row_of. rewrite Ho, Hrv, C9, C3. simpl. rewrite Hwl, C1. simpl.
    unfold stage_of. rewrite Hsid, C8. simpl. rewrite C9, Hrv, C9, !str_eqb_refl. simpl.
    rewrite C2, Hcl. simpl. rewrite str_eqb_refl. simpl. eauto. }
  unfold select_claim_row, gets.
  assert (exists row, head (order_by by_readiness (omap
    (fun ku => claim_row_of s (candidate_of c) now ku.1 ku.2) (map_to_list (units s)))) = Some row)
    as [row Hrow].
  { destruct (order_by _ _) as [|x l] eqn:E; [|by eexists].
    assert (row0 ∈ []) as []%elem_of_nil. rewrite <- E. apply elem_of_order_by, list_elem_of_omap.
    exists (k, u). split; [by apply elem_of_map_to_list | done]. }
  exists row. rewrite Hrow. split; [done|]. apply head_Some_elem_of in Hrow.
  rewrite elem_of_order_by, list_elem_of_omap in Hrow.
  destruct Hrow as ([k1 u1] & Hk%elem_of_map_to_list & Hrow).
  by eapply claim_row_found.
Qed.
End Ranking.

(** ** What a claim writes *)

(** The credit of [k] becomes the latest; the others stay. *)
Definition takes_turn (s s' : Store) (k : key2) : Prop :=
  exists c, credits s' !! k = Some c /\ 0 < c_last_selected_seq c /\
    forall k' c', k' <> k -> credits s' !! k' = Some c' ->
      credits s !! k' = Some c' /\ c_last_selected_seq c' < c_last_selected_seq c.

Definition keeps_credits (s s' : Store) : Prop := credits s' ⊆ credits s.

#[export] Instance keeps_credits_preorder : PreOrder keeps_credits.
Proof. split; unfold keeps_credits; [intros s; done | intros s t u H1 H2; by etrans]. Qed.

Ltac ignores_credits := intros s f; unfold keeps_credits; done.
#[export] Instance credits_ignore_ticks : Ignores keeps_credits ticks. Proof. ignores_credits. Qed.
#[export] Instance credits_ignore_workloads : Ignores keeps_credits workloads.
Proof. ignores_credits. Qed.
#[export] Instance credits_ignore_events : Ignores keeps_credits events.
Proof. ignores_credits. Qed.
#[export] Instance credits_ignore_outbox : Ignores keeps_credits outbox.
Proof. ignores_credits. Qed.
#[export] Instance credits_ignore_usages : Ignores keeps_credits usages.
Proof. ignores_credits. Qed.
#[export] Instance credits_ignore_revisions : Ignores keeps_credits revisions.
Proof. ignores_credits. Qed.
#[export] Instance credits_ignore_commands : Ignores keeps_credits commands.
Proof. ignores_credits. Qed.
#[export] Instance credits_ignore_resolutions : Ignores keeps_credits resolutions.
Proof. ignores_credits. Qed.
#[export] Instance credits_ignore_dependencies : Ignores keeps_credits dependencies.
Proof. ignores_credits. Qed.
#[export] Instance credits_ignore_units : Ignores keeps_credits units. Proof. ignores_credits. Qed.
#[export] Instance credits_ignore_attempts : Ignores keeps_credits attempts.
Proof. ignores_credits. Qed.
#[export] Instance credits_ignore_results : Ignores keeps_credits results.
Proof. ignores_credits. Qed.
#[export] Instance credits_ignore_stages : Ignores keeps_credits stages.
Proof. ignores_credits. Qed.
#[export] Instance credits_ignore_placements : Ignores keeps_credits placements.
Proof. ignores_credits. Qed.
#[export] Instance credits_ignore_sources : Ignores keeps_credits sources.
Proof. ignores_credits. Qed.
#[export] Instance credits_ignore_stage_dependencies : Ignores keeps_credits stage_dependencies.
Proof. ignores_credits. Qed.
#[export] Instance credits_ignore_unit_dependencies : Ignores keeps_credits unit_dependencies.
Proof. ignores_credits. Qed.
#[export] Instance credits_ignore_materializations : Ignores keeps_credits materializations.
Proof. ignores_credits. Qed.
Lemma credits_delete s k : keeps_credits s (set_field credits (delete k) s).
Proof. apply delete_subseteq. Qed.
#[export] Hint Extern 2 (guar keeps_credits (delete_at credits _ _)) =>
  apply guar_delete_at; [typeclasses eauto | intros; apply credits_delete] : guar.

Lemma max_of_list l x : x ∈ l -> x <= fold_right Z.max 0 l.
Proof.
  induction l as [|y l IH]; simpl; [by intros ?%elem_of_nil|].
  intros [->|Hx%IH]%elem_of_cons; lia.
Qed.

Lemma max_of_list_pos l : 0 <= fold_right Z.max 0 l.
Proof. induction l; simpl; lia. Qed.

Lemma post_advance_credit o w now s :
  post (advance_credit o w now) s (fun _ s' => keeps_attempts s s' /\ takes_turn s s' (o, w)).
Proof.
  unfold advance_credit. apply post_bind, post_gets.
  assert (forall s1, attempts s1 = attempts s -> is_Some (credits s1 !! (o, w)) ->
    (forall k, k <> (o, w) -> credits s1 !! k = credits s !! k) ->
    post (last ← gets (fun s0 => fold_right Z.max 0
            (map (fun kc => c_last_selected_seq kc.2) (map_to_list (credits s0))));
          update_at credits (o, w) (fun _ => true)
            (fun c => c <| c_last_selected_seq := last + 1 |> <| c_updated := now |>) ;; mret tt) s1
      (fun _ s' => keeps_attempts s s' /\ takes_turn s s' (o, w))) as Hgo.
  { intros s1 Ha [c Hc] Hk. apply post_bind, post_gets, post_bind.
    set (last := fold_right _ _ _). intros b s2 Hrun. apply post_ret.
    unfold update_at in Hrun. rewrite Hc in Hrun. injection Hrun as <- <-.
    split; [done|]. eexists. simpl. rewrite lookup_insert_eq. split; [done|]. simpl.
    pose proof (max_of_list_pos (map (fun kc : key2 * Credit => c_last_selected_seq kc.2)
      (map_to_list (credits s1)))) as Hpos. fold last in Hpos. split; [lia|].
    intros k' x Hk' Hx. rewrite lookup_insert_ne in Hx by done. rewrite <- Hk by done.
    split; [done|]. apply Z.lt_succ_r, max_of_list, list_elem_of_fmap.
    exists (k', x). split; [done | by apply elem_of_map_to_list]. }
  destruct (credits s !! (o, w)) as [c|] eqn:Hc.
  - apply post_bind, post_ret. apply Hgo; [done | by rewrite Hc | done].
  - apply post_bind, post_insert_row. intros _. apply Hgo; simpl; [done | |].
    + rewrite lookup_insert_eq. by eexists.
    + intros k Hk. by rewrite lookup_insert_ne.
Qed.

(** The lease names the selected row, and one attempt and one credit are
    written for it. *)
Record granted (row : ClaimRow) (lease : Lease) (s s' : Store) : Prop := {
  gr_row : l_owner lease = cr_owner row /\ l_workload lease = r_workload (cr_revision row) /\
    l_revision lease = u_revision (cr_unit row) /\ l_stage lease = u_stage (cr_unit row) /\
    l_unit lease = cr_unit_id row;
  gr_stage : l_runner_kind lease = s_runner_kind (cr_stage row) /\
    l_runner_name lease = s_runner_name (cr_stage row) /\
    l_effect lease = s_effect (cr_stage row) /\ l_resources lease = s_resources (cr_stage row);
  gr_attempt : exists a, attempts s' = <[attempt_key lease := a]> (attempts s) /\
    a_unit a = l_unit lease;
  gr_turn : takes_turn s s' (l_owner lease, l_workload lease) }.

Lemma takes_turn_after r s s' k : keeps_credits r s -> takes_turn s s' k -> takes_turn r s' k.
Proof.
  intros Hk (c & Hc & Hp & Hall). exists c. split_and!; [done..|]. intros k' c' Hne Hc'.
  destruct (Hall k' c' Hne Hc') as [Hs Hlt]. split; [|done]. by eapply lookup_weaken.
Qed.

Section Claim.
Context `{Host}.

Lemma post_fence_granted row worker now expiry s :
  post (fence_unit row worker now expiry) s (fun lease s' => granted row lease s s').
Proof.
  unfold fence_unit. apply post_bind, post_total. intros aid s1 H1.
  assert (keeps_attempts s s1) as A1 by (by eapply (ignores_new_id keeps_attempts)).
  assert (keeps_credits s s1) as C1 by (by eapply (ignores_new_id keeps_credits)).
  apply post_bind, post_lift_result. intros retry _. apply post_bind, post_lift_result. intros _ _.
  apply post_bind, post_insert_attempt. intros _ _. set (a := mkAttempt _ _ _ _ _ _ _ _ _ _ _ _ _).
  set (s2 := set_field attempts _ s1).
  assert (keeps_credits s s2) as C2 by exact C1.
  assert (attempts s2 = <[(cr_owner row, aid) := a]> (attempts s)) as A2 by (by rewrite <- A1).
  apply post_bind, post_total. intros [] s3 (u & _ & _ & ->)%update_one_inv.
  apply post_bind, post_total. intros [] s4 (us & _ & _ & ->)%update_one_inv.
  apply post_bind, post_total. intros [] s5 H5.
  assert (guar keeps_attempts (start_queued_workload (cr_owner row)
    (r_workload (cr_revision row)) (cr_workload row) now "first_unit_claimed")) as G by guar.
  pose proof (G _ _ _ H5) as A5. clear G.
  assert (guar keeps_credits (start_queued_workload (cr_owner row)
    (r_workload (cr_revision row)) (cr_workload row) now "first_unit_claimed")) as G by guar.
  pose proof (G _ _ _ H5) as C5. clear G H5.
  apply post_bind. eapply post_mono; [apply post_advance_credit|]. intros [] s6 [A6 T6].
  apply post_bind, post_of_option. intros output _. apply post_lift_result.
  intros lease Hlease. destruct (lease_post_init _) as [l|[]] eqn:Hl; [|done].
  apply lease_post_init_ok in Hl. injection Hlease as <-. subst l.
  split; simpl; [by split_and! | by split_and! | |].
  - exists a. split; [|done]. unfold attempt_key. simpl. rewrite A6, A5. exact A2.
  - eapply takes_turn_after; [|exact T6]. etrans; [exact C2 | exact C5].
Qed.

(** ** Own claims *)

Definition same_active (s s' : Store) : Prop :=
  forall k u, units s !! k = Some u -> is_active u = true ->
    exists u', units s' !! k = Some u' /\ is_active u' = true /\ u_revision u' = u_revision u.

Record claims (caps : WorkerCapabilities) (now : Z) (s s1 s' : Store) (lease : Lease) (c : Ranked)
    (row : ClaimRow) : Prop := {
  cm_promotes : promotes s s1;
  cm_first : forall c', c' ∈ ranked_workloads caps now s1 -> by_rank c c' = true;
  cm_ranked : ranked_row caps now s1 c;
  cm_reserved : over_reserved (ranked_limit c) = false;
  cm_found : found c s1 now row;
  cm_granted : granted row lease s1 s' }.

Lemma credits_update_state o w src t v r n :
  guar keeps_credits (update_state o w src t v r n).
Proof. unfold update_state. guar. Qed.
Hint Resolve credits_update_state : guar.
Lemma credits_automatic o w r t c d n : guar keeps_credits (automatic_transition o w r t c d n).
Proof. unfold automatic_transition. guar. Qed.
Hint Resolve credits_automatic : guar.
Lemma keeps_credits_promote n c : guar keeps_credits (promote_due_retries n c).
Proof. unfold promote_due_retries. guar. Qed.

Lemma post_claim_ranked worker now d caps s :
  one_revision s ->
  post (claim_ranked worker now d caps) s (fun o s' =>
    match o with
    | None => keeps_attempts s s' /\ keeps_credits s s'
    | Some lease => exists n s1 c row, promote_due_retries now 1000 s = Ok (n, s1) /\
        claims caps now s s1 s' lease c row
    end).
Proof.
  intros Hi. unfold claim_ranked, claim_next.
  apply post_bind, post_lift_result. intros w _. apply post_bind, post_lift_result. intros dd _.
  apply post_bind, post_total. intros n s1 Hpr.
  pose proof (promotes_due now 1000 _ _ _ Hpr) as Hp.
  pose proof (keeps_credits_promote now 1000 _ _ _ Hpr) as Hc1.
  assert (keeps_attempts s s1) as Ha1 by apply Hp.
  pose proof (promoted_one_revision _ _ Hp Hi) as Hi1.
  apply post_bind, post_gets. unfold claim_candidate.
  destruct (head (ranked_workloads caps now s1)) as [c|] eqn:Hhead; simpl; [|by apply post_ret].
  pose proof (ranked_first caps now s1 c Hhead) as Hmin.
  apply head_Some_elem_of, ranked_row_of in Hhead.
  assert (forall (b : bool) (k1 k2 : db (option Lease)) Q,
    (b = true -> post k1 s1 Q) -> (b = false -> post k2 s1 Q) -> post (if b then k1 else k2) s1 Q)
    as Hif by (intros [] *; auto).
  apply Hif; intros Hover.
  - match goal with |- post ?m _ _ =>
      assert (guar keeps_attempts m) as GA by guar;
      assert (guar keeps_credits m) as GC by guar;
      assert (yields (fun o => o = None) m) as GY
        by (do 2 (apply yields_bind; intros ?); by apply yields_ret)
    end.
    apply post_total. intros o s2 Hrun. pose proof (GY _ _ _ Hrun) as ->. split.
    + etrans; [exact Ha1 | by eapply GA].
    + etrans; [exact Hc1 | by eapply GC].
  - destruct (claim_row_exists caps now s1 c Hi1 Hhead) as (row & Hrow & Hfound).
    apply post_bind. intros r s2 Hr. rewrite Hrow in Hr. injection Hr as <- <-.
    apply post_bind, post_ret, post_bind. eapply post_mono; [apply post_fence_granted|].
    intros lease s2 Hg. apply post_ret. exists n, s1, c, row. split; [done|].
    split; try done. unfold over_reserved. unfold candidate_of in Hover. simpl in Hover.
    destruct (limit_max (ranked_limit c)) as [m|]; [|done].
    by destruct (limit_remaining (ranked_limit c)).
Qed.
End Claim.
