(* ===== verification/QuietSteps.v ===== *)
(** * Operations that claim nothing

    Between two claims no operation opens an attempt, makes a unit active or
    raises a credit: the relations [opens_nothing] and [keeps_credits] hold
    across every public operation but [claim_next]. *)
From Stdlib Require Import Strings.String.
From S2P Require Import Prelude.
From S2P Require Import PyJson.
From S2P Require Import DurableModels.
From S2P Require Import DurableRetry.
From S2P Require Import DurableResults.
From S2P Require Import DurableTables.
From S2P Require Import DurableOutbox.
From S2P Require Import DurableWorkflow.
From S2P Require Import DurableLeases.
From S2P Require Import DurableCompletion.
From S2P Require Import DurableAdmission.
From S2P Require Import DurableMaterialize.
From S2P Require Import DurableReuse.
From S2P Require Import DurableFacts.
From S2P Require Import DurableRanking.
From S2P Require Import DurableSystem.
From S2P Require Import DurableFrames.
From S2P Require Import LeaseProtocol.
From S2P Require Import DurableRefinement.
From S2P Require Import LeaseGuarantees.
From S2P Require Import FrozenFacts.
From S2P Require Import ReuseGuarantees.
From S2P Require Import ReuseProperties.
From S2P Require Import RankingGuarantees.
Local Open Scope Z_scope.

(** Every public operation but a claim. *)
Definition quiet_step : Store -> Store -> Prop := op_step_under (fun _ _ _ => False).

(** ** What the two kinds of rows keep *)

(** No attempt is new, no credit is new or changed. *)
Record calm (s s' : Store) : Prop := {
  ca_attempts : forall x, is_Some (attempts s' !! x) -> is_Some (attempts s !! x);
  ca_credits : keeps_credits s s' }.

#[export] Instance calm_preorder : PreOrder calm.
Proof.
  split; [intros s; split; [done | reflexivity]|].
  intros s t u [A1 A2] [B1 B2]. split; [auto | by etrans].
Qed.

Lemma both_calm s s' : keeps_attempts s s' -> keeps_credits s s' -> calm s s'.
Proof. intros E Hc. split; [|done]. intros x. by rewrite E. Qed.

Lemma calm_ignores {T} (tbl : Store -> T) `{!Setter tbl} :
  Ignores keeps_attempts tbl -> Ignores keeps_credits tbl -> Ignores calm tbl.
Proof. intros Ha Hc s f. apply both_calm; [apply Ha | apply Hc]. Qed.
#[export] Hint Extern 5 (Ignores calm _) => apply calm_ignores : typeclass_instances.

Lemma calm_update s x a a' :
  attempts s !! x = Some a -> calm s (set_field attempts <[x := a']> s).
Proof.
  intros Ha. split; [|by unfold keeps_credits].
  intros y [b Hb]. simpl in Hb. apply lookup_insert_Some in Hb as [[<- _]|[_ Hb]]; by eexists.
Qed.
Lemma calm_delete s k : calm s (set_field credits (delete k) s).
Proof. apply both_calm; [done | apply credits_delete]. Qed.
#[export] Hint Extern 2 (guar calm (update_one attempts _ _ _ _)) =>
  apply guar_update_one; intros; by eapply calm_update : guar.
#[export] Hint Extern 2 (guar calm (update_at attempts _ _ _)) =>
  apply guar_update_at; [typeclasses eauto | intros; by eapply calm_update] : guar.
#[export] Hint Extern 2 (guar calm (delete_at credits _ _)) =>
  apply guar_delete_at; [typeclasses eauto | intros; apply calm_delete] : guar.

(** ** Workloads *)

Section Workloads.
Context `{Host}.

Lemma calm_update_state o w src t v r n : guar calm (update_state o w src t v r n).
Proof. unfold update_state. guar. Qed.
Hint Resolve calm_update_state : guar.
Lemma calm_automatic o w r t c d n : guar calm (automatic_transition o w r t c d n).
Proof. unfold automatic_transition. guar. Qed.
Hint Resolve calm_automatic : guar.
Lemma calm_transition o w t v p n : guar calm (transition_workload o w t v p n).
Proof. unfold transition_workload. guar. Qed.
Lemma calm_apply_control o w c e n : guar calm (apply_control o w c e n).
Proof. unfold apply_control. guar. Qed.
Hint Resolve calm_apply_control : guar.
Lemma calm_settle o w n b l : guar calm (settle o w n b l).
Proof.
  unfold settle, settle_exhausted, settle_attention, settle_failure_or_pause,
    settle_cancellation, cancel_waiting_units, repair_exhausted_units, waiting_unit_exists,
    active_unit_count, untolerated_count, unit_attention_count, materialization_attention_count,
    exhausted_pending_exists.
  guar.
Qed.
Hint Resolve calm_settle : guar.
Lemma calm_control o w c k v n : guar calm (control o w c k v n).
Proof. unfold control, settle_after_control, cancel_waiting_units. guar. Qed.
Lemma calm_resolution o w d v k t n : guar calm (record_attention_resolution o w d v k t n).
Proof. unfold record_attention_resolution, apply_resolution, active_unit_count. guar. Qed.
Lemma calm_settle_workload o w n : guar calm (settle_workload o w n).
Proof. unfold settle_workload. guar. Qed.
Lemma calm_complete o w r v n t e p : guar calm (complete_workload o w r v n t e p).
Proof. unfold complete_workload. guar. Qed.
Hint Resolve calm_complete : guar.
Lemma calm_completion o w n : guar calm (evaluate_completion o w n).
Proof. unfold evaluate_completion. guar. Qed.
Lemma calm_contents o r ad n : guar calm (insert_contents o r ad n).
Proof.
  apply frame_insert_contents; try apply _. intros acc stage source row.
  unfold insert_initial_unit, stage_id_of. guar.
Qed.
Hint Resolve calm_contents : guar.
Lemma calm_admit o w p i t v c y ct pa uc r : guar calm (admit_revision o w p i t v c y ct pa uc r).
Proof. unfold admit_revision, insert_revision, seal_revision. guar. Qed.
End Workloads.

#[export] Hint Resolve calm_transition calm_settle calm_control calm_resolution
  calm_settle_workload calm_completion calm_admit : guar.

(** ** Leases *)

Section Leases.
Context `{Host}.

Lemma calm_pair lease asts us fa fu what : guar calm (update_pair lease asts us fa fu what).
Proof. unfold update_pair. guar. Qed.
Hint Resolve calm_pair : guar.

Ltac lease_parts :=
  unfold select_lease_row, lease_matches, require_expiry, deadline_reached, parse_started.

Lemma calm_mark lease now : guar calm (mark_running lease now).
Proof. unfold mark_running. lease_parts. guar. Qed.
Lemma calm_heartbeat l e n : guar calm (heartbeat l e n).
Proof. unfold heartbeat, extend_lease. lease_parts. guar. Qed.
Lemma calm_commit lease v ids now : guar calm (commit_result lease v ids now).
Proof. unfold commit_result, store_result, insert_result. lease_parts. guar. Qed.
Lemma calm_fail lease e d ast now : guar calm (fail_attempt lease e d ast now).
Proof. unfold fail_attempt, store_failure, failure_disposition. lease_parts. guar. Qed.
Lemma calm_abandon lease code now : guar calm (abandon_attempt lease code now).
Proof. unfold abandon_attempt, store_abandonment. lease_parts. guar. Qed.
Lemma calm_facts lease ex mo d i now : guar calm (record_execution_facts lease ex mo d i now).
Proof. unfold record_execution_facts. lease_parts. guar. Qed.
Lemma calm_usage lease u now : guar calm (record_attempt_usage lease u now).
Proof. unfold record_attempt_usage, of_usage. lease_parts. guar. Qed.
Lemma calm_reconcile n b : guar calm (reconcile_expired n b).
Proof.
  unfold reconcile_expired, reconcile_one, update_lost, promote_due_retries. lease_parts. guar.
Qed.
End Leases.

#[export] Hint Resolve calm_mark calm_heartbeat calm_commit calm_fail calm_abandon calm_facts
  calm_usage calm_reconcile : guar.

(** ** Every operation but a claim *)

Definition opens_nothing (s s' : Store) : Prop :=
  forall x a', attempts s' !! x = Some a' -> a_ended a' = None -> is_Some (attempts s !! x).

Lemma calm_opens s s' : calm s s' -> opens_nothing s s' /\ keeps_credits s s'.
Proof. intros [Ha Hc]. split; [|done]. intros x a' Hx _. apply Ha. by eexists. Qed.

Section Adoption.
Context `{Host}.

Lemma credits_settle o w n b l : guar keeps_credits (settle o w n b l).
Proof. exact (guar_mono _ _ _ (calm_settle o w n b l) ca_credits). Qed.
Hint Resolve credits_settle : guar.

Lemma credits_adopt : guar keeps_credits adopt_next.
Proof.
  unfold adopt_next, adopt_candidate, require_attention, store_reuse, insert_result, insert_attempt.
  guar.
Qed.

(** An adoption writes an attempt that has ended already. *)
Lemma opens_adopt : guar opens_nothing adopt_next.
Proof.
  intros s a s' Hrun x b. revert Hrun. unfold adopt_next, mbind, txn_bind, utc_now, gets.
  set (begun := set_field ticks S s). change (attempts s) with (attempts begun).
  destruct (reuse_candidate begun) as [row|] eqn:Hrow; [|intros [= _ <-]; by eexists].
  pose proof (reuse_candidate_facts begun row Hrow) as Hf.
  destruct (adopt_candidate row _ begun) as [[n s2]|e] eqn:Hadopt; [|done]. intros [= _ <-].
  apply (post_adopt_candidate row _ begun Hf) in Hadopt as
    [v n' _ _ [Hcore _] | reason _ [Hh _ _] | bound aid rid u a' r _ _ _ _ Had].
  - intros Hb _. apply keeps_cores in Hcore as (_ & E & _). rewrite <- E. by eexists.
  - intros Hb _. destruct Hh as [E _]. rewrite <- E. by eexists.
  - destruct Had as [_ _ [_ E] (_ & _ & _ & _ & _ & Hend) _ _ _]. rewrite E.
    intros [[_ <-]|[_ Hb]]%lookup_insert_Some Ho; [congruence | by eexists].
Qed.
End Adoption.

Lemma quiet_step_opens s s' : quiet_step s s' -> opens_nothing s s' /\ keeps_credits s s'.
Proof.
  destruct 1; try match goal with
    | H : False |- _ => destruct H
    | H : adopt_next _ = _ |- _ =>
        by split; [exact (opens_adopt _ _ _ H) | exact (credits_adopt _ _ _ H)]
    | H : ?m _ = Ok (_, _) |- _ =>
        apply calm_opens; let G := fresh in assert (guar calm m) as G by guar; exact (G _ _ _ H)
    end.
Qed.
