(* ===== verification/RankingProperties.v ===== *)
(** * Properties of the ranking of claims

    A claim made with the store's own query finds the unit it was ranked for,
    its lease fits the worker and the budgets, no revision runs more units at
    once than its plan allows, and the owners take turns. *)
From Stdlib Require Import Strings.String.
From S2P Require Import Prelude.
From S2P Require Import PyJson.
From S2P Require Import DurableModels.
From S2P Require Import DurableRetry.
From S2P Require Import DurableResults.
From S2P Require Import DurableTables.
From S2P Require Import DurableOutbox.
From S2P Require Import DurableWorkflow.
From S2P Require Import DurableLeases.
From S2P Require Import DurableCompletion.
From S2P Require Import DurableAdmission.
From S2P Require Import DurableReuse.
From S2P Require Import DurableRanking.
From S2P Require Import DurableAudit.
From S2P Require Import WorkloadProtocol.
From S2P Require Import DurableSystem.
From S2P Require Import DurableFrames.
From S2P Require Import LeaseProtocol.
From S2P Require Import DurableRefinement.
From S2P Require Import DurableFixture.
From S2P Require Import ClaimGuarantees.
From S2P Require Import CompletionGuarantees.
From S2P Require Import FrozenFacts.
From S2P Require Import DurableLineage.
From S2P Require Import RevisionInvariant.
From S2P Require Import RevisionFixture.
From S2P Require Import RevisionProperties.
From S2P Require Import RankingGuarantees.
From S2P Require Import QuietSteps.
Local Open Scope Z_scope.

(** ** Counting active units *)

Lemma count_rows_le `{Countable K} {R} (t t' : gmap K R) p p' extra :
  (forall k r', t' !! k = Some r' -> p' k r' = true ->
    k ∈ extra \/ exists r, t !! k = Some r /\ p k r = true) ->
  count_rows t' p' <= count_rows t p + Z.of_nat (length extra).
Proof.
  intros Hk. unfold count_rows.
  assert (NoDup (select_rows t' p').*1) as Hnodup.
  { apply NoDup_fmap_2_strong.
    - intros [k x] [k0 y] [Hx _]%elem_of_select_rows [Hy _]%elem_of_select_rows E.
      simpl in E. subst k0. congruence.
    - apply NoDup_ListNoDup, List.NoDup_filter, NoDup_ListNoDup, NoDup_map_to_list. }
  assert (length (select_rows t' p').*1 <= length ((select_rows t p).*1 ++ extra))%nat as Hlen.
  { apply submseteq_length, NoDup_submseteq; [done|]. intros k Hin.
    apply list_elem_of_fmap in Hin as ([k' r'] & -> & [Hr Hp]%elem_of_select_rows).
    apply elem_of_app. destruct (Hk k' r' Hr Hp) as [He|(r & Hr0 & Hp0)]; [by right|]. left.
    apply list_elem_of_fmap. exists (k', r). split; [done | by apply elem_of_select_rows]. }
  rewrite length_app, !length_fmap in Hlen. lia.
Qed.

(** An active unit was active before, or a new attempt is open for it. *)
Lemma active_since s s' k u' :
  core_inv (core s) -> refines s s' -> units s' !! k = Some u' -> is_active u' = true ->
  (exists u, units s !! k = Some u /\ is_active u = true /\ u_revision u = u_revision u') \/
  exists x a, attempts s' !! x = Some a /\ attempts s !! x = None /\ a_ended a = None /\
    x.1 = k.1 /\ a_unit a = k.2.
Proof.
  intros Hi Hr Hu' Hact. pose proof (core_steps_inv _ _ Hr Hi) as Hi'.
  pose proof (core_steps_evolve _ _ Hr) as [Hev _ Hatt].
  destruct (uo_active _ _ _ _ (ci_unit _ Hi' k u' Hu') Hact) as (aid & a' & _ & Ha' & Hk & _ & He & _).
  simpl in Ha'. destruct (attempts s !! (k.1, aid)) as [a|] eqn:Ha.
  - left. destruct (Hatt _ _ Ha) as (b & Hb & (Eu & _) & Heq). simpl in Hb.
    assert (b = a') as -> by congruence.
    assert (a_ended a = None) as Hopen.
    { destruct (a_ended a) eqn:E; [|done]. rewrite (Heq ltac:(by eexists)) in He. congruence. }
    destruct (ci_attempt _ Hi _ _ Ha) as (u & Hu & Hok). simpl in Hu. exists u.
    rewrite <- Eu, Hk in Hu. destruct k as [o i]. split; [done|].
    split; [by apply (ao_open _ _ _ Hok)|]. destruct (Hev _ _ Hu) as (v & Hv & [(Erev & _) _ _ _ _]).
    simpl in Hv. congruence.
  - right. exists (k.1, aid), a'. by split_and!.
Qed.

(** ** The bound on concurrency *)

(** Claims are made with the store's own query, whatever the worker can do. *)
Definition own_query (h : Host) (now : Z) (q : Store -> option Candidate) : Prop :=
  exists caps, q = @claim_candidate h caps now.

Definition ranked_step : Store -> Store -> Prop := op_step_under own_query.

(** A revision with an active unit is admitted, and its plan allows as many. *)
Definition concurrency_kept (s : Store) : Prop :=
  forall o rv, active_units s o rv <= 0 \/
    exists r b, revisions s !! (o, rv) = Some r /\ budget_column r "max_concurrency" = Some b /\
      active_units s o rv <= b.

Lemma active_unit_counts o rv k u :
  in_revision o rv k u && is_active u = true <->
  k.1 = o /\ u_revision u = rv /\ is_active u = true.
Proof. unfold in_revision. rewrite !andb_true_iff, !str_eqb_true. tauto. Qed.

Lemma active_le s s' o rv extra :
  core_inv (core s) -> refines s s' ->
  (forall x a, attempts s' !! x = Some a -> attempts s !! x = None -> a_ended a = None ->
     forall u', units s' !! (x.1, a_unit a) = Some u' -> x.1 = o -> u_revision u' = rv ->
     (x.1, a_unit a) ∈ extra) ->
  active_units s' o rv <= active_units s o rv + Z.of_nat (length extra).
Proof.
  intros Hi Hr Hnew. apply count_rows_le. intros k u' Hu' (Ho & Hrv & Hact)%active_unit_counts.
  destruct (active_since s s' k u' Hi Hr Hu' Hact) as [(u & Hu & Ha & E)|(x & a & Hx & Hn & He & H1 & H2)].
  - right. exists u. split; [done|]. apply active_unit_counts. by split_and!; [|congruence|].
  - left. assert ((x.1, a_unit a) = k) as <- by (destruct k; simpl in *; congruence).
    by eapply Hnew.
Qed.

Lemma fixed_budget r r' name : fixed r' = fixed r -> budget_column r' name = budget_column r name.
Proof. intros E. unfold budget_column. by rewrite (f_equal r_plan E : r_plan r' = r_plan r). Qed.

Lemma kept_if_no_more s s' :
  op_step s s' -> core_inv (core s) -> opens_nothing s s' -> concurrency_kept s ->
  concurrency_kept s'.
Proof.
  intros Hstep Hi Ho Hk o rv.
  assert (active_units s' o rv <= active_units s o rv) as Hle.
  { pose proof (active_le s s' o rv [] Hi (op_step_refines _ _ Hstep)) as Hle. simpl in Hle.
    rewrite Z.add_0_r in Hle. apply Hle. intros x a Hx Hn He. destruct (Ho x a Hx He). congruence. }
  destruct (Hk o rv) as [Hz|(r & b & Hr & Hb & Hlb)]; [left; lia|]. right.
  destruct (op_step_keeps_revision _ _ _ _ Hstep Hr) as (r' & Hr' & E). exists r', b.
  rewrite (fixed_budget _ _ _ E). split_and!; [done..|lia].
Qed.

Lemma attempts_open_nothing s s' : keeps_attempts s s' -> opens_nothing s s'.
Proof. intros E x a Hx _. rewrite E in Hx. by eexists. Qed.

Section Claims.
Context `{Host}.

(** The names of the revision and the unit of a lease are those it was ranked by. *)
Lemma claims_names caps now s s1 s' lease c row :
  claims caps now s s1 s' lease c row ->
  l_owner lease = rk_owner c /\ l_revision lease = rk_revision_id c /\
  l_workload lease = rk_workload_id c /\ l_stage lease = rk_stage_id c /\
  exists u, units s !! unit_key lease = Some u /\ u_revision u = l_revision lease.
Proof.
  intros [[P1 _ _ _ _] _ _ _ [[S1 _ _ _] F1 F2 F3 F4 F5 _ _] [(G1 & G2 & G3 & G4 & G5) _ _ _]].
  unfold unit_key. rewrite G1, G2, G3, G4, G5. split_and!; [done | done | congruence | done |].
  destruct (P1 _ _ S1) as (u & Hu & (E & _) & _). exists u. split; [done | by symmetry].
Qed.

(** A claim makes one unit active, of its own revision. *)
Lemma active_after_claim caps now s s1 s' lease c row o rv :
  core_inv (core s) -> refines s s' -> claims caps now s s1 s' lease c row ->
  active_units s' o rv <= active_units s o rv +
    (if bool_decide (o = l_owner lease /\ rv = l_revision lease) then 1 else 0).
Proof.
  intros Hi Hr Hc. pose proof (claims_names _ _ _ _ _ _ _ _ Hc) as (_ & _ & _ & _ & u & Hu & Hrev).
  destruct Hc as [[_ P2 _ _ _] _ _ _ _ [_ _ (a & Ha & Hau) _]].
  assert (forall x b, attempts s' !! x = Some b -> attempts s !! x = None ->
    (x.1, a_unit b) = unit_key lease) as Hnew.
  { intros x b Hx Hn. rewrite Ha, P2 in Hx.
    apply lookup_insert_Some in Hx as [[<- <-]|[_ Hx]]; [by rewrite Hau | congruence]. }
  case_bool_decide as Hk.
  - apply (active_le s s' o rv [unit_key lease] Hi Hr). intros x b Hx Hn _ _ _ _ _.
    rewrite (Hnew x b Hx Hn). left.
  - apply (active_le s s' o rv [] Hi Hr). intros x b Hx Hn _ u' Hu' Ho Hrv. exfalso. apply Hk.
    rewrite (Hnew x b Hx Hn) in Hu'. pose proof (Hnew x b Hx Hn) as E. injection E as E1 _.
    destruct (core_steps_evolve _ _ Hr) as [Hev _ _].
    destruct (Hev _ _ Hu) as (v & Hv & [(Erev & _) _ _ _ _]). simpl in Hv.
    split; congruence.
Qed.

Lemma promotes_active s s1 o rv :
  core_inv (core s) -> refines s s1 -> promotes s s1 ->
  active_units s o rv <= active_units s1 o rv.
Proof.
  intros Hi Hr [P1 _ _ _ _]. rewrite <- (Z.add_0_r (active_units s1 o rv)).
  apply (count_rows_le _ _ _ _ []). intros k u Hu (Ho & Hrv & Hact)%active_unit_counts. right.
  destruct (core_steps_evolve _ _ Hr) as [Hev _ _]. destruct (Hev _ _ Hu) as (u1 & Hu1 & _).
  simpl in Hu1. exists u1. split; [done|]. destruct (P1 _ _ Hu1) as (u0 & Hu0 & (E & _) & _ & Hst).
  assert (u0 = u) as -> by congruence. apply active_unit_counts. split; [done|].
  split; [congruence|]. apply is_active_states. apply is_active_states in Hact.
  destruct Hst as [->|[Hw _]]; [done|]. rewrite Hw in Hact. set_solver.
Qed.

Lemma kept_after_claim worker now d caps s o s' :
  one_revision s -> core_inv (core s) -> claim_ranked worker now d caps s = Ok (o, s') ->
  concurrency_kept s -> concurrency_kept s'.
Proof.
  intros Hone Hi Hrun Hk. assert (op_step s s') as Hstep by (by eapply op_claim).
  pose proof (post_claim_ranked worker now d caps s Hone o s' Hrun) as Hc. destruct o as [lease|].
  - destruct Hc as (n & s1 & c & row & Hpr & Hc).
    pose proof (op_step_refines _ _ Hstep) as Hr.
    pose proof (claims_names _ _ _ _ _ _ _ _ Hc) as (N1 & N2 & _).
    pose proof (refines_promote now 1000 _ _ _ Hpr) as Hr1.
    intros o rv. pose proof (active_after_claim caps now s s1 s' lease c row o rv Hi Hr Hc) as Hle.
    case_bool_decide as Ho.
    + destruct Ho as [-> ->]. destruct Hc as [Hp _ [_ _ C3 _ _ _ Hroom _ _ _ _] _ _ _].
      right. unfold has_room, under in Hroom. apply andb_true_iff in Hroom as [_ Hroom].
      destruct (budget_column _ _) as [b|] eqn:Hb; [|done]. apply Z.ltb_lt in Hroom.
      pose proof (promotes_active s s1 (l_owner lease) (l_revision lease) Hi Hr1 Hp) as Hpa.
      destruct Hp as [_ _ _ P4 _]. rewrite P4 in C3.
      destruct (op_step_keeps_revision _ _ _ _ Hstep C3) as (r' & Hr' & E). exists r', b.
      rewrite (fixed_budget _ _ _ E), N1, N2 in *. split_and!; [done..|lia].
    + destruct (Hk o rv) as [Hz|(r & b & Hr0 & Hb & Hlb)]; [left; lia|]. right.
      destruct (op_step_keeps_revision _ _ _ _ Hstep Hr0) as (r' & Hr' & E). exists r', b.
      rewrite (fixed_budget _ _ _ E). split_and!; [done..|lia].
  - destruct Hc as [Ha _]. eapply kept_if_no_more; eauto using attempts_open_nothing.
Qed.
End Claims.

Lemma ranked_step_kept s s' :
  ranked_step s s' -> sound s -> concurrency_kept s -> sound s' /\ concurrency_kept s'.
Proof.
  intros Hstep Hs Hk. pose proof (op_step_any _ _ _ Hstep) as Hop. destruct Hs as [H1 H2 H3]. split.
  - split; [eapply core_steps_inv; [by apply op_step_refines | done]
           | eapply log_steps_inv; [by apply op_step_audits | done]
           | by eapply op_step_one_revision].
  - destruct (op_step_split _ (fun _ _ _ => False) _ _ Hstep)
      as [Hq|(h & q & w & n & d & a & [caps ->] & Hrun)].
    + apply quiet_step_opens in Hq as [Ho _]. by eapply kept_if_no_more.
    + by eapply (@kept_after_claim h w n d caps s a s').
Qed.

(** C6: no revision ever has more units leased or running than the
    [max_concurrency] of its plan: from the empty database on, whatever the
    operations and their interleaving, as long as units are claimed with the
    store's own query.  A revision with an active unit is a row of the store
    and its plan has that budget. *)
Theorem concurrency_is_bounded (s : Store) : rtc ranked_step empty_store s -> concurrency_kept s.
Proof.
  assert (forall s0, rtc ranked_step s0 s -> sound s0 -> concurrency_kept s0 -> concurrency_kept s)
    as Hrun.
  { induction 1 as [|s0 s1 s2 Hst _ IH]; [done|]. intros H1 H2.
    destruct (ranked_step_kept _ _ Hst H1 H2) as [H3 H4]. by apply IH. }
  intros Hr. apply (Hrun empty_store Hr empty_sound). intros o rv. by left.
Qed.

Lemma concurrency_is_bounded_witness :
  concurrency_kept pair_second /\ active_units pair_second "alice" "revision-1" = 1.
Proof.
  split; [apply concurrency_is_bounded|].
  - etrans; [apply pair_queued_steps|].
    eapply rtc_l.
    { refine (op_claim_under own_query _ _ _ _ _ _ _ _ _ first_granted). by exists demo_caps. }
    apply rtc_once.
    refine (op_claim_under own_query _ _ _ _ _ _ _ _ _ second_granted). by exists demo_caps.
  - exact (f_equal (fun x => x.2.1) pair_run).
Defined.

(** ** What a ranked lease rests on *)

Record worker_fits (caps : WorkerCapabilities) (lease : Lease) : Prop := {
  wf_effect : l_effect lease ∈ effect_profiles caps;
  wf_runner : (l_runner_kind lease, l_runner_name lease) ∈ runner_bindings caps;
  wf_cpu : r_cpu (l_resources lease) <= limit_of caps "cpu";
  wf_device : r_device (l_resources lease) <= limit_of caps "device";
  wf_llm : r_llm (l_resources lease) <= limit_of caps "llm";
  wf_local_io : r_local_io (l_resources lease) <= limit_of caps "local_io";
  wf_network_io : r_network_io (l_resources lease) <= limit_of caps "network_io";
  wf_vlm : r_vlm (l_resources lease) <= limit_of caps "vlm" }.

Definition has_budget (r : Revision) (name : string) (spent : Z) : Prop :=
  exists b, budget_column r name = Some b /\ spent <= b.

Record budgets_left (r : Revision) (us : Usage) : Prop := {
  bl_known : us_unknown us = false;
  bl_read : has_budget r "max_bytes_read" (us_input_bytes us);
  bl_written : has_budget r "max_bytes_written" (us_output_bytes us);
  bl_tokens : has_budget r "max_tokens" (us_input_tokens us + us_output_tokens us);
  bl_cost : has_budget r "max_cost_micros" (us_cost_micros us);
  bl_artifacts : has_budget r "max_artifacts" (us_artifacts us) }.

(** With a model: the tokens spent, the tokens active attempts hold and the
    tokens the stage may spend are within the budget together; a stage of
    unknown need is alone. *)
Definition tokens_reserved (r : Revision) (us : Usage) (rs : Reservations) (st : Stage) : Prop :=
  match max_stage_tokens r st with
  | Some needed => rs_unbounded rs = 0 /\
      has_budget r "max_tokens" (us_input_tokens us + us_output_tokens us + rs_tokens rs + needed)
  | None => rs_active rs = 0
  end.

Lemma within_has_budget r name v : within v (budget_column r name) = true -> has_budget r name v.
Proof.
  unfold within, has_budget. destruct (budget_column r name) as [b|]; [|done].
  intros Hle%Z.leb_le. by exists b.
Qed.

Lemma fits_worker_true caps st :
  fits_worker caps st = true ->
  forall lease, l_runner_kind lease = s_runner_kind st -> l_runner_name lease = s_runner_name st ->
  l_effect lease = s_effect st -> l_resources lease = s_resources st -> worker_fits caps lease.
Proof.
  unfold fits_worker. rewrite !andb_true_iff, bool_decide_eq_true, !Z.leb_le.
  intros [[[[[[[He Hb] H1] H2] H3] H4] H5] H6] lease E1 E2 E3 E4.
  split; rewrite ?E1, ?E2, ?E3, ?E4; try done.
  apply existsb_exists in Hb as ([kind name] & Hin%list_elem_of_In & Hb).
  apply andb_true_iff in Hb as [Hk%bool_decide_eq_true Hn%str_eqb_true]. simpl in *. by subst.
Qed.

Lemma budgets_left_of `{Host} r us now : within_budgets r us now = true -> budgets_left r us.
Proof.
  unfold within_budgets. rewrite !andb_true_iff, negb_true_iff.
  intros [[[[[[[Hu _] H1] H2] H3] H4] H5] _]. split; [done | by apply within_has_budget..].
Qed.

(** Nobody active holds nothing. *)
Lemma idle_reservations s o rv r :
  rs_active (model_reservations s o rv r) = 0 -> rs_tokens (model_reservations s o rv r) = 0.
Proof. unfold model_reservations. simpl. by destruct (omap _ _). Qed.

Lemma reserved_of s o rv r us st :
  model_admits r us (model_reservations s o rv r) st = true -> model_stage st = true ->
  over_reserved (model_limit r us st) = false -> budgets_left r us ->
  tokens_reserved r us (model_reservations s o rv r) st.
Proof.
  pose proof (idle_reservations s o rv r) as Hidle. revert Hidle.
  generalize (model_reservations s o rv r). intros rs Hidle.
  intros Ha Hm Hover Hb. unfold model_admits, model_limit, limit_max, limit_remaining in Ha.
  unfold over_reserved, model_limit, limit_max, limit_remaining in Hover.
  rewrite Hm in Ha, Hover. simpl in Ha, Hover. destruct (bl_tokens _ _ Hb) as (b & Hbud & _).
  rewrite Hbud in Ha, Hover. simpl in Ha, Hover. apply andb_true_iff in Ha as [_ Ha].
  unfold tokens_reserved. destruct (max_stage_tokens r st) as [needed|]; [|by apply Z.eqb_eq].
  apply andb_true_iff in Ha as [Hun Ha]. split; [by apply Z.eqb_eq|].
  exists b. split; [done|]. apply Z.ltb_ge in Hover.
  apply orb_true_iff in Ha as [Ha%Z.leb_le|Ha%Z.eqb_eq]; [lia|].
  rewrite (Hidle Ha). lia.
Qed.

Definition room_left (s : Store) (o rv : string) (r : Revision) : Prop :=
  untolerated_unit s o rv r = false /\
  exists b, budget_column r "max_concurrency" = Some b /\ active_units s o rv < b.

Record lease_basis (caps : WorkerCapabilities) (s : Store) (lease : Lease) (w : Workload)
    (r : Revision) (us : Usage) (st : Stage) : Prop := {
  lb_workload : workloads s !! (l_owner lease, l_workload lease) = Some w;
  lb_executing : w_state w ∈ [QUEUED; RUNNING];
  lb_active : w_active_revision w = Some (l_revision lease);
  lb_revision : revisions s !! (l_owner lease, l_revision lease) = Some r;
  lb_usage : usages s !! (l_owner lease, l_revision lease) = Some us;
  lb_stage : stages s !! (l_owner lease, l_stage lease) = Some st;
  lb_fits : worker_fits caps lease;
  lb_budgets : budgets_left r us;
  lb_room : room_left s (l_owner lease) (l_revision lease) r;
  lb_tokens : model_stage st = true ->
    tokens_reserved r us (model_reservations s (l_owner lease) (l_revision lease) r) st }.



(** The store never asks for a lease it cannot write: whenever the ranking
    has a candidate, the second query of the claim finds a unit of exactly
    that workload, revision and stage, so the error "ready stage has no
    claimable unit" is never raised; and no ranked workload comes before the
    one chosen. *)
Theorem ranked_candidate_has_a_unit `{Host} (now : Z) (caps : WorkerCapabilities) (s s1 : Store)
    (n : Z) (c : Candidate) :
  reachable_from empty_store s -> promote_due_retries now 1000 s = Ok (n, s1) ->
  claim_candidate caps now s1 = Some c ->
  exists row rk, select_claim_row c now s1 = Ok (Some row, s1) /\
    c = candidate_of rk /\ rk ∈ ranked_workloads caps now s1 /\
    (forall other, other ∈ ranked_workloads caps now s1 -> by_rank rk other = true) /\
    units s1 !! (cd_owner c, cr_unit_id row) = Some (cr_unit row) /\
    claimable s1 (cd_owner c, cr_unit_id row) (cr_unit row) (cr_stage row) (cr_revision row) now
      = true /\
    u_revision (cr_unit row) = cd_revision c /\ u_stage (cr_unit row) = cd_stage c /\
    workloads s1 !! (cd_owner c, cd_workload c) = Some (cr_workload row) /\
    w_active_revision (cr_workload row) = Some (cd_revision c).
Proof.
  intros Hreach Hpr Hc.
  pose proof (promoted_one_revision _ _ (promotes_due now 1000 _ _ _ Hpr)
    (reachable_one_revision _ _ Hreach empty_one_revision)) as Hone.
  unfold claim_candidate in Hc. destruct (head _) as [rk|] eqn:Hhead; [|done]. injection Hc as <-.
  pose proof Hhead as Hin%head_Some_elem_of. pose proof (ranked_row_of _ _ _ _ Hin) as Hrow.
  destruct (claim_row_exists caps now s1 rk Hone Hrow) as (row & Hsel & Hf).
  exists row, rk. split; [exact Hsel|]. split; [done|]. split; [exact Hin|].
  split; [by apply ranked_first|]. destruct Hf as [[S1 S2 S3 S4] F1 F2 F3 F4 F5 F6 F7]. simpl.
  rewrite <- F1, <- F2, <- F3, <- F5. by split_and!.
Qed.

(** Both owners are ranked before the first claim, and alice comes first. *)
Lemma ranked_candidate_has_a_unit_witness :
  exists c row, @claim_candidate demo_host demo_caps T0 promoted_queued = Some c /\
    select_claim_row c T0 promoted_queued = Ok (Some row, promoted_queued).
Proof.
  destruct (committed_run _ (pair_no_errors 9 _ eq_refl)) as [n Hn].
  assert (Hr : ranked_owners promoted_queued = [("alice", false); ("bob", false)])
    by exact (f_equal (fun x => x.1.1.2.1) pair_run).
  unfold ranked_owners, pair_ranked in Hr.
  destruct (ranked_workloads demo_caps T0 promoted_queued) as [|rk l] eqn:E; [done|].
  assert (Hc : @claim_candidate demo_host demo_caps T0 promoted_queued = Some (candidate_of rk))
    by (unfold claim_candidate; by rewrite E).
  destruct (@ranked_candidate_has_a_unit demo_host T0 demo_caps pair_queued promoted_queued n
    (candidate_of rk) (pair_queued_steps _) Hn Hc) as (row & _ & Hrow & _).
  exists (candidate_of rk), row. split; [exact Hc | exact Hrow].
Defined.

(** ** Taking turns *)

(** What happens while [owner] is granted nothing. *)
Inductive step_without (owner : string) : Store -> Store -> Prop :=
| without_claims s s' : quiet_step s s' -> step_without owner s s'
| without_grant h worker now d caps o s s' :
    @claim_ranked h worker now d caps s = Ok (o, s') ->
    (forall lease, o = Some lease -> l_owner lease <> owner) -> step_without owner s s'.

(** The credit of [k] is ahead of every credit of [owner]. *)
Definition ahead (owner : string) (k : key2) (s : Store) : Prop :=
  forall c, credits s !! k = Some c -> 0 < c_last_selected_seq c /\
    forall w c', credits s !! (owner, w) = Some c' ->
      c_last_selected_seq c' < c_last_selected_seq c.

Lemma ahead_kept owner k s s' : keeps_credits s s' -> ahead owner k s -> ahead owner k s'.
Proof.
  intros Hk Ha c Hc. destruct (Ha c (lookup_weaken _ _ _ _ Hc Hk)) as [Hp Hall].
  split; [done|]. intros w c' Hc'. exact (Hall w c' (lookup_weaken _ _ _ _ Hc' Hk)).
Qed.

Lemma ahead_turn owner k k' s s' :
  k'.1 <> owner -> takes_turn s s' k' -> k = k' \/ ahead owner k s -> ahead owner k s'.
Proof.
  intros Hne (c & Hc & Hp & Hall) Hk x Hx. destruct (decide (k = k')) as [->|Hkk].
  - assert (x = c) as -> by congruence. split; [done|]. intros w y Hy.
    destruct (Hall (owner, w) y) as [_ Hlt]; [|done|done]. intros E. apply Hne. by rewrite <- E.
  - destruct Hk as [?|Hk]; [done|]. destruct (Hall k x Hkk Hx) as [Hxs _].
    destruct (Hk x Hxs) as [Hpx Hlt]. split; [done|]. intros w y Hy.
    destruct (Hall (owner, w) y) as [Hys _]; [intros E; apply Hne; by rewrite <- E | done|]. eauto.
Qed.

Lemma step_without_ahead owner k s s' :
  step_without owner s s' -> one_revision s -> ahead owner k s ->
  one_revision s' /\ ahead owner k s'.
Proof.
  intros [t t' Hq|h worker now d caps o t t' Hrun Hne] Hone Ha.
  - pose proof (op_step_any _ _ _ Hq) as Hop. split; [by eapply op_step_one_revision|].
    apply quiet_step_opens in Hq as [_ Hk]. by eapply ahead_kept.
  - assert (op_step t t') as Hop by (by eapply op_claim). split; [by eapply op_step_one_revision|].
    pose proof (@post_claim_ranked h worker now d caps t Hone o t' Hrun) as Hc.
    destruct o as [lease|]; [|destruct Hc as [_ Hk]; by eapply ahead_kept].
    destruct Hc as (n & s1 & c & row & Hpr & [_ _ _ _ _ [_ _ _ Hturn]]).
    eapply (ahead_turn owner k (l_owner lease, l_workload lease)); [by apply Hne | exact Hturn |].
    right. eapply ahead_kept; [by eapply keeps_credits_promote | exact Ha].
Qed.

(** Promotion writes units only. *)
Lemma promote_credits n c s m s1 :
  promote_due_retries n c s = Ok (m, s1) -> credits s1 = credits s.
Proof.
  intros Hrun. pose (same := fun s0 s2 : Store => credits s2 = credits s0).
  assert (PreOrder same) by (split; [by intros ? | intros ???; unfold same; congruence]).
  assert (Ignores same units) by (by intros ? ?).
  assert (guar same (promote_due_retries n c)) as G by (unfold promote_due_retries; guar).
  exact (G _ _ _ Hrun).
Qed.

Lemma owner_seq_ge s o w c : credits s !! (o, w) = Some c -> c_last_selected_seq c <= owner_seq s o.
Proof.
  intros Hc. unfold owner_seq.
  assert (c_last_selected_seq c ∈ map (fun kc : key2 * Credit => c_last_selected_seq kc.2)
    (select_rows (credits s) (fun k _ => str_eqb k.1 o))) as Hin.
  { apply list_elem_of_fmap. exists ((o, w), c). split; [done|].
    apply elem_of_select_rows. split; [done|]. apply str_eqb_refl. }
  destruct (map _ _) as [|n l]; [by apply elem_of_nil in Hin|].
  revert Hin. generalize (c_last_selected_seq c). intros x Hin.
  induction l as [|y l IH]; simpl; [apply list_elem_of_singleton in Hin; lia|].
  apply elem_of_cons in Hin as [->|[->|Hin]%elem_of_cons];
    [pose proof (IH ltac:(left)) | | pose proof (IH ltac:(by right))]; lia.
Qed.

Lemma owner_seq_lt s o m :
  0 < m -> (forall w c, credits s !! (o, w) = Some c -> c_last_selected_seq c < m) ->
  owner_seq s o < m.
Proof.
  intros Hm Hall. unfold owner_seq.
  assert (Forall (fun x => x < m) (map (fun kc : key2 * Credit => c_last_selected_seq kc.2)
    (select_rows (credits s) (fun k _ => str_eqb k.1 o)))) as Hl.
  { apply Forall_forall. intros x ([[k w] c] & -> & [Hc Hk]%elem_of_select_rows)%list_elem_of_fmap.
    apply str_eqb_true in Hk. simpl in Hk. subst k. by apply (Hall w). }
  destruct Hl as [|n l Hn Hl]; [done|]. induction Hl; simpl; lia.
Qed.

(** C14: nobody is overtaken twice.  Once an owner has been granted a unit,
    then, as long as that workload keeps its place in the queue and whatever
    happens without a grant to [other], the next grant is not that owner's
    while [other] has a ranked workload whose tokens fit.  (A workload that
    leaves the queue loses its credit, and its owner's turn with it.) *)
Theorem nobody_is_overtaken_twice (h1 h2 : Host) (worker1 worker2 other : string)
    (now1 now2 d1 d2 n : Z) (caps1 caps2 : WorkerCapabilities) (s s1 s2 s3 s4 : Store)
    (l1 l2 : Lease) (c : Ranked) :
  reachable_from empty_store s ->
  @claim_ranked h1 worker1 now1 d1 caps1 s = Ok (Some l1, s1) -> l_owner l1 <> other ->
  rtc (step_without other) s1 s2 -> is_Some (credits s2 !! (l_owner l1, l_workload l1)) ->
  promote_due_retries now2 1000 s2 = Ok (n, s3) ->
  c ∈ @ranked_workloads h2 caps2 now2 s3 -> rk_owner c = other ->
  over_reserved (ranked_limit c) = false ->
  @claim_ranked h2 worker2 now2 d2 caps2 s2 = Ok (Some l2, s4) -> l_owner l2 <> l_owner l1.
Proof.
  intros Hreach Hrun1 Hne Hsteps [x Hx] Hpr Hc Hother Hfree Hrun2 E.
  pose proof (reachable_one_revision _ _ Hreach empty_one_revision) as Hone.
  destruct (post_claim_ranked worker1 now1 d1 caps1 s Hone _ _ Hrun1)
    as (m & t & c1 & row1 & _ & [_ _ _ _ _ [_ _ _ Hturn]]).
  pose proof (ahead_turn other _ (l_owner l1, l_workload l1) _ _ Hne Hturn (or_introl eq_refl)) as Ha.
  assert (one_revision s1) as Hone1
    by exact (op_step_one_revision _ _ (op_claim _ _ _ _ _ _ _ _ Hrun1) Hone).
  assert (one_revision s2 /\ ahead other (l_owner l1, l_workload l1) s2) as [Hone2 Ha2].
  { clear - Hsteps Hone1 Ha. induction Hsteps as [|s1 s2 s3 Hst _ IH]; [done|].
    destruct (step_without_ahead _ _ _ _ Hst Hone1 Ha). by apply IH. }
  destruct (Ha2 x Hx) as [Hp Hlt].
  destruct (post_claim_ranked worker2 now2 d2 caps2 s2 Hone2 _ _ Hrun2)
    as (m' & s3' & c2 & row2 & Hpr2 & Hc2).
  assert (s3' = s3) as -> by congruence.
  pose proof (claims_names _ _ _ _ _ _ _ _ Hc2) as (N1 & _).
  destruct Hc2 as [_ Hmin [_ _ _ _ _ _ _ _ _ _ Hseq2] Hres _ _].
  destruct (ranked_row_of _ _ _ _ Hc) as [_ _ _ _ _ _ _ _ _ _ Hseq].
  specialize (Hmin c Hc). unfold by_rank in Hmin. rewrite Hres, Hfree, Hseq, Hseq2 in Hmin.
  rewrite <- N1, E, Hother in Hmin.
  assert (forall o, owner_seq s3 o = owner_seq s2 o) as Eseq
    by (intros o; unfold owner_seq; by rewrite (promote_credits _ _ _ _ _ Hpr)).
  rewrite !Eseq in Hmin.
  pose proof (owner_seq_ge _ _ _ _ Hx). pose proof (owner_seq_lt s2 other _ Hp Hlt).
  simpl in Hmin. destruct (Z.compare_spec (owner_seq s2 (l_owner l1)) (owner_seq s2 other));
    [lia..|done].
Qed.

(** Alice is served first; bob waits, and the second claim is not hers although
    she still is ranked. *)
Lemma nobody_is_overtaken_twice_witness :
  l_owner first_lease = "alice" /\ l_owner second_lease <> "alice" /\
  ranked_owners promoted_first = [("bob", false); ("alice", false)].
Proof.
  destruct (committed_run _ (pair_no_errors 8 _ eq_refl)) as [n Hn].
  assert (Ho : l_owner first_lease = "alice") by exact (f_equal (fun x => x.1.1.1.2.1) pair_run).
  assert (Hr : ranked_owners promoted_first = [("bob", false); ("alice", false)])
    by exact (f_equal (fun x => x.1.1.2.2) pair_run).
  split; [exact Ho|]. split; [|exact Hr]. rewrite <- Ho.
  assert (Hk : bool_decide (is_Some (credits pair_first !!
      (l_owner first_lease, l_workload first_lease))) = true)
    by exact (f_equal (fun x => x.1.2) pair_run).
  apply bool_decide_eq_true_1 in Hk.
  assert (Hb : exists c, c ∈ @ranked_workloads demo_host demo_caps T0 promoted_first /\
    rk_owner c = "bob" /\ over_reserved (ranked_limit c) = false).
  { assert (("bob", false) ∈ ranked_owners promoted_first) as Hin by (rewrite Hr; left).
    apply list_elem_of_fmap in Hin as (c & Hc & Hin). exists c.
    split; [exact Hin|].
    exact (conj (eq_sym (f_equal fst Hc)) (eq_sym (f_equal snd Hc))). }
  destruct Hb as (c & Hc & Hcb & Hcf).
  refine (nobody_is_overtaken_twice demo_host demo_host "worker-1" "worker-1" "bob" T0 T0
    (60 * second) (60 * second) n demo_caps demo_caps pair_queued pair_first pair_first
    promoted_first pair_second first_lease second_lease c (pair_queued_steps _) first_granted
    _ (rtc_refl _ _) Hk Hn Hc Hcb Hcf second_granted).
  rewrite Ho. discriminate.
Defined.

(** ** A turn given back *)

Definition alice_to (target : WorkloadState) (version : Z) (s : Store) : Store := store_of
  (@transition_workload demo_host "alice" "workload-1" target version None (Some T0) s).

(** Alice, served first, pauses her workload and queues it again. *)
Definition alice_requeued : Store :=
  alice_to QUEUED 6 (alice_to PAUSED 5 (alice_to PAUSE_REQUESTED 4 pair_first)).

(** Her credit went with the pause: she is ranked before bob again and served
    a second time before he is served once. *)
Lemma a_pause_gives_back_the_turn :
  (ranked_owners alice_requeued, l_owner (lease_or_none (value_of (pair_claim alice_requeued))))
  = ([("alice", false); ("bob", false)], "alice").
Proof. vm_compute. reflexivity. Qed.
