(* ===== verification/SettleProperties.v ===== *)
(** * Properties of the settlement sweep

    The condition of the sweep, one query, against the settlement of one
    workload, a transaction of many branches: the query selects exactly the
    workloads a settlement changes. *)
From Stdlib Require Import Strings.String.
From S2P Require Import Prelude.
From S2P Require Import PyJson.
From S2P Require Import DurableModels.
From S2P Require Import DurableRetry.
From S2P Require Import DurableTables.
From S2P Require Import DurableOutbox.
From S2P Require Import DurableWorkflow.
From S2P Require Import DurableReuse.
From S2P Require Import DurableSweeps.
From S2P Require Import DurableRanking.
From S2P Require Import DurableFixture.
From S2P Require Import DurableAudit.
From S2P Require Import CompletionGuarantees.
From S2P Require Import DurableSystem.
From S2P Require Import WorkloadProtocol.
From S2P Require Import RevisionInvariant.
From S2P Require Import RevisionFixture.
From S2P Require Import RevisionProperties.
Local Open Scope Z_scope.

(** ** Reading *)

Lemma run_bind {A B} (m : db A) (k : A -> db B) s a :
  m s = Ok (a, s) -> (m ≫= k) s = k a s.
Proof. intros E. unfold mbind, txn_bind. by rewrite E. Qed.

Lemma count_is_zero `{Countable K} {R} (tbl : gmap K R) p :
  (count_rows tbl p =? 0) = negb (exists_row tbl p).
Proof. unfold count_rows, exists_row. by destruct (select_rows tbl p). Qed.

Lemma exists_row_true `{Countable K} {R} (tbl : gmap K R) p :
  exists_row tbl p = true <-> exists k r, tbl !! k = Some r /\ p k r = true.
Proof.
  unfold exists_row. split.
  - destruct (select_rows tbl p) as [|[k r] l] eqn:E; [done|]. intros _. exists k, r.
    apply elem_of_select_rows. rewrite E. left.
  - intros (k & r & Hk). apply elem_of_select_rows in Hk.
    destruct (select_rows tbl p); [by apply elem_of_nil in Hk | done].
Qed.

Lemma limited_rows `{Countable K} {R} (tbl : gmap K R) p leb l :
  1 <= l ->
  let rows := limit l (order_by leb (select_rows tbl p)) in
  Z.b2z (exists_row tbl p) <= Z.of_nat (length rows) /\ (exists_row tbl p = false -> rows = []).
Proof.
  intros Hl. cbv zeta. unfold exists_row, limit, order_by.
  pose proof (Permutation_length (merge_sort_Permutation (order_of leb) (select_rows tbl p))) as E.
  destruct (select_rows tbl p) as [|x rows] eqn:Es.
  - split; [simpl; lia|]. intros _. apply nil_length_inv. rewrite length_take, E. simpl. lia.
  - split; [|done]. rewrite length_take, E. simpl. lia.
Qed.

Ltac branch := match goal with |- post (if ?b then _ else _) _ _ => destruct b end.

Section Settle.
Context `{Host}.

Lemma select_found o w s row : workloads s !! (o, w) = Some row -> select_workload o w s = Ok (row, s).
Proof. intros E. unfold select_workload, mbind, txn_bind, gets, of_option. by rewrite E. Qed.

Lemma active_read o rv s :
  exists n, active_unit_count o rv s = Ok (n, s) /\ (n =? 0) = negb (some_active s o rv).
Proof. eexists. split; [reflexivity|]. apply count_is_zero. Qed.

Lemma waiting_read o rv s : waiting_unit_exists o rv s = Ok (some_waiting s o rv, s).
Proof. done. Qed.

Lemma exhausted_read o rv s : exhausted_pending_exists o rv s = Ok (some_exhausted s o rv, s).
Proof. done. Qed.

(** ** Cancelling and repairing *)

Lemma cancel_nothing o rv now l s :
  1 <= l -> some_waiting s o rv = false -> cancel_waiting_units o rv now l s = Ok ((0, 0), s).
Proof.
  intros Hl Hw. unfold cancel_waiting_units. rewrite (run_bind _ _ s _ eq_refl).
  pose proof (limited_rows (units s) (fun k u => in_revision o rv k u && is_waiting u) by_update l Hl)
    as [_ E]. by rewrite E.
Qed.

Lemma post_cancel o rv now l s :
  1 <= l -> post (cancel_waiting_units o rv now l) s (fun n _ =>
    Z.b2z (some_waiting s o rv) <= n.1).
Proof.
  intros Hl. unfold cancel_waiting_units. apply post_bind, post_gets, post_bind, post_total.
  intros [] s1 _. apply post_ret.
  exact (proj1 (limited_rows (units s) (fun k u => in_revision o rv k u && is_waiting u)
    by_update l Hl)).
Qed.

Lemma repair_nothing o rv now l s :
  1 <= l -> some_exhausted s o rv = false -> repair_exhausted_units o rv now l s = Ok (0, s).
Proof.
  intros Hl Hw. unfold repair_exhausted_units. rewrite (run_bind _ _ s _ eq_refl).
  pose proof (limited_rows (units s) (fun k u => in_revision o rv k u && is_exhausted s o u)
    by_update l Hl) as [_ E]. by rewrite E.
Qed.

Lemma post_repair o rv now l s :
  1 <= l -> post (repair_exhausted_units o rv now l) s (fun n _ =>
    Z.b2z (some_exhausted s o rv) <= n).
Proof.
  intros Hl. unfold repair_exhausted_units. apply post_bind, post_gets, post_bind, post_total.
  intros [] s1 _. apply post_ret.
  exact (proj1 (limited_rows (units s) (fun k u => in_revision o rv k u && is_exhausted s o u)
    by_update l Hl)).
Qed.

(** ** Attention *)

Lemma stages_read o rv s :
  exists n, materialization_attention_count o rv s = Ok (n, s) /\
    (n =? 0) = negb (stage_attention s o rv).
Proof. eexists. split; [reflexivity|]. apply count_is_zero. Qed.

Lemma count_not_negative `{Countable K} {R} (tbl : gmap K R) p : 0 <= count_rows tbl p.
Proof. unfold count_rows. lia. Qed.

(** Counting artifacts and publications apart, or looking for either. *)
Lemma artifacts_read o rv s :
  exists n, artifact_attention_count o rv s = Ok (n, s) /\
    (n =? 0) = negb (artifact_attention s o rv).
Proof.
  eexists. split; [reflexivity|].
  set (p := fun (k : key2) a => str_eqb k.1 o && str_eqb (art_revision a) rv
    && str_eqb (art_state a) "needs_attention").
  set (q := fun (k : key2) p => match artifacts s !! (k.1, pub_artifact p) with
    | Some a => str_eqb k.1 o && str_eqb (art_revision a) rv && str_eqb (pub_state p) "needs_attention"
    | None => false end).
  assert (artifact_attention s o rv = exists_row (artifacts s) p || exists_row (publications s) q) as ->.
  { apply eq_true_iff_eq. unfold artifact_attention.
    rewrite orb_true_iff, !exists_row_true. split.
    - intros (k & a & Ha & Hc). rewrite !andb_true_iff, orb_true_iff in Hc.
      destruct Hc as [[Ho Hr] [Hs|Hs]]; [left; exists k, a; unfold p; by rewrite Ho, Hr, Hs|].
      right. apply exists_row_true in Hs as (pk & pu & Hpu & Hc).
      rewrite !andb_true_iff, !str_eqb_true in Hc. destruct Hc as [[E1 E2] E3].
      exists pk, pu. split; [done|]. unfold q. rewrite E1, E2. destruct k as [k1 k2]. simpl in *.
      rewrite Ha, Ho, Hr, E3. by rewrite str_eqb_refl.
    - intros [(k & a & Ha & Hc)|(k & pu & Hpu & Hc)].
      + exists k, a. split; [done|]. unfold p in Hc. rewrite !andb_true_iff in Hc.
        destruct Hc as [[-> ->] ->]. done.
      + unfold q in Hc. destruct (artifacts s !! (k.1, pub_artifact pu)) as [a|] eqn:Ha; [|done].
        rewrite !andb_true_iff in Hc. destruct Hc as [[Ho Hr] Hs].
        exists (k.1, pub_artifact pu), a. split; [done|]. simpl. rewrite Ho, Hr. simpl.
        apply orb_true_iff. right. apply exists_row_true. exists k, pu. split; [done|].
        by rewrite !str_eqb_refl, Hs. }
  rewrite negb_orb, <- !count_is_zero.
  pose proof (count_not_negative (artifacts s) p). pose proof (count_not_negative (publications s) q).
  destruct (Z.eqb_spec (count_rows (artifacts s) p) 0), (Z.eqb_spec (count_rows (publications s) q) 0);
    simpl; [apply Z.eqb_eq | apply Z.eqb_neq..]; lia.
Qed.

(** ** Budgets *)

(** SQLite's arithmetic on the instants of this row agrees with Python's. *)
Record clocks_agree (r : Revision) (us : Usage) (now : Z) : Prop := {
  ck_regressed : forall t, us_clock_high_water us = Some t ->
    julian_after t now = clock_regressed (Some t) now;
  ck_elapsed : forall t bound, us_started us = Some t ->
    budget_column r "max_wall_time_s" = Some bound ->
    julian_reached now t bound = (bound <=? elapsed_seconds now t) }.

Lemma budget_read r name b s : budget_column r name = Some b -> plan_budget r name s = Ok (b, s).
Proof.
  unfold budget_column, plan_budget. destruct (obj_get "budgets" (r_plan r)) as [[]|]; try done.
  destruct (obj_get name _) as [[]|]; try done. by intros [= ->].
Qed.

Lemma exceeded_read r l s :
  (forall p, p ∈ l -> is_Some (budget_column r p.1)) ->
  exists v, first_exceeded r l s = Ok (v, s) /\
    bool_decide (is_Some v) = existsb (fun p => over p.2 (budget_column r p.1)) l.
Proof.
  induction l as [|[name value] l IH]; intros Hl; [by exists None|].
  destruct (Hl (name, value)) as [b Hb]; [left|]. simpl in *.
  rewrite (run_bind _ _ s b (budget_read r name b s Hb)), Hb. simpl.
  destruct (b <? value); [by eexists|]. apply IH. intros p Hp. apply Hl. by right.
Qed.

Lemma violation_read o w rv r us now s :
  revisions s !! (o, rv) = Some r -> r_workload r = w -> usages s !! (o, rv) = Some us ->
  budgets_readable r -> clocks_agree r us now ->
  exists v, budget_violation_in o w rv now s = Ok (v, s) /\
    bool_decide (is_Some v) = over_budget r us now.
Proof.
  intros Hr Hw Hus Hb [Hc He]. unfold budget_violation_in, over_budget.
  rewrite (run_bind _ _ s _ eq_refl), Hr, Hus. simpl. rewrite Hw, str_eqb_refl.
  destruct (us_unknown us); [by eexists|]. simpl.
  assert (clock_regressed (us_clock_high_water us) now =
    match us_clock_high_water us with Some t => julian_after t now | None => false end) as <-
    by (destruct (us_clock_high_water us); [by rewrite Hc | done]).
  destruct (clock_regressed _ _); [by eexists|]. simpl.
  destruct (exceeded_read r (observed_usage us) s) as (v & Hv & Eo).
  { intros p Hp. apply Hb. unfold observed_usage in Hp.
    repeat (apply elem_of_cons in Hp as [->|Hp]; [simpl; set_solver|]). by apply elem_of_nil in Hp. }
  rewrite (run_bind _ _ s v Hv). simpl in Eo. rewrite orb_false_r, !orb_assoc in Eo. rewrite <- Eo.
  destruct v as [v|]; [by eexists|]. rewrite bool_decide_false by (by intros []). simpl.
  destruct (us_started us) as [t|]; [|by eexists].
  destruct (Hb "max_wall_time_s") as [bound Hbound]; [set_solver|].
  rewrite (run_bind _ _ s bound (budget_read _ _ _ _ Hbound)), Hbound, He by done.
  destruct (bound <=? _); by eexists.
Qed.

(** ** Units that fail or ask for attention *)

Definition attention_unit (r : Revision) (u : Unit) : bool :=
  bool_decide (u_state u = U_NEEDS_ATTENTION) && (r_manual_generation r <=? u_generation u).

Lemma exists_row_ext `{Countable K} {R} (tbl : gmap K R) p q :
  (forall k r, p k r = q k r) -> exists_row tbl p = exists_row tbl q.
Proof.
  intros E. unfold exists_row, select_rows. by rewrite (List.filter_ext _ _ (fun kv => E kv.1 kv.2)).
Qed.

Lemma untolerated_read o rv r s :
  exists n, untolerated_count o rv r s = Ok (n, s) /\
    (n =? 0) = negb (some_unit s o rv (fun _ u => untolerated r u)).
Proof.
  eexists. split; [reflexivity|]. rewrite count_is_zero. f_equal. apply exists_row_ext.
  intros k u. by rewrite <- andb_assoc.
Qed.

Lemma attention_read o rv r s :
  revisions s !! (o, rv) = Some r ->
  exists n, unit_attention_count o rv s = Ok (n, s) /\
    (n =? 0) = negb (some_unit s o rv (fun _ u => attention_unit r u)).
Proof.
  intros Hr. eexists. split; [reflexivity|]. rewrite Hr, count_is_zero. f_equal.
  apply exists_row_ext. intros k u. by rewrite <- andb_assoc.
Qed.

(** The failures can be acted on now. *)
Definition can_fail (s : Store) (o rv : string) (r : Revision) : bool :=
  some_unit s o rv (fun _ u => untolerated r u)
  && (negb (some_active s o rv) || some_waiting s o rv).

Lemma trouble_split s o rv r :
  unit_trouble s o rv r = can_fail s o rv r || some_unit s o rv (fun _ u => attention_unit r u).
Proof.
  apply eq_true_iff_eq. unfold unit_trouble, can_fail, some_unit.
  rewrite orb_true_iff, andb_true_iff, !exists_row_true. split.
  - intros (k & u & Hu & [Hi [[Hf Hc]%andb_true_iff|Ha]%orb_true_iff]%andb_true_iff).
    + left. split; [|done]. exists k, u. by rewrite Hi, Hf.
    + right. exists k, u. split; [done|]. by rewrite Hi.
  - intros [[(k & u & Hu & [Hi Hf]%andb_true_iff) Hc]|(k & u & Hu & [Hi Ha]%andb_true_iff)];
      exists k, u; (split; [done|]); rewrite Hi; simpl; [by rewrite Hf, Hc | apply orb_true_iff; auto].
Qed.

(** ** What a settlement has to do *)

Definition pause_drained (s : Store) (o rv : string) (row : Workload) : bool :=
  bool_decide (w_state row = PAUSE_REQUESTED) && negb (some_active s o rv).

(** Nothing to do, branch by branch. *)
Lemma failure_rests o w rv r row now l e s :
  1 <= l -> revisions s !! (o, rv) = Some r -> r_workload r = w ->
  can_fail s o rv r = false -> pause_drained s o rv row = false ->
  settle_failure_or_pause o w rv row now l e s = Ok ((row_to_workload o w row, e), s).
Proof.
  intros Hl Hr Hw Hf Hp. unfold settle_failure_or_pause.
  rewrite (run_bind _ _ s _ eq_refl), Hr. simpl. rewrite Hw, str_eqb_refl.
  rewrite (run_bind _ _ s r eq_refl).
  destruct (untolerated_read o rv r s) as (n & Hn & En). rewrite (run_bind _ _ s n Hn), En.
  destruct (active_read o rv s) as (m & Hm & Em). unfold can_fail in Hf.
  destruct (some_unit s o rv (fun _ u => untolerated r u)); simpl in Hf |- *.
  - apply orb_false_iff in Hf as [Ha Hwait].
    rewrite (run_bind _ _ s _ (cancel_nothing o rv now l s Hl Hwait)).
    rewrite (run_bind _ _ s m Hm), (run_bind _ _ s _ (waiting_read o rv s)), Em, Ha.
    simpl. by rewrite Z.add_0_r.
  - unfold pause_drained in Hp. destruct (bool_decide _); [|done]. simpl in Hp.
    rewrite (run_bind _ _ s m Hm), Em, Hp. done.
Qed.

Lemma attention_rests o w rv r row now l e s :
  1 <= l -> revisions s !! (o, rv) = Some r -> r_workload r = w ->
  stage_attention s o rv = false -> unit_trouble s o rv r = false ->
  artifact_attention s o rv = false -> pause_drained s o rv row = false ->
  settle_attention o w rv row now l e s = Ok ((row_to_workload o w row, e), s).
Proof.
  intros Hl Hr Hw Hs Hu Ha Hp. rewrite trouble_split in Hu. apply orb_false_iff in Hu as [Hf Hu].
  unfold settle_attention. destruct (bool_decide _); [done|].
  destruct (stages_read o rv s) as (n & Hn & En). rewrite (run_bind _ _ s n Hn), En, Hs. simpl.
  destruct (attention_read o rv r s Hr) as (n1 & Hn1 & En1). rewrite (run_bind _ _ s n1 Hn1), En1, Hu.
  destruct (artifacts_read o rv s) as (n2 & Hn2 & En2). rewrite (run_bind _ _ s n2 Hn2), En2, Ha.
  simpl. by apply (failure_rests o w rv r).
Qed.

(** Something is done, branch by branch; [e] was done before. *)
Lemma post_failure_more o w rv row now l e s :
  1 <= l -> post (settle_failure_or_pause o w rv row now l e) s (fun a _ => e <= a.2).
Proof.
  intros Hl. unfold settle_failure_or_pause. apply post_bind, post_gets, post_bind, post_of_option.
  intros r _. apply post_bind, post_gets. destruct (negb _).
  - apply post_bind. eapply post_mono; [by apply post_cancel|]. intros [n m] s1 Hn. simpl in Hn.
    assert (0 <= n) by (destruct (some_waiting s o rv); simpl in Hn; lia).
    apply post_bind, post_gets, post_bind, post_gets. branch; [apply post_ret; simpl; lia|].
    apply post_bind, post_total. intros ? ? _. apply post_ret. simpl. lia.
  - destruct (bool_decide _); [|apply post_ret; simpl; lia].
    apply post_bind, post_gets. destruct (_ =? 0); [|apply post_ret; simpl; lia].
    apply post_bind, post_total. intros ? ? _. apply post_ret. simpl. lia.
Qed.

Lemma post_attention_more o w rv row now l e s :
  1 <= l -> post (settle_attention o w rv row now l e) s (fun a _ => e <= a.2).
Proof.
  intros Hl. unfold settle_attention. destruct (bool_decide _); [apply post_ret; simpl; lia|].
  apply post_bind, post_gets. destruct (negb _).
  { apply post_bind, post_total. intros ? ? _. apply post_ret. simpl. lia. }
  apply post_bind, post_gets, post_bind, post_gets. branch; [|by apply post_failure_more].
  apply post_bind, post_total. intros ? ? _. apply post_ret. simpl. lia.
Qed.

Lemma post_failure_acts o w rv r row now l e s :
  1 <= l -> revisions s !! (o, rv) = Some r ->
  can_fail s o rv r || pause_drained s o rv row = true ->
  post (settle_failure_or_pause o w rv row now l e) s (fun a _ => e + 1 <= a.2).
Proof.
  intros Hl Hr Hdue. unfold settle_failure_or_pause. apply post_bind, post_gets, post_bind.
  apply post_of_option. rewrite Hr. simpl. intros r' Hr'. case_match; [|done].
  assert (r' = r) as -> by congruence. clear Hr'.
  destruct (untolerated_read o rv r s) as (n & Hn & En). apply post_bind. intros n' s' Hn'.
  rewrite Hn in Hn'. injection Hn' as <- <-. rewrite En. unfold can_fail in Hdue.
  destruct (active_read o rv s) as (m & Hm & Em).
  destruct (some_unit s o rv (fun _ u => untolerated r u)); simpl.
  - destruct (some_waiting s o rv) eqn:Hwait.
    + apply post_bind. eapply post_mono; [by apply post_cancel|]. rewrite Hwait.
      intros [c d] s1 Hc. simpl in Hc. apply post_bind, post_gets, post_bind, post_gets.
      branch; [apply post_ret; simpl; lia|].
      apply post_bind, post_total. intros ? ? _. apply post_ret. simpl. lia.
    + assert (some_active s o rv = false) as Hact.
      { unfold pause_drained in Hdue. destruct (some_active s o rv); [|done].
        simpl in Hdue. by rewrite andb_false_r in Hdue. }
      apply post_bind. intros c s1 Hc. rewrite (cancel_nothing o rv now l s Hl Hwait) in Hc.
      injection Hc as <- <-. apply post_bind. intros m' s1 Hm'. rewrite Hm in Hm'.
      injection Hm' as <- <-. rewrite Em, Hact. apply post_bind, post_gets.
      change (exists_row (units s) _) with (some_waiting s o rv). rewrite Hwait. simpl.
      apply post_bind, post_total. intros ? ? _. apply post_ret. simpl. lia.
  - simpl in Hdue. unfold pause_drained in Hdue. apply andb_true_iff in Hdue as [-> Ha].
    apply post_bind. intros m' s1 Hm'. rewrite Hm in Hm'. injection Hm' as <- <-. rewrite Em, Ha.
    apply post_bind, post_total. intros ? ? _. apply post_ret. simpl. lia.
Qed.

Lemma post_attention_acts o w rv r row now l e s :
  1 <= l -> revisions s !! (o, rv) = Some r -> w_state row <> NEEDS_ATTENTION ->
  stage_attention s o rv || unit_trouble s o rv r || artifact_attention s o rv
    || pause_drained s o rv row = true ->
  post (settle_attention o w rv row now l e) s (fun a _ => e + 1 <= a.2).
Proof.
  intros Hl Hr Hst Hdue. rewrite trouble_split in Hdue. unfold settle_attention.
  rewrite bool_decide_false by done.
  assert (forall c d, post (result ← automatic_transition o w row NEEDS_ATTENTION c d (Some now);
    mret (result, e + 1)) s (fun a _ => e + 1 <= a.2)) as Hgo.
  { intros c d. apply post_bind, post_total. intros ? ? _. apply post_ret. simpl. lia. }
  destruct (stages_read o rv s) as (n & Hn & En). apply post_bind. intros n' s' Hn'.
  rewrite Hn in Hn'. injection Hn' as <- <-. rewrite En.
  destruct (stage_attention s o rv); simpl; [apply Hgo|].
  destruct (attention_read o rv r s Hr) as (n1 & Hn1 & En1). apply post_bind. intros n' s' Hn'.
  rewrite Hn1 in Hn'. injection Hn' as <- <-. rewrite En1.
  destruct (artifacts_read o rv s) as (n2 & Hn2 & En2). apply post_bind. intros n' s' Hn'.
  rewrite Hn2 in Hn'. injection Hn' as <- <-. rewrite En2.
  destruct (some_unit s o rv (fun _ u => attention_unit r u)); simpl; [apply Hgo|].
  destruct (artifact_attention s o rv); simpl; [apply Hgo|].
  apply (post_failure_acts o w rv r); [done..|]. simpl in Hdue. by rewrite !orb_false_r in Hdue.
Qed.
End Settle.

(** ** A settlement against the condition of the sweep *)

Section Sweep.
Context `{Host} (o w rv : string) (row : Workload) (r : Revision) (us : Usage) (now l : Z)
  (s : Store).
Context (Hrow : workloads s !! (o, w) = Some row) (Hactive : w_active_revision row = Some rv)
  (Hr : revisions s !! (o, rv) = Some r) (Hown : r_workload r = w)
  (Hus : usages s !! (o, rv) = Some us) (Hb : budgets_readable r) (Hc : clocks_agree r us now)
  (Hl : 1 <= l).

(** The part of the condition a running workload is judged by. *)
Definition trouble : bool :=
  stage_attention s o rv || unit_trouble s o rv r || artifact_attention s o rv
  || pause_drained s o rv row.

Lemma exhausted_rests :
  some_exhausted s o rv = false -> trouble = false ->
  settle_exhausted o w rv row now l true s = Ok ((row_to_workload o w row, 0), s).
Proof.
  unfold trouble. rewrite !orb_false_iff. intros He [[[H1 H2] H3] H4]. unfold settle_exhausted.
  rewrite (run_bind _ _ s _ (repair_nothing o rv now l s Hl He)).
  rewrite (run_bind _ _ s _ (exhausted_read o rv s)), He. by apply (attention_rests o w rv r).
Qed.

Lemma post_exhausted_acts :
  w_state row <> NEEDS_ATTENTION -> some_exhausted s o rv || trouble = true ->
  post (settle_exhausted o w rv row now l true) s (fun a _ => 1 <= a.2).
Proof.
  intros Hst Hdue. unfold settle_exhausted. destruct (some_exhausted s o rv) eqn:He.
  - apply post_bind. eapply post_mono; [by apply post_repair|]. rewrite He. intros n s1 Hn.
    simpl in Hn. apply post_bind, post_gets. branch; [by apply post_ret|].
    eapply post_mono; [by apply post_attention_more|]. intros a s2 Ha. simpl in Ha. lia.
  - apply post_bind. intros n s1 Hn. rewrite (repair_nothing o rv now l s Hl He) in Hn.
    injection Hn as <- <-. apply post_bind. intros b s1 Hx. rewrite exhausted_read, He in Hx.
    injection Hx as <- <-. exact (post_attention_acts o w rv r row now l 0 s Hl Hr Hst Hdue).
Qed.

(** *** Cancellation *)

Lemma cancellation_rests :
  some_active s o rv = true -> some_waiting s o rv = false ->
  match reason_counter (default [] (w_terminal_reason row)) s with
  | Ok _ => settle_cancellation o w rv row now l s = Ok ((row_to_workload o w row, 0), s)
  | Err e => settle_cancellation o w rv row now l s = Err e
  end.
Proof.
  intros Ha Hwait. unfold settle_cancellation.
  rewrite (run_bind _ _ s _ (cancel_nothing o rv now l s Hl Hwait)). cbv beta iota zeta.
  destruct (active_read o rv s) as (m & Hm & Em).
  assert (forall n, reason_counter (default [] (w_terminal_reason row)) s = Ok n -> n.2 = s) as Hs.
  { intros [n t]. unfold reason_counter. repeat case_match; try done; by intros [= _ <-]. }
  destruct (reason_counter _ s) as [[n t]|e] eqn:E.
  - specialize (Hs _ eq_refl). simpl in Hs. subst t. rewrite (run_bind _ _ s n E). simpl.
    rewrite (run_bind _ _ s tt eq_refl), (run_bind _ _ s m Hm),
      (run_bind _ _ s _ (waiting_read o rv s)), Em, Ha, Hwait. simpl.
    by rewrite (run_bind (get_workload_row o w) _ s (row_to_workload o w row)
      (run_bind _ _ s row (select_found o w s row Hrow))).
  - unfold mbind, txn_bind. by rewrite E.
Qed.

Lemma post_cancellation_counts :
  post (settle_cancellation o w rv row now l) s (fun a _ => Z.b2z (some_waiting s o rv) <= a.2).
Proof.
  unfold settle_cancellation. apply post_bind. eapply post_mono; [by apply post_cancel|].
  intros [c d] s1 Hn. simpl in Hn. cbv zeta. apply post_bind, post_total. intros n s2 _.
  apply post_bind, post_total. intros [] s3 _. apply post_bind, post_gets, post_bind, post_gets.
  branch.
  - apply post_bind, post_total. intros ? ? _. by apply post_ret.
  - apply post_bind, post_gets, post_bind, post_total. intros ? ? _.
    apply post_bind, post_total. intros ? ? _. apply post_ret. simpl. lia.
Qed.

Lemma post_cancellation_acts :
  negb (some_active s o rv) || some_waiting s o rv = true ->
  post (settle_cancellation o w rv row now l) s (fun a _ => 1 <= a.2).
Proof.
  intros Hdue. destruct (some_waiting s o rv) eqn:Hwait.
  - eapply post_mono; [exact post_cancellation_counts|]. by rewrite Hwait.
  - unfold settle_cancellation.
    apply post_bind. intros c s1 Hn. rewrite (cancel_nothing o rv now l s Hl Hwait) in Hn.
    injection Hn as <- <-. cbv beta iota zeta. rewrite orb_false_r in Hdue.
    apply post_bind. intros n s1 Hn.
    assert (s1 = s) as -> by (unfold reason_counter in Hn; repeat case_match; try done; by injection Hn).
    apply post_bind, post_ret. destruct (active_read o rv s) as (m & Hm & Em).
    apply post_bind. intros m' s1 Hm'. rewrite Hm in Hm'. injection Hm' as <- <-.
    rewrite Em, Hdue. apply post_bind. intros b s1 Hx. rewrite waiting_read, Hwait in Hx.
    injection Hx as <- <-. simpl. apply post_bind, post_gets, post_bind, post_total. intros ? ? _.
    apply post_bind, post_total. intros ? ? _. apply post_ret. simpl. lia.
Qed.

(** ** Every state *)

(** The condition, with the rows of the workload read. *)
Lemma due_is :
  settlement_due s now (o, w) row =
    (bool_decide (w_state row ∈ [CANCELLED; FAILED]) && some_waiting s o rv)
    || (negb (bool_decide (w_state row ∈ [CANCELLED; FAILED; COMPLETED; COMPLETED_WITH_ERRORS;
                                          NEEDS_ATTENTION]))
        && ((bool_decide (w_state row ∈ [PAUSE_REQUESTED; CANCEL_REQUESTED])
             && (negb (some_active s o rv)
                 || (bool_decide (w_state row = CANCEL_REQUESTED) && some_waiting s o rv)))
            || (negb (bool_decide (w_state row = CANCEL_REQUESTED))
                && (over_budget r us now || stage_attention s o rv || unit_trouble s o rv r
                    || artifact_attention s o rv || some_exhausted s o rv)))).
Proof. unfold settlement_due. rewrite Hactive. simpl. rewrite Hr. simpl. by rewrite Hus. Qed.

(** Four kinds of state: under way, cancelling, closed with residual units,
    completed. *)
Definition judged (st : WorkloadState) : bool :=
  bool_decide (st ∈ [ADMITTED; QUEUED; RUNNING; PAUSE_REQUESTED; PAUSED]).
Definition closed (st : WorkloadState) : bool := bool_decide (st ∈ [CANCELLED; FAILED]).

Lemma kinds st :
  st <> DRAFT -> st <> NEEDS_ATTENTION ->
  judged st = true \/ st = CANCEL_REQUESTED \/ closed st = true
  \/ st = COMPLETED \/ st = COMPLETED_WITH_ERRORS.
Proof. destruct st; auto. Qed.

Ltac decided := repeat match goal with |- context [bool_decide ?P] =>
  let b := eval vm_compute in (bool_decide P) in change (bool_decide P) with b end.

Lemma due_judged :
  judged (w_state row) = true ->
  settlement_due s now (o, w) row = over_budget r us now || (some_exhausted s o rv || trouble).
Proof.
  rewrite due_is. unfold trouble, pause_drained.
  destruct (w_state row); try discriminate; intros _; decided;
    destruct (over_budget r us now), (some_exhausted s o rv), (stage_attention s o rv),
      (unit_trouble s o rv r), (artifact_attention s o rv), (some_active s o rv); reflexivity.
Qed.

Lemma due_cancelling :
  w_state row = CANCEL_REQUESTED ->
  settlement_due s now (o, w) row = negb (some_active s o rv) || some_waiting s o rv.
Proof. rewrite due_is. intros ->. decided. simpl. by rewrite orb_false_r. Qed.

Lemma due_closed :
  closed (w_state row) = true -> settlement_due s now (o, w) row = some_waiting s o rv.
Proof.
  rewrite due_is. destruct (w_state row); try discriminate; intros _; decided; simpl;
    by rewrite orb_false_r.
Qed.

Lemma due_completed :
  w_state row = COMPLETED \/ w_state row = COMPLETED_WITH_ERRORS ->
  settlement_due s now (o, w) row = false.
Proof. rewrite due_is. by intros [-> | ->]. Qed.

Lemma settle_is :
  settle o w now true l s =
    (if judged (w_state row) then
       found ← budget_violation_in o w rv now;
       match found with
       | Some v => result ← automatic_transition o w row NEEDS_ATTENTION (violation_reason v) v
                              (Some now); mret (result, 1)
       | None => settle_exhausted o w rv row now l true
       end
     else if bool_decide (w_state row = CANCEL_REQUESTED)
     then settle_cancellation o w rv row now l
     else if closed (w_state row) then
       '(changed, _) ← cancel_waiting_units o rv now l;
       mret (row_to_workload o w row, changed)
     else if bool_decide (w_state row ∈ [COMPLETED; COMPLETED_WITH_ERRORS])
     then mret (row_to_workload o w row, 0)
     else settle_exhausted o w rv row now l true) s.
Proof.
  unfold settle. rewrite (run_bind _ _ s row (select_found o w s row Hrow)), Hactive.
  by destruct (w_state row).
Qed.

(** The counter a cancellation carries can be read. *)
Definition counter_readable : bool :=
  match reason_counter (default [] (w_terminal_reason row)) s with
  | Ok _ => true
  | Err _ => false
  end.

Lemma undue_rests :
  w_state row <> DRAFT -> w_state row <> NEEDS_ATTENTION ->
  (w_state row = CANCEL_REQUESTED -> counter_readable = true) ->
  settlement_due s now (o, w) row = false ->
  settle o w now true l s = Ok ((row_to_workload o w row, 0), s).
Proof.
  intros Hd Hn Hread Hdue. rewrite settle_is. destruct (kinds _ Hd Hn) as [Hj|[Hx|[Hx|Hx]]].
  - rewrite due_judged, !orb_false_iff in Hdue by done. destruct Hdue as (Ho & He & Ht). rewrite Hj.
    destruct (violation_read o w rv r us now s Hr Hown Hus Hb Hc) as (v & Hv & Ev).
    rewrite Ho in Ev. apply bool_decide_eq_false in Ev. destruct v; [by destruct Ev|].
    rewrite (run_bind _ _ s _ Hv). by apply exhausted_rests.
  - rewrite due_cancelling in Hdue by done. apply orb_false_iff in Hdue as [Ha Hw].
    apply negb_false_iff in Ha. pose proof (cancellation_rests Ha Hw) as Hc'.
    specialize (Hread Hx). unfold counter_readable in Hread. rewrite Hx. decided. simpl.
    by destruct (reason_counter _ s).
  - rewrite due_closed in Hdue by done.
    destruct (w_state row); try discriminate; decided; simpl;
      by rewrite (run_bind _ _ s _ (cancel_nothing o rv now l s Hl Hdue)).
  - by destruct Hx as [-> | ->].
Qed.

Lemma due_acts :
  w_state row <> DRAFT -> w_state row <> NEEDS_ATTENTION ->
  settlement_due s now (o, w) row = true ->
  post (settle o w now true l) s (fun a _ => 1 <= a.2).
Proof.
  intros Hd Hn Hdue [rec n] s' Hrun. simpl. rewrite settle_is in Hrun.
  destruct (kinds _ Hd Hn) as [Hj|[Hx|[Hx|Hx]]].
  - rewrite due_judged in Hdue by done. rewrite Hj in Hrun.
    destruct (violation_read o w rv r us now s Hr Hown Hus Hb Hc) as (v & Hv & Ev).
    rewrite (run_bind _ _ s _ Hv) in Hrun. destruct v as [v|].
    + revert Hrun. apply (post_bind _ _ _ (fun a _ => 1 <= a.2)). apply post_total.
      intros ? ? _. apply post_ret. simpl. lia.
    + rewrite bool_decide_false in Ev by (by intros []). rewrite <- Ev in Hdue.
      exact (post_exhausted_acts Hn Hdue _ _ Hrun).
  - rewrite due_cancelling in Hdue by done. rewrite Hx in Hrun.
    exact (post_cancellation_acts Hdue _ _ Hrun).
  - rewrite due_closed in Hdue by done.
    destruct (w_state row); try discriminate; revert Hrun; decided; cbv iota;
      apply (post_bind _ _ _ (fun a _ => 1 <= a.2)); (eapply post_mono; [by apply post_cancel|]);
      rewrite Hdue; intros [c d] s1 Hcd; apply post_ret; simpl in *; lia.
  - by rewrite due_completed in Hdue.
Qed.
End Sweep.

(** ** The sweep *)

Section Whole.
Context `{Host}.

Lemma post_settle_counts o w now l s :
  1 <= l -> post (settle o w now true l) s (fun a _ => 0 <= a.2).
Proof.
  intros Hl. unfold settle. apply post_bind, post_total. intros row s1 _.
  assert (forall rv s, post (settle_exhausted o w rv row now l true) s (fun a _ => 0 <= a.2)) as Hx.
  { clear s s1. intros rv s1. unfold settle_exhausted. apply post_bind. eapply post_mono; [by apply post_repair|].
    intros n s2 Hn. assert (0 <= n) by (destruct (some_exhausted s1 o rv); simpl in Hn; lia).
    apply post_bind, post_gets. branch; [by apply post_ret|].
    eapply post_mono; [by apply post_attention_more|]. intros a s3 Ha. simpl in Ha. lia. }
  destruct (w_active_revision row) as [rv|]; [|by apply post_ret]. cbv zeta.
  destruct (bool_decide _); [destruct (bool_decide _); [|by apply post_ret]|].
  { apply post_bind. eapply post_mono; [by apply post_cancel|]. intros [n m] s2 Hn. apply post_ret.
    destruct (some_waiting s1 o rv); simpl in *; lia. }
  destruct (bool_decide _); [|].
  { eapply post_mono; [by apply post_cancellation_counts|]. intros a s2 Ha.
    destruct (some_waiting s1 o rv); simpl in Ha; lia. }
  destruct (bool_decide _); [|apply Hx].
  apply post_bind, post_total. intros [v|] s2 _.
  - apply post_bind, post_total. intros ? ? _. by apply post_ret.
  - apply Hx.
Qed.

Lemma settle_rows_grow rows count now changed s s' n :
  settle_rows rows count now changed s = (s', Ok n) -> changed <= n.
Proof.
  revert changed s. induction rows as [|row rows IH]; intros changed s; simpl.
  - intros [= <- <-]. done.
  - destruct (_ <=? 0) eqn:Hr; [intros [= <- <-]; done|]. apply Z.leb_gt in Hr. unfold commit_then.
    destruct (settle _ _ _ _ _ s) as [[a s1]|] eqn:E; [|done]. intros Hgo.
    apply IH in Hgo. assert (0 <= a.2); [|lia].
    eapply (post_settle_counts _ _ _ _ s); [|exact E]. lia.
Qed.

Lemma due_nothing s now count :
  1 <= count ->
  (due_workloads s now count = [] <->
   forall k w, workloads s !! k = Some w -> settlement_due s now k w = false).
Proof.
  intros Hc. unfold due_workloads.
  pose proof (limited_rows (workloads s)
    (fun k w => settlement_due s now k w) by_updated count Hc) as [Hn He].
  cbv zeta in *. split.
  - intros Hnil k w Hw. destruct (settlement_due s now k w) eqn:Hd; [|done]. exfalso.
    apply map_eq_nil in Hnil. rewrite Hnil in Hn.
    rewrite (proj2 (exists_row_true _ _)) in Hn by eauto. simpl in Hn. lia.
  - intros Hall. rewrite He; [done|]. destruct (exists_row _ _) eqn:Hx; [|done].
    apply exists_row_true in Hx as (k & w & Hw & Hd). by rewrite Hall in Hd.
Qed.

Lemma elem_of_due s now count k :
  k ∈ due_workloads s now count ->
  exists w, workloads s !! k = Some w /\ settlement_due s now k w = true.
Proof.
  unfold due_workloads. rewrite list_elem_of_fmap.
  intros ([k' w] & -> & Hin%elem_of_limit%elem_of_order_by%elem_of_select_rows). eauto.
Qed.
End Whole.

(** SQLite and Python read every instant of the store alike at [now]. *)
Definition clocks_read_alike `{Host} (s : Store) (now : Z) : Prop :=
  forall k r us, revisions s !! k = Some r -> usages s !! k = Some us -> clocks_agree r us now.

(** What is known of a workload with an active revision. *)
Lemma reachable_rows s k w rv :
  reachable_from empty_store s -> workloads s !! k = Some w -> w_active_revision w = Some rv ->
  w_state w <> DRAFT /\ exists r us, revisions s !! (k.1, rv) = Some r /\ r_workload r = k.2 /\
    usages s !! (k.1, rv) = Some us /\ budgets_readable r.
Proof.
  intros Hreach Hw Hact.
  destruct (reachable_one_revision _ _ Hreach empty_one_revision) as [I1 _ I3].
  destruct (I3 k w rv Hw Hact) as (r & Hr & Hwl). destruct (I1 _ _ Hr) as (w1 & Hw1 & Hd & _).
  destruct (reachable_accounted _ Hreach _ _ Hr) as [[us Hus] Hb]. simpl in Hw1.
  rewrite Hwl in Hw1. destruct k as [o n]. simpl in *. split; [congruence|]. by exists r, us.
Qed.


(** ** A run that outlives its budget *)

Definition run_late : Z := T0 + 7200 * second.
Definition swept (s : Store) (now : Z) : option (Z * list WorkloadState) :=
  match @settle_workloads demo_host 200 (Some now) s with
  | (s', Ok n) => Some (n, map (fun kw => w_state kw.2) (map_to_list (workloads s')))
  | (_, Err _) => None
  end.
Definition sweep_at (now : Z) : option (Z * list WorkloadState) := swept run_leased now.

(** Nothing to settle after a second, one workload to stop after two hours. *)
Lemma late_sweeps :
  (sweep_at (T0 + second), sweep_at run_late,
   map (fun ku => us_started ku.2) (map_to_list (usages run_leased))) =
  (Some (0, [RUNNING]), Some (1, [NEEDS_ATTENTION]), [Some T0]).
Proof. vm_compute. reflexivity. Qed.

Lemma run_started :
  map (fun ku => us_started ku.2) (map_to_list (usages run_leased)) = [Some T0].
Proof. exact (f_equal (fun x => x.2) late_sweeps). Qed.

Lemma run_leased_reachable : reachable_from empty_store run_leased.
Proof.
  unfold reachable_from. etrans; [exact run_draft_reachable|]. destruct run_admits as [a2 H2].
  destruct (committed_run _ (run_step 2 _ eq_refl)) as [a3 H3].
  destruct (committed_run _ (run_step 3 _ eq_refl)) as [a4 H4].
  eapply rtc_l; [exact (op_admit _ _ _ _ _ _ _ _ _ _ _ _ _ _ _ _ H2)|].
  eapply rtc_l; [exact (op_transition _ _ _ _ _ _ _ _ _ _ H3)|].
  apply rtc_once. exact (op_claim _ _ _ _ _ _ _ _ H4).
Qed.

Lemma elapsed_reached now t bound : t <= now ->
  (bound * second <=? now - t) = (bound <=? elapsed_seconds now t).
Proof.
  intros Ht. unfold elapsed_seconds. rewrite Z.max_r by (apply Z.div_pos; unfold second; lia).
  apply eq_true_iff_eq. rewrite !Z.leb_le. unfold second. split; intros Hb.
  - apply Z.div_le_lower_bound; lia.
  - pose proof (Z.mul_div_le (now - t) 1000000). lia.
Qed.

Lemma run_clocks now : T0 <= now -> @clocks_read_alike demo_host run_leased now.
Proof.
  intros Hn k r us _ Hus. split; [done|]. intros t bound Ht _. simpl. apply elapsed_reached.
  assert (Some t ∈ map (fun ku : key2 * Usage => us_started ku.2)
    (map_to_list (usages run_leased))) as Hin.
  { apply list_elem_of_fmap. exists (k, us). split; [by rewrite <- Ht | by apply elem_of_map_to_list]. }
  rewrite run_started in Hin. apply list_elem_of_singleton in Hin.
  congruence.
Qed.

