(* ===== verification/MaterializeEffects.v ===== *)
(** * The effect of one step of a materialization

    Every iteration of the batch reads the store and then does one of three
    things: it offers a candidate and saves the cursor, it saves the cursor, or
    it marks a root and saves the cursor.  [step_cases] says so, with what the
    reads establish of the candidate; the lemmas after it give the effect of
    each on the tables, and [materialize_steps_post] lifts a property of one
    step to a batch. *)
From Stdlib Require Import Strings.String.
From S2P Require Import Prelude.
From S2P Require Import PyJson.
From S2P Require Import JsonScan.
From S2P Require Import DurableModels.
From S2P Require Import DurableTables.
From S2P Require Import DurableOutbox.
From S2P Require Import DurableWorkflow.
From S2P Require Import DurableLeases.
From S2P Require Import DurableAdmission.
From S2P Require Import DurableMaterialize.
From S2P Require Import DurableFrames.
From S2P Require Import RevisionLayout.
Local Open Scope Z_scope.

(** ** Counting rows *)

Lemma filter_permutation {A} (f : A -> bool) l l' :
  l ≡ₚ l' -> List.filter f l ≡ₚ List.filter f l'.
Proof.
  induction 1 as [|x l l' _ IH|x y l|l l' l'' _ IH1 _ IH2]; simpl; [done | | |by etrans].
  - by destruct (f x); rewrite IH.
  - destruct (f x), (f y); try done. apply perm_swap.
Qed.

Section Counting.
Context `{Countable K} {V : Type}.
Implicit Types (m : gmap K V).

Lemma count_rows_insert m p k v : m !! k = None ->
  count_rows (<[k := v]> m) p = count_rows m p + (if p k v then 1 else 0).
Proof.
  intros Hk. unfold count_rows, select_rows.
  rewrite (Permutation_length (filter_permutation _ _ _ (map_to_list_insert m k v Hk))).
  simpl. destruct (p k v); simpl; lia.
Qed.

Lemma count_rows_fmap {W} (g : V -> W) m p :
  count_rows (g <$> m) p = count_rows m (fun k v => p k (g v)).
Proof.
  unfold count_rows, select_rows. rewrite map_to_list_fmap. f_equal.
  induction (map_to_list m) as [|[k v] l IH]; [done|]. simpl. destruct (p k (g v)); simpl; [by apply (f_equal S) | exact IH].
Qed.

Lemma count_rows_ext m p q :
  (forall k v, m !! k = Some v -> p k v = q k v) -> count_rows m p = count_rows m q.
Proof.
  intros Hpq. unfold count_rows, select_rows. do 2 f_equal. apply filter_ext_in.
  intros [k v] Hin%list_elem_of_In. apply elem_of_map_to_list in Hin. by apply Hpq.
Qed.

Lemma count_rows_none m p : (forall k v, m !! k = Some v -> p k v = false) -> count_rows m p = 0.
Proof.
  intros Hp. unfold count_rows. replace (select_rows m p) with (@nil (K * V)); [done|].
  symmetry. destruct (select_rows m p) as [|[k v] l] eqn:E; [done|].
  assert ((k, v) ∈ select_rows m p) as [Hk Ht]%elem_of_select_rows by (rewrite E; left).
  by rewrite Hp in Ht.
Qed.

Lemma count_rows_nonneg m p : 0 <= count_rows m p.
Proof. unfold count_rows. lia. Qed.

Lemma count_rows_grows m m' rows p : grows m m' rows ->
  count_rows m' p = count_rows m p
    + Z.of_nat (length (List.filter (fun kv => p kv.1 kv.2) rows)).
Proof.
  intros [-> Hnd Hfr]. induction rows as [|[k v] rows IH]; simpl.
  - rewrite (left_id_L ∅ (∪)). lia.
  - apply NoDup_cons in Hnd as [Hk Hnd]. rewrite <- insert_union_l, count_rows_insert.
    + rewrite IH; [|done | intros x Hx; apply Hfr; by right]. destruct (p k v); simpl; lia.
    + rewrite lookup_union_r; [apply Hfr; left|]. by apply not_elem_of_list_to_map.
Qed.
End Counting.

(** ** Reads *)

Lemma elem_of_filter_list {A} (f : A -> bool) l x : x ∈ List.filter f l <-> x ∈ l /\ f x = true.
Proof. by rewrite !list_elem_of_In, List.filter_In. Qed.

Lemma elem_of_omap {A B} (f : A -> option B) (l : list A) (y : B) : y ∈ omap f l -> exists x, x ∈ l /\ f x = Some y.
Proof. by intros (x & Hx & E)%list_elem_of_omap; exists x. Qed.

Lemma Forall2_elem_of_r {A B} (P : A -> B -> Prop) (l : list A) (k : list B) y :
  Forall2 P l k -> y ∈ k -> exists x, x ∈ l /\ P x y.
Proof.
  intros HF (i & Hi)%list_elem_of_lookup. destruct (Forall2_lookup_r _ _ _ _ _ HF Hi) as (x & Hx & HP).
  exists x. split; [by eapply list_elem_of_lookup_2 | done].
Qed.

Section Reads.
Context `{Host} (owner rv : string) (revision : Revision).

Lemma elem_of_units_in s stage_id p k u :
  (k, u) ∈ units_in owner rv s stage_id p <->
  units s !! k = Some u /\ k.1 = owner /\ u_revision u = rv /\ u_stage u = stage_id /\ p u = true.
Proof.
  unfold units_in, in_revision. rewrite elem_of_select_rows, !andb_true_iff, !str_eqb_true. tauto.
Qed.

Lemma elem_of_parent_stages s stage_id row :
  row ∈ parent_stages owner rv s stage_id ->
  stage_dependencies s !! (owner, rv, stage_id, row.1.1) = Some row.2 /\
  stages s !! (owner, row.1.1) = Some row.1.2 /\ s_revision row.1.2 = rv.
Proof.
  intros ([[[[o r] child] parent] ord] & Hin & E)%elem_of_omap. simpl in E.
  apply elem_of_map_to_list in Hin. repeat case_match; try done.
  rewrite !andb_true_iff, !str_eqb_true in *. destruct_and!. subst.
  apply bind_Some in E as (st & Hst & E). case_match eqn:Hr; [|done]. injection E as <-. simpl.
  by apply str_eqb_true in Hr.
Qed.

Lemma elem_of_later_parents s stage_id row :
  row ∈ later_parents owner rv s stage_id ->
  row ∈ parent_stages owner rv s stage_id /\ s_type row.1.2 <> "inventory".
Proof.
  unfold later_parents. rewrite elem_of_filter_list. intros [Hin Ht]. split; [done|].
  apply negb_true_iff in Ht. intros E. by rewrite E, str_eqb_refl in Ht.
Qed.

(** The cursor the step works on is the one in the table. *)
Definition current (s : Store) (ready : Ready) : Prop :=
  materializations s !! (owner, rv, rd_id ready) = Some (rd_mat ready) /\
  stages s !! (owner, rd_id ready) = Some (rd_stage ready) /\
  s_revision (rd_stage ready) = rv /\ mat_completed (rd_mat ready) = false /\
  mat_attention_code (rd_mat ready) = None.

Lemma next_stage_current s ready :
  next_materialization_stage owner rv s = Some ready ->
  current s ready /\ can_advance owner rv s (rd_id ready) (rd_mat ready) = true.
Proof.
  unfold next_materialization_stage. intros Hin%head_Some_elem_of.
  rewrite elem_of_order_by in Hin. apply elem_of_omap in Hin as ([[sid st] m] & Hin & E).
  apply bind_Some in E as (r & _ & [= <-]). simpl.
  apply elem_of_omap in Hin as ([[[o r'] sid'] m'] & Hin & E). simpl in E.
  apply elem_of_map_to_list in Hin. case_match eqn:Hk; [|done].
  rewrite andb_true_iff, !str_eqb_true in Hk. destruct Hk as [-> ->].
  apply bind_Some in E as (st' & Hst & E). case_match eqn:Hc; [|done]. injection E as -> -> ->.
  apply andb_true_iff in Hc as [Hr%str_eqb_true Hc]. split; [|done].
  unfold can_advance in Hc. rewrite !andb_true_iff in Hc.
  destruct Hc as [[[Hd%negb_true_iff Ha%bool_decide_eq_true] _] _]. by split_and!.
Qed.

(** What the reads tell of an input: a committed unit with its result, of a
    declared parent stage or of the level below. *)
Record is_input (s : Store) (ready : Ready) (p : Parent) : Prop := {
  ii_unit : units s !! (owner, pa_unit_id p) = Some (pa_unit p);
  ii_revision : u_revision (pa_unit p) = rv;
  ii_state : u_state (pa_unit p) = U_COMMITTED;
  ii_result : exists rid r, pa_result p = Some (rid, r) /\ u_result (pa_unit p) = Some rid /\
    results s !! (owner, rid) = Some r /\ res_revision r = rv;
  ii_role : exists parent_id parent,
    stages s !! (owner, parent_id) = Some parent /\ s_revision parent = rv /\
    is_Some (stage_dependencies s !! (owner, rv, rd_id ready, parent_id)) /\
    pa_role p = s_key parent /\
    (u_stage (pa_unit p) = parent_id
     \/ (is_Some (s_reduction_fan_in (rd_stage ready)) /\ u_stage (pa_unit p) = rd_id ready /\
         u_level (pa_unit p) = Some (mat_level (rd_mat ready) - 1))) }.

(** A unit that waits has inputs, all of them usable; a unit that stands for
    missing inputs has none. *)
Definition chosen (s : Store) (ready : Ready) (n : NewUnit) : Prop :=
  match nu_reason n with
  | None => Forall (is_input s ready) (nu_parents n) /\
      (is_Some (s_reduction_fan_in (rd_stage ready)) -> nu_level n = Some (mat_level (rd_mat ready)))
  | Some _ => nu_parents n = []
  end.

(** A row of a parent stage, before its state is checked. *)
Definition is_row (s : Store) (ready : Ready) (p : Parent) : Prop :=
  units s !! (owner, pa_unit_id p) = Some (pa_unit p) /\ u_revision (pa_unit p) = rv /\
  pa_result p = result_of owner s (pa_unit p) /\
  exists parent_id parent,
    stages s !! (owner, parent_id) = Some parent /\ s_revision parent = rv /\
    is_Some (stage_dependencies s !! (owner, rv, rd_id ready, parent_id)) /\
    pa_role p = s_key parent /\
    (u_stage (pa_unit p) = parent_id
     \/ (is_Some (s_reduction_fan_in (rd_stage ready)) /\ u_stage (pa_unit p) = rd_id ready /\
         u_level (pa_unit p) = Some (mat_level (rd_mat ready) - 1))).

Lemma row_is_input s ready p :
  is_row s ready p -> is_committed p = true -> has_result p = true -> is_input s ready p.
Proof.
  intros (Hu & Hr & Hres & Hrole) Hc%bool_decide_eq_true Hh%bool_decide_eq_true.
  destruct Hh as [[rid r] E]. split; try done. exists rid, r. split; [done|].
  rewrite E in Hres. symmetry in Hres. unfold result_of in Hres.
  apply bind_Some in Hres as (rid' & Hrid & Hres). apply bind_Some in Hres as (r' & Hr' & Hres).
  case_match eqn:Ht; [|done]. injection Hres as -> ->. apply str_eqb_true in Ht. by rewrite <- Hr.
Qed.

Lemma unit_is_row s ready (parent : string * Stage * Z) p row :
  parent ∈ parent_stages owner rv s (rd_id ready) ->
  row ∈ units_in owner rv s parent.1.1 p ->
  is_row s ready (parent_row owner s (s_position parent.1.2) (s_key parent.1.2) row).
Proof.
  intros (Hd & Hst & Hr)%elem_of_parent_stages Hin. destruct row as [[o uid] u].
  apply elem_of_units_in in Hin as (Hu & Ho & Hrv & Hs & _). simpl in Ho. subst o.
  split_and!; try done. exists parent.1.1, parent.1.2. split_and!; [done | done | by eexists | done | by left].
Qed.

(** ** The rows each cardinality reads *)

Lemma parent_units_rows s ready p :
  p ∈ parent_units owner rv s (rd_id ready) -> is_row s ready p.
Proof.
  unfold parent_units. rewrite list_elem_of_In, in_flat_map. intros (parent & Hp & Hin).
  apply list_elem_of_In, elem_of_later_parents in Hp as [Hp _].
  apply in_map_iff in Hin as (row & <- & Hin%list_elem_of_In). by eapply unit_is_row.
Qed.

Lemma candidates_rows s ready (parent : string * Stage * Z) fan_in p :
  parent ∈ parent_stages owner rv s (rd_id ready) ->
  is_Some (s_reduction_fan_in (rd_stage ready)) ->
  p ∈ reduction_candidates owner rv s ready parent.1.1 parent.1.2 fan_in -> is_row s ready p.
Proof.
  intros Hparent Hred. unfold reduction_candidates. rewrite list_elem_of_In, in_map_iff.
  intros (row & <- & Hin%list_elem_of_In%elem_of_limit). unfold level_inputs in Hin.
  destruct (mat_level (rd_mat ready) =? 0) eqn:E; rewrite elem_of_order_by in Hin;
    apply elem_of_filter_list in Hin as [Hin _].
  - by eapply unit_is_row.
  - apply elem_of_parent_stages in Hparent as (Hd & Hst & Hr). destruct row as [[o uid] u].
    apply elem_of_units_in in Hin as (Hu & Ho & Hrv & Hs & Hl%bool_decide_eq_true).
    simpl in Ho. subst o. split_and!; try done. exists parent.1.1, parent.1.2.
    split_and!; [done | done | by eexists | done | by right].
Qed.

Lemma select_inputs_subset limit content nonempty selected l l' :
  select_inputs limit content nonempty selected l = Ok l' ->
  forall p, p ∈ l' -> p ∈ selected \/ p ∈ l.
Proof.
  revert content nonempty selected.
  induction l as [|q l IH]; intros content nonempty selected; cbn [select_inputs].
  - intros [= <-] p. by left.
  - cbv zeta. case_match.
    + destruct selected as [|a [|b sel]]; try done. intros [= <-] p. by left.
    + intros Hs p Hp. destruct (IH _ _ _ Hs p Hp) as [Hin|Hin]; [|right; by right].
      apply elem_of_app in Hin as [Hin|Hin]; [by left|]. right.
      apply list_elem_of_singleton in Hin as ->. left.
Qed.

Lemma collect_inputs_rows s ready sid parents : forall found missing,
  Forall (fun parent => parent ∈ parent_stages owner rv s (rd_id ready)) parents ->
  Forall (is_row s ready) found ->
  Forall (is_row s ready) (collect_inputs owner rv s sid found missing parents).1.1.
Proof.
  induction parents as [|parent parents IH]; intros found missing Hp Hf; [done|].
  inversion Hp as [|? ? Hparent Hrest]; subst. cbn [collect_inputs]. cbv zeta.
  assert (Hrows : Forall (is_row s ready) (found ++ map (parent_row owner s (s_position parent.1.2)
    (s_key parent.1.2)) (limit (MAX_UNIT_DEPENDENCIES + 1 - Z.of_nat (length found))
      (source_units owner rv s sid parent)))).
  { apply Forall_app. split; [done|]. apply Forall_map, Forall_forall. intros row Hin.
    apply elem_of_limit in Hin. unfold source_units in Hin. rewrite elem_of_order_by in Hin.
    by eapply unit_is_row. }
  case_match; [exact Hrows | by apply IH].
Qed.

Lemma ordered_parents_rows s stage_id :
  Forall (fun parent => parent ∈ parent_stages owner rv s stage_id)
    (ordered_parents owner rv s stage_id).
Proof.
  apply Forall_forall. intros parent. unfold ordered_parents. rewrite elem_of_order_by.
  by intros [Hp _]%elem_of_later_parents.
Qed.

Lemma no_missing_inputs s ready too_many missing parents :
  Forall (is_row s ready) parents -> missing_inputs too_many missing parents = None ->
  Forall (is_input s ready) parents.
Proof.
  intros Hrows. unfold missing_inputs. repeat case_match; try done. intros _.
  apply Forall_forall. intros p Hp. rewrite Forall_forall in Hrows.
  repeat match goal with E : existsb _ _ = false |- _ =>
    pose proof (existsb_false _ _ _ E Hp) as ?; clear E end.
  simpl in *. assert (Hc : is_committed p = true) by (by apply negb_false_iff).
  apply row_is_input; [by apply Hrows | done |]. rewrite Hc in *. simpl in *. by apply negb_false_iff.
Qed.

Lemma selected_parent_row s ready p :
  select_parent owner rv s ready = Some p -> is_row s ready p.
Proof.
  assert (Hnext : forall position cursor,
    next_parent owner rv s (rd_id ready) position cursor = Some p -> is_row s ready p).
  { intros position cursor Hin%head_Some_elem_of. rewrite elem_of_order_by in Hin.
    apply elem_of_filter_list in Hin as [Hin _]. by apply parent_units_rows. }
  unfold select_parent. case_match; [|by apply Hnext]. case_match; [|by apply Hnext].
  unfold current_parent. intros (u & Hu & E)%bind_Some. case_match eqn:Hr; [|done].
  apply str_eqb_true in Hr. apply bind_Some in E as (parent & Hp & [= <-]).
  apply head_Some_elem_of, elem_of_filter_list in Hp as [Hp Hc].
  apply andb_true_iff in Hc as [Hst%str_eqb_true _].
  apply elem_of_parent_stages in Hp as (Hd & Hst' & Hr'). split_and!; try done.
  exists parent.1.1, parent.1.2. split_and!; [done | done | by eexists | done | by left].
Qed.

(** ** One step *)

Definition cursor_of (ready : Ready) : Cursor :=
  mkCursor (mat_unit_count (rd_mat ready)) (mat_legacy (rd_mat ready)) None.

Lemma chosen_unreduced s ready n : s_reduction_fan_in (rd_stage ready) = None ->
  nu_reason n = None -> Forall (is_input s ready) (nu_parents n) -> chosen s ready n.
Proof. intros Hf Hr Hin. unfold chosen. rewrite Hr. split; [done|]. rewrite Hf. by intros []. Qed.

Section Cases.
Context (s : Store) (ready : Ready) (Q : Z -> Store -> Prop).
Hypothesis on_candidate : forall n completed move, chosen s ready n ->
  post (candidate_step owner rv revision ready n (cursor_of ready) completed move) s Q.
Hypothesis on_cursor : forall code completed move,
  post (cursor_step owner rv ready (mkCursor (mat_unit_count (rd_mat ready))
          (mat_legacy (rd_mat ready)) code) completed move) s Q.
Hypothesis on_root : forall row completed move,
  row ∈ level_units owner rv s (rd_id ready) (mat_level (rd_mat ready)) ->
  post (mark_root owner rv (rd_id ready) row.1.2 ;;
        cursor_step owner rv ready (cursor_of ready) completed move) s Q.

Lemma end_level_cases : post (end_level owner rv revision ready (cursor_of ready)) s Q.
Proof.
  unfold end_level. apply post_bind, post_gets. cbv beta.
  destruct (reduction_level_status _ _ _ _ _) as [[total committed] root] eqn:E.
  destruct (total =? 0); [by apply on_candidate|]. destruct (_ && _); [apply on_cursor|].
  apply post_bind, post_of_option. intros row ->. apply on_root.
  unfold reduction_level_status in E. injection E as _ _ E. case_match; [|done].
  apply head_Some_elem_of in E. by rewrite elem_of_order_by in E.
Qed.

Lemma reduce_group_cases fan_in : s_reduction_fan_in (rd_stage ready) = Some fan_in ->
  post (reduce_group owner rv revision ready (cursor_of ready) fan_in) s Q.
Proof.
  intros Hfan. unfold reduce_group. apply post_bind, post_gets, post_bind, post_of_option. cbv beta.
  intros [[pid parent] ord] Hp.
  assert (Hparent : (pid, parent, ord) ∈ parent_stages owner rv s (rd_id ready)).
  { destruct (later_parents _ _ _ _) as [|q [|? ?]] eqn:E; try done. injection Hp as ->.
    apply (elem_of_later_parents s). rewrite E. left. }
  apply post_bind, post_gets. destruct (_ =? 0); [by apply on_candidate|].
  apply post_bind, post_gets. destruct (existsb _ _) eqn:Hinv; [by apply on_candidate|].
  apply post_bind, post_of_option. intros max_bytes _.
  destruct (select_inputs _ _ _ _ _) as [selected|reason] eqn:Hsel; [|by apply on_candidate].
  assert (Hin : Forall (is_input s ready) selected).
  { apply Forall_forall. intros p Hin.
    destruct (select_inputs_subset _ _ _ _ _ _ Hsel p Hin) as [Hin'|Hin']; [by apply elem_of_nil in Hin'|].
    pose proof (existsb_false _ _ _ Hinv Hin') as Hok. unfold invalid_input in Hok.
    apply orb_false_iff in Hok as [[Hc%negb_false_iff Hh%negb_false_iff]%orb_false_iff _].
    apply row_is_input; [|done|done]. apply elem_of_take in Hin' as (i & Hi & _).
    eapply (candidates_rows s ready (pid, parent, ord)); [done | by eexists |].
    by eapply list_elem_of_lookup_2. }
  destruct selected as [|p selected]; [apply on_cursor | by apply on_candidate].
Qed.

Lemma singleton_cases : s_reduction_fan_in (rd_stage ready) = None ->
  post (singleton_step owner rv revision ready (cursor_of ready)) s Q.
Proof.
  intros Hf. unfold singleton_step. apply post_bind, post_gets. cbv beta zeta. apply on_candidate.
  destruct (missing_inputs _ _ _) as [[reason force]|] eqn:E; [done|].
  apply chosen_unreduced; [done | done |].
  eapply no_missing_inputs; [|exact E]. apply Forall_forall. intros p Hin%elem_of_limit.
  rewrite elem_of_order_by in Hin. by apply parent_units_rows.
Qed.

Lemma per_source_cases : s_reduction_fan_in (rd_stage ready) = None ->
  post (per_source_step owner rv revision ready (cursor_of ready)) s Q.
Proof.
  intros Hf. unfold per_source_step. apply post_bind, post_gets. cbv beta.
  destruct (next_source _ _ _ _) as [[sid src]|]; [|apply on_cursor].
  apply post_bind, post_gets. cbv beta.
  pose proof (collect_inputs_rows s ready sid _ [] false
    (ordered_parents_rows s (rd_id ready)) ltac:(constructor)) as Hrows.
  destruct (collect_inputs _ _ _ _ _ _ _) as [[parents too_many] missing]. simpl in Hrows.
  apply on_candidate. destruct (missing_inputs _ _ _) as [[reason force]|] eqn:E; [done|].
  apply chosen_unreduced; [done | done |]. by eapply no_missing_inputs.
Qed.

Lemma fan_out_cases : s_reduction_fan_in (rd_stage ready) = None ->
  post (fan_out_step owner rv revision ready (cursor_of ready)) s Q.
Proof.
  intros Hf. unfold fan_out_step. apply post_bind, post_gets. cbv beta.
  destruct (select_parent _ _ _ _) as [p|] eqn:Hsel; [|apply on_cursor].
  cbn [mbind option_bind]. apply selected_parent_row in Hsel.
  destruct (is_committed p) eqn:Hc; [|by apply on_candidate]. cbn [negb].
  destruct (pa_result p) as [[rid r]|] eqn:Hr; [|by apply on_candidate].
  assert (Hin : Forall (is_input s ready) [p]).
  { constructor; [|constructor]. apply row_is_input; [done | done |].
    apply bool_decide_eq_true. rewrite Hr. by eexists. }
  destruct (rd_identity ready) as [field|]; [|by apply on_candidate, chosen_unreduced].
  unfold entry_step. cbv zeta.
  do 5 (match goal with |- post (match ?x with _ => _ end) _ _ => destruct x end; try apply on_cursor).
  apply post_bind, post_of_schema. intros digest _. by apply on_candidate, chosen_unreduced.
Qed.

Lemma step_cases : post (materialize_step owner rv revision ready) s Q.
Proof.
  unfold materialize_step. cbv zeta. fold (cursor_of ready).
  destruct (s_reduction_fan_in _) as [fan_in|] eqn:Hfan.
  - destruct (mat_waiting _); [apply end_level_cases | by apply reduce_group_cases].
  - destruct (str_eqb _ _); [by apply singleton_cases|].
    destruct (str_eqb _ _); [by apply per_source_cases | by apply fan_out_cases].
Qed.
End Cases.

(** A batch keeps what every step keeps; it stops before its limit only when
    no stage can advance. *)
Lemma materialize_steps_post (I : Z -> Z -> Store -> Prop) :
  (forall created advanced s ready, I created advanced s ->
     next_materialization_stage owner rv s = Some ready ->
     post (materialize_step owner rv revision ready) s
       (fun z s' => I (created + z) (advanced + 1) s')) ->
  forall more created advanced s, I created advanced s ->
    post (materialize_steps owner rv revision more created advanced) s (fun r s' =>
      I r.1 r.2 s' /\ r.2 <= advanced + Z.of_nat more /\
      (r.2 < advanced + Z.of_nat more -> next_materialization_stage owner rv s' = None)).
Proof.
  intros Hstep. induction more as [|more IH]; intros created advanced s Hs; cbn [materialize_steps].
  - apply post_ret. simpl. split_and!; [done | lia | lia].
  - apply post_bind, post_gets. cbv beta. destruct (next_materialization_stage _ _ _) as [ready|] eqn:E.
    + apply post_bind. eapply post_mono; [by apply Hstep|]. intros z s' Hz.
      eapply post_mono; [by apply IH|]. intros r s2 (H1 & H2 & H3).
      split_and!; [done | lia |]. intros Hlt. apply H3. lia.
    + apply post_ret. simpl. split_and!; [done | lia | done].
Qed.
End Reads.
