(* ===== verification/MaterializeInvariant.v ===== *)
(** * Cursors count and units are bound

    What a materialization writes: at most one new unit per step, bound to
    exactly the results chosen for it, and the cursor of its stage.  The
    invariant [well_bound] follows for every reachable store: the count of a
    cursor is the number of units of its stage, every dependency of a unit is
    a stored result of its revision, and a unit has exactly as many of them as
    it expects. *)
From Stdlib Require Import Strings.String.
From S2P Require Import Prelude.
From S2P Require Import PyJson.
From S2P Require Import DurableModels.
From S2P Require Import DurableTables.
From S2P Require Import DurableOutbox.
From S2P Require Import DurableWorkflow.
From S2P Require Import DurableLeases.
From S2P Require Import DurableAdmission.
From S2P Require Import DurableMaterialize.
From S2P Require Import DurableSystem.
From S2P Require Import DurableFrames.
From S2P Require Import LeaseProtocol.
From S2P Require Import DurableRefinement.
From S2P Require Import DurableAudit.
From S2P Require Import DurableLineage.
From S2P Require Import DurableHomes.
From S2P Require Import RevisionLayout.
From S2P Require Import RevisionInvariant.
From S2P Require Import MaterializeEffects.
Local Open Scope Z_scope.

(** ** The tables a materialization leaves alone *)

Definition rest_of (s : Store) : Store :=
  s <| units := ∅ |> <| materializations := ∅ |> <| unit_dependencies := ∅ |> <| ticks := O |>.
Definition keeps_rest (s s' : Store) : Prop := rest_of s' = rest_of s.

#[export] Instance keeps_rest_preorder : PreOrder keeps_rest.
Proof. split; unfold keeps_rest; [done | intros ???; congruence]. Qed.

Ltac ignores_rest := intros s f; reflexivity.
#[export] Instance rest_ignores_ticks : Ignores keeps_rest ticks. Proof. ignores_rest. Qed.
#[export] Instance rest_ignores_units : Ignores keeps_rest units. Proof. ignores_rest. Qed.
#[export] Instance rest_ignores_materializations : Ignores keeps_rest materializations.
Proof. ignores_rest. Qed.
#[export] Instance rest_ignores_unit_dependencies : Ignores keeps_rest unit_dependencies.
Proof. ignores_rest. Qed.

(** ** Binding the dependencies of a new unit *)

Section Binding.
Context (owner rv : string).

Lemma elem_of_enumerate {A} (l : list A) z x :
  (z, x) ∈ enumerate l -> exists i, z = Z.of_nat i /\ l !! i = Some x.
Proof.
  unfold enumerate. intros (i & Hi)%list_elem_of_lookup. rewrite list_lookup_imap in Hi.
  destruct (l !! i) eqn:E; [|done]. injection Hi as <- <-. eauto.
Qed.

Lemma enumerate_length {A} (l : list A) : length (enumerate l) = length l.
Proof. apply length_imap. Qed.

(** The rows bound so far, for the bindings [ds]. *)
Record binds (unit_id : string) (s : Store) (ds : list (Z * binding))
    (s1 : Store) : Prop := {
  bi_rest : s1 = set_field unit_dependencies (fun _ => unit_dependencies s1) s;
  bi_kept : forall k, k.1 <> (owner, rv, unit_id) ->
    unit_dependencies s1 !! k = unit_dependencies s !! k;
  bi_rows : forall rid d, unit_dependencies s1 !! (owner, rv, unit_id, rid) = Some d ->
    (ud_ordinal d, (rid, ud_offset d, ud_length d, ud_role d)) ∈ ds /\
    binding_valid owner rv s unit_id rid = true;
  bi_counts : forall o r x, (o, r, x) <> (owner, rv, unit_id) ->
    dependency_count s1 o r x = dependency_count s o r x;
  bi_count : dependency_count s1 owner rv unit_id <= Z.of_nat (length ds) }.

Lemma binding_start unit_id s :
  (forall rid, unit_dependencies s !! (owner, rv, unit_id, rid) = None) -> binds unit_id s [] s.
Proof.
  intros Hno. split; try done.
  - by destruct s.
  - intros rid d Hd. by rewrite Hno in Hd.
  - unfold dependency_count. rewrite count_rows_none; [done|]. intros [k rid] d Hd.
    apply bool_decide_eq_false. simpl. intros ->. by rewrite Hno in Hd.
Qed.

Lemma binding_more unit_id s ds numbered s1 :
  binds unit_id s ds s1 -> binds unit_id s (ds ++ [numbered]) s1.
Proof.
  intros [B1 B2 B3 B4 B5]. split; try done.
  - intros rid d Hd. destruct (B3 rid d Hd). split; [set_solver | done].
  - rewrite length_app. simpl. lia.
Qed.

Lemma post_insert_binding unit_id s ds numbered s1 :
  binds unit_id s ds s1 ->
  post (insert_binding owner rv unit_id numbered) s1 (fun _ s2 =>
    binds unit_id s (ds ++ [numbered]) s2).
Proof.
  intros HB. destruct numbered as [ordinal [[[rid offset] len] role]]. unfold insert_binding.
  apply post_bind, post_check. intros _. apply post_bind, post_gets. destruct (binding_taken _ _ _ _ _ _); [by apply post_ret, binding_more|].
  apply post_bind, post_gets, post_bind, post_check. intros Hvalid.
  apply post_insert_row. intros Hnew. pose proof HB as [B1 B2 B3 B4 B5].
  assert (Hsame : units s1 = units s /\ results s1 = results s) by (by rewrite B1).
  destruct Hsame as [Hu Hr]. split; simpl.
  - rewrite B1. by destruct s.
  - intros k Hk. rewrite lookup_insert_ne; [by apply B2|]. intros <-. by apply Hk.
  - intros rid' d [[[= <-] <-]|[_ Hd]]%lookup_insert_Some; simpl.
    + split; [set_solver|]. unfold binding_valid in *. by rewrite <- Hu, <- Hr.
    + destruct (B3 rid' d Hd). split; [set_solver | done].
  - intros o r x Hne. unfold dependency_count. simpl. rewrite count_rows_insert by done.
    rewrite bool_decide_eq_false_2 by (simpl; congruence). rewrite Z.add_0_r. by apply B4.
  - unfold dependency_count. simpl. rewrite count_rows_insert by done.
    rewrite bool_decide_eq_true_2, length_app by done. unfold dependency_count in B5. simpl. lia.
Qed.

(** What [bind_dependencies] does to a unit that has none. *)
Lemma post_bind_dependencies unit_id n s :
  (forall rid, unit_dependencies s !! (owner, rv, unit_id, rid) = None) ->
  post (bind_dependencies owner rv unit_id n) s (fun _ s' =>
    binds unit_id s (enumerate (expected_bindings n)) s' /\
    dependency_count s' owner rv unit_id = Z.of_nat (length (nu_parents n)) /\
    stored_bindings owner rv s' unit_id = expected_bindings n).
Proof.
  intros Hno. unfold bind_dependencies. apply post_bind, post_check. intros _.
  apply post_bind. eapply post_mono;
    [apply (post_for_each_done _ _ (fun ds s1 => binds unit_id s ds s1));
      [by apply binding_start | intros; by apply post_insert_binding]|].
  intros [] s1 HB. apply post_bind, post_gets, post_check. intros Hst%bool_decide_eq_true.
  split_and!; [done | | done].
  assert (Hlen : length (expected_bindings n) = length (nu_parents n)) by apply length_map.
  pose proof (bi_count _ _ _ _ HB) as Hle. rewrite enumerate_length, Hlen in Hle.
  apply (f_equal length) in Hst. rewrite Hlen in Hst. unfold stored_bindings in Hst.
  rewrite length_map in Hst. unfold limit, order_by in Hst.
  rewrite length_take, (Permutation_length (merge_sort_Permutation _ _)) in Hst.
  unfold dependency_count, count_rows in *. lia.
Qed.
End Binding.

(** ** One candidate *)

Section Candidate.
Context `{Host} (owner rv : string) (revision : Revision).

(** The cursor as [save_cursor] leaves it. *)
Definition saved (ready : Ready) (cu : Cursor) (completed : bool)
    (move : Materialization -> Materialization) (now : Z) : Materialization :=
  (move (rd_mat ready))
    <| mat_completed := completed |>
    <| mat_legacy := if completed then false else cu_legacy cu |>
    <| mat_unit_count := cu_count cu |>
    <| mat_attention_code := cu_blocked cu |>
    <| mat_updated := now |>.

Definition mark_of (ready : Ready) : key3 := (owner, rv, rd_id ready).

Lemma post_save_cursor ready cu completed move s (Q : unit -> Store -> Prop) :
  (forall now, Q tt (set_field materializations
     <[mark_of ready := saved ready cu completed move now]> (set_field ticks S s))) ->
  post (save_cursor owner rv ready cu completed move) s Q.
Proof.
  intros HQ. unfold save_cursor. apply post_bind, post_total. intros now s1 [= <- <-].
  apply post_total. intros [] s2 (m & _ & _ & ->)%update_one_inv. apply HQ.
Qed.

(** The new unit of a step, with its bindings and the cursor after it. *)
Record created (s s' : Store) (ready : Ready) (n : NewUnit) (cu : Cursor)
    (uid : string) (u : Unit) : Prop := {
  cr_fresh : units s !! (owner, uid) = None;
  cr_unit : exists key now, u = candidate_unit rv revision ready n key now /\
    digest_json "durable-unit-key" (candidate_semantic ready n) MAX_PLAN_JSON_BYTES = Ok key /\
    unit_key_taken owner rv (rd_id ready) key s = false;
  cr_below_cap : cu_count cu < s_max_units (rd_stage ready);
  cr_units : units s' = <[(owner, uid) := u]> (units s);
  cr_kept : forall k, k.1 <> (owner, rv, uid) ->
    unit_dependencies s' !! k = unit_dependencies s !! k;
  cr_rows : forall rid d, unit_dependencies s' !! (owner, rv, uid, rid) = Some d ->
    exists i, ud_ordinal d = Z.of_nat i /\
      expected_bindings n !! i = Some (rid, ud_offset d, ud_length d, ud_role d) /\
      is_Some (results s !! (owner, rid)) /\
      forall r, results s !! (owner, rid) = Some r -> res_revision r = rv;
  cr_counts : forall o r x, (o, r, x) <> (owner, rv, uid) ->
    dependency_count s' o r x = dependency_count s o r x;
  cr_count : dependency_count s' owner rv uid = Z.of_nat (length (nu_parents n));
  cr_stored : stored_bindings owner rv s' uid = expected_bindings n }.

(** No dependency row is left over for an identifier that is free. *)
Definition no_orphans (s : Store) : Prop := forall o r uid rid d,
  unit_dependencies s !! (o, r, uid, rid) = Some d -> is_Some (units s !! (o, uid)).

Lemma post_insert_candidate ready n cu s (Q : bool * Cursor -> Store -> Prop) :
  no_orphans s -> cu_legacy cu = false ->
  (forall code, Q (false, mkCursor (cu_count cu) false code) s) ->
  (forall uid u s', created s s' ready n cu uid u -> materializations s' = materializations s ->
     Q (true, mkCursor (cu_count cu + 1) false (cu_blocked cu)) s') ->
  post (insert_candidate owner rv revision ready n cu) s Q.
Proof.
  intros Ho Hl Hno Hyes. unfold insert_candidate.
  apply post_bind, post_of_schema. intros key Hkey. apply post_bind, post_gets.
  destruct (find_unit _ _ _ _ _) as [[k u0]|].
  - rewrite Hl. destruct (nu_duplicate n); [|apply post_raise]. apply post_ret.
    unfold blocked_by. rewrite Hl. apply Hno.
  - destruct (_ <=? _) eqn:Hcap.
    { apply post_ret. unfold blocked_by. rewrite Hl. apply Hno. }
    apply post_bind, post_total. intros now s1 [= <- <-].
    apply post_bind, post_fresh_id. intros uid. apply post_bind.
    unfold insert_unit. apply post_bind, post_gets, post_bind, post_check.
    intros [Ht _]%negb_true_iff%orb_false_iff. apply post_insert_row. simpl. intros Hfresh.
    set (u := candidate_unit rv revision ready n key (host_clock (ticks s))) in *.
    match goal with |- post _ ?s3 _ => set (s3' := s3) end.
    assert (Hrows : forall rid, unit_dependencies s3' !! (owner, rv, uid, rid) = None).
    { intros rid. destruct (unit_dependencies s3' !! _) eqn:E; [|done]. simpl in E.
      apply Ho in E. rewrite Hfresh in E. by destruct E. }
    apply post_bind. eapply post_mono; [by apply post_bind_dependencies|].
    intros [] s4 ([B1 B2 B3 B4 B5] & Hc & Hst). apply post_ret. apply (Hyes uid u).
    + split; try done.
      * exists key, (host_clock (ticks s)). split_and!; try done.
      * lia.
      * by rewrite B1.
      * intros rid d Hd. destruct (B3 rid d Hd) as [Hin Hv].
        apply elem_of_enumerate in Hin as (i & Hi & Hi'). exists i. split_and!; [done | done | |].
        all: unfold binding_valid in Hv; apply andb_true_iff in Hv as [_ Hv];
          simpl in Hv; destruct (results s !! (owner, rid)) as [r|]; try done.
        intros r' [= <-]. by apply str_eqb_true.
    + by rewrite B1.
Qed.

Lemma post_candidate_step ready n cu completed move s (Q : Z -> Store -> Prop) :
  no_orphans s -> cu_legacy cu = false ->
  (forall code now s', homes s' = homes s -> units s' = units s ->
     unit_dependencies s' = unit_dependencies s ->
     materializations s' = <[mark_of ready :=
       saved ready (mkCursor (cu_count cu) false code) completed move now]> (materializations s) ->
     Q 0 s') ->
  (forall uid u now s', created s s' ready n cu uid u ->
     materializations s' = <[mark_of ready :=
       saved ready (mkCursor (cu_count cu + 1) false (cu_blocked cu)) completed move now]>
       (materializations s) ->
     Q 1 s') ->
  post (candidate_step owner rv revision ready n cu completed move) s Q.
Proof.
  intros Ho Hl Hno Hyes. unfold candidate_step. apply post_bind, post_insert_candidate; try done.
  - intros code. apply post_bind, post_save_cursor. intros now. apply post_ret. by apply (Hno code now).
  - intros uid u s' Hc Hm. apply post_bind, post_save_cursor. intros now. apply post_ret.
    apply (Hyes uid u now); [|simpl; by rewrite Hm]. destruct Hc. by split.
Qed.

Lemma post_cursor_step ready cu completed move s (Q : Z -> Store -> Prop) :
  (forall now s', units s' = units s -> unit_dependencies s' = unit_dependencies s ->
     materializations s' = <[mark_of ready := saved ready cu completed move now]>
       (materializations s) -> Q 0 s') ->
  post (cursor_step owner rv ready cu completed move) s Q.
Proof.
  intros HQ. unfold cursor_step. apply post_bind, post_save_cursor. intros now. apply post_ret.
  by apply (HQ now).
Qed.

(** Marking a root changes one column of one unit of the stage. *)
Lemma post_mark_root stage_id uid s (Q : unit -> Store -> Prop) :
  (forall s' row, keeps_rest s s' -> materializations s' = materializations s ->
     unit_dependencies s' = unit_dependencies s ->
     (row = None /\ units s' = units s \/
      exists u now, row = Some u /\ units s !! (owner, uid) = Some u /\
        u_revision u = rv /\ u_stage u = stage_id /\
        units s' = <[(owner, uid) := u <| u_root := true |> <| u_updated := now |>]> (units s)) ->
     Q tt s') ->
  post (mark_root owner rv stage_id uid) s Q.
Proof.
  intros HQ. unfold mark_root. apply post_bind, post_total. intros now s1 [= <- <-].
  apply post_bind, post_gets, post_bind, post_check. intros _.
  apply post_bind, post_total. intros b s2 Hrun. apply post_ret.
  apply update_at_inv in Hrun as [[_ ->]|(u & Hu & Hok & _ & ->)].
  - apply (HQ _ None); try done. by left.
  - apply andb_true_iff in Hok as [Hr%str_eqb_true Hs%str_eqb_true].
    apply (HQ _ (Some u)); try done. right. exists u, (host_clock (ticks s)). done.
Qed.
End Candidate.

Arguments cr_fresh {_ _ _ _ _ _ _ _ _ _} _.
Arguments cr_unit {_ _ _ _ _ _ _ _ _ _} _.
Arguments cr_below_cap {_ _ _ _ _ _ _ _ _ _} _.
Arguments cr_units {_ _ _ _ _ _ _ _ _ _} _.
Arguments cr_kept {_ _ _ _ _ _ _ _ _ _} _ _.
Arguments cr_rows {_ _ _ _ _ _ _ _ _ _} _ _ _.
Arguments cr_counts {_ _ _ _ _ _ _ _ _ _} _ _ _ _.
Arguments cr_count {_ _ _ _ _ _ _ _ _ _} _.
Arguments cr_stored {_ _ _ _ _ _ _ _ _ _} _.

(** ** The invariant *)

Definition of_stage (o r stage_id : string) (k : key2) (h : Home) : bool :=
  str_eqb k.1 o && str_eqb (h_revision h) r && str_eqb (h_stage h) stage_id.

(** How many units a stage has. *)
Definition stage_units (s : Store) (o r stage_id : string) : Z :=
  count_rows (homes s) (of_stage o r stage_id).

Record well_bound (s : Store) : Prop := {
  wb_home : forall k h, homes s !! k = Some h -> is_Some (revisions s !! (k.1, h_revision h));
  wb_mark : forall o r stage_id m, materializations s !! (o, r, stage_id) = Some m ->
    is_Some (revisions s !! (o, r)) /\ mat_legacy m = false /\
    mat_unit_count m = stage_units s o r stage_id;
  wb_row : forall o r uid rid d, unit_dependencies s !! (o, r, uid, rid) = Some d ->
    (exists h, homes s !! (o, uid) = Some h /\ h_revision h = r) /\
    (exists x, results s !! (o, rid) = Some x /\ res_revision x = r);
  wb_deps : forall k h, homes s !! k = Some h ->
    dependency_count s k.1 (h_revision h) k.2 = h_deps h }.

Lemma empty_well_bound : well_bound empty_store.
Proof. split; intros *; unfold homes; simpl; rewrite ?fmap_empty; by rewrite lookup_empty. Qed.

Lemma homes_lookup s k u : units s !! k = Some u -> homes s !! k = Some (home u).
Proof. intros Hu. unfold homes. by rewrite lookup_fmap, Hu. Qed.

Lemma homes_inv s k h : homes s !! k = Some h -> exists u, units s !! k = Some u /\ h = home u.
Proof.
  unfold homes. rewrite lookup_fmap. destruct (units s !! k) as [u|]; [|done].
  intros [= <-]. eauto.
Qed.

Lemma well_bound_no_orphans s : well_bound s -> no_orphans s.
Proof.
  intros [_ _ W _] o r uid rid d Hd. destruct (W _ _ _ _ _ Hd) as [(h & Hh & _) _].
  apply homes_inv in Hh as (u & Hu & _). by eexists.
Qed.

Lemma dependency_count_same s s' o r x :
  unit_dependencies s' = unit_dependencies s -> dependency_count s' o r x = dependency_count s o r x.
Proof. unfold dependency_count. by intros ->. Qed.

(** An operation that keeps the plan keeps the invariant. *)
Lemma keeps_well_bound s s' :
  keeps_plan s s' -> keeps_lineage s s' -> results s ⊆ results s' -> well_bound s -> well_bound s'.
Proof.
  intros [Hp Hh] Hl Hr [W1 W2 W3 W4]. injection Hp as _ _ _ _ Hm Hd.
  assert (Hrev : forall k, is_Some (revisions s !! k) -> is_Some (revisions s' !! k)).
  { intros k [r Hk]. destruct (revision_keeps _ _ _ _ Hl Hk) as (r' & -> & _). by eexists. }
  split; rewrite ?Hh, ?Hm, ?Hd.
  - eauto.
  - intros o r sid m Hk. destruct (W2 _ _ _ _ Hk) as (? & ? & ?). split_and!; [auto | done |].
    unfold stage_units. by rewrite Hh.
  - intros o r uid rid d Hk. destruct (W3 _ _ _ _ _ Hk) as [? (x & Hx & ?)]. split; [done|].
    exists x. split; [|done]. by eapply lookup_weaken.
  - intros k h Hk. rewrite (dependency_count_same s s') by done. by apply W4.
Qed.

(** Admission creates stages with their cursors and units that expect nothing. *)
Lemma stage_units_grows s s' rows o r sid : grows (units s) (units s') rows ->
  stage_units s' o r sid = stage_units s o r sid
    + Z.of_nat (length (List.filter (fun row => of_stage o r sid row.1 (home row.2)) rows)).
Proof.
  intros Hg. unfold stage_units, homes. rewrite !count_rows_fmap.
  exact (count_rows_grows _ _ _ (fun k u => of_stage o r sid k (home u)) Hg).
Qed.

Lemma admission_well_bound o w rv ad now s s' w0 :
  admission_effect o w rv ad now s s' w0 -> well_bound s -> well_bound s'.
Proof.
  intros [_ _ Hfresh Hrev _ _ [rows (inv & _ & Hw & Hm)] Haside] [W1 W2 W3 W4].
  destruct Hw as [_ _ _ _ Hu Hmk], Hm as [_ _ _ _ Hmu Hmm].
  injection Haside as _ Hres _ _ _ _ _ Hud _.
  assert (Hnew : forall row, row ∈ wr_units rows -> row.1.1 = o /\ u_revision row.2 = rv /\
    u_expected_deps row.2 = 0).
  { intros row Hin. destruct (Forall2_elem_of_r _ _ _ _ Hmu Hin) as (p & _ & Ho & id & st & key & src & _ & _ & _ & ->).
    done. }
  assert (Hold : forall sid, stage_units s o rv sid = 0).
  { intros sid. unfold stage_units. apply count_rows_none. intros k h Hk.
    destruct (W1 _ _ Hk) as [r Hr]. unfold of_stage.
    destruct (str_eqb k.1 o) eqn:E1, (str_eqb (h_revision h) rv) eqn:E2; try done.
    apply str_eqb_true in E1, E2. congruence. }
  assert (Hhomes : forall k h, homes s' !! k = Some h ->
    (exists u, (k, u) ∈ wr_units rows /\ h = home u) \/ homes s !! k = Some h).
  { intros k h (u & Hk & ->)%homes_inv. destruct (grows_inv _ _ _ _ _ Hu Hk) as [Hin|Hin]; [left; eauto|].
    right. by apply homes_lookup. }
  split; rewrite ?Hrev.
  - intros k h [(u & Hin & ->)|Hk]%Hhomes; apply lookup_insert_is_Some.
    + destruct (Hnew _ Hin) as (E & Er & _). left. simpl in *. by rewrite <- E, <- Er.
    + destruct (W1 _ _ Hk) as [r Hr]. right. split; [|by eexists]. intros E. rewrite <- E in Hr. congruence.
  - intros o' r' sid m Hk. destruct (grows_inv _ _ _ _ _ Hmk Hk) as [Hin|Hin].
    + destruct (Forall2_elem_of_r _ _ _ _ Hmm Hin) as (stage & _ & id & st & _ & E).
      injection E as -> -> -> ->. split_and!; [by rewrite lookup_insert_eq; eexists | done |].
      rewrite (stage_units_grows s s' (wr_units rows)) by done. rewrite Hold, Z.add_0_l.
      simpl. unfold units_of. do 2 f_equal. apply filter_ext_in. intros row Hrow%list_elem_of_In.
      destruct (Hnew _ Hrow) as (E1 & E2 & _). unfold of_stage. cbn [h_revision h_stage home].
      by rewrite E1, E2, !str_eqb_refl.
    + destruct (W2 _ _ _ _ Hin) as ([r Hr] & Hleg & Hc).
      assert ((o', r') <> (o, rv)) as Hne by congruence.
      split_and!; [rewrite lookup_insert_ne by congruence; by eexists | done |].
      rewrite Hc, (stage_units_grows s s' (wr_units rows)) by done.
      replace (List.filter _ _) with (@nil (key2 * Unit)); [simpl; lia|]. symmetry.
      destruct (List.filter _ _) as [|row l] eqn:E; [done|].
      assert (row ∈ List.filter (fun row => of_stage o' r' sid row.1 (home row.2)) (wr_units rows))
        as Hrow by (rewrite E; left).
      apply elem_of_filter_list in Hrow as [Hrow Ht]. destruct (Hnew _ Hrow) as (E1 & E2 & _).
      unfold of_stage in Ht. rewrite !andb_true_iff, !str_eqb_true in Ht. simpl in Ht.
      destruct Ht as [[? ?] _]. congruence.
  - intros o' r' uid rid d. rewrite Hud, Hres. intros Hk.
    destruct (W3 _ _ _ _ _ Hk) as [(h & Hh & ?) ?]. split; [|done]. exists h. split; [|done].
    apply homes_inv in Hh as (u & Hk' & ->). apply homes_lookup. by eapply grows_old.
  - intros k h Hk. rewrite (dependency_count_same s s') by done.
    destruct (Hhomes _ _ Hk) as [(u & Hin & ->)|Hk']; [|by apply W4].
    destruct (Hnew _ Hin) as (E1 & E2 & E3). cbn [fst snd] in *. cbn [h_revision h_deps home]. rewrite E3.
    unfold dependency_count. apply count_rows_none. intros [[[o' r'] uid] rid] d Hd.
    apply bool_decide_eq_false. simpl. intros [= -> -> ->].
    destruct (W3 _ _ _ _ _ Hd) as [(h & Hh & _) _]. apply homes_inv in Hh as (u' & Hu' & _).
    destruct k as [ko ku]. simpl in *.
    rewrite (gr_fresh _ _ _ Hu (ko, ku)) in Hu'; [done|]. apply (list_elem_of_fmap_2 fst _ _ Hin).
Qed.

(** ** A batch keeps the invariant *)

Lemma keeps_rest_tables s s' : keeps_rest s s' ->
  revisions s' = revisions s /\ results s' = results s /\ stages s' = stages s /\
  stage_dependencies s' = stage_dependencies s /\ sources s' = sources s.
Proof.
  intros E. split_and!; [exact (f_equal revisions E) | exact (f_equal results E)
    | exact (f_equal stages E) | exact (f_equal stage_dependencies E) | exact (f_equal sources E)].
Qed.

Section Batch.
Context `{Host} (owner rv : string) (revision : Revision).

Lemma rest_candidate_step ready n cu completed move :
  guar keeps_rest (candidate_step owner rv revision ready n cu completed move).
Proof.
  unfold candidate_step, insert_candidate, save_cursor, insert_unit, bind_dependencies. guar;
    match goal with |- guar _ (insert_binding _ _ _ ?x) =>
      destruct x as [ordinal [[[rid offset] len] role]]; unfold insert_binding; guar end.
Qed.
Lemma rest_cursor_step ready cu completed move :
  guar keeps_rest (cursor_step owner rv ready cu completed move).
Proof. unfold cursor_step, save_cursor. guar. Qed.

Lemma created_homes s s' ready n cu uid u :
  created owner rv revision s s' ready n cu uid u ->
  homes s' = <[(owner, uid) := home u]> (homes s) /\ homes s !! (owner, uid) = None.
Proof.
  intros C. unfold homes. rewrite (cr_units C), fmap_insert. split; [done|].
  by rewrite lookup_fmap, (cr_fresh C).
Qed.

Lemma created_place s s' ready n cu uid u :
  created owner rv revision s s' ready n cu uid u ->
  u_revision u = rv /\ u_stage u = rd_id ready.
Proof. intros C. by destruct (cr_unit C) as (key & now & -> & _). Qed.

(** A cursor row replaced by one with the right count. *)
Lemma replaced_mark s s' ready m' :
  well_bound s -> current owner rv s ready -> revisions s' = revisions s ->
  materializations s' = <[mark_of owner rv ready := m']> (materializations s) ->
  mat_legacy m' = false -> mat_unit_count m' = stage_units s' owner rv (rd_id ready) ->
  (forall o r sid, (o, r, sid) <> mark_of owner rv ready ->
     stage_units s' o r sid = stage_units s o r sid) ->
  forall o r sid m, materializations s' !! (o, r, sid) = Some m ->
    is_Some (revisions s' !! (o, r)) /\ mat_legacy m = false /\
    mat_unit_count m = stage_units s' o r sid.
Proof.
  intros [W1 W2 W3 W4] [Hc _] Hrev Hm Hl Hcount Hother o r sid m. rewrite Hm, Hrev.
  intros [[[= <- <- <-] <-]|[Hne Hk]]%lookup_insert_Some.
  - destruct (W2 _ _ _ _ Hc) as (? & _). done.
  - destruct (W2 _ _ _ _ Hk) as (? & ? & ->). split_and!; [done | done |].
    symmetry. by apply Hother.
Qed.

Lemma current_mark s ready : well_bound s -> current owner rv s ready ->
  mat_legacy (rd_mat ready) = false /\
  mat_unit_count (rd_mat ready) = stage_units s owner rv (rd_id ready).
Proof. intros W [Hc _]. by destruct (wb_mark s W _ _ _ _ Hc) as (_ & ? & ?). Qed.

Lemma same_stage_units s s' o r sid :
  homes s' = homes s -> stage_units s' o r sid = stage_units s o r sid.
Proof. unfold stage_units. by intros ->. Qed.

(** A step that creates nothing. *)
Lemma moved_well_bound s s' ready cu completed move now :
  well_bound s -> current owner rv s ready -> keeps_rest s s' -> homes s' = homes s ->
  unit_dependencies s' = unit_dependencies s ->
  cu_count cu = mat_unit_count (rd_mat ready) -> cu_legacy cu = false ->
  materializations s' = <[mark_of owner rv ready := saved ready cu completed move now]>
    (materializations s) -> well_bound s'.
Proof.
  intros W Hc (Hrev & Hres & _)%keeps_rest_tables Hh Hd Hn Hl Hm.
  destruct (current_mark _ _ W Hc) as [_ Hcount]. pose proof W as [W1 W2 W3 W4].
  split; rewrite ?Hh, ?Hd, ?Hrev, ?Hres; [done | | done |].
  - rewrite <- Hrev. eapply replaced_mark; try done.
    + unfold saved. simpl. by destruct completed.
    + rewrite (same_stage_units s s') by done. unfold saved. simpl. congruence.
    + intros. by apply same_stage_units.
  - intros k h Hk. rewrite (dependency_count_same s s') by done. by apply W4.
Qed.

(** A step that creates a unit. *)
Lemma created_well_bound s s' ready n cu uid u completed move now :
  well_bound s -> current owner rv s ready -> keeps_rest s s' -> chosen owner rv s ready n ->
  cu_count cu = mat_unit_count (rd_mat ready) ->
  created owner rv revision s s' ready n cu uid u ->
  materializations s' = <[mark_of owner rv ready :=
    saved ready (mkCursor (cu_count cu + 1) false (cu_blocked cu)) completed move now]>
    (materializations s) -> well_bound s'.
Proof.
  intros W Hc (Hrev & Hres & _)%keeps_rest_tables Hch Hn Hcr Hm.
  destruct (current_mark _ _ W Hc) as [_ Hcount]. pose proof W as [W1 W2 W3 W4].
  destruct (created_homes _ _ _ _ _ _ _ Hcr) as [Hh Hnew].
  destruct (created_place _ _ _ _ _ _ _ Hcr) as [Hur Hus].
  assert (Hplus : forall o r sid, stage_units s' o r sid
    = stage_units s o r sid + (if of_stage o r sid (owner, uid) (home u) then 1 else 0)).
  { intros o r sid. unfold stage_units. rewrite Hh. by apply count_rows_insert. }
  assert (Hdeps : u_expected_deps u = Z.of_nat (length (nu_parents n))).
  { destruct (cr_unit Hcr) as (key & now' & -> & _). simpl. unfold chosen in Hch.
    destruct (nu_reason n); [by rewrite Hch | done]. }
  split; rewrite ?Hrev, ?Hres.
  - intros k h. rewrite Hh. intros [[<- <-]|[_ Hk]]%lookup_insert_Some; [|by apply W1].
    cbn [h_revision home fst]. rewrite Hur. destruct Hc as [Hc _]. by apply (W2 _ _ _ _ Hc).
  - rewrite <- Hrev. eapply replaced_mark; try done.
    + unfold saved. simpl. by destruct completed.
    + rewrite Hplus. unfold saved, of_stage. cbn [mat_unit_count set_field]. simpl.
      rewrite Hur, Hus, !str_eqb_refl. simpl. lia.
    + intros o r sid Hne. rewrite Hplus. unfold of_stage. simpl. rewrite Hur, Hus.
      destruct (str_eqb owner o) eqn:E1, (str_eqb rv r) eqn:E2, (str_eqb (rd_id ready) sid) eqn:E3;
        simpl; try lia. apply str_eqb_true in E1, E2, E3. subst. by destruct Hne.
  - intros o r uid' rid d Hd. destruct (decide ((o, r, uid') = (owner, rv, uid))) as [[= -> -> ->]|Hne].
    + destruct (cr_rows Hcr _ _ Hd) as (i & _ & _ & [x Hx] & Hr). split.
      * exists (home u). rewrite Hh, lookup_insert_eq. done.
      * exists x. split; [done|]. by apply Hr.
    + rewrite (cr_kept Hcr) in Hd by done.
      destruct (W3 _ _ _ _ _ Hd) as [(h & Hk & ?) ?]. split; [|done]. exists h. split; [|done].
      rewrite Hh, lookup_insert_ne; [done|]. intros E. rewrite <- E in Hk. congruence.
  - intros k h. rewrite Hh. intros [[<- <-]|[Hne Hk]]%lookup_insert_Some.
    + cbn [fst snd h_revision h_deps home]. rewrite Hur, Hdeps.
      apply (cr_count Hcr).
    + rewrite (cr_counts Hcr); [by apply W4|]. destruct k. simpl in *. congruence.
Qed.
End Batch.

(** ** The steps of a materialization

    One iteration has one of three outcomes, [stepped]: the cursor moves, the
    root of a reduction is marked, or a unit is created.  Each of them keeps
    [well_bound], so every reachable store is well bound. *)

(** ** The three outcomes of a step *)

Section Steps.
Context `{Host} (owner rv : string) (revision : Revision).

(** One iteration: the cursor moves, the root of a reduction is marked, or a
    unit is created. *)
Inductive stepped (s s' : Store) (ready : Ready) : Z -> Prop :=
| moved cu completed move now :
    keeps_rest s s' -> units s' = units s -> unit_dependencies s' = unit_dependencies s ->
    cu_count cu = mat_unit_count (rd_mat ready) -> cu_legacy cu = false ->
    materializations s' = <[mark_of owner rv ready := saved ready cu completed move now]>
      (materializations s) -> stepped s s' ready 0
| rooted uid u at_ completed move now :
    keeps_rest s s' -> units s !! (owner, uid) = Some u -> u_revision u = rv ->
    u_stage u = rd_id ready ->
    units s' = <[(owner, uid) := u <| u_root := true |> <| u_updated := at_ |>]> (units s) ->
    unit_dependencies s' = unit_dependencies s ->
    materializations s' = <[mark_of owner rv ready :=
      saved ready (cursor_of ready) completed move now]> (materializations s) ->
    stepped s s' ready 0
| grown n uid u completed move now :
    keeps_rest s s' -> chosen owner rv s ready n ->
    created owner rv revision s s' ready n (cursor_of ready) uid u ->
    materializations s' = <[mark_of owner rv ready :=
      saved ready (mkCursor (mat_unit_count (rd_mat ready) + 1) false None) completed move now]>
      (materializations s) -> stepped s s' ready 1.

Lemma post_and_guar {A} (R : Store -> Store -> Prop) (m : db A) s (Q : A -> Store -> Prop) :
  guar R m -> post m s (fun a s' => R s s' -> Q a s') -> post m s Q.
Proof. intros Hm Hp a s' Hrun. exact (Hp a s' Hrun (Hm s a s' Hrun)). Qed.

Lemma rest_mark_root stage_id uid : guar keeps_rest (mark_root owner rv stage_id uid).
Proof. unfold mark_root. guar. Qed.

Lemma materialize_step_stepped s ready :
  well_bound s -> current owner rv s ready ->
  post (materialize_step owner rv revision ready) s (fun z s' => stepped s s' ready z).
Proof.
  intros W Hc. destruct (current_mark _ _ _ _ W Hc) as [Hl Hn].
  pose proof (well_bound_no_orphans s W) as Ho.
  apply step_cases.
  - intros n completed move Hch. eapply post_and_guar; [apply rest_candidate_step|].
    refine (post_candidate_step _ _ _ _ _ (cursor_of ready) _ _ _ _ Ho Hl _ _).
    + intros code now s' _ Hu Hd Hm Hk. eapply moved; [done | done | done | | | exact Hm]; done.
    + intros uid u now s' Hcr Hm Hk. eapply grown; [done | exact Hch | exact Hcr | exact Hm].
  - intros code completed move. eapply post_and_guar; [apply rest_cursor_step|].
    apply post_cursor_step. intros now s' Hu Hd Hm Hk. eapply moved; [done | done | done | | | exact Hm]; done.
  - intros row completed move Hrow.
    apply post_bind, (post_and_guar _ _ _ _ (rest_mark_root _ _)), post_mark_root.
    intros s1 row' _ Hm1 Hd1 Hr Hk1.
    eapply post_and_guar; [apply rest_cursor_step|]. apply post_cursor_step.
    intros now s' Hu Hd Hm Hk. rewrite Hm1 in Hm. rewrite Hd1 in Hd.
    assert (Hk' : keeps_rest s s') by (by etrans).
    destruct Hr as [[_ Hu1]|(u & at_ & _ & Hu1 & Hrv & Hst & Hu2)].
    + eapply moved; [done | by rewrite Hu | done | | | exact Hm]; done.
    + eapply rooted; [done | exact Hu1 | done | done | by rewrite Hu | done | exact Hm].
Qed.

Lemma homes_rooted s s' uid u at_ :
  units s !! (owner, uid) = Some u ->
  units s' = <[(owner, uid) := u <| u_root := true |> <| u_updated := at_ |>]> (units s) ->
  homes s' = homes s.
Proof. intros Hu Hu'. unfold homes. rewrite Hu'. by rewrite (fmap_insert_same _ _ _ u). Qed.

Lemma stepped_well_bound s s' ready z :
  well_bound s -> current owner rv s ready -> stepped s s' ready z -> well_bound s'.
Proof.
  intros W Hc. destruct (current_mark _ _ _ _ W Hc) as [Hl Hn]. destruct 1.
  - eapply (moved_well_bound owner rv); eauto. unfold homes. congruence.
  - eapply (moved_well_bound owner rv s s' ready (cursor_of ready)); eauto. by eapply homes_rooted.
  - eapply (created_well_bound owner rv); eauto. done.
Qed.

(** Every store inside a batch is well bound. *)
Lemma materialize_steps_well_bound more created advanced s :
  well_bound s ->
  post (materialize_steps owner rv revision more created advanced) s (fun _ s' => well_bound s').
Proof.
  intros W. eapply post_mono;
    [apply (materialize_steps_post owner rv revision (fun _ _ => well_bound)); [|exact W]|].
  - intros c a s1 ready W1 Hready. destruct (next_stage_current _ _ _ _ Hready) as [Hc _].
    eapply post_mono; [by apply materialize_step_stepped|]. intros z s2. by apply stepped_well_bound.
  - by intros r s' [? _].
Qed.
End Steps.

(** ** Reachable stores *)

(** A workload whose units may be created. *)
Definition materializing (o w : string) (s : Store) (rv : string) : Prop :=
  exists w0, workloads s !! (o, w) = Some w0 /\ w_active_revision w0 = Some rv /\
    w_state w0 ∈ [ADMITTED; QUEUED; RUNNING].

Section Reachable.
Context `{Host}.

Lemma materialize_batch_post o w n s (Q : Z * Z -> Store -> Prop) :
  ((forall rv, ~ materializing o w s rv) -> Q (0, 0) s) ->
  (forall rv revision, materializing o w s rv -> revisions s !! (o, rv) = Some revision ->
     r_workload revision = w ->
     post (materialize_steps o rv revision (Z.to_nat n) 0 0) s Q) ->
  post (materialize_batch o w n) s Q.
Proof.
  intros H0 Hrun. unfold materialize_batch. apply post_bind.
  apply post_select_workload. intros w0 Hw.
  destruct (w_active_revision w0) as [rv|] eqn:Hrv;
    [|apply post_ret, H0; intros rv (w1 & ? & ? & _); congruence].
  destruct (bool_decide _) eqn:Hst; cbn [negb].
  - apply bool_decide_eq_true in Hst.
    apply post_bind, post_gets, post_bind, post_of_option. intros revision Hr.
    apply bind_Some in Hr as (r & Hr & E). case_match eqn:Ew; [|done]. injection E as ->.
    apply str_eqb_true in Ew. apply (Hrun rv); [|done..]. by exists w0.
  - apply bool_decide_eq_false in Hst. apply post_ret, H0. intros rv' (w1 & Hw1 & _ & ?). congruence.
Qed.

Lemma batch_well_bound o w n s :
  well_bound s -> post (materialize_batch o w n) s (fun _ s' => well_bound s').
Proof. intros W. apply materialize_batch_post; [done|]. intros. by apply materialize_steps_well_bound. Qed.
End Reachable.

Lemma same_but_ticks_bound s s' : same_but_ticks s s' -> well_bound s -> well_bound s'.
Proof.
  intros Ht. apply keeps_well_bound; [| by apply same_but_ticks_keeps |];
    unfold same_but_ticks in Ht; destruct s, s'; injection Ht; intros; subst; done.
Qed.

Lemma op_step_well_bound s s' : op_step s s' -> well_bound s -> well_bound s'.
Proof.
  intros Hs W.
  assert (Hadmit : forall h o w p i t v c y ct pa uc r a,
    @admit_revision h o w p i t v c y ct pa uc r s = Ok (a, s') -> well_bound s').
  { intros * Hrun.
    destruct (post_admit _ _ _ _ _ _ _ _ _ _ _ _ _ _ _ Hrun) as (ad & _ & [(k&rv&_&_&_&_&Ht)|H]).
    - by eapply same_but_ticks_bound.
    - destruct H as (rv & now & w0 & _ & He & _). by eapply admission_well_bound. }
  destruct (op_step_plan _ _ Hs) as [Hk|[(h&o&w&p&i&t&v&c&y&ct&pa&uc&r&a&Hrun)|(h&o&w&n&a&Hrun)]].
  - destruct (op_step_lineage _ _ Hs) as [Hl|(h&o&w&p&i&t&v&c&y&ct&pa&uc&r&a&Hrun)]; [|eauto].
    apply (keeps_well_bound s); [done | done | | done].
    exact (ce_result _ _ (core_steps_evolve _ _ (op_step_refines _ _ Hs))).
  - eauto.
  - exact (batch_well_bound o w n s W a s' Hrun).
Qed.

Lemma reachable_well_bound s s' : reachable_from s s' -> well_bound s -> well_bound s'.
Proof. induction 1; eauto using op_step_well_bound. Qed.
