(* ===== verification/MaterializeProperties.v ===== *)
(** * What a materialization promises

    The theorems on the batch and on every reachable store: units of reachable
    stores are bound to exactly the results they expect, all of them committed
    results of declared parents; a batch creates what it reports and nothing
    else, never passes the cap of a stage, and stops early only when no stage
    can advance; a sweep is a sequence of committed batches. *)
From Stdlib Require Import Strings.String.
From S2P Require Import Prelude.
From S2P Require Import PyJson.
From S2P Require Import DurableModels.
From S2P Require Import DurableTables.
From S2P Require Import DurableOutbox.
From S2P Require Import DurableWorkflow.
From S2P Require Import DurableLeases.
From S2P Require Import DurableAdmission.
From S2P Require Import DurableMaterialize.
From S2P Require Import DurableSweeps.
From S2P Require Import DurableSystem.
From S2P Require Import DurableFrames.
From S2P Require Import LeaseProtocol.
From S2P Require Import DurableRefinement.
From S2P Require Import DurableLineage.
From S2P Require Import DurableHomes.
From S2P Require Import RevisionLayout.
From S2P Require Import RevisionInvariant.
From S2P Require Import MaterializeEffects.
From S2P Require Import MaterializeInvariant.
From S2P Require Import DurableFixture.
From S2P Require Import RevisionFixture.
Local Open Scope Z_scope.

(** ** What a unit consumes *)

(** A dependency row names the result of a committed unit of the same
    revision, of a stage the unit's stage depends on, or of the level below in
    the same reduction. *)
Definition consumes (s : Store) (o r uid rid : string) (d : UnitDependency) : Prop :=
  exists u pid v parent_id parent,
    units s !! (o, uid) = Some u /\ u_revision u = r /\
    units s !! (o, pid) = Some v /\ u_revision v = r /\ u_state v = U_COMMITTED /\
    u_result v = Some rid /\
    stages s !! (o, parent_id) = Some parent /\ s_revision parent = r /\
    is_Some (stage_dependencies s !! (o, r, u_stage u, parent_id)) /\
    ud_role d = s_key parent /\
    (u_stage v = parent_id \/
     (u_stage v = u_stage u /\ exists l, u_level u = Some l /\ u_level v = Some (l - 1))).

Definition all_consume (s : Store) : Prop := forall o r uid rid d,
  unit_dependencies s !! (o, r, uid, rid) = Some d -> consumes s o r uid rid d.

(** What no operation takes back: plans, places of units, committed results. *)
Record grows_lineage (s s' : Store) : Prop := {
  gl_stages : stages s ⊆ stages s';
  gl_edges : stage_dependencies s ⊆ stage_dependencies s';
  gl_units : forall k u, units s !! k = Some u ->
    exists u', units s' !! k = Some u' /\ same_identity u u' /\
      (forall rid, u_state u = U_COMMITTED -> u_result u = Some rid ->
         u_state u' = U_COMMITTED /\ u_result u' = Some rid) }.

#[export] Instance grows_lineage_preorder : PreOrder grows_lineage.
Proof.
  split.
  - intros s. split; [done | done |]. intros k u Hu. exists u. by split_and!.
  - intros s t u [A1 A2 A3] [B1 B2 B3]. split; [by etrans | by etrans |]. intros k x Hx.
    destruct (A3 _ _ Hx) as (y & Hy & Ey & Cy). destruct (B3 _ _ Hy) as (z & Hz & Ez & Cz).
    exists z. split_and!; [done | by eapply same_identity_trans |]. intros rid Hc Hr.
    destruct (Cy rid Hc Hr). by apply Cz.
Qed.

Lemma consumes_grows s s' o r uid rid d :
  grows_lineage s s' -> consumes s o r uid rid d -> consumes s' o r uid rid d.
Proof.
  intros [G1 G2 G3] (u & pid & v & parent_id & parent & Hu & Hur & Hv & Hvr & Hc & Hres & Hp & Hpr
    & [z He] & Hrole & Hplace).
  destruct (G3 _ _ Hu) as (u' & Hu' & (Eu1 & Eu2 & _ & _ & _ & Eu3 & _) & _).
  destruct (G3 _ _ Hv) as (v' & Hv' & (Ev1 & Ev2 & _ & _ & _ & Ev3 & _) & Hcv).
  destruct (Hcv rid Hc Hres) as [Hc' Hres'].
  exists u', pid, v', parent_id, parent. rewrite Eu1, Eu2, Ev1, Ev2, Eu3, Ev3.
  split_and!; try done; [by eapply lookup_weaken | exists z; by eapply lookup_weaken].
Qed.

Section Steps.
Context `{Host} (owner rv : string) (revision : Revision).

Lemma stepped_grows s s' ready z :
  stepped owner rv revision s s' ready z -> grows_lineage s s'.
Proof.
  intros Hst.
  assert (Hk : keeps_rest s s') by (by destruct Hst).
  destruct (keeps_rest_tables _ _ Hk) as (_ & _ & E1 & E2 & _).
  split; rewrite ?E1, ?E2; [done | done |]. intros k u Hu.
  destruct Hst as [? ? ? ? _ Hus | uid u0 at_ ? ? ? _ Hu0 _ _ Hus | n uid u0 ? ? ? _ _ Hcr _].
  - exists u. rewrite Hus. by split_and!.
  - rewrite Hus. destruct (decide (k = (owner, uid))) as [->|Hne].
    + rewrite lookup_insert_eq. eexists. split; [done|]. assert (u0 = u) as -> by congruence.
      by split_and!.
    + rewrite lookup_insert_ne by done. exists u. by split_and!.
  - exists u. rewrite (cr_units Hcr), lookup_insert_ne; [by split_and!|].
    intros <-. by rewrite (cr_fresh Hcr) in Hu.
Qed.

Lemma grown_consumes s s' ready n cu uid u :
  keeps_rest s s' -> chosen owner rv s ready n ->
  created owner rv revision s s' ready n cu uid u ->
  forall rid d, unit_dependencies s' !! (owner, rv, uid, rid) = Some d ->
    consumes s' owner rv uid rid d.
Proof.
  intros (_ & _ & E1 & E2 & _)%keeps_rest_tables Hch Hcr rid d Hd.
  destruct (cr_rows Hcr _ _ Hd) as (i & _ & Hi & _).
  unfold expected_bindings in Hi. rewrite list_lookup_fmap in Hi.
  destruct (nu_parents n !! i) as [p|] eqn:Hp; [|done]. injection Hi as Hrid _ _ Hrole.
  unfold chosen in Hch. destruct (nu_reason n) eqn:Hreason; [by rewrite Hch in Hp|].
  destruct Hch as [Hin Hlevel]. destruct (Forall_lookup_1 _ _ _ _ Hin Hp)
    as [Hv Hvr Hvc (rid' & r & Hpr & Hres & _) (parent_id & parent & Hst & Hsr & He & Hkey & Hplace)].
  destruct (cr_unit Hcr) as (key & now & Hu & _).
  exists u, (pa_unit_id p), (pa_unit p), parent_id, parent.
  rewrite E1, E2, (cr_units Hcr), lookup_insert_eq, lookup_insert_ne
    by (intros E; injection E as E; rewrite <- E, (cr_fresh Hcr) in Hv; done).
  rewrite Hpr in Hrid. simpl in Hrid. subst rid'.
  split_and!; try done; try (by rewrite Hu).
  - by rewrite <- Hrole.
  - destruct Hplace as [?|(Hred & Hs & Hl)]; [by left|]. right. rewrite Hu. split; [done|].
    exists (mat_level (rd_mat ready)). split; [|done]. simpl. by apply Hlevel.
Qed.

Lemma stepped_consumes s s' ready z :
  stepped owner rv revision s s' ready z -> all_consume s -> all_consume s'.
Proof.
  intros Hst Hall o r uid rid d Hd. pose proof (stepped_grows _ _ _ _ Hst) as Hg.
  destruct Hst as [? ? ? ? _ _ E | ? ? ? ? ? ? _ _ _ _ _ E | n uid' u0 ? ? ? Hk Hch Hcr _].
  1, 2: rewrite E in Hd; eapply consumes_grows; eauto.
  destruct (decide ((o, r, uid) = (owner, rv, uid'))) as [[= -> -> ->]|Hne].
  - by eapply grown_consumes.
  - rewrite (cr_kept Hcr) in Hd by done. eapply consumes_grows; eauto.
Qed.

(** Every step of a batch is one of the three outcomes. *)
Lemma materialize_steps_ind (I : Z -> Z -> Store -> Prop) more created advanced s :
  (forall created advanced s s' ready z, well_bound s -> I created advanced s ->
     next_materialization_stage owner rv s = Some ready ->
     current owner rv s ready -> stepped owner rv revision s s' ready z ->
     I (created + z) (advanced + 1) s') ->
  well_bound s -> I created advanced s ->
  post (materialize_steps owner rv revision more created advanced) s (fun r s' =>
    well_bound s' /\ I r.1 r.2 s' /\ r.2 <= advanced + Z.of_nat more /\
    (r.2 < advanced + Z.of_nat more -> next_materialization_stage owner rv s' = None)).
Proof.
  intros Hstep W HI. eapply post_mono;
    [apply (materialize_steps_post owner rv revision (fun c a s => well_bound s /\ I c a s));
      [|by split]|].
  - intros c a s1 ready [W1 I1] Hready. destruct (next_stage_current _ _ _ _ Hready) as [Hc _].
    eapply post_mono; [by apply materialize_step_stepped|]. intros z s2 Hst.
    split; [exact (stepped_well_bound _ _ _ _ _ _ _ W1 Hc Hst) | exact (Hstep _ _ _ _ _ _ W1 I1 Hready Hc Hst)].
  - intros r s' ([? ?] & ? & ?). by split_and!.
Qed.
End Steps.

Lemma batch_consumes `{Host} o w n s :
  well_bound s -> all_consume s ->
  post (materialize_batch o w n) s (fun _ s' => all_consume s').
Proof.
  intros W Hall. apply materialize_batch_post; [done|]. intros rv revision _ _ _.
  eapply post_mono; [apply (materialize_steps_ind o rv revision (fun _ _ => all_consume))|];
    [|done|done|].
  - intros. by eapply stepped_consumes.
  - by intros r s' (_ & ? & _).
Qed.

(** ** One step of the store *)

Lemma grows_subseteq `{Countable K} {V} (m m' : gmap K V) rows : grows m m' rows -> m ⊆ m'.
Proof. intros Hg. apply map_subseteq_spec. intros k v. by apply grows_old with rows. Qed.

Lemma batch_rest `{Host} o w n : guar keeps_rest (materialize_batch o w n).
Proof. apply (frame_materialize keeps_rest). Qed.

Lemma op_step_grows s s' : op_step s s' -> grows_lineage s s'.
Proof.
  intros Hs. pose proof (core_steps_evolve _ _ (op_step_refines _ _ Hs)) as [Hu _ _].
  assert (stages s ⊆ stages s' /\ stage_dependencies s ⊆ stage_dependencies s') as [G1 G2].
  { destruct (op_step_plan _ _ Hs) as [[E _]|[(h&o&w&p&i&t&v&c&y&ct&pa&uc&r&a&Hrun)|(h&o&w&n&a&Hrun)]].
    - injection E as -> _ -> _ _ _. done.
    - destruct (post_admit _ _ _ _ _ _ _ _ _ _ _ _ _ _ _ Hrun) as (ad & _ & [(k&rv&_&_&_&_&Ht)|H]).
      + unfold same_but_ticks in Ht. destruct s, s'. injection Ht; intros; subst. done.
      + destruct H as (rv & now & w0 & _ & [_ _ _ _ _ _ [rows (inv & _ & [] & _)] _] & _).
        split; by eapply grows_subseteq.
    - destruct (keeps_rest_tables _ _ (batch_rest o w n _ _ _ Hrun)) as (_ & _ & -> & -> & _). done. }
  split; [done | done |]. intros k u Hk. destruct (Hu k u Hk) as (u' & Hk' & [He _ _ Hst Hr]).
  exists u'. split_and!; [done | done |]. intros rid Hc Hres. split; [|by apply Hr].
  apply committed_sink. by rewrite <- Hc.
Qed.

Lemma op_step_consumes s s' : op_step s s' -> well_bound s -> all_consume s -> all_consume s'.
Proof.
  intros Hs W Hall. pose proof (op_step_grows _ _ Hs) as Hg.
  assert (Hsame : unit_dependencies s' = unit_dependencies s -> all_consume s').
  { intros E o r uid rid d. rewrite E. intros Hd. eapply consumes_grows; eauto. }
  destruct (op_step_plan _ _ Hs) as [[E _]|[(h&o&w&p&i&t&v&c&y&ct&pa&uc&r&a&Hrun)|(h&o&w&n&a&Hrun)]].
  - apply Hsame. by injection E.
  - apply Hsame.
    destruct (post_admit _ _ _ _ _ _ _ _ _ _ _ _ _ _ _ Hrun) as (ad & _ & [(k&rv&_&_&_&_&Ht)|H]).
    + unfold same_but_ticks in Ht. destruct s, s'. by injection Ht; intros; subst.
    + destruct H as (rv & now & w0 & _ & [_ _ _ _ _ _ _ E] & _). by injection E.
  - exact (batch_consumes o w n s W Hall a s' Hrun).
Qed.

Lemma reachable_consumes s s' :
  reachable_from s s' -> well_bound s -> all_consume s -> all_consume s'.
Proof. induction 1; eauto using op_step_consumes, op_step_well_bound. Qed.

(** ** The units of every reachable store *)

Definition units_of_stage (s : Store) (o r stage_id : string) : Z :=
  count_rows (units s) (fun k u =>
    str_eqb k.1 o && str_eqb (u_revision u) r && str_eqb (u_stage u) stage_id).

Lemma stage_units_count s o r sid : stage_units s o r sid = units_of_stage s o r sid.
Proof. unfold stage_units, homes. by rewrite count_rows_fmap. Qed.

Record bound (s : Store) : Prop := {
  bd_count : forall o uid u, units s !! (o, uid) = Some u ->
    dependency_count s o (u_revision u) uid = u_expected_deps u;
  bd_row : forall o r uid rid d, unit_dependencies s !! (o, r, uid, rid) = Some d ->
    consumes s o r uid rid d;
  bd_cursor : forall o r stage_id m, materializations s !! (o, r, stage_id) = Some m ->
    mat_unit_count m = units_of_stage s o r stage_id }.

(** C9: in every reachable store a unit has exactly as many dependency rows as
    it expects, so the claim's check of the two numbers refuses none; every
    dependency row names the result of a committed unit of the same revision,
    which belongs to a stage that the unit's stage is declared to depend on
    (or, in a reduction, to the level below), under that stage's key; and the
    unit count of every materialization cursor, which the cap of the stage is
    held against, is the number of units the stage has. *)
Theorem reachable_units_are_bound (s : Store) : reachable_from empty_store s -> bound s.
Proof.
  intros Hr. pose proof (reachable_well_bound _ _ Hr empty_well_bound) as [_ W2 _ W4].
  split.
  - intros o uid u Hu. exact (W4 _ _ (homes_lookup _ _ _ Hu)).
  - apply (reachable_consumes _ _ Hr empty_well_bound).
    intros o r uid rid d. simpl. by rewrite lookup_empty.
  - intros o r sid m Hm. destruct (W2 _ _ _ _ Hm) as (_ & _ & ->). apply stage_units_count.
Qed.

(** The unit of the last stage consumes the two results of the one before. *)
Lemma reachable_units_are_bound_witness :
  bound run_materialized /\
  map fst (map_to_list (unit_dependencies run_materialized)) =
    [("alice", "revision-1", "unt_0123456789abcdefw", "res_0123456789abcdefs");
     ("alice", "revision-1", "unt_0123456789abcdefw", "res_0123456789abcdefu")].
Proof.
  split; [exact (reachable_units_are_bound run_materialized run_materialized_reachable)|].
  exact run_bindings.
Defined.

(** ** One batch *)

(** What a batch of at most [n] steps does to the store. *)
Record batch_effect (o rv : string) (s : Store) (created advanced : Z) (s' : Store)
    : Prop := {
  be_counts : 0 <= created <= advanced;
  be_rest : keeps_rest s s';
  be_size : Z.of_nat (size (units s')) = Z.of_nat (size (units s)) + created;
  be_old : forall (k : key2) (u : Unit), units s !! k = Some u -> exists u', units s' !! k = Some u' /\
    (u' = u \/ u_revision u = rv /\ exists at_, u' = u <| u_root := true |> <| u_updated := at_ |>);
  be_new : forall (k : key2) (u : Unit), units s' !! k = Some u -> units s !! k = None ->
    k.1 = o /\ u_revision u = rv /\ u_state u ∈ [U_PENDING; U_NEEDS_ATTENTION; U_SKIPPED] /\
    u_result u = None /\ u_attempt_count u = 0;
  be_cap : forall stage_id st, stages s !! (o, stage_id) = Some st ->
    units_of_stage s' o rv stage_id <= Z.max (units_of_stage s o rv stage_id) (s_max_units st);
  be_cursors : forall (k : key3), k.1 <> (o, rv) -> materializations s' !! k = materializations s !! k }.

Lemma batch_effect_start o rv s : batch_effect o rv s 0 0 s.
Proof.
  split; try done; try lia.
  - intros k u Hu. exists u. by split; [|left].
  - intros k u Hu Hn. congruence.
Qed.

Section Effect.
Context `{Host} (o rv : string) (revision : Revision).

Lemma units_of_same s s' r sid : homes s' = homes s ->
  units_of_stage s' o r sid = units_of_stage s o r sid.
Proof. intros E. rewrite <- !stage_units_count. by apply same_stage_units. Qed.

(** A step that leaves the places of the units. *)
Lemma effect_no_unit s s1 s2 created advanced ready m' :
  batch_effect o rv s created advanced s1 -> keeps_rest s1 s2 -> homes s2 = homes s1 ->
  materializations s2 = <[mark_of o rv ready := m']> (materializations s1) ->
  (forall k u, units s1 !! k = Some u -> exists u', units s2 !! k = Some u' /\
     (u' = u \/ u_revision u = rv /\
        exists at_, u' = u <| u_root := true |> <| u_updated := at_ |>)) ->
  batch_effect o rv s (created + 0) (advanced + 1) s2.
Proof.
  intros [B1 B2 B3 B4 B5 B6 B7] Hk Hh Hm Hu. rewrite Z.add_0_r.
  assert (Hback : forall k u2, units s2 !! k = Some u2 -> exists u1, units s1 !! k = Some u1 /\
    home u2 = home u1).
  { intros k u2 H2%homes_lookup. rewrite Hh in H2. apply homes_inv in H2 as (u1 & ? & ?). eauto. }
  split.
  - lia.
  - by etrans.
  - rewrite <- B3. f_equal. rewrite <- (map_size_fmap home (units s2)), <- (map_size_fmap home (units s1)).
    unfold homes in Hh. by rewrite Hh.
  - intros k u H0. destruct (B4 k u H0) as (u1 & H1 & E1).
    destruct (Hu k u1 H1) as (u2 & H2 & E2). exists u2. split; [done|].
    destruct E1 as [->|[Er (t1 & ->)]]; [done|]. right. split; [done|].
    destruct E2 as [->|[_ (t2 & ->)]]; [by exists t1 | by exists t2].
  - intros k u2 H2 H0. destruct (Hback _ _ H2) as (u1 & H1 & _).
    destruct (B5 k u1 H1 H0) as (? & ? & ? & ? & ?). destruct (Hu k u1 H1) as (u2' & H2' & E).
    assert (u2' = u2) as -> by congruence. by destruct E as [->|[_ (t & ->)]].
  - intros sid st Hst. rewrite (units_of_same _ _ rv sid Hh). by apply B6.
  - intros k Hne. rewrite Hm, lookup_insert_ne; [by apply B7|]. intros <-. by apply Hne.
Qed.

Lemma effect_step s s1 s2 created advanced ready z :
  well_bound s1 -> current o rv s1 ready -> stepped o rv revision s1 s2 ready z ->
  batch_effect o rv s created advanced s1 ->
  batch_effect o rv s (created + z) (advanced + 1) s2.
Proof.
  intros W Hc Hst B. destruct (current_mark _ _ _ _ W Hc) as [_ Hcount].
  destruct Hst as [cu completed move now Hk Hu _ _ _ Hm
    | uid u at_ completed move now Hk Hu0 Hr Hs Hu _ Hm
    | nu uid u completed move now Hk Hch Hcr Hm].
  - eapply effect_no_unit; [done | done | unfold homes; congruence | done |].
    intros k u Hk1. exists u. rewrite Hu. by split; [|left].
  - eapply effect_no_unit; [done | done | by eapply homes_rooted | done |].
    intros k u1 Hk1. rewrite Hu. destruct (decide (k = (o, uid))) as [->|Hne].
    + rewrite lookup_insert_eq. eexists. split; [done|]. right. assert (u1 = u) as -> by congruence.
      split; [done|]. by exists at_.
    + rewrite lookup_insert_ne by done. exists u1. by split; [|left].
  - destruct B as [B1 B2 B3 B4 B5 B6 B7]. pose proof (cr_fresh Hcr) as Hfresh.
    pose proof (cr_units Hcr) as Hu. destruct (created_place _ _ _ _ _ _ _ _ _ _ Hcr) as [Hur Hus].
    split.
    + lia.
    + by etrans.
    + rewrite Hu, map_size_insert_None by done. lia.
    + intros k u0 H0. destruct (B4 k u0 H0) as (u1 & H1 & E1). exists u1. split; [|done].
      rewrite Hu, lookup_insert_ne; [done|]. intros <-. congruence.
    + intros k u2 H2 H0. rewrite Hu in H2. apply lookup_insert_Some in H2 as [[<- <-]|[_ H2]]; [|eauto].
      destruct (cr_unit Hcr) as (key & at_ & -> & _). split_and!; try done.
      simpl. unfold unavailable_state. case_match; [case_match|]; set_solver.
    + intros sid st Hst. specialize (B6 sid st Hst). unfold units_of_stage at 1.
      rewrite Hu, count_rows_insert by done. fold (units_of_stage s1 o rv sid). simpl.
      rewrite Hur, Hus, !str_eqb_refl. simpl. destruct (str_eqb (rd_id ready) sid) eqn:E; [|lia].
      apply str_eqb_true in E. subst sid. destruct Hc as (_ & Hst1 & _).
      assert (stages s1 = stages s) as E1 by (by destruct (keeps_rest_tables _ _ B2) as (_ & _ & ? & _)).
      rewrite E1, Hst in Hst1. injection Hst1 as ->. pose proof (cr_below_cap Hcr) as Hcap.
      simpl in Hcap. rewrite Hcount, stage_units_count in Hcap. lia.
    + intros k Hne. rewrite Hm, lookup_insert_ne; [by apply B7|]. intros <-. by apply Hne.
Qed.
End Effect.

(** C10: a batch of at most [n] steps reports how many units it created and how
    many steps it took.  It creates exactly that many, all of them in the
    active revision, waiting, skipped or asking for attention, and never more
    in a stage than its cap; the units that were there stay, but for the mark
    of a reduction root; nothing but units, their dependencies and the cursors
    of the revision changes.  It takes fewer than [n] steps only when no stage
    of the revision can advance, and none at all for a workload that is not
    admitted, queued or running. *)
Theorem batch_creates_what_it_reports `{Host} (o w : string) (n : Z) (s : Store)
    (created advanced : Z) (s' : Store) :
  reachable_from empty_store s -> 0 <= n ->
  materialize_batch o w n s = Ok (created, advanced, s') ->
  (exists rv, materializing o w s rv /\ batch_effect o rv s created advanced s' /\
     advanced <= n /\ (advanced < n -> next_materialization_stage o rv s' = None))
  \/ ((forall rv, ~ materializing o w s rv) /\ created = 0 /\ advanced = 0 /\ s' = s).
Proof.
  intros Hr Hn. pose proof (reachable_well_bound _ _ Hr empty_well_bound) as W. revert created advanced s'.
  assert (Hpost : post (materialize_batch o w n) s (fun r s' =>
    (exists rv, materializing o w s rv /\ batch_effect o rv s r.1 r.2 s' /\
       r.2 <= n /\ (r.2 < n -> next_materialization_stage o rv s' = None))
    \/ ((forall rv, ~ materializing o w s rv) /\ r.1 = 0 /\ r.2 = 0 /\ s' = s))).
  { apply materialize_batch_post; [by right|]. intros rv revision Hm _ _.
    eapply post_mono; [apply (materialize_steps_ind o rv revision (fun c a s' =>
      batch_effect o rv s c a s'))|]; [| done | apply batch_effect_start |].
    - intros c a s1 s2 ready z W1 B1 _ Hc Hst. by eapply effect_step.
    - intros r s' (_ & HB & H1 & H2). left. exists rv. rewrite Z2Nat.id in * by done.
      by split_and!. }
  intros created advanced s' Hrun. exact (Hpost _ _ Hrun).
Qed.

(** The run's batch of ten steps creates the one unit left and then stops. *)
Lemma batch_creates_what_it_reports_witness :
  exists rv, batch_effect "alice" rv run_settled 1 1 run_materialized /\
    next_materialization_stage "alice" rv run_materialized = None.
Proof.
  destruct (@batch_creates_what_it_reports demo_host "alice" "workload-1" 10 run_settled 1 1
    run_materialized run_settled_reachable ltac:(lia) run_batch_succeeds)
    as [(rv & _ & HB & _ & Hstop)|(_ & E & _)]; [|discriminate E].
  exists rv. split; [exact HB | apply Hstop; reflexivity].
Defined.
