(* ===== verification/Isolation.v ===== *)
(** * Invocation isolation: targets, conflicts and FIFO exclusion

    src/runtime/execution_isolation.py: the bounded canonical target sets, the
    conflict test with its [bisect] searches, and the ticket lists of
    [InvocationIsolation].  A ticket carries the identity Python gives the
    object ([eq=False]); every method body runs under the condition's lock, so
    each is one step. *)
From Stdlib Require Import Strings.Ascii Strings.String.
From S2P Require Import Prelude.
From S2P Require Import PyJson.
From S2P Require Import DurableTables.
From S2P Require Import PyStrings.
Local Open Scope Z_scope.

(** ** Targets *)

Inductive isolation_error : Type := TargetValueError (what : string).

Definition sorted_set (value : list string) : list string :=
  order_by str_leb (remove_dups value).

Definition validate_targets (value : list string) : result isolation_error (list string) :=
  if 256 <? Z.of_nat (length value)
  then Err (TargetValueError "execution targets must be a bounded tuple")
  else if existsb (fun item => str_eqb item EmptyString || has_nul item || (4096 <? py_len item)) value
  then Err (TargetValueError "execution target identity is invalid")
  else if negb (bool_decide (sorted_set value = value))
  then Err (TargetValueError "execution targets must be sorted and unique")
  else if 65536 <? foldr Z.add 0 (map byte_len value)
  then Err (TargetValueError "execution targets exceed the byte limit")
  else Ok value.

(** ** Tickets and conflicts *)

Record Ticket : Type := mkTicket {
  t_id : nat; t_executor : string; t_kind : string; t_targets : option (list string) }.

#[export] Instance Ticket_eq_dec : EqDecision Ticket.
Proof. solve_decision. Defined.

(** [candidates[bisect_left(candidates, x)]], when it is in range. *)
Definition at_bisect (candidates : list string) (x : string) : option string :=
  candidates !! bisect_left candidates x.

Definition path_prefix (path : string) : string := rstrip_slash path +:+ "/".

(** The body of the inner loop: an equal candidate, or one below the path. *)
Definition path_hit (candidates : list string) (path : string) : bool :=
  match at_bisect candidates path with Some c => str_eqb c path | None => false end
  || match at_bisect candidates (path_prefix path) with
     | Some c => startswith c (path_prefix path)
     | None => false
     end.

Definition conflicts (left right : Ticket) : bool :=
  if negb (str_eqb (t_executor left) (t_executor right)) then false
  else
    match t_targets left, t_targets right with
    | Some l, Some r =>
        if negb (str_eqb (t_kind left) (t_kind right)) then true
        else if str_eqb (t_kind left) "path"
        then existsb (path_hit r) l || existsb (path_hit l) r
        else existsb (fun x => bool_decide (x ∈ r)) l
    | _, _ => true
    end.

(** ** The lists of one isolation object *)

Record Isolation : Type := mkIsolation { active : list Ticket; waiting : list Ticket }.

Definition new_isolation : Isolation := mkIsolation [] [].

(** [list.remove] and [list.index] by identity. *)
Definition same_ticket (t u : Ticket) : bool := (t_id t =? t_id u)%nat.

Fixpoint remove_ticket (t : Ticket) (l : list Ticket) : list Ticket :=
  match l with
  | [] => []
  | u :: rest => if same_ticket t u then rest else u :: remove_ticket t rest
  end.

Fixpoint before_ticket (t : Ticket) (l : list Ticket) : list Ticket :=
  match l with
  | [] => []
  | u :: rest => if same_ticket t u then [] else u :: before_ticket t rest
  end.

(** The first statement of [acquire] under the lock. *)
Definition enter (t : Ticket) (i : Isolation) : Isolation :=
  mkIsolation (active i) (waiting i ++ [t]).

(** One turn of the loop: nobody active and nobody earlier conflicts. *)
Definition admissible (t : Ticket) (i : Isolation) : bool :=
  negb (existsb (conflicts t) (active i ++ before_ticket t (waiting i))).

Definition admit_ticket (t : Ticket) (i : Isolation) : option Isolation :=
  if admissible t i
  then Some (mkIsolation (active i ++ [t]) (remove_ticket t (waiting i)))
  else None.

(** The deadline passed: the [finally] clause alone. *)
Definition expire (t : Ticket) (i : Isolation) : Isolation :=
  mkIsolation (active i) (remove_ticket t (waiting i)).

Definition release (t : Ticket) (i : Isolation) : option Isolation :=
  if existsb (same_ticket t) (active i)
  then Some (mkIsolation (remove_ticket t (active i)) (waiting i))
  else None.

Definition counts (i : Isolation) : nat * nat := (length (active i), length (waiting i)).

(** What the threads do to the object, in any interleaving: a new ticket
    enters, a waiting one is admitted or expires, an active one is released.
    The identity of a ticket is the number of its creation. *)
Definition valid_ticket (t : Ticket) : Prop :=
  forall targets, t_targets t = Some targets -> validate_targets targets = Ok targets.

Record World : Type := mkWorld { created : nat; object : Isolation }.

Inductive iso_step : World -> World -> Prop :=
| iso_enter t n i :
    valid_ticket t -> t_id t = n -> iso_step (mkWorld n i) (mkWorld (S n) (enter t i))
| iso_admit t n i i' :
    t ∈ waiting i -> admit_ticket t i = Some i' -> iso_step (mkWorld n i) (mkWorld n i')
| iso_expire t n i : t ∈ waiting i -> iso_step (mkWorld n i) (mkWorld n (expire t i))
| iso_release t n i i' :
    t ∈ active i -> release t i = Some i' -> iso_step (mkWorld n i) (mkWorld n i').

(** ** Lemmas on the conflict test *)

Lemma Sorted_strong l : Sorted (order_of str_leb) l -> str_sorted l.
Proof.
  intros H%Sorted_StronglySorted; [exact H|]. intros a b c. unfold order_of. apply str_leb_trans.
Qed.

Lemma validate_sorted v w : validate_targets v = Ok w -> w = v /\ str_sorted v /\ NoDup v.
Proof.
  unfold validate_targets. repeat case_match; try done. intros [= <-]. split; [done|].
  match goal with H : negb (bool_decide _) = false |- _ =>
    apply negb_false_iff, bool_decide_eq_true in H; rename H into E end.
  split.
  - apply Sorted_strong. rewrite <- E. unfold sorted_set, order_by.
    apply Sorted_merge_sort. intros a b. apply str_leb_total.
  - rewrite <- E. unfold sorted_set, order_by. rewrite (merge_sort_Permutation _ _).
    apply NoDup_remove_dups.
Qed.

(** Two paths overlap when they are equal or one lies below the other. *)
Definition paths_overlap (p q : string) : Prop :=
  p = q \/ startswith q (path_prefix p) = true \/ startswith p (path_prefix q) = true.

Lemma at_bisect_equal candidates x :
  str_sorted candidates ->
  (exists c, at_bisect candidates x = Some c /\ c = x) <-> x ∈ candidates.
Proof.
  intros Hs. split.
  - intros (c & Hc & ->). by eapply list_elem_of_lookup_2.
  - intros Hx. destruct (bisect_left_least candidates x x Hs Hx (str_leb_refl x))
      as (z & Hz & H1 & H2). exists z. split; [exact Hz|]. by apply str_leb_antisym.
Qed.

Lemma at_bisect_prefix candidates p :
  str_sorted candidates ->
  (exists c, at_bisect candidates p = Some c /\ startswith c p = true) <->
  exists c, c ∈ candidates /\ startswith c p = true.
Proof.
  intros Hs. split.
  - intros (c & Hc & Hp). exists c. split; [by eapply list_elem_of_lookup_2 | done].
  - intros (c & Hc & Hp). pose proof (startswith_leb c p Hp) as Hle.
    destruct (bisect_left_least candidates p c Hs Hc Hle) as (z & Hz & H1 & H2).
    exists z. split; [exact Hz|]. by eapply startswith_between.
Qed.

Lemma path_hit_spec candidates path :
  str_sorted candidates ->
  path_hit candidates path = true <->
  exists c, c ∈ candidates /\ (c = path \/ startswith c (path_prefix path) = true).
Proof.
  intros Hs. pose proof (at_bisect_equal candidates path Hs) as He.
  pose proof (at_bisect_prefix candidates (path_prefix path) Hs) as Hp.
  unfold path_hit. rewrite orb_true_iff. split.
  - intros [H|H]; case_match; try done.
    + apply str_eqb_true in H as ->. exists path. split; [apply He; eauto | by left].
    + destruct (proj1 Hp) as (c & ? & ?); [by eauto|]. eauto.
  - intros (c & Hc & [->|Hq]).
    + left. destruct (proj2 He Hc) as (d & -> & ->). apply str_eqb_refl.
    + right. destruct (proj2 Hp) as (d & -> & ?); [by eauto|]. done.
Qed.

Lemma conflicts_sym l r : conflicts l r = conflicts r l.
Proof.
  unfold conflicts, str_eqb. rewrite (bool_decide_ext (t_executor l = _) (t_executor r = t_executor l))
    by naive_solver.
  destruct (bool_decide _); [simpl|done].
  destruct (t_targets l) as [x|], (t_targets r) as [y|]; try done.
  rewrite (bool_decide_ext (t_kind l = t_kind r) (t_kind r = t_kind l)) by naive_solver.
  case_bool_decide as Hk; [simpl|done]. rewrite Hk.
  case_bool_decide; [apply orb_comm|].
  apply eq_true_iff_eq. rewrite !existsb_exists.
  setoid_rewrite bool_decide_eq_true. setoid_rewrite <- list_elem_of_In. naive_solver.
Qed.

(** ** Lemmas on the ticket lists *)

Lemma elem_of_before t u l : u ∈ before_ticket t l -> u ∈ l.
Proof.
  induction l as [|v l IH]; simpl; [done|]. destruct (same_ticket t v); [by intros ?%elem_of_nil|].
  set_solver.
Qed.

Lemma remove_sublist t l : sublist (remove_ticket t l) l.
Proof.
  induction l as [|v l IH]; simpl; [done|]. destruct (same_ticket t v).
  - by apply sublist_cons.
  - by apply sublist_skip.
Qed.

Lemma elem_of_remove t u l : u ∈ remove_ticket t l -> u ∈ l.
Proof.
  induction l as [|v l IH]; simpl; [done|]. destruct (same_ticket t v); set_solver.
Qed.

Lemma remove_keeps t u l : t_id u <> t_id t -> u ∈ l -> u ∈ remove_ticket t l.
Proof.
  intros Hne. induction l as [|v l IH]; simpl; [done|].
  destruct (same_ticket t v) eqn:E; [|set_solver].
  apply Nat.eqb_eq in E. intros [->|H]%elem_of_cons; [congruence | done].
Qed.

Lemma remove_gone t l : NoDup (map t_id l) -> forall u, u ∈ remove_ticket t l -> t_id u <> t_id t.
Proof.
  induction l as [|v l IH]; simpl; [intros _ u ?%elem_of_nil; done|].
  intros [Hv Hnd]%NoDup_cons u. destruct (same_ticket t v) eqn:E.
  - apply Nat.eqb_eq in E. intros Hu Heq. apply Hv. rewrite <- E, <- Heq.
    by apply (list_elem_of_fmap_2 t_id l u).
  - apply Nat.eqb_neq in E. intros [->|Hu]%elem_of_cons; [congruence | by apply IH].
Qed.

Lemma remove_ids t l : sublist (map t_id (remove_ticket t l)) (map t_id l).
Proof.
  induction l as [|v l IH]; simpl; [done|]. destruct (same_ticket t v).
  - by apply sublist_cons.
  - by apply sublist_skip.
Qed.

(** Moving a waiting ticket to the active ones permutes the identities. *)
Lemma remove_perm t l : t ∈ l -> NoDup (map t_id l) -> map t_id l ≡ₚ t_id t :: map t_id (remove_ticket t l).
Proof.
  induction l as [|v l IH]; [by intros ?%elem_of_nil|]. simpl. intros Ht [Hv Hnd]%NoDup_cons.
  destruct (same_ticket t v) eqn:E.
  - by apply Nat.eqb_eq in E as ->.
  - apply Nat.eqb_neq in E. apply elem_of_cons in Ht as [->|Ht]; [done|].
    rewrite (IH Ht Hnd) at 1. apply perm_swap.
Qed.

(** ** The invariant *)

Record iso_inv (w : World) : Prop := {
  ii_ids : NoDup (map t_id (active (object w) ++ waiting (object w)));
  ii_created : forall t, t ∈ active (object w) ++ waiting (object w) -> (t_id t < created w)%nat;
  ii_exclusive : forall t u, t ∈ active (object w) -> u ∈ active (object w) ->
                             t_id t <> t_id u -> conflicts t u = false;
  ii_valid : forall t, t ∈ active (object w) ++ waiting (object w) -> valid_ticket t }.

Lemma new_isolation_inv n : iso_inv (mkWorld n new_isolation).
Proof. split; simpl; [by apply NoDup_nil | | |]; set_solver. Qed.

Lemma admissible_spec t i :
  admissible t i = true <->
  forall u, u ∈ active i ++ before_ticket t (waiting i) -> conflicts t u = false.
Proof.
  unfold admissible. rewrite negb_true_iff. split.
  - intros H u Hu. destruct (conflicts t u) eqn:E; [|done]. rewrite <- H. symmetry.
    apply existsb_exists. exists u. by rewrite <- list_elem_of_In.
  - intros H. apply not_true_is_false. intros (u & Hu & Hc)%existsb_exists.
    rewrite <- list_elem_of_In in Hu. by rewrite H in Hc.
Qed.

Lemma admit_inv t i i' :
  admit_ticket t i = Some i' -> admissible t i = true /\
  i' = mkIsolation (active i ++ [t]) (remove_ticket t (waiting i)).
Proof. unfold admit_ticket. destruct (admissible t i); [|done]. by intros [= <-]. Qed.

Lemma ticket_release_inv t i i' :
  release t i = Some i' -> i' = mkIsolation (remove_ticket t (active i)) (waiting i).
Proof. unfold release. destruct (existsb _ _); [|done]. by intros [= <-]. Qed.

Lemma iso_step_inv w w' : iso_step w w' -> iso_inv w -> iso_inv w'.
Proof.
  destruct 1 as [t n i Hv Hfresh | t n i i' Ht [Hadm ->]%admit_inv | t n i Ht
                | t n i i' Ht ->%ticket_release_inv];
    intros [I1 I2 I3 I4]; simpl in *.
  - split; simpl; [| |done|].
    + rewrite app_assoc, map_app. simpl. rewrite <- Permutation_cons_append.
      apply NoDup_cons. split; [|exact I1]. intros (u & Hu & Hin)%list_elem_of_fmap.
      specialize (I2 u Hin). lia.
    + intros u. rewrite app_assoc, elem_of_app, list_elem_of_singleton.
      intros [Hu| ->]; [specialize (I2 u Hu)|]; lia.
    + intros u. rewrite app_assoc, elem_of_app, list_elem_of_singleton. intros [Hu| ->]; auto.
  - rewrite admissible_spec in Hadm. rewrite map_app, NoDup_app in I1.
    destruct I1 as (N1 & N2 & N3).
    assert (forall u, u ∈ (active i ++ [t]) ++ remove_ticket t (waiting i) ->
                      u ∈ active i ++ waiting i) as Hsub.
    { intros u. rewrite !elem_of_app, list_elem_of_singleton.
      intros [[Hu| ->]|Hu%elem_of_remove]; auto. }
    split; simpl; auto.
    + rewrite map_app, map_app. simpl. rewrite <- app_assoc. simpl.
      rewrite <- (remove_perm t (waiting i)) by done. rewrite NoDup_app. done.
    + intros x y. rewrite !elem_of_app, !list_elem_of_singleton.
      intros [Hx| ->] [Hy| ->] Hne; [auto | | | congruence].
      * rewrite conflicts_sym. apply Hadm. set_solver.
      * apply Hadm. set_solver.
  - assert (forall u, u ∈ active i ++ remove_ticket t (waiting i) -> u ∈ active i ++ waiting i)
      as Hsub by (intros u; rewrite !elem_of_app; intros [Hu|Hu%elem_of_remove]; auto).
    split; simpl; auto.
    eapply sublist_NoDup; [exact I1|]. rewrite !map_app. apply sublist_app; [done|].
    apply remove_ids.
  - assert (forall u, u ∈ remove_ticket t (active i) ++ waiting i -> u ∈ active i ++ waiting i)
      as Hsub by (intros u; rewrite !elem_of_app; intros [Hu%elem_of_remove|Hu]; auto).
    split; simpl; auto.
    + eapply sublist_NoDup; [exact I1|]. rewrite !map_app. apply sublist_app; [|done].
      apply remove_ids.
    + intros x y Hx%elem_of_remove Hy%elem_of_remove. by apply I3.
Qed.

Lemma iso_steps_inv w w' : rtc iso_step w w' -> iso_inv w -> iso_inv w'.
Proof. induction 1; eauto using iso_step_inv. Qed.

(** ** First come, first served *)

Lemma before_app t l u : t_id u <> t_id t ->
  forall x, x ∈ before_ticket t l -> x ∈ before_ticket t (l ++ [u]).
Proof.
  intros Hne x. induction l as [|v l IH]; simpl; [by intros ?%elem_of_nil|].
  destruct (same_ticket t v); [done|]. set_solver.
Qed.

Lemma before_all t l : (forall u, u ∈ l -> t_id u <> t_id t) -> before_ticket t l = l.
Proof.
  induction l as [|v l IH]; intros H; simpl; [done|].
  destruct (same_ticket t v) eqn:E; [apply Nat.eqb_eq in E; exfalso; by apply (H v); [left|]|].
  f_equal. apply IH. intros u Hu. apply H. by right.
Qed.

Lemma before_remove t u l x :
  t_id x <> t_id u -> t_id t <> t_id u -> x ∈ before_ticket t l ->
  x ∈ before_ticket t (remove_ticket u l).
Proof.
  intros Hx Ht. induction l as [|v l IH]; simpl; [done|].
  destruct (same_ticket t v) eqn:E1; [by intros ?%elem_of_nil|].
  destruct (same_ticket u v) eqn:E2.
  - apply Nat.eqb_eq in E2. intros [->|H]%elem_of_cons; [congruence | done].
  - simpl. rewrite E1. set_solver.
Qed.

(** The order of two waiting tickets, or the departure of the earlier one. *)
Record queued_before (t u : Ticket) (w : World) : Prop := {
  qb_created : (t_id t < created w)%nat /\ (t_id u < created w)%nat;
  qb_order : t ∈ waiting (object w) ->
    u ∉ active (object w) /\
    (u ∈ waiting (object w) -> t ∈ before_ticket u (waiting (object w))) }.

Lemma same_id l x y : NoDup (map t_id l) -> x ∈ l -> y ∈ l -> t_id x = t_id y -> x = y.
Proof.
  induction l as [|v l IH]; [by intros _ ?%elem_of_nil|]. simpl.
  intros [Hv Hnd]%NoDup_cons [->|Hx]%elem_of_cons [->|Hy]%elem_of_cons E; auto; exfalso; apply Hv.
  - rewrite E. by apply (list_elem_of_fmap_2 t_id l y).
  - rewrite <- E. by apply (list_elem_of_fmap_2 t_id l x).
Qed.

Lemma queued_before_step t u w w' :
  conflicts u t = true -> iso_inv w -> iso_step w w' -> queued_before t u w -> queued_before t u w'.
Proof.
  intros Hc [I1 I2 _ _] Hstep [[Q1 Q2] Q3].
  destruct Hstep as [x n i Hv Hid | x n i i' Hx [Hadm ->]%admit_inv | x n i Hx
                    | x n i i' Hx ->%ticket_release_inv]; simpl in *; split; simpl; try lia.
  - intros Ht. apply elem_of_app in Ht as [Ht|Ht%list_elem_of_singleton]; [|subst; lia].
    destruct (Q3 Ht) as [Hact Hord]. split; [done|].
    intros Hu. apply elem_of_app in Hu as [Hu|Hu%list_elem_of_singleton]; [|subst; lia].
    apply before_app; [lia | auto].
  - intros Ht. pose proof Ht as Htw%elem_of_remove. destruct (Q3 Htw) as [Hact Hord].
    rewrite map_app, NoDup_app in I1. destruct I1 as (_ & _ & N3).
    assert (t_id t <> t_id x) as Hne by (by apply (remove_gone x (waiting i) N3)).
    destruct (decide (u = x)) as [->|Hux].
    + exfalso. rewrite admissible_spec in Hadm. rewrite (Hadm t) in Hc; [done|].
      apply elem_of_app. right. auto.
    + split; [set_solver|]. intros Hu. apply before_remove; [done| |by eapply Hord, elem_of_remove].
      by apply (remove_gone x (waiting i) N3).
  - intros Ht. pose proof Ht as Htw%elem_of_remove. destruct (Q3 Htw) as [Hact Hord].
    rewrite map_app, NoDup_app in I1. destruct I1 as (_ & _ & N3).
    split; [done|]. intros Hu. apply before_remove; [| |by eapply Hord, elem_of_remove];
      by apply (remove_gone x (waiting i) N3).
  - intros Ht. destruct (Q3 Ht) as [Hact Hord]. split; [|done]. by intros ?%elem_of_remove.
Qed.

Lemma queued_before_steps t u w w' :
  conflicts u t = true -> rtc iso_step w w' -> iso_inv w -> queued_before t u w ->
  queued_before t u w'.
Proof.
  intros Hc. induction 1 as [|a b c Hab _ IH]; [done|]. intros Hi Hq.
  apply IH; [by eapply iso_step_inv | by eapply queued_before_step].
Qed.
