(* ===== verification/IsolationProperties.v ===== *)
(** * Properties of invocation isolation

    Exclusion, first-come order, progress, and the meaning of the conflict
    test of src/runtime/execution_isolation.py. *)
From Stdlib Require Import Strings.String.
From S2P Require Import Prelude.
From S2P Require Import PyJson.
From S2P Require Import DurableTables.
From S2P Require Import PyStrings.
From S2P Require Import Isolation.
Local Open Scope Z_scope.

Definition demo_ticket (id : nat) (targets : option (list string)) : Ticket :=
  mkTicket id "write_files" "path" targets.

Lemma demo_valid id targets :
  validate_targets targets = Ok targets -> valid_ticket (demo_ticket id (Some targets)).
Proof. by intros H ts [= <-]. Qed.

(** Two disjoint writers and one that overlaps the first. *)
Definition writer_a : Ticket := demo_ticket 0 (Some ["/data/a"]).
Definition writer_b : Ticket := demo_ticket 1 (Some ["/data/b"]).
Definition writer_c : Ticket := demo_ticket 2 (Some ["/data/a/notes"]).

Definition demo_entered : World :=
  mkWorld 3 (mkIsolation [] [writer_a; writer_b; writer_c]).
Definition demo_two_active : World :=
  mkWorld 3 (mkIsolation [writer_a; writer_b] [writer_c]).

Lemma demo_entered_steps : rtc iso_step (mkWorld 0 new_isolation) demo_entered.
Proof.
  eapply rtc_l; [apply (iso_enter writer_a); [by apply demo_valid | done]|].
  eapply rtc_l; [apply (iso_enter writer_b); [by apply demo_valid | done]|].
  eapply rtc_l; [apply (iso_enter writer_c); [by apply demo_valid | done]|].
  apply rtc_refl.
Qed.

Lemma demo_two_steps : rtc iso_step demo_entered demo_two_active.
Proof.
  eapply rtc_l; [eapply (iso_admit writer_a); [left | vm_compute; reflexivity]|].
  eapply rtc_l; [eapply (iso_admit writer_b); [left | vm_compute; reflexivity]|].
  apply rtc_refl.
Qed.

(** C33: conflicting invocations never run together.  From a new object, after
    any interleaving of entries, admissions, timeouts and releases, two
    different active tickets do not conflict. *)
Theorem conflicting_never_active_together (w : World) (t u : Ticket) :
  rtc iso_step (mkWorld 0 new_isolation) w ->
  t ∈ active (object w) -> u ∈ active (object w) -> t <> u -> conflicts t u = false.
Proof.
  intros Hsteps Ht Hu Hne.
  destruct (iso_steps_inv _ _ Hsteps (new_isolation_inv 0)) as [I1 _ I3 _].
  apply I3; [done | done |]. intros E. apply Hne.
  rewrite map_app, NoDup_app in I1. destruct I1 as [N1 _]. by apply (same_id (active (object w))).
Qed.

Lemma conflicting_never_active_together_witness : conflicts writer_a writer_b = false.
Proof.
  apply (conflicting_never_active_together demo_two_active).
  - etrans; [exact demo_entered_steps | exact demo_two_steps].
  - left.
  - right. left.
  - discriminate.
Defined.

(** A later conflicting request never passes an earlier one.  If a ticket
    waits before another that conflicts with it, then whenever later the
    second is active the first is no longer waiting: it was admitted or gave
    up first. *)
Theorem conflicts_are_first_come_first_served (w w' : World) (t u : Ticket) :
  rtc iso_step (mkWorld 0 new_isolation) w -> t ∈ waiting (object w) ->
  u ∈ waiting (object w) -> t ∈ before_ticket u (waiting (object w)) ->
  conflicts u t = true -> rtc iso_step w w' -> u ∈ active (object w') ->
  t ∉ waiting (object w').
Proof.
  intros H0 Ht Hu Hb Hc H1 Hact Hwait.
  pose proof (iso_steps_inv _ _ H0 (new_isolation_inv 0)) as Hinv.
  destruct (queued_before_steps t u w w' Hc H1 Hinv) as [_ Hq].
  - destruct Hinv as [I1 I2 _ _]. split; [split; apply I2; set_solver|]. intros _.
    split; [|done]. intros Ha. rewrite map_app, NoDup_app in I1. destruct I1 as (_ & N & _).
    apply (N (t_id u)); by apply (list_elem_of_fmap_2 t_id).
  - by destruct (Hq Hwait).
Qed.

Lemma conflicts_are_first_come_first_served_witness :
  writer_a ∉ waiting (object (mkWorld 3 (mkIsolation [writer_b; writer_c] []))).
Proof.
  apply (conflicts_are_first_come_first_served demo_entered _ writer_a writer_c).
  - exact demo_entered_steps.
  - left.
  - right. right. left.
  - left.
  - vm_compute. reflexivity.
  - etrans; [exact demo_two_steps|].
    eapply rtc_l; [eapply (iso_release writer_a); [left | vm_compute; reflexivity]|].
    eapply rtc_l; [eapply (iso_admit writer_c); [left | vm_compute; reflexivity]|].
    apply rtc_refl.
  - right. left.
Defined.

(** Waiting makes progress.  A waiting ticket that conflicts with nobody
    else is admitted at once, however many others wait; and whenever tickets
    wait, either the first of them can be admitted or an active ticket
    conflicts with it, so with nothing active somebody is always admissible. *)
Theorem isolation_makes_progress (i : Isolation) :
  (forall t, t ∈ waiting i -> (forall u, u ∈ active i ++ waiting i -> u <> t -> conflicts t u = false) ->
     NoDup (map t_id (waiting i)) -> t ∉ active i -> is_Some (admit_ticket t i)) /\
  (forall t rest, waiting i = t :: rest ->
     is_Some (admit_ticket t i) \/ exists u, u ∈ active i /\ conflicts t u = true) /\
  (forall t, t ∈ active i -> is_Some (release t i)).
Proof.
  split_and!.
  - intros t Ht Hfree Hnd Hna. unfold admit_ticket.
    assert (admissible t i = true) as ->; [|by eauto]. apply admissible_spec. intros u Hu.
    apply Hfree.
    + apply elem_of_app in Hu as [Hu|Hu%elem_of_before]; set_solver.
    + intros ->. apply elem_of_app in Hu as [Hu|Hu]; [done|].
      clear - Hu. induction (waiting i) as [|v l IH]; simpl in *; [by apply elem_of_nil in Hu|].
      unfold same_ticket in Hu. destruct (Nat.eqb_spec (t_id t) (t_id v)) as [E|E];
        [by apply elem_of_nil in Hu|].
      apply elem_of_cons in Hu as [->|Hu]; [done | by apply IH].
  - intros t rest Hw. unfold admit_ticket. destruct (admissible t i) eqn:E; [left; by eauto|right].
    unfold admissible in E. apply negb_false_iff, existsb_exists in E as (u & Hu & Hc).
    rewrite Hw in Hu. simpl in Hu. unfold same_ticket in Hu. rewrite Nat.eqb_refl, app_nil_r in Hu.
    exists u. by rewrite list_elem_of_In.
  - intros t Ht. unfold release.
    assert (existsb (same_ticket t) (active i) = true) as ->; [|by eauto].
    apply existsb_exists. exists t. split; [by apply list_elem_of_In | apply Nat.eqb_refl].
Qed.

Lemma isolation_makes_progress_witness : is_Some (admit_ticket writer_b (object demo_entered)).
Proof.
  apply (proj1 (isolation_makes_progress (object demo_entered))).
  - right. left.
  - intros u Hu Hne. repeat (apply elem_of_cons in Hu as [->|Hu]; [try done; vm_compute; reflexivity|]).
    by apply elem_of_nil in Hu.
  - apply (bool_decide_unpack _). vm_compute. exact I.
  - apply not_elem_of_nil.
Defined.

(** C36: the path conflict test is exact.  For two valid path tickets of one
    executor the binary searches report a conflict if and only if some path of
    one equals, contains or lies below some path of the other, and the test is
    symmetric for all tickets. *)
Theorem path_conflicts_are_exact (l r : Ticket) (xs ys : list string) :
  conflicts l r = conflicts r l /\
  (t_executor l = t_executor r -> t_kind l = "path" -> t_kind r = "path" ->
   t_targets l = Some xs -> t_targets r = Some ys ->
   validate_targets xs = Ok xs -> validate_targets ys = Ok ys ->
   (conflicts l r = true <-> exists p q, p ∈ xs /\ q ∈ ys /\ paths_overlap p q)).
Proof.
  split; [apply conflicts_sym|].
  intros He Hkl Hkr Hl Hr (_ & Hxs & _)%validate_sorted (_ & Hys & _)%validate_sorted.
  unfold conflicts. rewrite He, Hl, Hr, Hkl, Hkr, !str_eqb_refl. simpl. rewrite orb_true_iff, !existsb_exists.
  split.
  - intros [(p & Hp & Hhit)|(q & Hq & Hhit)]; apply path_hit_spec in Hhit as (c & Hc & Hov);
      try done; [exists p, c | exists c, q]; rewrite !list_elem_of_In in *;
      (split; [done | split; [done|]]); unfold paths_overlap; destruct Hov as [->|Hov]; auto.
  - intros (p & q & Hp & Hq & [->|[Hov|Hov]]); rewrite list_elem_of_In in *.
    + left. exists q. split; [done|]. apply path_hit_spec; [done|]. exists q.
      rewrite list_elem_of_In. by split; [|left].
    + left. exists p. split; [done|]. apply path_hit_spec; [done|]. exists q.
      rewrite list_elem_of_In. by split; [|right].
    + right. exists q. split; [done|]. apply path_hit_spec; [done|]. exists p.
      rewrite list_elem_of_In. by split; [|right].
Qed.

Lemma path_conflicts_are_exact_witness :
  conflicts writer_a writer_c = true <->
  exists p q, p ∈ ["/data/a"] /\ q ∈ ["/data/a/notes"] /\ paths_overlap p q.
Proof.
  exact (proj2 (path_conflicts_are_exact writer_a writer_c ["/data/a"] ["/data/a/notes"])
    eq_refl eq_refl eq_refl eq_refl eq_refl eq_refl eq_refl).
Defined.
