(* ===== verification/FairGate.v ===== *)
(** * The fair gate of the executor scheduler

    [_FairTicket] and [_FairGate] of src/runtime/executor_scheduler.py: bounded
    admission with owner round-robin and a locally bounded preference for high
    priority.  Each method runs under the gate's condition; [acquire] is the
    entry, the test that ends its wait, and the timeout branch. *)
From Stdlib Require Import Strings.String.
From S2P Require Import Prelude.
From S2P Require Import PyJson.
Local Open Scope Z_scope.

Definition MAX_FAIR_WAITERS : Z := 4096.
Definition MAX_PRIORITY_BURST : Z := 2.

(** A ticket object; its mutable [granted] flag is in the gate, by identity. *)
Record FairTicket : Type := mkFairTicket { ft_id : nat; ft_owner : string; ft_priority : string }.

#[export] Instance FairTicket_eq_dec : EqDecision FairTicket.
Proof. solve_decision. Defined.

Record Gate : Type := mkGate {
  capacity : Z;
  g_active : Z;
  g_waiters : Z;
  queues : gmap string (list FairTicket);
  owners : list string;
  bursts : gmap string Z;
  granted : gset nat }.

#[export] Instance eta_Gate : Settable Gate := fun g =>
  mkGate (capacity g) (g_active g) (g_waiters g) (queues g) (owners g) (bursts g) (granted g).

(** [__init__]. *)
Definition new_gate (n : Z) : Gate := mkGate (Z.max 1 n) 0 0 ∅ [] ∅ ∅.

Inductive gate_error : Type :=
| SchedulerAdmissionTimeout (what : string)
| ReleaseWithoutAcquisition.

(** The comparison the dataclass derives: owner, priority and granted flag. *)
Definition ticket_eq (g : Gate) (t u : FairTicket) : bool :=
  str_eqb (ft_owner t) (ft_owner u) && str_eqb (ft_priority t) (ft_priority u)
  && Bool.eqb (bool_decide (ft_id t ∈ granted g)) (bool_decide (ft_id u ∈ granted g)).

Definition is_high (t : FairTicket) : bool := str_eqb (ft_priority t) "high".

(** [next((index for index, t in enumerate(queue) if p(t)), None)]. *)
Fixpoint index_of (p : FairTicket -> bool) (queue : list FairTicket) : option nat :=
  match queue with
  | [] => None
  | t :: rest => if p t then Some O else S <$> index_of p rest
  end.

(** [_pick]: the selected index and the new burst of the owner. *)
Definition select (queue : list FairTicket) (burst : Z) : nat * Z :=
  let high_index := index_of is_high queue in
  let non_high_index := index_of (fun t => negb (is_high t)) queue in
  match high_index with
  | Some h =>
      if (burst <? MAX_PRIORITY_BURST) || bool_decide (non_high_index = None)
      then (h, burst + 1) else (default O non_high_index, 0)
  | None => (default O non_high_index, 0)
  end.

(** One turn of the loop of [_grant]. *)
Definition grant_one (g : Gate) : Gate :=
  match owners g with
  | [] => g
  | owner :: rest =>
      let queue := default [] (queues g !! owner) in
      let '(i, burst) := select queue (default 0 (bursts g !! owner)) in
      match queue !! i with
      | None => g <| owners := rest |> <| queues := delete owner (queues g) |>
                  <| bursts := delete owner (bursts g) |>
      | Some ticket =>
          let left := delete i queue in
          let g' := g <| granted := {[ ft_id ticket ]} ∪ granted g |>
                      <| g_active := g_active g + 1 |> <| g_waiters := g_waiters g - 1 |> in
          match left with
          | [] => g' <| owners := rest |> <| queues := delete owner (queues g) |>
                     <| bursts := delete owner (bursts g) |>
          | _ => g' <| owners := rest ++ [owner] |> <| queues := <[owner := left]> (queues g) |>
                    <| bursts := <[owner := burst]> (bursts g) |>
          end
      end
  end.

(** [while self._active < self.capacity and self._owners]; every turn takes a
    slot or drops an owner, so the fuel is the free slots and the owners. *)
Fixpoint grant_loop (fuel : nat) (g : Gate) : Gate :=
  match fuel with
  | O => g
  | S n =>
      if (g_active g <? capacity g) && negb (bool_decide (owners g = []))
      then grant_loop n (grant_one g) else g
  end.

Definition grant (g : Gate) : Gate :=
  grant_loop (Z.to_nat (capacity g - g_active g) + length (owners g)) g.

(** [acquire] up to its wait. *)
Definition acquire_enter (t : FairTicket) (g : Gate) : result gate_error Gate :=
  if MAX_FAIR_WAITERS <=? g_waiters g
  then Err (SchedulerAdmissionTimeout "scheduler fair queue is full")
  else
    let queue := default [] (queues g !! ft_owner t) in
    Ok (grant (g <| owners := match queue with [] => owners g ++ [ft_owner t] | _ => owners g end |>
                 <| queues := <[ft_owner t := queue ++ [t]]> (queues g) |>
                 <| g_waiters := g_waiters g + 1 |>)).

(** The condition that ends the wait with [True]. *)
Definition is_granted (t : FairTicket) (g : Gate) : bool := bool_decide (ft_id t ∈ granted g).

(** [queue.remove(ticket)]: the first equal element. *)
Fixpoint remove_equal (g : Gate) (t : FairTicket) (queue : list FairTicket) : list FairTicket :=
  match queue with
  | [] => []
  | u :: rest => if ticket_eq g u t then rest else u :: remove_equal g t rest
  end.

(** [deque.remove], its [ValueError] ignored. *)
Fixpoint remove_owner (o : string) (l : list string) : list string :=
  match l with
  | [] => []
  | x :: rest => if str_eqb x o then rest else x :: remove_owner o rest
  end.

(** The deadline passed while the ticket was not granted. *)
Definition acquire_timeout (t : FairTicket) (g : Gate) : Gate :=
  let queue := default [] (queues g !! ft_owner t) in
  if existsb (fun u => ticket_eq g u t) queue then
    let left := remove_equal g t queue in
    let g := g <| g_waiters := g_waiters g - 1 |> in
    grant (match left with
           | [] => g <| queues := delete (ft_owner t) (queues g) |>
                     <| bursts := delete (ft_owner t) (bursts g) |>
                     <| owners := remove_owner (ft_owner t) (owners g) |>
           | _ => g <| queues := <[ft_owner t := left]> (queues g) |>
           end)
  else grant g.

Definition gate_release (g : Gate) : result gate_error Gate :=
  if g_active g <=? 0 then Err ReleaseWithoutAcquisition
  else Ok (grant (g <| g_active := g_active g - 1 |>)).

(** The waiting requests, in any interleaving of threads. *)
Inductive gate_step : Gate -> Gate -> Prop :=
| gate_enter t g g' :
    ft_id t ∉ granted g -> (forall o q u, queues g !! o = Some q -> u ∈ q -> ft_id u <> ft_id t) ->
    acquire_enter t g = Ok g' -> gate_step g g'
| gate_timeout t g : is_granted t g = false -> gate_step g (acquire_timeout t g)
| gate_released g g' : gate_release g = Ok g' -> gate_step g g'.

(** ** Queues *)

Definition queued (m : gmap string (list FairTicket)) : Z :=
  map_fold (fun _ q n => Z.of_nat (length q) + n) 0 m.

Lemma queued_insert_none m o q :
  m !! o = None -> queued (<[o := q]> m) = Z.of_nat (length q) + queued m.
Proof. intros Hm. unfold queued. rewrite map_fold_insert_L; [done | intros; lia | done]. Qed.

Lemma queued_delete m o q :
  m !! o = Some q -> queued m = Z.of_nat (length q) + queued (delete o m).
Proof. intros Hm. unfold queued. rewrite (map_fold_delete_L _ _ o q); [done | intros; lia | done]. Qed.

Lemma queued_insert m o q q' :
  m !! o = Some q -> queued (<[o := q']> m) = queued m - Z.of_nat (length q) + Z.of_nat (length q').
Proof.
  intros Hm. rewrite (queued_delete m o q Hm).
  rewrite <- insert_delete_eq, queued_insert_none by apply lookup_delete_eq. lia.
Qed.

Lemma index_of_lookup p queue i :
  index_of p queue = Some i -> exists t, queue !! i = Some t /\ p t = true.
Proof.
  revert i. induction queue as [|t queue IH]; [done|]. simpl. intros i.
  destruct (p t) eqn:E; [intros [= <-]; by eauto|].
  intros (j & Hj & ->)%fmap_Some. by apply IH.
Qed.

Lemma index_of_None p queue : index_of p queue = None <-> forall t, t ∈ queue -> p t = false.
Proof.
  induction queue as [|t queue IH]; simpl; [split; [by intros _ t ?%elem_of_nil | done]|].
  destruct (p t) eqn:E.
  - split; [done|]. intros H. rewrite H in E; [done | left].
  - rewrite fmap_None, IH. split; [intros H u [->|Hu]%elem_of_cons; auto | set_solver].
Qed.

Lemma select_in_range queue burst :
  queue <> [] -> is_Some (queue !! (select queue burst).1).
Proof.
  intros Hq. unfold select.
  assert (forall i, index_of (fun t => negb (is_high t)) queue = Some i -> is_Some (queue !! i)) as Hn
    by (intros i (t & -> & _)%index_of_lookup; by eauto).
  destruct (index_of is_high queue) as [h|] eqn:Eh.
  - pose proof Eh as (t & Ht & _)%index_of_lookup.
    destruct (index_of (fun t => negb (is_high t)) queue) as [i|] eqn:En; simpl.
    + destruct (_ || _); simpl; [rewrite Ht; by eauto | by apply Hn].
    + rewrite orb_true_r. simpl. rewrite Ht. by eauto.
  - destruct (index_of (fun t => negb (is_high t)) queue) as [i|] eqn:En; simpl; [by apply Hn|].
    destruct queue as [|t queue]; [done|]. by eauto.
Qed.

(** ** The invariant *)

Record gate_ok (g : Gate) : Prop := {
  go_capacity : 1 <= capacity g;
  go_active : 0 <= g_active g <= capacity g;
  go_waiters : g_waiters g = queued (queues g);
  go_owners : NoDup (owners g) /\ forall o, o ∈ owners g <-> is_Some (queues g !! o);
  go_queues : forall o q, queues g !! o = Some q ->
                q <> [] /\ forall t, t ∈ q -> ft_owner t = o }.

(** Work conserving: a free slot only when nobody waits. *)
Definition busy (g : Gate) : Prop := g_active g = capacity g \/ owners g = [].

Definition gate_inv (g : Gate) : Prop := gate_ok g /\ busy g /\ g_waiters g <= MAX_FAIR_WAITERS.

Lemma queue_of_owner g o : gate_ok g -> o ∈ owners g ->
  exists q, queues g !! o = Some q /\ q <> [].
Proof.
  intros [_ _ _ [_ Ho] Hq] [q Hqo]%Ho. exists q. split; [done|]. by apply (Hq o q).
Qed.

Lemma delete_length {A} (l : list A) i x : l !! i = Some x -> S (length (delete i l)) = length l.
Proof.
  intros Hi. pose proof (lookup_lt_Some _ _ _ Hi). rewrite (length_delete l i); [lia | by eauto].
Qed.

Lemma elem_of_delete {A} (l : list A) i x : x ∈ delete i l -> x ∈ l.
Proof.
  rewrite delete_take_drop. intros [H|H]%elem_of_app.
  - rewrite <- (take_drop i l). set_solver.
  - rewrite <- (take_drop (S i) l). set_solver.
Qed.

(** What one turn of the loop grants. *)
Definition grants (g : Gate) (o : string) (q : list FairTicket) (t : FairTicket) (g' : Gate) : Prop :=
  exists i burst, select q (default 0 (bursts g !! o)) = (i, burst) /\ q !! i = Some t /\
    granted g' = {[ ft_id t ]} ∪ granted g /\ g_active g' = g_active g + 1 /\
    g_waiters g' = g_waiters g - 1 /\ capacity g' = capacity g /\
    ((delete i q = [] /\ owners g' = tail (owners g) /\ queues g' = delete o (queues g)) \/
     (delete i q <> [] /\ owners g' = tail (owners g) ++ [o] /\
      queues g' = <[o := delete i q]> (queues g) /\ bursts g' = <[o := burst]> (bursts g))).

Lemma grant_one_spec g o rest :
  gate_ok g -> owners g = o :: rest ->
  exists q t, queues g !! o = Some q /\ grants g o q t (grant_one g).
Proof.
  intros Hok Ho. destruct (queue_of_owner g o Hok) as (q & Hq & Hne); [rewrite Ho; left|].
  destruct (select_in_range q (default 0 (bursts g !! o)) Hne) as [t Ht].
  exists q, t. split; [done|]. unfold grants, grant_one. rewrite Ho, Hq. simpl.
  destruct (select q _) as [i burst]. simpl in Ht. exists i, burst. rewrite Ht.
  split_and!; try done; destruct (delete i q) eqn:E; try done; [by left | by right].
Qed.

Lemma grant_one_ok g o rest :
  gate_ok g -> owners g = o :: rest -> g_active g < capacity g -> gate_ok (grant_one g).
Proof.
  intros Hok Ho Hlt. destruct (grant_one_spec g o rest Hok Ho)
    as (q & t & Hq & i & burst & Hs & Hi & _ & Ea & Ew & Ec & Hcases).
  pose proof (delete_length q i t Hi) as Hlen.
  destruct Hok as [H1 H2 H3 [H4 H5] H6]. rewrite Ho in H4. apply NoDup_cons in H4 as [Hn Hnd].
  rewrite Ho in Hcases. simpl in Hcases.
  destruct Hcases as [(Hd & Eo & Eq)|(Hd & Eo & Eq & _)]; split; rewrite ?Ec, ?Ea, ?Ew, ?Eo, ?Eq;
    try lia.
  - rewrite H3, (queued_delete _ o q Hq). rewrite Hd in Hlen. simpl in Hlen. lia.
  - split; [done|]. intros o'. destruct (decide (o' = o)) as [->|Hne].
    + rewrite lookup_delete_eq. split; [done | by intros []].
    + rewrite lookup_delete_ne by done. rewrite <- H5, Ho. set_solver.
  - intros o' q' [_ Hq']%lookup_delete_Some. by apply H6.
  - rewrite H3, (queued_insert _ o q _ Hq). lia.
  - split.
    + rewrite <- Permutation_cons_append. by apply NoDup_cons.
    + intros o'. rewrite elem_of_app, list_elem_of_singleton. destruct (decide (o' = o)) as [->|Hne].
      * rewrite lookup_insert_eq. split; [by eauto | by right].
      * rewrite lookup_insert_ne by done. rewrite <- H5, Ho. set_solver.
  - intros o' q' [[<- <-]|[_ Hq']]%lookup_insert_Some; [|by apply H6].
    split; [done|]. intros u Hu%elem_of_delete. by apply (H6 o q Hq).
Qed.

(** Enough fuel: the loop stops because its condition is false. *)
Lemma grant_loop_inv fuel : forall g,
  gate_ok g -> (Z.to_nat (capacity g - g_active g) <= fuel)%nat ->
  gate_ok (grant_loop fuel g) /\ busy (grant_loop fuel g) /\
  capacity (grant_loop fuel g) = capacity g /\ g_waiters (grant_loop fuel g) <= g_waiters g /\
  granted g ⊆ granted (grant_loop fuel g).
Proof.
  induction fuel as [|n IH]; intros g Hok Hf; simpl.
  - split_and!; try done. left. destruct Hok. lia.
  - destruct (Z.ltb_spec (g_active g) (capacity g)) as [Hlt|Hge]; simpl.
    + destruct (owners g) as [|o rest] eqn:Ho; simpl; [split_and!; try done; by right|].
      destruct (grant_one_spec g o rest Hok Ho) as (q & t & _ & i & b & _ & _ & Eg & Ea & Ew & Ec & _).
      destruct (IH (grant_one g)) as (R1 & R2 & R3 & R4 & R5).
      * by apply (grant_one_ok g o rest).
      * rewrite Ea, Ec. lia.
      * split_and!; try done; [congruence | lia |]. rewrite Eg in R5. set_solver.
    + split_and!; try done. left. destruct Hok. lia.
Qed.

Lemma grant_inv g :
  gate_ok g ->
  gate_ok (grant g) /\ busy (grant g) /\ capacity (grant g) = capacity g /\
  g_waiters (grant g) <= g_waiters g /\ granted g ⊆ granted (grant g).
Proof. intros Hok. apply grant_loop_inv; [done|]. lia. Qed.

Lemma enter_ok t g :
  gate_ok g -> gate_ok (g
    <| owners := match default [] (queues g !! ft_owner t) with
                 | [] => owners g ++ [ft_owner t] | _ => owners g end |>
    <| queues := <[ft_owner t := default [] (queues g !! ft_owner t) ++ [t]]> (queues g) |>
    <| g_waiters := g_waiters g + 1 |>).
Proof.
  intros [H1 H2 H3 [H4 H5] H6]. destruct (queues g !! ft_owner t) as [q|] eqn:Hq; simpl.
  - destruct (H6 _ _ Hq) as [Hne Hall]. destruct q as [|u q]; [done|]. split; simpl; try done.
    + rewrite H3, (queued_insert _ _ _ _ Hq). cbn [length]. rewrite length_app. simpl. lia.
    + split; [done|]. intros o. destruct (decide (o = ft_owner t)) as [->|Hne'].
      * rewrite lookup_insert_eq, H5, Hq. split; by eauto.
      * by rewrite lookup_insert_ne.
    + intros o q' [[<- <-]|[_ Hq']]%lookup_insert_Some; [|by apply H6].
      split; [done|]. intros v. rewrite app_comm_cons, elem_of_app, list_elem_of_singleton.
      intros [Hv| ->]; auto.
  - assert (ft_owner t ∉ owners g) as Hni by (rewrite H5, Hq; by intros []).
    split; simpl; try done.
    + rewrite H3, queued_insert_none by done. simpl. lia.
    + split.
      * rewrite <- Permutation_cons_append. by apply NoDup_cons.
      * intros o. rewrite elem_of_app, list_elem_of_singleton.
        destruct (decide (o = ft_owner t)) as [->|Hne'].
        -- rewrite lookup_insert_eq. split; [by eauto | by right].
        -- rewrite lookup_insert_ne by done. rewrite <- H5. set_solver.
    + intros o q' [[<- <-]|[_ Hq']]%lookup_insert_Some; [|by apply H6].
      split; [done|]. by intros v ->%list_elem_of_singleton.
Qed.

Lemma remove_equal_length g t q :
  existsb (fun u => ticket_eq g u t) q = true -> S (length (remove_equal g t q)) = length q.
Proof.
  induction q as [|u q IH]; simpl; [done|]. destruct (ticket_eq g u t); simpl; [done|].
  intros H. by rewrite IH.
Qed.

Lemma elem_of_remove_equal g t q u : u ∈ remove_equal g t q -> u ∈ q.
Proof.
  induction q as [|v q IH]; simpl; [done|]. destruct (ticket_eq g v t); set_solver.
Qed.

Lemma remove_owner_spec o l :
  NoDup l -> NoDup (remove_owner o l) /\ forall x, x ∈ remove_owner o l <-> x ∈ l /\ x <> o.
Proof.
  induction l as [|y l IH]; simpl; [split; [done | set_solver]|].
  intros [Hy Hnd]%NoDup_cons. destruct (IH Hnd) as [IH1 IH2].
  unfold str_eqb. case_bool_decide as E; [subst; set_solver|].
  split; [|set_solver]. apply NoDup_cons. split; [|done]. intros [H _]%IH2. done.
Qed.

Lemma remove_equal_sublist g t q : sublist (remove_equal g t q) q.
Proof.
  induction q as [|u q IH]; simpl; [constructor|]. destruct (ticket_eq g u t); by constructor.
Qed.

(** The timeout takes tickets away, at most one, and grants as usual. *)
Lemma timeout_grants t g :
  gate_ok g -> exists g1, acquire_timeout t g = grant g1 /\ gate_ok g1 /\
    g_waiters g1 <= g_waiters g /\ granted g1 = granted g /\ g_active g1 = g_active g /\
    capacity g1 = capacity g /\
    forall o q, queues g1 !! o = Some q -> exists q0, queues g !! o = Some q0 /\ sublist q q0.
Proof.
  intros Hok. unfold acquire_timeout. destruct (existsb _ _) eqn:He.
  - destruct (queues g !! ft_owner t) as [q|] eqn:Hq; [|done]. simpl in *.
    pose proof (remove_equal_length g t q He) as Hlen.
    pose proof (remove_equal_sublist g t q) as Hsub.
    destruct Hok as [H1 H2 H3 [H4 H5] H6]. destruct (H6 _ _ Hq) as [_ Hall].
    destruct (remove_equal g t q) as [|u left] eqn:El; eexists; (split; [reflexivity|]);
      (split; [split; simpl; try done|split_and!; simpl; try done; try lia]).
    + rewrite H3, (queued_delete _ _ q Hq). simpl in Hlen. lia.
    + destruct (remove_owner_spec (ft_owner t) (owners g) H4) as [N1 N2]. split; [done|].
      intros o. rewrite N2, H5. destruct (decide (o = ft_owner t)) as [->|Hne].
      * rewrite lookup_delete_eq. split; [by intros [_ []] | by intros []].
      * rewrite lookup_delete_ne by done. tauto.
    + intros o q' [_ Hq']%lookup_delete_Some. by apply H6.
    + intros o q' [_ Hq']%lookup_delete_Some. by exists q'.
    + rewrite H3, (queued_insert _ _ q _ Hq). simpl in *. lia.
    + split; [done|]. intros o. rewrite H5. destruct (decide (o = ft_owner t)) as [->|Hne].
      * rewrite lookup_insert_eq, Hq. split; by eauto.
      * by rewrite lookup_insert_ne.
    + intros o q' [[<- <-]|[_ Hq']]%lookup_insert_Some; [|by apply H6].
      split; [done|]. intros v Hv. apply Hall, (elem_of_remove_equal g t). by rewrite El.
    + intros o q' [[<- <-]|[_ Hq']]%lookup_insert_Some; [by exists q | by exists q'].
  - exists g. split_and!; try done. intros o q Hq. by exists q.
Qed.

Lemma timeout_inv t g : gate_inv g -> gate_inv (acquire_timeout t g).
Proof.
  intros (Hok & Hbusy & Hw). destruct (timeout_grants t g Hok) as (g1 & -> & H1 & H2 & _).
  destruct (grant_inv g1 H1) as (R1 & R2 & _ & R4 & _). split_and!; [done | done | lia].
Qed.

Lemma enter_inv t g g' : gate_inv g -> acquire_enter t g = Ok g' -> gate_inv g'.
Proof.
  intros (Hok & _ & Hw). unfold acquire_enter. destruct (Z.leb_spec MAX_FAIR_WAITERS (g_waiters g)); [done|].
  intros [= <-]. destruct (grant_inv _ (enter_ok t g Hok)) as (R1 & R2 & _ & R4 & _).
  split_and!; [exact R1 | exact R2 |]. etrans; [exact R4|]. simpl. lia.
Qed.

Lemma release_step_inv g g' : gate_inv g -> gate_release g = Ok g' -> gate_inv g'.
Proof.
  intros (Hok & _ & Hw). unfold gate_release. destruct (Z.leb_spec (g_active g) 0); [done|].
  intros [= <-]. assert (gate_ok (g <| g_active := g_active g - 1 |>)) as Hok'.
  { destruct Hok as [H1 H2 H3 H4 H5]. split; simpl; try done. lia. }
  destruct (grant_inv _ Hok') as (R1 & R2 & _ & R4 & _).
  split_and!; [exact R1 | exact R2 |]. etrans; [exact R4|]. done.
Qed.

Lemma gate_step_inv g g' : gate_step g g' -> gate_inv g -> gate_inv g'.
Proof.
  destruct 1; intros Hi; [by eapply enter_inv | by apply timeout_inv | by eapply release_step_inv].
Qed.

Lemma gate_steps_inv g g' : rtc gate_step g g' -> gate_inv g -> gate_inv g'.
Proof. induction 1; eauto using gate_step_inv. Qed.

Lemma new_gate_inv n : gate_inv (new_gate n).
Proof.
  split_and!; [|by right | simpl; unfold MAX_FAIR_WAITERS; lia].
  split; simpl; try lia; try done.
  split; [by apply NoDup_nil|]. intros o. rewrite lookup_empty. split; [set_solver | by intros []].
Qed.

(** ** Rounds *)

(** The loop body iterated, as long as it is enabled. *)
Fixpoint turns (n : nat) (g : Gate) : Gate :=
  match n with O => g | S m => turns m (grant_one g) end.

Lemma turn_rotates g o rest :
  gate_ok g -> owners g = o :: rest -> g_active g < capacity g ->
  gate_ok (grant_one g) /\ g_active (grant_one g) = g_active g + 1 /\
  capacity (grant_one g) = capacity g /\
  exists tl, owners (grant_one g) = rest ++ tl /\ (tl = [] \/ tl = [o]) /\
    forall o', o' <> o -> queues (grant_one g) !! o' = queues g !! o'.
Proof.
  intros Hok Ho Hlt. split; [by eapply grant_one_ok|].
  destruct (grant_one_spec g o rest Hok Ho)
    as (q & t & Hq & i & b & _ & _ & _ & Ea & _ & Ec & Hcases). split_and!; try done.
  rewrite Ho in Hcases. destruct Hcases as [(_ & Eo & Eq)|(_ & Eo & Eq & _)]; simpl in Eo.
  - exists []. rewrite app_nil_r. split_and!; [done | by left |]. intros o' Hne. rewrite Eq.
    by rewrite lookup_delete_ne.
  - exists [o]. split_and!; [done | by right |]. intros o' Hne. rewrite Eq.
    by rewrite lookup_insert_ne.
Qed.

(** After as many turns as there are owners ahead, it is the owner's turn, and
    its queue is as it was. *)
Lemma turns_reach pre : forall g o post,
  gate_ok g -> owners g = pre ++ o :: post ->
  g_active g + Z.of_nat (length pre) <= capacity g ->
  let g' := turns (length pre) g in
  gate_ok g' /\ (exists tl, owners g' = o :: tl) /\ queues g' !! o = queues g !! o /\
  g_active g' = g_active g + Z.of_nat (length pre) /\ capacity g' = capacity g.
Proof.
  induction pre as [|x pre IH]; intros g o post Hok Ho Hroom; simpl in *.
  - split_and!; try done; [by eexists | lia].
  - destruct (turn_rotates g x (pre ++ o :: post) Hok Ho) as (Hok' & Ea & Ec & tl & Eo & _ & Eq); [lia|].
    assert (x <> o) as Hxo.
    { destruct Hok as [_ _ _ [Hnd _] _]. rewrite Ho in Hnd. apply NoDup_cons in Hnd as [Hn _].
      set_solver. }
    destruct (IH (grant_one g) o (post ++ tl) Hok') as (R1 & R2 & R3 & R4 & R5).
    + rewrite Eo. by rewrite <- app_assoc.
    + lia.
    + split_and!; try done; [by rewrite R3, Eq | lia | congruence].
Qed.
