(* ===== verification/FairGateProperties.v ===== *)
(** * Properties of the fair gate

    Capacity, work conservation, owner round-robin and the bound on priority
    bursts of [_FairGate] in src/runtime/executor_scheduler.py, and the ticket
    a timeout can take from another request. *)
From Stdlib Require Import Strings.String.
From S2P Require Import Prelude.
From S2P Require Import PyJson.
From S2P Require Import FairGate.
Local Open Scope Z_scope.

Definition gate_after {E} (r : result E Gate) : Gate :=
  match r with Ok g => g | Err _ => new_gate 1 end.

Definition ticket_a : FairTicket := mkFairTicket 0 "alice" "normal".
Definition ticket_b : FairTicket := mkFairTicket 1 "alice" "normal".
Definition ticket_c : FairTicket := mkFairTicket 2 "alice" "normal".

Definition one_slot : Gate := gate_after (acquire_enter ticket_a (new_gate 1)).

Lemma one_slot_step : gate_step (new_gate 1) one_slot.
Proof.
  apply (gate_enter ticket_a); [set_solver | intros o q u; simpl; by rewrite lookup_empty |].
  vm_compute. reflexivity.
Qed.

(** The gate never exceeds its capacity and never idles.  In every state
    that entries, timeouts and releases can reach, the active count is within
    the capacity, a slot is free only when no owner waits, the waiter count is
    the length of the queues and within its bound, and the round lists exactly
    the owners with a non-empty queue, once each. *)
Theorem gate_is_bounded_and_busy (n : Z) (g : Gate) :
  rtc gate_step (new_gate n) g ->
  0 <= g_active g <= capacity g /\
  (g_active g < capacity g -> owners g = []) /\
  g_waiters g = queued (queues g) /\ g_waiters g <= MAX_FAIR_WAITERS /\
  NoDup (owners g) /\
  (forall o, o ∈ owners g <-> exists q, queues g !! o = Some q /\ q <> []).
Proof.
  intros Hsteps. destruct (gate_steps_inv _ _ Hsteps (new_gate_inv n)) as (Hok & Hbusy & Hw).
  pose proof Hok as [H1 H2 H3 [H4 H5] H6]. split_and!; try done; try lia.
  - intros Hlt. destruct Hbusy as [Hb|Hb]; [lia | done].
  - intros o. split; [apply (queue_of_owner g o Hok)|].
    intros (q & Hq & _). apply H5. by eauto.
Qed.

Lemma gate_is_bounded_and_busy_witness : 0 <= g_active one_slot <= capacity one_slot.
Proof. exact (proj1 (gate_is_bounded_and_busy 1 one_slot (rtc_once _ _ one_slot_step))). Defined.


(** Three owners wait for a gate whose four slots just became free. *)
Definition waiting_gate : Gate :=
  mkGate 4 0 3
    {[ "alice" := [ticket_a]; "bob" := [mkFairTicket 3 "bob" "low"];
       "carol" := [mkFairTicket 4 "carol" "high"] ]}
    ["alice"; "bob"; "carol"] ∅ ∅.

Lemma waiting_gate_ok : gate_ok waiting_gate.
Proof.
  split; simpl; try lia.
  - vm_compute. reflexivity.
  - split; [apply (bool_decide_unpack _); vm_compute; exact I|]. intros o.
    rewrite !lookup_insert_is_Some, lookup_singleton_is_Some. set_solver.
  - intros o q. rewrite !lookup_insert_Some, lookup_singleton_Some.
    intros [[<- <-]|[_ [[<- <-]|[_ [<- <-]]]]]; split; try done;
      by intros t ->%list_elem_of_singleton.
Qed.


(** ** Priority within one owner *)

Definition not_high (t : FairTicket) : bool := negb (is_high t).

(** The tickets one owner's queue serves, a batch of arrivals before each. *)
Fixpoint served (arrivals : list (list FairTicket)) (queue : list FairTicket) (burst : Z)
  : list FairTicket :=
  match arrivals with
  | [] => []
  | batch :: rest =>
      let q := queue ++ batch in
      let '(i, burst') := select q burst in
      match q !! i with
      | Some t => t :: served rest (delete i q) burst'
      | None => []
      end
  end.

Lemma index_find p q i : index_of p q = Some i -> q !! i = List.find p q.
Proof.
  revert i. induction q as [|t q IH]; [done|]. simpl. intros i.
  destruct (p t); [by intros [= <-]|]. intros (j & Hj & ->)%fmap_Some. by apply IH.
Qed.

Lemma find_index p q t : List.find p q = Some t -> is_Some (index_of p q).
Proof.
  induction q as [|u q IH]; [done|]. simpl. destruct (p u); [by eauto|].
  intros [i ->]%IH. simpl. by eauto.
Qed.

Lemma find_app (p : FairTicket -> bool) (q r : list FairTicket) t : List.find p q = Some t -> List.find p (q ++ r) = Some t.
Proof. induction q as [|u q IH]; [done|]. simpl. by destruct (p u). Qed.

Lemma find_delete (p : FairTicket -> bool) (q : list FairTicket) i u :
  q !! i = Some u -> p u = false -> List.find p (delete i q) = List.find p q.
Proof.
  revert i. induction q as [|v q IH]; intros [|i]; simpl; try done.
  - intros [= ->] ->. done.
  - intros Hi Hu. by rewrite IH.
Qed.

(** A pick takes the first waiting non-high ticket, or a high one. *)
Lemma select_spec q burst t :
  List.find not_high q = Some t ->
  exists i u, select q burst = (i, if decide (u = t) then 0 else burst + 1) /\ q !! i = Some u /\
    (u = t \/ (not_high u = false /\ burst < MAX_PRIORITY_BURST)).
Proof.
  intros Hf. destruct (find_index _ _ _ Hf) as [j Hj]. pose proof (index_find _ _ _ Hj) as Hqj.
  rewrite Hf in Hqj. unfold select.
  assert (not_high t = true) as Hnt by (by apply List.find_some in Hf as [_ ?]).
  change (fun t0 : FairTicket => negb (is_high t0)) with not_high. rewrite Hj. simpl.
  destruct (index_of is_high q) as [h|] eqn:Eh.
  - apply index_of_lookup in Eh as (u & Hu & Hhigh).
    destruct (Z.ltb_spec burst MAX_PRIORITY_BURST) as [Hlt|Hge]; simpl.
    + exists h, u. rewrite decide_False; [|intros ->; unfold not_high in Hnt; by rewrite Hhigh in Hnt].
      split_and!; try done. right. unfold not_high. by rewrite Hhigh.
    + exists j, t. rewrite decide_True by done. split_and!; try done. by left.
  - exists j, t. rewrite decide_True by done. split_and!; try done. by left.
Qed.

Lemma served_first_low arrivals : forall q burst t,
  List.find not_high q = Some t -> 0 <= burst ->
  (Z.to_nat (MAX_PRIORITY_BURST - burst) < length arrivals)%nat ->
  t ∈ served arrivals q burst.
Proof.
  induction arrivals as [|batch rest IH]; intros q burst t Hf Hb Hlen; simpl in *; [lia|].
  destruct (select_spec (q ++ batch) burst t (find_app _ _ _ _ Hf)) as (i & u & Hs & Hi & Hu).
  rewrite Hs, Hi. destruct (decide (u = t)) as [->|Hne]; [left|right].
  destruct Hu as [->|[Hnh Hlt]]; [done|]. apply IH.
  - rewrite (find_delete _ _ i u Hi Hnh). by apply find_app.
  - lia.
  - lia.
Qed.

(** A priority burst is bounded.  The first waiting ticket of an owner
    that is not of high priority is served within three picks of that owner,
    whatever arrives in between: at most two high tickets overtake it. *)
Theorem priority_burst_is_bounded (arrivals : list (list FairTicket)) (queue : list FairTicket)
    (burst : Z) (t : FairTicket) :
  List.find not_high queue = Some t -> 0 <= burst -> (3 <= length arrivals)%nat ->
  t ∈ served (take 3 arrivals) queue burst.
Proof.
  intros Hf Hb Hlen. apply served_first_low; [done | done |].
  rewrite length_take. unfold MAX_PRIORITY_BURST. lia.
Qed.

Definition high_ticket (id : nat) : FairTicket := mkFairTicket id "alice" "high".

Lemma priority_burst_is_bounded_witness :
  ticket_a ∈ served [[high_ticket 5]; [high_ticket 6]; [high_ticket 7]]
               [high_ticket 3; high_ticket 4; ticket_a] 0.
Proof.
  apply (priority_burst_is_bounded [[high_ticket 5]; [high_ticket 6]; [high_ticket 7]]).
  - reflexivity.
  - lia.
  - simpl. lia.
Defined.

(** ** A timeout that takes another request's ticket *)

