(* ===== verification/GateTickets.v ===== *)
(** * The tickets of the fair gate by identity

    Which ticket identities wait in a gate, and how each method moves them
    between the queues and the granted set (FairGate.v).  A caller that keeps
    identities apart can account for every slot. *)
From Stdlib Require Import Strings.String.
From S2P Require Import Prelude.
From S2P Require Import PyJson.
From S2P Require Import FairGate.
Local Open Scope Z_scope.

Definition queued_id (g : Gate) (i : nat) : Prop :=
  exists o q t, queues g !! o = Some q /\ t ∈ q /\ ft_id t = i.

(** No identity waits twice, and none waits that was granted. *)
Record ids_ok (g : Gate) : Prop := {
  io_nodup : forall o q, queues g !! o = Some q -> NoDup (map ft_id q);
  io_owner : forall o o' q q' t t', queues g !! o = Some q -> queues g !! o' = Some q' ->
    t ∈ q -> t' ∈ q' -> ft_id t = ft_id t' -> o = o';
  io_granted : forall i, queued_id g i -> i ∉ granted g }.

(** [g'] has granted the waiting identities [S] of [g] and nothing else. *)
Record moved (S : gset nat) (g g' : Gate) : Prop := {
  mv_granted : granted g' = S ∪ granted g;
  mv_active : g_active g' = g_active g + Z.of_nat (size S);
  mv_queued : forall i, queued_id g' i <-> queued_id g i /\ i ∉ S;
  mv_source : forall i, i ∈ S -> queued_id g i;
  mv_capacity : capacity g' = capacity g }.

Lemma moved_refl g : moved ∅ g g.
Proof. split; [by rewrite union_empty_l_L | rewrite size_empty; lia | set_solver | set_solver | done]. Qed.

Lemma moved_trans S T g g1 g2 :
  ids_ok g -> moved S g g1 -> moved T g1 g2 -> moved (T ∪ S) g g2.
Proof.
  intros Hids [A1 A2 A3 A4 A5] [B1 B2 B3 B4 B5].
  assert (T ## S) as Hd by (intros i HT HS; apply B4, A3 in HT as [_ ?]; done).
  split.
  - rewrite B1, A1. set_solver.
  - rewrite B2, A2, size_union by done. lia.
  - intros i. rewrite B3, A3. set_solver.
  - intros i [HT|HS]%elem_of_union; [by apply B4, A3 in HT as [? _] | by apply A4].
  - congruence.
Qed.

Lemma queue_split q i (t : FairTicket) :
  q !! i = Some t -> NoDup (map ft_id q) ->
  NoDup (map ft_id (delete i q)) /\
  (forall u, u ∈ delete i q <-> u ∈ q /\ ft_id u <> ft_id t).
Proof.
  intros Hi. rewrite <- (take_drop_middle q i t Hi) at 1. rewrite map_app. simpl.
  intros Hnd. rewrite delete_take_drop.
  assert (forall u, u ∈ q <-> u ∈ take i q \/ u = t \/ u ∈ drop (S i) q) as Hq.
  { intros u. rewrite <- (take_drop_middle q i t Hi) at 1.
    rewrite elem_of_app, elem_of_cons. tauto. }
  apply NoDup_app in Hnd as (N1 & N2 & N3). apply NoDup_cons in N3 as [N3 N4]. split.
  - rewrite map_app. apply NoDup_app. split_and!; [done | | done].
    intros x Hx Hx'. apply (N2 x Hx). by right.
  - intros u. rewrite Hq, elem_of_app. split.
    + intros [Hu|Hu]; (split; [tauto|]); intros E.
      * apply (N2 (ft_id u)); [apply list_elem_of_In, in_map, list_elem_of_In; done|]. rewrite E. left.
      * apply N3. rewrite <- E. apply list_elem_of_In, in_map, list_elem_of_In. done.
    + intros [[H|[->|H]] Hne]; [by left | done | by right].
Qed.

(** One turn of the grant loop. *)
Lemma grant_one_moves g o rest :
  gate_ok g -> ids_ok g -> owners g = o :: rest ->
  exists i, moved {[ i ]} g (grant_one g) /\ ids_ok (grant_one g).
Proof.
  intros Hok [N1 N2 N3] Ho.
  destruct (grant_one_spec g o rest Hok Ho)
    as (q & t & Hq & i & b & _ & Hi & Eg & Ea & _ & Ec & Hcases).
  destruct (queue_split q i t Hi (N1 o q Hq)) as [D1 D2].
  assert (t ∈ q) as Htq by (by eapply list_elem_of_lookup_2).
  assert (forall o' q', queues (grant_one g) !! o' = Some q' ->
    (o' = o /\ q' = delete i q) \/ (o' <> o /\ queues g !! o' = Some q')) as Hback.
  { intros o' q'. destruct Hcases as [(_ & _ & ->)|(_ & _ & -> & _)].
    - intros [Hne Hq']%lookup_delete_Some. by right.
    - intros [[<- <-]|[Hne Hq']]%lookup_insert_Some; [by left | by right]. }
  assert (forall j, queued_id (grant_one g) j <-> queued_id g j /\ j ∉ ({[ ft_id t ]} : gset nat)) as Hqd.
  { intros j. rewrite elem_of_singleton. split.
    - intros (o' & q' & u & Hq' & Hu & <-). destruct (Hback o' q' Hq') as [[-> ->]|[Hne Hq'']].
      + apply D2 in Hu as [Hu Hne]. split; [by exists o, q, u | done].
      + split; [by exists o', q', u|]. intros E. apply Hne. by eapply (N2 o' o q' q u t).
    - intros [(o' & q' & u & Hq' & Hu & <-) Hne]. destruct (decide (o' = o)) as [->|Hno].
      + assert (q' = q) as -> by congruence. assert (u ∈ delete i q) as Hd by (by apply D2).
        exists o, (delete i q), u. split_and!; try done.
        destruct Hcases as [(E & _)|(_ & _ & -> & _)]; [rewrite E in Hd; by apply elem_of_nil in Hd|].
        apply lookup_insert_eq.
      + exists o', q', u. split_and!; try done.
        destruct Hcases as [(_ & _ & ->)|(_ & _ & -> & _)];
          [by rewrite lookup_delete_ne | by rewrite lookup_insert_ne]. }
  exists (ft_id t). split; [split|split].
  - done.
  - rewrite size_singleton. done.
  - done.
  - intros j ->%elem_of_singleton. by exists o, q, t.
  - done.
  - intros o' q' [[-> ->]|[_ Hq']]%Hback; [done | by apply (N1 o')].
  - intros o1 o2 q1 q2 t1 t2 H1 H2 Ht1 Ht2 E.
    assert (forall o' q' u, queues (grant_one g) !! o' = Some q' -> u ∈ q' ->
      exists q'', queues g !! o' = Some q'' /\ u ∈ q'') as Hin.
    { intros o' q' u [[-> ->]|[_ Hq']]%Hback Hu; [|by eauto]. exists q. split; [done|]. by apply D2. }
    destruct (Hin _ _ _ H1 Ht1) as (p1 & P1 & Q1). destruct (Hin _ _ _ H2 Ht2) as (p2 & P2 & Q2).
    by eapply (N2 o1 o2 p1 p2 t1 t2).
  - intros j [Hj Hn]%Hqd. rewrite Eg. apply N3 in Hj. set_solver.
Qed.

Lemma grant_loop_moves fuel : forall g,
  gate_ok g -> ids_ok g -> exists S, moved S g (grant_loop fuel g) /\ ids_ok (grant_loop fuel g).
Proof.
  induction fuel as [|n IH]; intros g Hok Hids; simpl; [exists ∅; split; [apply moved_refl | done]|].
  destruct (Z.ltb_spec (g_active g) (capacity g)) as [Hlt|Hge]; simpl;
    [|exists ∅; split; [apply moved_refl | done]].
  destruct (owners g) as [|o rest] eqn:Ho; simpl; [exists ∅; split; [apply moved_refl | done]|].
  destruct (grant_one_moves g o rest Hok Hids Ho) as (i & Hm & Hids').
  destruct (IH (grant_one g)) as (S & HS & Hids''); [by eapply grant_one_ok | done|].
  exists (S ∪ {[ i ]}). split; [by eapply moved_trans | done].
Qed.

Lemma grant_moves g : gate_ok g -> ids_ok g -> exists S, moved S g (grant g) /\ ids_ok (grant g).
Proof. apply grant_loop_moves. Qed.

(** ** The methods *)

(** A fresh ticket joins the queues. *)
Lemma enter_moves t g g' :
  gate_ok g -> ids_ok g -> ~ queued_id g (ft_id t) -> ft_id t ∉ granted g ->
  acquire_enter t g = Ok g' ->
  ids_ok g' /\ exists S, granted g' = S ∪ granted g /\
    g_active g' = g_active g + Z.of_nat (size S) /\ capacity g' = capacity g /\
    (forall i, i ∈ S -> queued_id g i \/ i = ft_id t) /\
    (forall i, queued_id g' i <-> (queued_id g i \/ i = ft_id t) /\ i ∉ S).
Proof.
  intros Hok Hids Hnq Hng. unfold acquire_enter. destruct (_ <=? _); [done|]. intros [= <-].
  set (g1 := g <| owners := match default [] (queues g !! ft_owner t) with
                            | [] => owners g ++ [ft_owner t] | _ => owners g end |>
               <| queues := <[ft_owner t := default [] (queues g !! ft_owner t) ++ [t]]> (queues g) |>
               <| g_waiters := g_waiters g + 1 |>).
  set (q0 := default [] (queues g !! ft_owner t)).
  assert (forall u, u ∈ q0 -> exists q, queues g !! ft_owner t = Some q /\ u ∈ q) as Hq0.
  { unfold q0. intros u Hu. destruct (queues g !! ft_owner t); [by eauto | by apply elem_of_nil in Hu]. }
  assert (Hlook : forall o q, queues g1 !! o = Some q <->
    (o = ft_owner t /\ q = q0 ++ [t]) \/ (o <> ft_owner t /\ queues g !! o = Some q)).
  { intros o q. change (queues g1) with (<[ft_owner t := q0 ++ [t]]> (queues g)).
    rewrite lookup_insert_Some. split; [intros [[<- <-]|[? ?]]; by auto|].
    intros [[-> ->]|[? ?]]; auto. }
  assert (forall i, queued_id g1 i <-> queued_id g i \/ i = ft_id t) as Hq1.
  { intros i. split.
    - intros (o & q & u & [[-> ->]|[_ Hq]]%Hlook & Hu & <-); [|by left; exists o, q, u].
      apply elem_of_app in Hu as [(q & Hq & Hu)%Hq0| ->%list_elem_of_singleton]; [|by right].
      left. by exists (ft_owner t), q, u.
    - intros [(o & q & u & Hq & Hu & <-)| ->].
      + destruct (decide (o = ft_owner t)) as [->|Hne].
        * exists (ft_owner t), (q0 ++ [t]), u. rewrite Hlook. split_and!; [by left | | done].
          unfold q0. rewrite Hq. set_solver.
        * exists o, q, u. rewrite Hlook. split_and!; [by right | done | done].
      + exists (ft_owner t), (q0 ++ [t]), t. rewrite Hlook. split_and!; [by left | set_solver | done]. }
  assert (ids_ok g1) as Hids1.
  { destruct Hids as [N1 N2 N3]. split.
    - intros o q [[-> ->]|[_ Hq]]%Hlook; [|by apply (N1 o)]. rewrite map_app. apply NoDup_app. split_and!.
      + unfold q0. destruct (queues g !! ft_owner t) eqn:E; [by apply (N1 (ft_owner t)) | by apply NoDup_nil].
      + intros x (u & <- & Hu)%list_elem_of_In%in_map_iff Hx. apply list_elem_of_In, Hq0 in Hu as (q & Hq & Hu).
        apply list_elem_of_singleton in Hx. apply Hnq. exists (ft_owner t), q, u. split_and!; done.
      + apply NoDup_singleton.
    - assert (forall o q u, queues g1 !! o = Some q -> u ∈ q ->
        (o = ft_owner t /\ u = t) \/ exists p, queues g !! o = Some p /\ u ∈ p) as Hin.
      { intros o q u [[-> ->]|[_ Hq]]%Hlook Hu; [|by eauto].
        apply elem_of_app in Hu as [Hu%Hq0| ->%list_elem_of_singleton]; [by right | by left]. }
      intros o o' q q' u u' H1 H2 Hu Hu' E.
      destruct (Hin _ _ _ H1 Hu) as [[-> ->]|(p & Hp & Hup)];
        destruct (Hin _ _ _ H2 Hu') as [[-> ->]|(p' & Hp' & Hup')]; try done.
      + destruct Hnq. by exists o', p', u'.
      + destruct Hnq. by exists o, p, u.
      + by eapply (N2 o o' p p' u u').
    - intros i [Hi| ->]%Hq1; [by apply N3 | done]. }
  destruct (grant_moves g1 (enter_ok t g Hok) Hids1) as (S & [M1 M2 M3 M4 M5] & Hids').
  split; [exact Hids'|]. exists S. split_and!; try done.
  - intros i Hi. by apply Hq1, M4.
  - intros i. etrans; [apply M3|]. by rewrite Hq1.
Qed.

(** A timeout grants waiting tickets, and whoever waits afterwards waited. *)
Lemma timeout_moves t g :
  gate_ok g -> ids_ok g ->
  ids_ok (acquire_timeout t g) /\ exists S, granted (acquire_timeout t g) = S ∪ granted g /\
    g_active (acquire_timeout t g) = g_active g + Z.of_nat (size S) /\
    capacity (acquire_timeout t g) = capacity g /\
    (forall i, i ∈ S -> queued_id g i) /\
    (forall i, queued_id (acquire_timeout t g) i -> queued_id g i /\ i ∉ S).
Proof.
  intros Hok Hids. destruct (timeout_grants t g Hok) as (g1 & -> & Hok1 & _ & Eg & Ea & Ec & Hq).
  assert (forall i, queued_id g1 i -> queued_id g i) as Hsub.
  { intros i (o & q & u & (q0 & Hq0 & Hs)%Hq & Hu & <-). exists o, q0, u.
    split_and!; [done | by eapply elem_of_sublist | done]. }
  assert (ids_ok g1) as Hids1.
  { destruct Hids as [N1 N2 N3]. split.
    - intros o q (q0 & Hq0 & Hs)%Hq. eapply sublist_NoDup; [by apply (N1 o)|].
      by apply fmap_sublist.
    - intros o o' q q' u u' (q0 & Hq0 & Hs)%Hq (q1 & Hq1 & Hs1)%Hq Hu Hu'.
      eapply (N2 o o' q0 q1); try done; by eapply elem_of_sublist.
    - intros i Hi%Hsub. rewrite Eg. by apply N3. }
  destruct (grant_moves g1 Hok1 Hids1) as (S & [M1 M2 M3 M4 M5] & H').
  split; [done|]. exists S. rewrite M1, M2, M5, Eg, Ea, Ec. split_and!; try done.
  - intros i Hi. by apply Hsub, M4.
  - intros i [Hi Hn]%M3. split; [by apply Hsub | done].
Qed.

Lemma release_moves g g' :
  gate_ok g -> ids_ok g -> gate_release g = Ok g' ->
  ids_ok g' /\ exists S, granted g' = S ∪ granted g /\
    g_active g' = g_active g - 1 + Z.of_nat (size S) /\ capacity g' = capacity g /\
    (forall i, i ∈ S -> queued_id g i) /\
    (forall i, queued_id g' i <-> queued_id g i /\ i ∉ S).
Proof.
  intros Hok Hids. unfold gate_release. destruct (Z.leb_spec (g_active g) 0); [done|]. intros [= <-].
  destruct (grant_moves (g <| g_active := g_active g - 1 |>)) as (S & [M1 M2 M3 M4 M5] & H').
  - destruct Hok as [H1 H2 H3 H4 H5]. split; simpl; try done. lia.
  - by destruct Hids.
  - split; [done|]. exists S. by split_and!.
Qed.

(** A gate with a free slot and nothing to grant has no waiting ticket. *)
Lemma idle_gate g i : gate_inv g -> g_active g < capacity g -> ~ queued_id g i.
Proof.
  intros (Hok & [Hb|Hb] & _) Hlt; [lia|]. intros (o & q & t & Hq & _).
  assert (o ∈ owners g) as Ho by (apply (go_owners _ Hok); by eauto).
  rewrite Hb in Ho. by apply elem_of_nil in Ho.
Qed.

Lemma new_gate_ids n : ids_ok (new_gate n).
Proof.
  split; simpl.
  - intros o q. by rewrite lookup_empty.
  - intros o o' q q' t t'. by rewrite lookup_empty.
  - intros i (o & q & t & Hq & _). cbn in Hq. by rewrite lookup_empty in Hq.
Qed.
