(* ===== verification/SchedulerPolicy.v ===== *)
(** * Execution policy of the executor scheduler

    The pure part of src/runtime/executor_scheduler.py: the policy an
    executor's signed manifest grants, the clamps of the deployment, the
    decision to run in parallel, the isolation identity and targets, and the
    worker budgets.  The process environment is a function from names to
    texts. *)
From Stdlib Require Import Strings.Ascii Strings.String.
From S2P Require Import Prelude.
From S2P Require Import PyJson.
From S2P Require Import PyStrings.
From S2P Require Import Isolation.
Local Open Scope Z_scope.

Abbreviation object := (list (string * json)) (only parsing).
Abbreviation environ := (string -> option string) (only parsing).

(** ** Settings *)

Definition clamp (low high v : Z) : Z := Z.max low (Z.min high v).

Definition bounded_env_int (env : environ) (name : string) (default low high : Z) : Z :=
  match env name with
  | None => clamp low high default
  | Some text => match py_int text with Some v => clamp low high v | None => default end
  end.

Definition env_enabled (env : environ) (name : string) (default : bool) : bool :=
  match env name with
  | None => default
  | Some raw => bool_decide (lower (strip raw) ∈ ["1"; "true"; "yes"; "on"])
  end.

Definition class_override (item : string) : option (string * Z) :=
  match partition_at "=" (strip item) with
  | (EmptyString, _) | (_, None) => None
  | (name, Some value) =>
      level ← py_int value;
      if (0 <=? level) && (level <=? 3) then Some (name, level) else None
  end.

Definition class_overrides (raw : option string) : gmap string Z :=
  fold_left (fun parsed item => match class_override item with
                                | Some (name, level) => <[name := level]> parsed
                                | None => parsed
                                end)
    (split_at "," (default EmptyString raw)) ∅.

(** ** Executors and their policy *)

(** What the scheduler reads of an executor: [str(name or "unknown")] and the
    policy, [None] when it is not a dict. *)
Record Executor : Type := mkExecutor { x_name : string; x_policy : option object }.

Definition DEFAULT_EXECUTION_POLICY : object :=
  [("effect", JStr "unknown"); ("parallelism_class", JInt 0); ("resource_class", JStr "default");
   ("concurrency_key", JStr "none"); ("equivalence_gate", JStr "unverified")].

Inductive policy_error : Type :=
| UnhashableEffect
| SchedulerContextError (what : string).

(** [effect in {"unknown", "interactive"}]; a list or a dict is unhashable. *)
Definition closed_effect (v : json) : result policy_error bool :=
  match v with
  | JArr _ | JObj _ => Err UnhashableEffect
  | _ => Ok (json_is_str (Some v) "unknown" || json_is_str (Some v) "interactive")
  end.

Definition field (policy : object) (k : string) : json := default JNull (obj_get k policy).

Definition merged_policy (raw : object) : object :=
  map (fun kv => (kv.1, default kv.2 (obj_get kv.1 raw))) DEFAULT_EXECUTION_POLICY.

Definition positive_level (v : json) : bool := match v with JInt z => 0 <? z | _ => false end.

Definition serial (policy : object) : object := obj_set "parallelism_class" (JInt 0) policy.

Definition policy_for (x : Executor) : result policy_error object :=
  match x_policy x with
  | None => Ok DEFAULT_EXECUTION_POLICY
  | Some raw =>
      let policy := merged_policy raw in
      if negb (positive_level (field policy "parallelism_class")) then Ok (serial policy)
      else
        match closed_effect (field policy "effect") with
        | Err e => Err e
        | Ok closed =>
            if closed
               || (negb (json_is_str (obj_get "effect" policy) "read_only")
                   && json_is_str (obj_get "concurrency_key" policy) "none")
               || negb (json_is_str (obj_get "equivalence_gate" policy) "verified")
            then Ok (serial policy) else Ok policy
        end
  end.

(** ** The scheduler's configuration *)

Record Scheduler : Type := mkScheduler {
  hardware_threads : Z;
  max_workers : Z;
  max_in_flight : Z;
  parallel_enabled : bool;
  max_parallelism_class : Z;
  overrides : gmap string Z }.

Definition parallelism_limit (hardware level : Z) : Z :=
  let hw := Z.max 1 hardware in
  if level <=? 0 then 1
  else if level =? 1 then Z.min 2 hw
  else if level =? 2 then Z.min (Z.min 8 hw) (Z.max 2 ((hw + 1) / 2))
  else Z.min 32 hw.

(** [int(x or default)]. *)
Definition or_int (v : option Z) (default : Z) : Z :=
  match v with None | Some 0 => default | Some z => z end.

(** The part of [__init__] the policy depends on; [cpu_count] is
    [int(os.cpu_count() or 1)]. *)
Definition new_scheduler (env : environ) (cpu_count : Z)
    (workers in_flight hardware class : option Z) (enabled : option bool)
    (class_map : list (string * Z)) : Scheduler :=
  let detected := Z.max 1 cpu_count in
  let hw := Z.max 1 (Z.min detected (or_int hardware detected)) in
  let class_3 := parallelism_limit hw 3 in
  let requested := match workers with
                   | Some n => n
                   | None => bounded_env_int env "METNOS_EXECUTOR_POOL_WORKERS" class_3 1 class_3
                   end in
  mkScheduler hw (clamp 1 class_3 requested)
    (or_int in_flight (bounded_env_int env "METNOS_EXECUTOR_MAX_IN_FLIGHT" 32 1 256))
    (match enabled with Some b => b | None => env_enabled env "METNOS_EXECUTOR_PARALLEL" false end)
    (match class with
     | Some c => clamp 0 3 c
     | None => bounded_env_int env "METNOS_EXECUTOR_MAX_CLASS" 3 0 3
     end)
    (fold_left (fun m nl => <[nl.1 := clamp 0 3 nl.2]> m) class_map
       (class_overrides (env "METNOS_EXECUTOR_CLASS_OVERRIDES"))).

(** ** Decisions *)

Definition declared_class (policy : object) : Z :=
  match field policy "parallelism_class" with JInt z => z | _ => 0 end.

(** [str(policy.get("resource_class") or "default")]. *)
Definition resource_class (policy : object) : string :=
  match obj_get "resource_class" policy with
  | Some v => if truthy (Some v) then py_str v else "default"
  | None => "default"
  end.

Definition resource_cap (env : environ) (policy : object) : Z :=
  if str_eqb (resource_class policy) "llm"
  then bounded_env_int env "METNOS_LLM_PARALLELISM_CLASS" 0 0 3 else 3.

Section Decisions.
Context (env : environ) (sched : Scheduler).

Definition clamped_class (x : Executor) (policy : object) : Z :=
  Z.max 0 (Z.min (Z.min (declared_class policy) (max_parallelism_class sched))
                 (Z.min (default 3 (overrides sched !! x_name x)) (resource_cap env policy))).

Definition effective_parallelism_class (x : Executor) : result policy_error Z :=
  match policy_for x with Ok policy => Ok (clamped_class x policy) | Err e => Err e end.

(** [bool(text)] of an optional identity. *)
Definition some_text (identity : option string) : bool :=
  match identity with None | Some EmptyString => false | Some _ => true end.

(** [policy["effect"] not in {..}] is the negation of a test that has not
    raised in [policy_for] when the class is positive. *)
Definition may_parallelize (x : Executor) (policy : object) (identity : option string) : bool :=
  let level := clamped_class x policy in
  let effect := obj_get "effect" policy in
  parallel_enabled sched && (0 <? level)
  && negb (json_is_str effect "unknown" || json_is_str effect "interactive")
  && (json_is_str effect "read_only"
      || negb (json_is_str (obj_get "concurrency_key" policy) "none"))
  && json_is_str (obj_get "equivalence_gate" policy) "verified"
  && (2 <=? parallelism_limit (hardware_threads sched) level)
  && (json_is_str (obj_get "concurrency_key" policy) "none" || some_text identity).

Definition can_parallelize (x : Executor) (identity : option string) : result policy_error bool :=
  match policy_for x with Ok policy => Ok (may_parallelize x policy identity) | Err e => Err e end.

(** The slot of an executor: its name and limit. *)
Definition executor_slot (x : Executor) (identity : option string)
  : result policy_error (option (string * Z)) :=
  match policy_for x with
  | Err e => Err e
  | Ok policy =>
      if may_parallelize x policy identity
      then Ok (Some (x_name x, parallelism_limit (hardware_threads sched) (clamped_class x policy)))
      else Ok None
  end.

Definition context_executor_slot (x : Executor) (identity : option string)
  : result policy_error (string * Z) :=
  match executor_slot x identity with
  | Ok (Some key) => Ok key
  | Ok None => Ok (x_name x, 1)
  | Err e => Err e
  end.

(** [str(policy.get("concurrency_key") or "none")]. *)
Definition key_kind (policy : object) : string :=
  match obj_get "concurrency_key" policy with
  | Some v => if truthy (Some v) then py_str v else "none"
  | None => "none"
  end.

Definition isolation_targets (x : Executor) (identity : option string) (targets : list string)
  : result policy_error (string * option (list string) * option string) :=
  match policy_for x with
  | Err e => Err e
  | Ok policy =>
      let kind := key_kind policy in
      let conflict := str_eqb kind "none"
                      || match identity with
                         | Some i => negb (bool_decide (i ∈ targets))
                         | None => false
                         end in
      if negb (bool_decide (targets = [])) && conflict
      then Err (SchedulerContextError "execution targets conflict with the declared identity")
      else
        let identity' := match targets with t :: _ => Some t | [] => identity end in
        let targets' := match targets with
                        | [] => match identity with
                                | Some i => if some_text identity then [i] else []
                                | None => []
                                end
                        | _ => targets
                        end in
        Ok (kind, if may_parallelize x policy identity' then Some targets' else None, identity')
  end.

Definition assigned_worker_budget (x : Executor) : result policy_error Z :=
  if negb (parallel_enabled sched) then Ok 1
  else
    match policy_for x with
    | Err e => Err e
    | Ok policy =>
        let budget := Z.min (max_workers sched)
                        (parallelism_limit (hardware_threads sched) (clamped_class x policy)) in
        let budget := if json_is_str (obj_get "resource_class" policy) "llm"
                      then Z.min budget (bounded_env_int env "METNOS_LLM_MAX_IN_FLIGHT" 1 1 32)
                      else budget in
        Ok (Z.max 1 budget)
    end.
End Decisions.

(** ** Identities *)

(** [value not in (None, "", [])]. *)
Definition blank (v : json) : bool :=
  match v with JNull | JStr EmptyString | JArr [] => true | _ => false end.

Fixpoint scalar (values : object) (names : list string) : option json :=
  match names with
  | [] => None
  | n :: rest =>
      match obj_get n values with
      | Some v => if blank v then scalar values rest else Some v
      | None => scalar values rest
      end
  end.

Definition single_path (values : object) : option json :=
  match scalar values ["dest"; "path"; "output_path"] with
  | Some v => Some v
  | None => match obj_get "paths" values with Some (JArr [p]) => Some p | _ => None end
  end.

Definition identity_value (kind : string) (values : object) (target_device : option string)
  : option json :=
  if str_eqb kind "device" then
    if some_text target_device then JStr <$> target_device
    else scalar values ["device_id"; "device"; "target_device"]
  else if str_eqb kind "account" then scalar values ["account"; "account_id"]
  else if str_eqb kind "browser_session" then
    scalar values ["session_id"; "browser_session"; "session"]
  else if str_eqb kind "path" then single_path values
  else None.

(** [args] is [None] when it is not a dict. *)
Definition concurrency_identity_for (x : Executor) (args : option object)
    (target_device : option string) : result policy_error (option string) :=
  match policy_for x with
  | Err e => Err e
  | Ok policy =>
      let kind := key_kind policy in
      if str_eqb kind "none" then Ok None
      else
        match identity_value kind (default [] args) target_device with
        | Some (JArr _) | Some (JObj _) => Ok None
        | value =>
            let text := if truthy value then strip (py_str (default JNull value)) else EmptyString in
            Ok (if some_text (Some text) then Some text else None)
        end
  end.

(** ** Bounds *)

Lemma limit_bounds hw level : 1 <= parallelism_limit hw level <= Z.min 32 (Z.max 1 hw).
Proof.
  unfold parallelism_limit. assert (((Z.max 1 hw + 1) / 2) <= Z.max 1 hw)
    by (apply Z.div_le_upper_bound; lia).
  repeat case_match; lia.
Qed.

Lemma executor_slot_limit env sched x identity key :
  executor_slot env sched x identity = Ok (Some key) -> 1 <= key.2.
Proof.
  unfold executor_slot. destruct (policy_for x) as [policy|]; [|done].
  destruct (may_parallelize _ _ _ _ _); [|done]. intros [= <-]. simpl. apply limit_bounds.
Qed.

Lemma context_slot_limit env sched x identity key :
  context_executor_slot env sched x identity = Ok key -> 1 <= key.2.
Proof.
  unfold context_executor_slot. destruct (executor_slot _ _ _ _) as [[k|]|] eqn:E; [| |done]; intros [= <-].
  - by eapply executor_slot_limit.
  - simpl. lia.
Qed.
