(* ===== verification/SchedulerPolicyProperties.v ===== *)
(** * Properties of the execution policy

    The deployment can only lower what a signed manifest grants, and the
    worker budgets stay within the host (SchedulerPolicy.v). *)
From Stdlib Require Import Strings.Ascii Strings.String.
From S2P Require Import Prelude.
From S2P Require Import PyJson.
From S2P Require Import PyStrings.
From S2P Require Import SchedulerPolicy.
Local Open Scope Z_scope.

Lemma is_str_iff v s : json_is_str v s = true <-> v = Some (JStr s).
Proof.
  destruct v as [[]|]; simpl; try (split; [done | congruence]). rewrite str_eqb_true.
  split; congruence.
Qed.

Lemma is_str_false v s : json_is_str v s = false <-> v <> Some (JStr s).
Proof. rewrite <- not_true_iff_false, is_str_iff. done. Qed.

(** ** Merging *)

Lemma merged_get raw k d :
  obj_get k DEFAULT_EXECUTION_POLICY = Some d ->
  obj_get k (merged_policy raw) = Some (default d (obj_get k raw)).
Proof.
  unfold merged_policy, DEFAULT_EXECUTION_POLICY. simpl.
  repeat (destruct (str_eqb k _) eqn:E; [apply str_eqb_true in E as ->; congruence | clear E]); done.
Qed.

Lemma serial_class policy : declared_class (serial policy) = 0.
Proof.
  unfold declared_class, serial, field.
  assert (obj_get "parallelism_class" (obj_set "parallelism_class" (JInt 0) policy) = Some (JInt 0))
    as ->; [|done].
  induction policy as [|[k v] policy IH]; simpl; [done|].
  destruct (str_eqb "parallelism_class" k) eqn:E; simpl; rewrite E; done.
Qed.

(** A positive class comes from a manifest that passed every test. *)
Lemma policy_for_positive x policy :
  policy_for x = Ok policy -> 0 < declared_class policy ->
  exists raw, x_policy x = Some raw /\ policy = merged_policy raw /\
    closed_effect (field policy "effect") = Ok false /\
    obj_get "equivalence_gate" policy = Some (JStr "verified") /\
    (obj_get "effect" policy = Some (JStr "read_only") \/
     obj_get "concurrency_key" policy <> Some (JStr "none")).
Proof.
  unfold policy_for. destruct (x_policy x) as [raw|]; [|intros [= <-]; intros Hp; unfold declared_class in Hp; simpl in Hp; lia].
  destruct (negb (positive_level _)); [intros [= <-] Hpos; rewrite serial_class in Hpos; lia|].
  destruct (closed_effect _) as [closed|] eqn:Ec; [|done].
  destruct (_ || _ || _) eqn:Et; intros [= <-] Hpos; [rewrite serial_class in Hpos; lia|].
  apply orb_false_iff in Et as [Et Hg%negb_false_iff%is_str_iff].
  apply orb_false_iff in Et as [-> Hk]. exists raw. split_and!; try done.
  apply andb_false_iff in Hk as [Hk%negb_false_iff%is_str_iff|Hk%is_str_false]; [by left | by right].
Qed.

Lemma clamped_bounds env sched x policy :
  0 <= clamped_class env sched x policy /\
  (0 < clamped_class env sched x policy ->
   clamped_class env sched x policy <= declared_class policy /\
   clamped_class env sched x policy <= max_parallelism_class sched /\
   clamped_class env sched x policy <= default 3 (overrides sched !! x_name x) /\
   clamped_class env sched x policy <= 3).
Proof.
  unfold clamped_class, resource_cap. assert (forall n d, bounded_env_int env n 0 0 d <= Z.max 0 d) as Hb.
  { intros n d. unfold bounded_env_int, clamp. destruct (env n) as [t|]; [|lia].
    destruct (py_int t); lia. }
  pose proof (Hb "METNOS_LLM_PARALLELISM_CLASS" 3).
  destruct (str_eqb _ _); lia.
Qed.

(** Parallel authority is signed.  When an executor may run in parallel the
    scheduler is enabled and the manifest is a dict that declares, itself, a
    positive class, the verified gate, an effect that is known and not
    interactive, and either a read-only effect or a concurrency key; with a key
    the call brings a nonempty identity.  The class used is at most the
    declared one, the deployment's maximum and the executor's override, and its
    limit allows at least two workers. *)
Theorem parallel_authority_is_signed (env : string -> option string) (sched : Scheduler)
    (x : Executor) (identity : option string) :
  can_parallelize env sched x identity = Ok true ->
  exists raw level effect c,
    parallel_enabled sched = true /\ x_policy x = Some raw /\
    obj_get "parallelism_class" raw = Some (JInt level) /\
    obj_get "equivalence_gate" raw = Some (JStr "verified") /\
    obj_get "effect" raw = Some effect /\ effect <> JStr "unknown" /\
    effect <> JStr "interactive" /\
    (effect = JStr "read_only" \/
     exists key, obj_get "concurrency_key" raw = Some key /\ key <> JStr "none") /\
    (forall key, obj_get "concurrency_key" raw = Some key -> key <> JStr "none" ->
       exists i, identity = Some i /\ i <> EmptyString) /\
    effective_parallelism_class env sched x = Ok c /\ 1 <= c <= level /\
    c <= max_parallelism_class sched /\ c <= default 3 (overrides sched !! x_name x) /\
    2 <= parallelism_limit (hardware_threads sched) c.
Proof.
  unfold can_parallelize, effective_parallelism_class.
  destruct (policy_for x) as [policy|] eqn:Hp; [|done]. intros [= Hm].
  unfold may_parallelize in Hm. rewrite !andb_true_iff, !orb_true_iff, negb_true_iff,
    orb_false_iff, Z.ltb_lt, Z.leb_le in Hm.
  destruct Hm as ((((((Hen & Hc) & Hu & Hi) & Hro) & Hg) & Hlim) & Hid).
  destruct (proj2 (clamped_bounds env sched x policy) Hc) as (B1 & B2 & B3 & _).
  destruct (policy_for_positive x policy Hp ltac:(lia)) as (raw & Hx & -> & Hclosed & Hgate & Hkey).
  rewrite (merged_get raw "equivalence_gate" (JStr "unverified")) in Hgate by done.
  rewrite (merged_get raw "effect" (JStr "unknown")) in * by done.
  rewrite (merged_get raw "concurrency_key" (JStr "none")) in * by done.
  unfold declared_class, field in B1.
  rewrite (merged_get raw "parallelism_class" (JInt 0)) in B1 by done. simpl in B1.
  apply is_str_false in Hu, Hi.
  destruct (obj_get "parallelism_class" raw) as [[]|] eqn:E1; simpl in B1; try lia.
  destruct (obj_get "effect" raw) as [effect|] eqn:E2; [|by destruct Hu].
  destruct (obj_get "equivalence_gate" raw) as [gate|] eqn:E3; [|done].
  exists raw, z, effect, (clamped_class env sched x (merged_policy raw)).
  split_and!; try done; try lia; try (intros ->; by auto).
  - by injection Hgate as ->.
  - destruct Hkey as [H|H]; [left; by injection H|right].
    destruct (obj_get "concurrency_key" raw) as [key|]; [|by destruct H].
    exists key. split; [done|]. intros ->. by apply H.
  - intros key Hk Hn. rewrite Hk in Hid.
    destruct Hid as [H|H]; [apply is_str_iff in H; by injection H|].
    destruct identity as [[|a i]|]; try done. by eexists.
Qed.

Definition demo_executor : Executor := mkExecutor "read_files"
  (Some [("effect", JStr "read_only"); ("parallelism_class", JInt 2);
         ("equivalence_gate", JStr "verified")]).
Definition demo_scheduler : Scheduler :=
  new_scheduler (fun n => if str_eqb n "METNOS_EXECUTOR_PARALLEL" then Some " On " else None) 16
    None None None None None [].

Lemma parallel_authority_is_signed_witness :
  exists c, effective_parallelism_class (fun _ => None) demo_scheduler demo_executor = Ok c /\ c <= 2.
Proof.
  destruct (parallel_authority_is_signed (fun _ => None) demo_scheduler demo_executor None)
    as (raw & level & effect & c & _ & Hx & Hl & _ & _ & _ & _ & _ & _ & Hc & Hle & _);
    [vm_compute; reflexivity|].
  exists c. split; [exact Hc|]. injection Hx as <-. injection Hl as <-. lia.
Defined.

(** ** Budgets *)

Lemma clamp_bounds low high v : low <= high -> low <= clamp low high v <= high.
Proof. unfold clamp. lia. Qed.

Lemma env_int_bounds env n d low high :
  low <= d <= high -> low <= bounded_env_int env n d low high <= high.
Proof.
  intros Hd. unfold bounded_env_int. pose proof (clamp_bounds low high).
  repeat case_match; auto with lia.
Qed.

(** What [__init__] makes of any settings. *)
Lemma new_scheduler_bounds env cpu workers in_flight hardware class enabled class_map :
  let sched := new_scheduler env cpu workers in_flight hardware class enabled class_map in
  1 <= hardware_threads sched <= Z.max 1 cpu /\
  1 <= max_workers sched <= Z.min 32 (hardware_threads sched) /\
  0 <= max_parallelism_class sched <= 3.
Proof.
  simpl. set (hw := Z.max 1 _). assert (1 <= hw <= Z.max 1 cpu) as Hhw by (unfold hw; lia).
  pose proof (limit_bounds hw 3) as Hl. split_and!; try lia.
  - apply clamp_bounds. lia.
  - etrans; [apply clamp_bounds; lia | lia].
  - destruct class; [apply clamp_bounds | apply env_int_bounds]; lia.
  - destruct class; [apply clamp_bounds | apply env_int_bounds]; lia.
Qed.

(** Worker budgets stay within the host.  For a scheduler as [__init__] builds
    it, whatever the settings, the pool and the budget handed to an executor
    lie between one and the smaller of the detected processors and 32, the
    budget never exceeds the pool, and a disabled scheduler hands out one. *)
Lemma worker_budget_bounds (env env' : string -> option string) (cpu_count : Z)
    (workers in_flight hardware class : option Z) (enabled : option bool)
    (class_map : list (string * Z)) (x : Executor) (budget : Z) :
  let sched := new_scheduler env cpu_count workers in_flight hardware class enabled class_map in
  assigned_worker_budget env' sched x = Ok budget ->
  1 <= budget <= max_workers sched /\
  max_workers sched <= Z.min 32 (Z.max 1 cpu_count) /\
  hardware_threads sched <= Z.max 1 cpu_count /\
  0 <= max_parallelism_class sched <= 3 /\
  (parallel_enabled sched = false -> budget = 1).
Proof.
  intros sched Hb.
  destruct (new_scheduler_bounds env cpu_count workers in_flight hardware class enabled class_map)
    as (Hhw & Hw & Hc). fold sched in Hhw, Hw, Hc. clearbody sched.
  unfold assigned_worker_budget in Hb. destruct (parallel_enabled sched); simpl in Hb.
  - destruct (policy_for x) as [policy|]; [|done]. injection Hb as <-.
    pose proof (limit_bounds (hardware_threads sched) (clamped_class env' sched x policy)).
    destruct (json_is_str _ _); split_and!; lia || done.
  - injection Hb as <-. split_and!; lia || done.
Qed.

Lemma worker_budget_bounds_witness : 1 <= 8 <= max_workers demo_scheduler.
Proof.
  refine (proj1 (worker_budget_bounds _ (fun _ => None) 16 None None None None None []
    demo_executor 8 _)).
  vm_compute. reflexivity.
Defined.
