(* ===== verification/SchedulerAdmission.v ===== *)
(** * Admission of calls by the executor scheduler

    [invoke], [_invoke_with_context], [_acquire_resource_claims],
    [_run_admitted] and the capacity slots of
    src/runtime/executor_scheduler.py, composed with the fair gate
    (FairGate.v), the isolation object (Isolation.v) and the policy
    (SchedulerPolicy.v).  A thread between two blocking operations is a
    [Phase]; [advance] is what it does when the operation it stands before can
    complete, [withdraw] what its deadline makes it do.  The threads are
    interleaved by [sys_step]. *)
From Stdlib Require Import Strings.String.
From S2P Require Import Prelude.
From S2P Require Import PyJson.
From S2P Require Import Isolation.
From S2P Require Import FairGate.
From S2P Require Import SchedulerPolicy.
Local Open Scope Z_scope.

(** ** Counters *)

(** [_CapacitySlot]; a [BoundedSemaphore] is one with the initial value as its
    capacity, acquired by one. *)
Record Slot : Type := mkSlot { slot_capacity : Z; available : Z }.

Definition new_slot (n : Z) : Slot := mkSlot (Z.max 1 n) (Z.max 1 n).

(** [acquire_many] before its wait: taken, refused, or it has to wait. *)
Inductive attempt : Type := Got (s : Slot) | Blocked | Refused.

Definition take_amount (amount : Z) (s : Slot) : Slot := mkSlot (slot_capacity s) (available s - amount).

Definition acquire_many (amount : Z) (s : Slot) : attempt :=
  if negb ((1 <=? amount) && (amount <=? slot_capacity s)) then Refused
  else if available s <? amount then Blocked else Got (take_amount amount s).

Definition slot_release (amount : Z) (s : Slot) : option Slot :=
  if (amount <? 1) || (slot_capacity s <? available s + amount) then None
  else Some (mkSlot (slot_capacity s) (available s + amount)).

(** [_acquire]: [None] waits, [Some None] is false.  Without a deadline the
    answer of [acquire] is not looked at. *)
Definition acquire_slot (timed : bool) (s : Slot) : option (option Slot) :=
  match acquire_many 1 s with
  | Got s' => Some (Some s')
  | Blocked => None
  | Refused => Some (if timed then None else Some s)
  end.

(** ** The scheduler's shared objects *)

Record Host : Type := mkHost {
  global_slots : Slot;
  fair_gate : Gate;
  policy_slots : gmap (string * Z) Slot;
  resource_slots : gmap string Slot;
  isolation : World }.

#[export] Instance eta_Host : Settable Host := fun h =>
  mkHost (global_slots h) (fair_gate h) (policy_slots h) (resource_slots h) (isolation h).

(** The rest of [__init__]: [limits] is the merged dict.  [BoundedSemaphore]
    refuses a negative value; the others are clamped. *)
Definition new_host (in_flight : Z) (limits : gmap string Z) : Host :=
  mkHost (mkSlot in_flight in_flight) (new_gate (Z.max 1 (in_flight - 1))) ∅ (new_slot <$> limits)
    (mkWorld 0 new_isolation).

(** ** Calls *)

(** What a call asks for.  [c_id] is the identity of its gate ticket,
    [c_context] the owner and priority of [_invoke_with_context]. *)
Record Call : Type := mkCall {
  c_id : nat;
  c_context : option (string * string);
  c_name : string;
  c_kind : string;
  c_targets : option (list string);
  c_policy : option (string * Z);
  c_claims : list (string * Z);
  c_timed : bool }.

(** The verified facts of an execution context. *)
Record Facts : Type := mkFacts {
  f_owner : string; f_priority : string; f_resources : list (string * Z);
  f_timed : bool; f_targets : list string }.

(** [resource_slots.get(cls, resource_slots.get("default"))], by name. *)
Definition resource_of (h : Host) (class : string) : option string :=
  if bool_decide (is_Some (resource_slots h !! class)) then Some class
  else if bool_decide (is_Some (resource_slots h !! "default")) then Some "default" else None.

Definition within_limit (h : Host) (claim : string * Z) : bool :=
  match resource_slots h !! claim.1 with
  | Some s => claim.2 <=? slot_capacity s
  | None => false
  end.

Section Requests.
Context (env : string -> option string) (sched : Scheduler).

(** [invoke] before its first acquisition. *)
Definition invoke_call (h : Host) (id : nat) (x : Executor) (identity : option string) (timed : bool)
  : result policy_error Call :=
  match policy_for x, isolation_targets env sched x identity [] with
  | Ok policy, Ok (kind, targets, identity') =>
      match executor_slot env sched x identity' with
      | Ok slot =>
          Ok (mkCall id None (x_name x) kind targets slot
                match resource_of h (resource_class policy) with Some n => [(n, 1)] | None => [] end
                timed)
      | Err e => Err e
      end
  | Err e, _ | _, Err e => Err e
  end.

(** [_invoke_with_context] before its first acquisition. *)
Definition context_call (h : Host) (id : nat) (x : Executor) (identity : option string) (timed : bool)
    (facts : Facts) : result policy_error Call :=
  match isolation_targets env sched x identity (f_targets facts) with
  | Err e => Err e
  | Ok (kind, targets, identity') =>
      let claims := List.filter (fun c => negb (c.2 =? 0)) (f_resources facts) in
      match List.find (fun c => negb (within_limit h c)) claims with
      | Some (name, _) =>
          Err (SchedulerContextError ("execution context exceeds the " +:+ name +:+ " host limit"))
      | None =>
          match context_executor_slot env sched x identity' with
          | Ok slot =>
              Ok (mkCall id (Some (f_owner facts, f_priority facts)) (x_name x) kind targets (Some slot)
                    claims (f_timed facts || timed))
          | Err e => Err e
          end
      end
  end.

(** [_policy_slots.setdefault(key, BoundedSemaphore(limit))]. *)
Definition with_policy_slot (c : Call) (h : Host) : Host :=
  match c_policy c with
  | Some key =>
      if bool_decide (is_Some (policy_slots h !! key)) then h
      else h <| policy_slots := <[key := mkSlot key.2 key.2]> (policy_slots h) |>
  | None => h
  end.

(** A call a thread may make: the amounts of a verified context are not
    negative and its resource names are distinct. *)
Definition verified_facts (facts : Facts) : Prop :=
  NoDup (map fst (f_resources facts)) /\ forall n a, (n, a) ∈ f_resources facts -> 0 <= a.

Inductive requested (h : Host) (id : nat) (c : Call) : Prop :=
| req_plain x identity timed : invoke_call h id x identity timed = Ok c -> requested h id c
| req_context x identity timed facts :
    verified_facts facts -> context_call h id x identity timed facts = Ok c -> requested h id c.
End Requests.

(** ** The phases of a call *)

(** What a thread holds, in the order it is released. *)
Inductive Hold : Type :=
| HIsolation (t : Ticket)
| HPolicy (key : string * Z)
| HResource (name : string) (amount : Z)
| HGlobal
| HGate.

(** How the admission ended; the call's own result is not looked at. *)
Inductive Outcome : Type := Returned | NotAdmitted.

Inductive Phase : Type :=
| AtGate
| InGate
| AtGlobal
| AtExecutor
| AtIsolation
| InIsolation (t : Ticket)
| AtResources (t : Ticket)
| Running (t : Ticket)
| Releasing (holds : list Hold) (outcome : Outcome)
| Finished (outcome : Outcome)
| Broken.

Definition gate_holds (c : Call) : list Hold :=
  match c_context c with Some _ => [HGate] | None => [] end.
Definition policy_holds (c : Call) : list Hold :=
  match c_policy c with Some key => [HPolicy key] | None => [] end.
Definition resource_holds (c : Call) : list Hold :=
  rev (map (fun claim => HResource claim.1 claim.2) (c_claims c)).

(** [release_slots] and the [except] clause: isolation, executor, resources,
    global slot, gate, of what was acquired. *)
Definition holds (c : Call) (ph : Phase) : list Hold :=
  match ph with
  | AtGate | InGate | Finished _ | Broken => []
  | AtGlobal => gate_holds c
  | AtExecutor => HGlobal :: gate_holds c
  | AtIsolation | InIsolation _ => policy_holds c ++ HGlobal :: gate_holds c
  | AtResources t => HIsolation t :: policy_holds c ++ HGlobal :: gate_holds c
  | Running t => HIsolation t :: policy_holds c ++ resource_holds c ++ HGlobal :: gate_holds c
  | Releasing hs _ => hs
  end.

Definition gate_ticket (c : Call) : option FairTicket :=
  match c_context c with Some (o, p) => Some (mkFairTicket (c_id c) o p) | None => None end.

Definition refuse (c : Call) (ph : Phase) : Phase := Releasing (holds c ph) NotAdmitted.

(** The result of [_acquire] on a slot of the host. *)
Definition acquired (r : option (option Slot)) (store : Slot -> Host) (h : Host) (next : Phase) (failed : Phase)
  : option (Phase * Host) :=
  match r with
  | None => None
  | Some None => Some (failed, h)
  | Some (Some s) => Some (next, store s)
  end.

Definition lacking (h : Host) (claim : string * Z) : bool :=
  match resource_slots h !! claim.1 with Some s => available s <? claim.2 | None => true end.

Definition take_claim (h : Host) (claim : string * Z) : Host :=
  h <| resource_slots := alter (take_amount claim.2) claim.1 (resource_slots h) |>.

(** [_acquire_resource_claims] up to its wait: the whole vector or nothing. *)
Definition acquire_resource_claims (claims : list (string * Z)) (h : Host) : option Host :=
  if existsb (lacking h) claims then None else Some (fold_left take_claim claims h).

Definition release_hold (hold : Hold) (h : Host) : option Host :=
  match hold with
  | HIsolation t =>
      let w := isolation h in
      i ← release t (Isolation.object w); Some (h <| isolation := mkWorld (created w) i |>)
  | HPolicy key =>
      s ← policy_slots h !! key; s' ← slot_release 1 s;
      Some (h <| policy_slots := <[key := s']> (policy_slots h) |>)
  | HResource name amount =>
      s ← resource_slots h !! name; s' ← slot_release amount s;
      Some (h <| resource_slots := <[name := s']> (resource_slots h) |>)
  | HGlobal => s' ← slot_release 1 (global_slots h); Some (h <| global_slots := s' |>)
  | HGate =>
      match gate_release (fair_gate h) with
      | Ok g => Some (h <| fair_gate := g |>)
      | Err _ => None
      end
  end.

Definition new_ticket (c : Call) (h : Host) : Ticket :=
  mkTicket (created (isolation h)) (c_name c) (c_kind c) (c_targets c).

Definition targets_valid (c : Call) : bool :=
  match c_targets c with
  | Some targets => match validate_targets targets with Ok _ => true | Err _ => false end
  | None => true
  end.

(** Where a call starts. *)
Definition start (c : Call) : Phase :=
  match c_context c with Some _ => AtGate | None => AtGlobal end.

(** What a thread does next; [None] when it waits, or is done. *)
Definition advance (c : Call) (ph : Phase) (h : Host) : option (Phase * Host) :=
  match ph with
  | AtGate =>
      t ← gate_ticket c;
      match acquire_enter t (fair_gate h) with
      | Ok g => Some (InGate, h <| fair_gate := g |>)
      | Err _ => Some (refuse c AtGate, h)
      end
  | InGate =>
      t ← gate_ticket c; if is_granted t (fair_gate h) then Some (AtGlobal, h) else None
  | AtGlobal =>
      acquired (acquire_slot (c_timed c) (global_slots h)) (fun s => h <| global_slots := s |>) h
        AtExecutor (refuse c AtGlobal)
  | AtExecutor =>
      match c_policy c with
      | None => Some (AtIsolation, h)
      | Some key =>
          s ← policy_slots h !! key;
          acquired (acquire_slot (c_timed c) s) (fun s' => h <| policy_slots := <[key := s']> (policy_slots h) |>)
            h AtIsolation (refuse c AtExecutor)
      end
  | AtIsolation =>
      if targets_valid c then
        let w := isolation h in let t := new_ticket c h in
        Some (InIsolation t, h <| isolation := mkWorld (S (created w)) (enter t (Isolation.object w)) |>)
      else Some (refuse c AtIsolation, h)
  | InIsolation t =>
      let w := isolation h in
      i ← admit_ticket t (Isolation.object w);
      Some (AtResources t, h <| isolation := mkWorld (created w) i |>)
  | AtResources t =>
      match c_context c, c_claims c with
      | None, [] => Some (Running t, h)
      | None, (name, _) :: _ =>
          s ← resource_slots h !! name;
          acquired (acquire_slot (c_timed c) s) (fun s' => h <| resource_slots := <[name := s']> (resource_slots h) |>)
            h (Running t) (refuse c (AtResources t))
      | Some _, claims => h' ← acquire_resource_claims claims h; Some (Running t, h')
      end
  | Running t => Some (Releasing (holds c (Running t)) Returned, h)
  | Releasing (hold :: rest) outcome =>
      match release_hold hold h with
      | Some h' => Some (Releasing rest outcome, h')
      | None => Some (Broken, h)
      end
  | Releasing [] outcome => Some (Finished outcome, h)
  | Finished _ | Broken => None
  end.

(** The deadline passes at an acquisition. *)
Definition withdraw (c : Call) (ph : Phase) (h : Host) : option (Phase * Host) :=
  if negb (c_timed c) then None
  else
    match ph with
    | InGate =>
        t ← gate_ticket c;
        if is_granted t (fair_gate h) then None
        else Some (refuse c InGate, h <| fair_gate := acquire_timeout t (fair_gate h) |>)
    | InIsolation t =>
        let w := isolation h in
        Some (refuse c (InIsolation t), h <| isolation := mkWorld (created w) (expire t (Isolation.object w)) |>)
    | AtGlobal => Some (refuse c ph, h)
    | AtExecutor => if bool_decide (c_policy c = None) then None else Some (refuse c ph, h)
    | AtResources t =>
        if bool_decide (c_context c = None) && bool_decide (c_claims c = []) then None
        else Some (refuse c ph, h)
    | _ => None
    end.

(** ** Threads *)

Record System : Type := mkSystem { host : Host; calls : list (Call * Phase) }.

Definition new_system (in_flight : Z) (limits : gmap string Z) : System :=
  mkSystem (new_host in_flight limits) [].

(** Thread [i] moves by [f]. *)
Definition moves (f : Call -> Phase -> Host -> option (Phase * Host)) (i : nat) (s s' : System) : Prop :=
  exists c ph ph' h', calls s !! i = Some (c, ph) /\ f c ph (host s) = Some (ph', h') /\
    s' = mkSystem h' (<[i := (c, ph')]> (calls s)).

Definition waits_in_gate (i : nat) (s : System) : Prop := exists c, calls s !! i = Some (c, InGate).

Section Threads.
Context (env : string -> option string) (sched : Scheduler).

Definition arrives (s s' : System) : Prop :=
  exists c, requested env sched (host s) (length (calls s)) c /\
    s' = mkSystem (with_policy_slot c (host s)) (calls s ++ [(c, start c)]).

(** A step of the running threads: progress, or a deadline. *)
Inductive work (s s' : System) : Prop :=
| work_advance i : moves advance i s s' -> work s s'
| work_withdraw i : moves withdraw i s s' -> ~ waits_in_gate i s -> work s s'.

(** Without timeouts in the fair gate. *)
Inductive quiet_step (s s' : System) : Prop :=
| quiet_arrives : arrives s s' -> quiet_step s s'
| quiet_work : work s s' -> quiet_step s s'.

Inductive sys_step (s s' : System) : Prop :=
| sys_quiet : quiet_step s s' -> sys_step s s'
| sys_gate_timeout i : moves withdraw i s s' -> waits_in_gate i s -> sys_step s s'.
End Threads.
