(* ===== verification/AdmissionSlots.v ===== *)
(** * The counters of the admission path

    What each counter of the host lends to which call (SchedulerAdmission.v):
    the loads of the holds, and what a step of a thread moves. *)
From Stdlib Require Import Strings.String.
From S2P Require Import Prelude.
From S2P Require Import PyJson.
From S2P Require Import Isolation.
From S2P Require Import FairGate.
From S2P Require Import SchedulerPolicy.
From S2P Require Import SchedulerAdmission.
Local Open Scope Z_scope.

(** ** Sums *)

Definition zsum {A} (f : A -> Z) (l : list A) : Z := foldr (fun x n => f x + n) 0 l.

Lemma zsum_cons {A} (f : A -> Z) x l : zsum f (x :: l) = f x + zsum f l.
Proof. done. Qed.

Lemma zsum_app {A} (f : A -> Z) l k : zsum f (l ++ k) = zsum f l + zsum f k.
Proof. induction l as [|x l IH]; simpl; [done|]. lia. Qed.

#[export] Instance zsum_perm {A} (f : A -> Z) : Proper ((≡ₚ) ==> eq) (zsum f).
Proof. induction 1; simpl in *; lia. Qed.

Lemma zsum_nonneg {A} (f : A -> Z) l : (forall x, x ∈ l -> 0 <= f x) -> 0 <= zsum f l.
Proof.
  induction l as [|x l IH]; intros H; simpl; [done|].
  pose proof (H x (list_elem_of_here x l)). assert (0 <= zsum f l) by (apply IH; set_solver). lia.
Qed.

Lemma zsum_zero {A} (f : A -> Z) l : (forall x, x ∈ l -> f x = 0) -> zsum f l = 0.
Proof.
  induction l as [|x l IH]; intros H; simpl; [done|]. rewrite (H x), IH; [done | set_solver | left].
Qed.

Lemma zsum_member {A} (f : A -> Z) l x :
  (forall y, y ∈ l -> 0 <= f y) -> x ∈ l -> f x <= zsum f l.
Proof.
  intros H (l1 & l2 & ->)%list_elem_of_split. rewrite zsum_app, zsum_cons.
  assert (0 <= zsum f l1 /\ 0 <= zsum f l2) by (split; apply zsum_nonneg; set_solver). lia.
Qed.

(** An update of a list, up to order. *)
Lemma update_perm {A} (l : list A) i x y :
  l !! i = Some x -> exists D, l ≡ₚ x :: D /\ <[i := y]> l ≡ₚ y :: D.
Proof.
  intros Hi. exists (take i l ++ drop (S i) l). split.
  - rewrite <- (take_drop_middle l i x Hi) at 1. by rewrite Permutation_middle.
  - rewrite insert_take_drop by (by eapply lookup_lt_Some). by rewrite Permutation_middle.
Qed.

(** ** Counters *)

Inductive Counter : Type :=
| CGlobal | CPolicy (key : string * Z) | CResource (name : string) | CGate.

#[export] Instance Counter_eq_dec : EqDecision Counter.
Proof. solve_decision. Defined.

Definition slot_of (k : Counter) (h : Host) : option Slot :=
  match k with
  | CGlobal => Some (global_slots h)
  | CPolicy key => policy_slots h !! key
  | CResource name => resource_slots h !! name
  | CGate => None
  end.

Definition store (k : Counter) (s : Slot) (h : Host) : Host :=
  match k with
  | CGlobal => h <| global_slots := s |>
  | CPolicy key => h <| policy_slots := <[key := s]> (policy_slots h) |>
  | CResource name => h <| resource_slots := <[name := s]> (resource_slots h) |>
  | CGate => h
  end.

Lemma slot_of_store k k' s h :
  k <> CGate -> slot_of k' (store k s h) = if decide (k' = k) then Some s else slot_of k' h.
Proof.
  intros Hk. destruct (decide (k' = k)) as [->|Hne].
  - destruct k; simpl; try done; by rewrite lookup_insert_eq.
  - destruct k, k'; simpl; try done; rewrite lookup_insert_ne; congruence.
Qed.

(** What one hold takes of which counter. *)
Definition weight (k : Counter) (hold : Hold) : Z :=
  match hold with
  | HIsolation _ => 0
  | HPolicy key => if decide (k = CPolicy key) then 1 else 0
  | HResource name amount => if decide (k = CResource name) then amount else 0
  | HGlobal => if decide (k = CGlobal) then 1 else 0
  | HGate => if decide (k = CGate) then 1 else 0
  end.

Definition load (k : Counter) (hs : list Hold) : Z := zsum (weight k) hs.

Arguments load : simpl never.

Definition load_of (k : Counter) (x : Call * Phase) : Z := load k (holds x.1 x.2).

(** All the calls hold of a counter. *)
Definition total (k : Counter) (calls : list (Call * Phase)) : Z := zsum (load_of k) calls.

#[export] Instance total_perm k : Proper ((≡ₚ) ==> eq) (total k).
Proof. apply zsum_perm. Qed.

(** ** Calls in order *)

Record call_ok (h : Host) (c : Call) : Prop := {
  co_policy : forall key, c_policy c = Some key -> is_Some (slot_of (CPolicy key) h);
  co_names : NoDup (map fst (c_claims c));
  co_claims : forall n a, (n, a) ∈ c_claims c ->
                exists s, slot_of (CResource n) h = Some s /\ 1 <= a <= slot_capacity s;
  co_plain : c_context c = None -> c_claims c = [] \/ exists n, c_claims c = [(n, 1)] }.

Definition hold_ok (c : Call) (hold : Hold) : Prop :=
  match hold with
  | HPolicy key => c_policy c = Some key
  | HResource n a => (n, a) ∈ c_claims c
  | HIsolation _ | HGlobal => True
  | HGate => c_context c <> None
  end.

Definition phase_ok (c : Call) (ph : Phase) : Prop :=
  match ph with
  | AtGate | InGate => c_context c <> None
  | Broken => False
  | _ => True
  end /\ Forall (hold_ok c) (holds c ph).

Lemma resource_holds_ok c : Forall (hold_ok c) (resource_holds c).
Proof.
  apply Forall_forall. intros hd Hin. unfold resource_holds in Hin. rewrite rev_alt in Hin.
  apply elem_of_reverse, list_elem_of_In, in_map_iff in Hin as ([n a] & <- & Hin). simpl.
  by apply list_elem_of_In.
Qed.

Lemma rest_holds_ok c :
  Forall (hold_ok c) (policy_holds c) /\ Forall (hold_ok c) (gate_holds c).
Proof.
  unfold policy_holds, gate_holds. split.
  - destruct (c_policy c) eqn:E; constructor; [done | constructor].
  - destruct (c_context c) eqn:E; constructor; [simpl; by rewrite E | constructor].
Qed.

(** Every phase but a release holds what the call asked for. *)
Lemma holds_ok c ph : (forall hs o, ph <> Releasing hs o) -> Forall (hold_ok c) (holds c ph).
Proof.
  destruct (rest_holds_ok c) as [Hp Hg]. pose proof (resource_holds_ok c) as Hr.
  intros Hne. destruct ph; simpl; repeat (apply Forall_app; split); repeat constructor; try done;
    repeat (apply Forall_app; split); repeat constructor; try done. by destruct (Hne holds outcome).
Qed.

Lemma load_app k l m : load k (l ++ m) = load k l + load k m.
Proof. apply zsum_app. Qed.

Lemma load_cons k hd l : load k (hd :: l) = weight k hd + load k l.
Proof. done. Qed.

Lemma weight_nonneg h c k hd : call_ok h c -> hold_ok c hd -> 0 <= weight k hd.
Proof.
  intros Hc Hh. destruct hd; simpl in *; try case_decide; try lia.
  destruct (co_claims _ _ Hc _ _ Hh) as (s & _ & ?). lia.
Qed.

Lemma load_nonneg h c k ph : call_ok h c -> phase_ok c ph -> 0 <= load k (holds c ph).
Proof.
  intros Hc [_ Hh]. rewrite Forall_forall in Hh. apply zsum_nonneg. intros hd Hin.
  by eapply weight_nonneg, Hh.
Qed.

Lemma total_nonneg h k calls :
  (forall c ph, (c, ph) ∈ calls -> call_ok h c /\ phase_ok c ph) -> 0 <= total k calls.
Proof.
  intros H. apply zsum_nonneg. intros [c ph] Hin. destruct (H c ph Hin). by eapply load_nonneg.
Qed.

(** ** What a step moves *)

(** From [h] to [h'] every counter lends [d] more, and stays above zero. *)
Definition slots_move (d : Counter -> Z) (h h' : Host) : Prop :=
  forall k, match slot_of k h, slot_of k h' with
            | Some s, Some s' =>
                slot_capacity s' = slot_capacity s /\ available s' = available s - d k /\
                (0 <= available s -> 0 <= available s')
            | None, None => True
            | _, _ => False
            end.

Lemma slots_move_keep (d : Counter -> Z) h h' :
  (forall k, slot_of k h' = slot_of k h) -> (forall k, k <> CGate -> d k = 0) -> slots_move d h h'.
Proof.
  intros Hs Hd k. rewrite Hs. destruct (slot_of k h) as [s|] eqn:E; [|done].
  rewrite Hd; [|by intros ->]. split_and!; [done | lia | done].
Qed.

Lemma slots_move_store k s s' h (d : Counter -> Z) :
  slot_of k h = Some s -> slot_capacity s' = slot_capacity s -> available s' = available s - d k ->
  (0 <= available s -> 0 <= available s') ->
  (forall k', k' <> CGate -> k' <> k -> d k' = 0) -> slots_move d h (store k s' h).
Proof.
  intros Hs Hc Ha Hn Hd k'. assert (k <> CGate) as Hk by (by intros ->).
  rewrite slot_of_store by done. destruct (decide (k' = k)) as [->|Hne]; [by rewrite Hs|].
  destruct (slot_of k' h) as [s0|] eqn:E; [|done].
  rewrite Hd; [|by intros -> | done]. split_and!; [done | lia | done].
Qed.

Lemma slots_move_trans d1 d2 h1 h2 h3 :
  slots_move d1 h1 h2 -> slots_move d2 h2 h3 -> slots_move (fun k => d1 k + d2 k) h1 h3.
Proof.
  intros H1 H2 k. specialize (H1 k). specialize (H2 k).
  destruct (slot_of k h1), (slot_of k h2), (slot_of k h3); try done.
  destruct H1 as (A1 & A2 & A3), H2 as (B1 & B2 & B3). split_and!; [congruence | lia | auto].
Qed.

Lemma slots_move_ext d d' h h' :
  (forall k, k <> CGate -> d k = d' k) -> slots_move d h h' -> slots_move d' h h'.
Proof.
  intros Hd H k. specialize (H k). destruct (slot_of k h) as [s|] eqn:E; [|done].
  rewrite <- Hd; [done | by intros ->].
Qed.

Lemma slots_move_call_ok d h h' c : slots_move d h h' -> call_ok h c -> call_ok h' c.
Proof.
  intros Hm [H1 H2 H3 H4]. split; try done.
  - intros key Hk. specialize (Hm (CPolicy key)). destruct (H1 key Hk) as [s Es]. rewrite Es in Hm.
    destruct (slot_of (CPolicy key) h'); [by eauto | done].
  - intros n a Hin. destruct (H3 n a Hin) as (s & Es & Ha). specialize (Hm (CResource n)).
    rewrite Es in Hm. destruct (slot_of (CResource n) h') as [s'|]; [|done].
    exists s'. destruct Hm as (-> & _). done.
Qed.

(** [_acquire] of one: the next phase lends one more, a refusal nothing. *)
Lemma acquire_one_inv timed s r :
  1 <= slot_capacity s -> acquire_slot timed s = Some r ->
  r = Some (take_amount 1 s) /\ 1 <= available s.
Proof.
  intros Hc. unfold acquire_slot, acquire_many.
  destruct (Z.leb_spec 1 1), (Z.leb_spec 1 (slot_capacity s)); try lia. simpl.
  destruct (Z.ltb_spec (available s) 1); [done|]. by intros [= <-].
Qed.

Lemma acquire_slot_blocks timed s :
  1 <= slot_capacity s -> acquire_slot timed s = None -> available s < 1.
Proof.
  intros Hc. unfold acquire_slot, acquire_many.
  destruct (Z.leb_spec 1 1), (Z.leb_spec 1 (slot_capacity s)); try lia. simpl.
  by destruct (Z.ltb_spec (available s) 1).
Qed.

(** The vector of a context call. *)
Lemma take_claims_move claims : forall h,
  NoDup (map fst claims) ->
  (forall n a, (n, a) ∈ claims -> exists s, slot_of (CResource n) h = Some s) ->
  existsb (lacking h) claims = false ->
  slots_move (fun k => zsum (fun c => weight k (HResource c.1 c.2)) claims) h
    (fold_left take_claim claims h).
Proof.
  induction claims as [|[n a] rest IH]; intros h Hnd Hs Hl; simpl in *.
  - by apply slots_move_keep.
  - apply NoDup_cons in Hnd as [Hn Hnd]. apply orb_false_iff in Hl as [Hl Hrest].
    destruct (Hs n a) as [s Es]; [left|]. unfold lacking in Hl. simpl in Hl, Es. rewrite Es in Hl.
    apply Z.ltb_ge in Hl.
    assert (take_claim h (n, a) = store (CResource n) (take_amount a s) h) as Et.
    { unfold take_claim, store. simpl. f_equal.
      apply map_eq. intros m. destruct (decide (m = n)) as [->|Hne].
      - by rewrite lookup_alter_eq, lookup_insert_eq, Es.
      - by rewrite lookup_alter_ne, lookup_insert_ne. }
    apply slots_move_trans with (h2 := take_claim h (n, a)).
    + rewrite Et. eapply slots_move_store; simpl; try done.
      * by rewrite decide_True.
      * lia.
      * intros k' _ Hne. by rewrite decide_False.
    + assert (forall m b, (m, b) ∈ rest -> m <> n) as Hne.
      { intros m b Hin ->. apply Hn. apply list_elem_of_In, in_map_iff. exists (n, b).
        split; [done | by apply list_elem_of_In]. }
      rewrite Et. apply IH; [done | |].
      * intros m b Hin. simpl. rewrite lookup_insert_ne by (symmetry; by apply (Hne m b)).
        apply (Hs m b). by right.
      * rewrite <- Hrest.
        clear - Hne. induction rest as [|[m b] rest IH]; cbn [existsb]; [done|].
        rewrite IH by (intros m' b' Hin; apply (Hne m' b'); by right). f_equal.
        unfold lacking. simpl. rewrite lookup_insert_ne; [done|]. intros <-. by apply (Hne n b); [left|].
Qed.

Definition capacities (h : Host) : Prop := forall k s, slot_of k h = Some s -> 1 <= slot_capacity s.

Lemma acquired_inv timed k s h next failed ph' h' :
  1 <= slot_capacity s ->
  acquired (acquire_slot timed s) (fun s' => store k s' h) h next failed = Some (ph', h') ->
  ph' = next /\ h' = store k (take_amount 1 s) h /\ 1 <= available s.
Proof.
  intros Hc. unfold acquired. destruct (acquire_slot timed s) as [r|] eqn:E; [|done].
  destruct (acquire_one_inv _ _ _ Hc E) as [-> Ha]. by intros [= <- <-].
Qed.

(** Taking one of a counter. *)
Lemma take_one_move k s h (d : Counter -> Z) :
  slot_of k h = Some s -> 1 <= available s -> d k = 1 ->
  (forall k', k' <> CGate -> k' <> k -> d k' = 0) -> slots_move d h (store k (take_amount 1 s) h).
Proof.
  intros Hs Ha Hd Hd'. apply slots_move_store with (s := s); simpl; try done; lia.
Qed.

Lemma slot_release_inv amount s s' :
  slot_release amount s = Some s' -> 1 <= amount /\ slot_capacity s' = slot_capacity s /\
  available s' = available s + amount /\ available s + amount <= slot_capacity s.
Proof.
  unfold slot_release. destruct (Z.ltb_spec amount 1); [done|].
  destruct (Z.ltb_spec (slot_capacity s) (available s + amount)); [done|]. by intros [= <-].
Qed.

Lemma release_hold_slots hd h h' :
  release_hold hd h = Some h' -> slots_move (fun k => - weight k hd) h h'.
Proof.
  destruct hd as [t|key|name amount| |]; simpl; intros H.
  - apply bind_Some in H as (i & _ & [= <-]). by apply slots_move_keep.
  - apply bind_Some in H as (s & Es & H). apply bind_Some in H as (s' & (A & B & C & D)%slot_release_inv & [= <-]).
    apply (slots_move_store (CPolicy key) s s'); simpl; try done; try case_decide; try done; try lia.
    intros k' _ Hne. by rewrite decide_False.
  - apply bind_Some in H as (s & Es & H). apply bind_Some in H as (s' & (A & B & C & D)%slot_release_inv & [= <-]).
    apply (slots_move_store (CResource name) s s'); simpl; try done; try case_decide; try done; try lia.
    intros k' _ Hne. by rewrite decide_False.
  - apply bind_Some in H as (s' & (A & B & C & D)%slot_release_inv & [= <-]).
    apply (slots_move_store CGlobal (global_slots h) s'); simpl; try done; try lia.
    intros k' _ Hne. by rewrite decide_False.
  - destruct (gate_release _); [|done]. injection H as <-. apply slots_move_keep; [by intros [] |].
    intros k Hk. simpl. by rewrite decide_False.
Qed.

Lemma resource_load k c : load k (resource_holds c) = zsum (fun x => weight k (HResource x.1 x.2)) (c_claims c).
Proof.
  unfold load, resource_holds. rewrite (zsum_perm _ _ _ (Permutation_sym (Permutation_rev _))). unfold zsum.
  induction (c_claims c) as [|x l IH]; simpl in *; [done|]. by rewrite IH.
Qed.

(** The loads after each phase of the admission, as sums. *)
Lemma load_simplify k c :
  (forall t, load k (holds c (Running t)) =
     load k (policy_holds c) + load k (resource_holds c) + weight k HGlobal + load k (gate_holds c)) /\
  (forall t, load k (holds c (AtResources t)) = load k (policy_holds c) + weight k HGlobal + load k (gate_holds c)) /\
  load k (holds c AtIsolation) = load k (policy_holds c) + weight k HGlobal + load k (gate_holds c) /\
  load k (holds c AtExecutor) = weight k HGlobal + load k (gate_holds c).
Proof. split_and!; intros; simpl; rewrite ?load_cons, ?load_app, ?load_cons; simpl; lia. Qed.

Lemma gate_load k c : k <> CGate -> load k (gate_holds c) = 0.
Proof.
  intros Hk. unfold gate_holds. destruct (c_context c); [|done]. unfold load. simpl.
  by rewrite decide_False.
Qed.

(** The resources of a call: both forms of the acquisition. *)
Lemma resources_move c t h ph' h' :
  capacities h -> call_ok h c -> advance c (AtResources t) h = Some (ph', h') ->
  ph' = Running t /\ slots_move (fun k => load k (resource_holds c)) h h'.
Proof.
  intros Hcap [_ Hnd Hcl Hp]. simpl. destruct (c_context c) as [o|] eqn:Ec.
  - intros (h1 & Ha & [= <- <-])%bind_Some. split; [done|].
    unfold acquire_resource_claims in Ha. destruct (existsb _ _) eqn:E; [done|]. injection Ha as <-.
    eapply slots_move_ext; [|apply take_claims_move; [done | | done]].
    + intros k _. by rewrite resource_load.
    + intros n a Hin. destruct (Hcl n a Hin) as (s & Es & _). by exists s.
  - destruct (Hp eq_refl) as [El|[n El]].
    + rewrite El. intros [= <- <-]. split; [done|]. apply slots_move_keep; [done|].
      intros k _. rewrite resource_load, El. done.
    + rewrite El. intros (s & Es & Ha)%bind_Some.
      apply (acquired_inv _ (CResource n)) in Ha as (-> & -> & Ha); [|by apply (Hcap (CResource n))].
      split; [done|]. apply take_one_move; try done.
      * rewrite resource_load, El. simpl. by rewrite decide_True.
      * intros k' _ Hne. rewrite resource_load, El. simpl. by rewrite decide_False.
Qed.

Lemma advance_slots c ph h ph' h' :
  capacities h -> call_ok h c -> advance c ph h = Some (ph', h') -> ph' <> Broken ->
  slots_move (fun k => load k (holds c ph') - load k (holds c ph)) h h'.
Proof.
  intros Hcap Hc Ha Hb. destruct ph as [ | | | | |t|t|t|hs o|o| ]; simpl in Ha.
  - apply bind_Some in Ha as (t & _ & Ha). destruct (acquire_enter _ _); injection Ha as <- <-;
      by apply slots_move_keep.
  - apply bind_Some in Ha as (t & _ & Ha). destruct (is_granted _ _); [|done]. injection Ha as <- <-.
    apply slots_move_keep; [done|]. intros k Hk. simpl. rewrite gate_load by done. done.
  - apply (acquired_inv _ CGlobal) in Ha as (-> & -> & Ha); [|by apply (Hcap CGlobal)].
    apply take_one_move; simpl; [done | done | | intros k' _ Hne]; rewrite load_cons; simpl;
      [lia | rewrite decide_False by done; lia].
  - destruct (c_policy c) as [key|] eqn:Ep.
    + apply bind_Some in Ha as (s & Es & Ha).
      apply (acquired_inv _ (CPolicy key)) in Ha as (-> & -> & Ha); [|by apply (Hcap (CPolicy key))].
      assert (forall k, load k (holds c AtIsolation) - load k (holds c AtExecutor) = weight k (HPolicy key)) as El.
      { intros k. destruct (load_simplify k c) as (_ & _ & -> & ->). unfold policy_holds. rewrite Ep.
        rewrite load_cons. change (load k []) with 0. lia. }
      apply take_one_move; try done; [|intros k' _ Hne]; rewrite El; simpl;
        [by rewrite decide_True | by rewrite decide_False].
    + injection Ha as <- <-. apply slots_move_keep; [done|]. intros k _.
      destruct (load_simplify k c) as (_ & _ & -> & ->). unfold policy_holds. rewrite Ep.
      change (load k []) with 0. lia.
  - destruct (targets_valid c); injection Ha as <- <-; apply slots_move_keep; try done; intros k _;
      simpl; lia.
  - apply bind_Some in Ha as (i & _ & [= <- <-]). apply slots_move_keep; [done|]. intros k _. simpl.
    rewrite load_cons. simpl. lia.
  - destruct (resources_move c t h ph' h' Hcap Hc Ha) as [-> Hm].
    eapply slots_move_ext; [|exact Hm]. intros k _.
    destruct (load_simplify k c) as (-> & -> & _). lia.
  - injection Ha as <- <-. apply slots_move_keep; [done|]. intros k _. simpl. lia.
  - destruct hs as [|hd rest]; [injection Ha as <- <-; by apply slots_move_keep|].
    destruct (release_hold hd h) as [h1|] eqn:Er; injection Ha as <- <-; [|done].
    eapply slots_move_ext; [|by eapply release_hold_slots]. intros k _. simpl. rewrite load_cons. lia.
  - done.
  - done.
Qed.

Lemma withdraw_slots c ph h ph' h' :
  withdraw c ph h = Some (ph', h') ->
  ph' = refuse c ph /\ slots_move (fun k => load k (holds c ph') - load k (holds c ph)) h h'.
Proof.
  intros Hg. assert (ph' = refuse c ph /\ forall k, slot_of k h' = slot_of k h) as [-> Hk].
  { unfold withdraw in Hg. destruct (c_timed c); [|done]. simpl in Hg.
    destruct ph; try done.
    - apply bind_Some in Hg as (t & _ & Hg). destruct (is_granted _ _); [done|]. injection Hg as <- <-.
      split; [done|]. by intros [].
    - by injection Hg as <- <-.
    - case_bool_decide; [done|]. by injection Hg as <- <-.
    - injection Hg as <- <-. split; [done|]. by intros [].
    - destruct (_ && _); [done|]. by injection Hg as <- <-. }
  split; [done|]. apply slots_move_keep; [done|]. intros k _. simpl. lia.
Qed.
