(* ===== verification/AdmissionTickets.v ===== *)
(** * The tickets of the admission path

    Which call owns each isolation ticket and each slot of the fair gate, and
    what a step of a thread (SchedulerAdmission.v) moves between the calls. *)
From Stdlib Require Import Strings.String.
From S2P Require Import Prelude.
From S2P Require Import PyJson.
From S2P Require Import Isolation.
From S2P Require Import FairGate.
From S2P Require Import GateTickets.
From S2P Require Import SchedulerPolicy.
From S2P Require Import SchedulerAdmission.
From S2P Require Import AdmissionSlots.
Local Open Scope Z_scope.

(** ** Isolation *)

Definition hold_ticket (hd : Hold) : option Ticket :=
  match hd with HIsolation t => Some t | _ => None end.

Definition held (x : Call * Phase) : list Ticket := omap hold_ticket (holds x.1 x.2).

Arguments held : simpl never.

Definition entered (x : Call * Phase) : list Ticket :=
  match x.2 with InIsolation t => [t] | _ => [] end.

Lemma no_tickets c :
  omap hold_ticket (policy_holds c) = [] /\ omap hold_ticket (gate_holds c) = [] /\
  omap hold_ticket (resource_holds c) = [].
Proof.
  unfold policy_holds, gate_holds, resource_holds. split_and!.
  - by destruct (c_policy c).
  - by destruct (c_context c).
  - generalize (c_claims c). intros l. rewrite <- map_rev. by induction (rev l).
Qed.

Lemma held_phase c ph :
  (forall hs o, ph <> Releasing hs o) ->
  held (c, ph) = match ph with AtResources t | Running t => [t] | _ => [] end.
Proof.
  intros Hne. destruct (no_tickets c) as (Ep & Eg & Er). unfold held.
  destruct ph as [ | | | | |t|t|t|hs o|o| ]; csimpl; rewrite ?omap_app; csimpl;
    rewrite ?omap_app; csimpl; rewrite ?Ep, ?Eg, ?Er; try done.
  by destruct (Hne hs o).
Qed.

Lemma remove_ticket_perm t l :
  t ∈ l -> NoDup (map t_id l) -> l ≡ₚ t :: remove_ticket t l.
Proof.
  induction l as [|u l IH]; intros Ht Hnd; [by apply elem_of_nil in Ht|].
  apply NoDup_cons in Hnd as [Hu Hnd]. simpl. unfold same_ticket.
  destruct (Nat.eqb_spec (t_id t) (t_id u)) as [E|E].
  - apply elem_of_cons in Ht as [->|Ht]; [done|]. destruct Hu. rewrite <- E.
    by apply list_elem_of_In, in_map, list_elem_of_In.
  - apply elem_of_cons in Ht as [->|Ht]; [done|]. rewrite Permutation_swap.
    constructor. by apply IH.
Qed.

Lemma remove_ticket_rest t l rest :
  l ≡ₚ t :: rest -> NoDup (map t_id l) -> remove_ticket t l ≡ₚ rest.
Proof.
  intros Hl Hnd. apply (Permutation_cons_inv (a := t)). rewrite <- Hl.
  symmetry. apply remove_ticket_perm; [|done]. rewrite Hl. left.
Qed.

Record iso_sys (w : World) (calls : list (Call * Phase)) : Prop := {
  is_inv : iso_inv w;
  is_active : active (Isolation.object w) ≡ₚ flat_map held calls;
  is_waiting : waiting (Isolation.object w) ≡ₚ flat_map entered calls }.

#[export] Instance iso_sys_perm w : Proper ((≡ₚ) ==> iff) (iso_sys w).
Proof.
  intros l k E. split; intros [H1 H2 H3]; split; try done.
  - by rewrite H2, E.
  - by rewrite H3, E.
  - by rewrite H2, E.
  - by rewrite H3, E.
Qed.

Lemma iso_nodup w : iso_inv w ->
  NoDup (map t_id (active (Isolation.object w))) /\ NoDup (map t_id (waiting (Isolation.object w))).
Proof. intros [H _ _ _]. rewrite map_app in H. apply NoDup_app in H. tauto. Qed.

(** A step that leaves the object and the call's tickets alone. *)
Lemma iso_sys_keep w c ph ph' D :
  held (c, ph') = held (c, ph) -> entered (c, ph') = entered (c, ph) ->
  iso_sys w ((c, ph) :: D) -> iso_sys w ((c, ph') :: D).
Proof. intros E1 E2 [H1 H2 H3]. simpl in *. split; simpl; by rewrite ?E1, ?E2. Qed.

Lemma iso_sys_gone w c ph ph' D t :
  held (c, ph) = [] -> held (c, ph') = [] -> entered (c, ph) = [t] -> entered (c, ph') = [] ->
  iso_sys w ((c, ph) :: D) ->
  iso_sys (mkWorld (created w) (expire t (Isolation.object w))) ((c, ph') :: D).
Proof.
  intros E1 E2 E3 E4 [H1 H2 H3]. simpl in *. rewrite E1 in H2. rewrite E3 in H3.
  destruct (iso_nodup w H1) as [_ Hnd]. split; simpl.
  - eapply iso_step_inv; [|exact H1]. destruct w as [n i]. apply iso_expire. simpl in *. rewrite H3. left.
  - by rewrite E2.
  - rewrite E4. simpl. by apply remove_ticket_rest.
Qed.

Lemma targets_valid_ticket c h : targets_valid c = true -> valid_ticket (new_ticket c h).
Proof.
  unfold targets_valid, valid_ticket. simpl. intros Hv targets Ht. rewrite Ht in Hv.
  destruct (validate_targets targets) as [v|] eqn:E; [|done]. by apply validate_sorted in E as [-> _].
Qed.

Lemma release_hold_iso hd h h' c ph ph' D :
  held (c, ph) = option_list (hold_ticket hd) ++ held (c, ph') ->
  entered (c, ph) = [] -> entered (c, ph') = [] ->
  iso_sys (isolation h) ((c, ph) :: D) -> release_hold hd h = Some h' ->
  iso_sys (isolation h') ((c, ph') :: D).
Proof.
  intros E1 E2 E3 Hs Hr. destruct hd as [t|key|name amount| |]; simpl in *.
  - apply bind_Some in Hr as (i & Hi & [= <-]). simpl. apply ticket_release_inv in Hi as Ei.
    destruct Hs as [H1 H2 H3]. simpl in *. rewrite E1 in H2. rewrite E2 in H3. simpl in *.
    destruct (iso_nodup _ H1) as [Hnd _]. split; subst i; simpl.
    + eapply iso_step_inv; [|exact H1]. destruct (isolation h) as [n i]. simpl in *.
      apply (iso_release t); [rewrite H2; left | done].
    + by apply remove_ticket_rest.
    + by rewrite E3.
  - apply bind_Some in Hr as (s & _ & Hr). apply bind_Some in Hr as (s' & _ & [= <-]).
    by eapply iso_sys_keep; [..|exact Hs]; [done | congruence].
  - apply bind_Some in Hr as (s & _ & Hr). apply bind_Some in Hr as (s' & _ & [= <-]).
    by eapply iso_sys_keep; [..|exact Hs]; [done | congruence].
  - apply bind_Some in Hr as (s' & _ & [= <-]).
    by eapply iso_sys_keep; [..|exact Hs]; [done | congruence].
  - destruct (gate_release _); [|done]. injection Hr as <-.
    by eapply iso_sys_keep; [..|exact Hs]; [done | congruence].
Qed.

(** Steps that do not touch the isolation object. *)
Lemma slot_store_isolation h (k : Counter) s : isolation (store k s h) = isolation h.
Proof. by destruct k. Qed.

Lemma take_claims_isolation claims : forall h, isolation (fold_left take_claim claims h) = isolation h.
Proof. induction claims as [|x l IH]; intros h; simpl; [done|]. by rewrite IH. Qed.

Lemma take_claims_gate claims : forall h, fair_gate (fold_left take_claim claims h) = fair_gate h.
Proof. induction claims as [|x l IH]; intros h; simpl; [done|]. by rewrite IH. Qed.

(** The objects a step outside gate and isolation leaves as they are. *)
Definition same_objects (h h' : Host) : Prop :=
  isolation h' = isolation h /\ fair_gate h' = fair_gate h.

Lemma acquired_objects r (st : Slot -> Host) h next failed ph' h' :
  (forall s, same_objects h (st s)) ->
  acquired r st h next failed = Some (ph', h') -> same_objects h h' /\ (ph' = next \/ ph' = failed).
Proof.
  intros Hs. unfold acquired. destruct r as [[s|]|]; [| |done]; intros [= <- <-]; [|by repeat split; right].
  split; [apply Hs | by left].
Qed.

Lemma resources_objects c t h ph' h' :
  advance c (AtResources t) h = Some (ph', h') ->
  same_objects h h' /\ (ph' = Running t \/ ph' = refuse c (AtResources t)).
Proof.
  simpl. destruct (c_context c) as [o|].
  - intros (h1 & Ha & [= <- <-])%bind_Some. unfold acquire_resource_claims in Ha.
    destruct (existsb _ _); [done|]. injection Ha as <-. split; [|by left].
    split; [apply take_claims_isolation | apply take_claims_gate].
  - destruct (c_claims c) as [|[n a] l]; [intros [= <- <-]; split; [done | by left]|].
    intros (s & _ & Ha)%bind_Some. eapply acquired_objects; [|exact Ha]. done.
Qed.

Lemma refuse_keeps c ph : held (c, refuse c ph) = held (c, ph).
Proof. done. Qed.

Lemma advance_iso c ph h ph' h' D :
  iso_sys (isolation h) ((c, ph) :: D) -> advance c ph h = Some (ph', h') -> ph' <> Broken ->
  iso_sys (isolation h') ((c, ph') :: D).
Proof.
  intros Hs Ha Hb. destruct ph as [ | | | | |t|t|t|hs o|o| ]; simpl in Ha.
  - apply bind_Some in Ha as (t & _ & Ha). destruct (acquire_enter _ _); injection Ha as <- <-;
      by eapply iso_sys_keep; [..|exact Hs].
  - apply bind_Some in Ha as (t & _ & Ha). destruct (is_granted _ _); [|done]. injection Ha as <- <-.
    eapply iso_sys_keep; [..|exact Hs]; [by rewrite !held_phase | done].
  - apply acquired_objects in Ha as [[-> _] [-> | ->]]; [| |done];
      (eapply iso_sys_keep; [..|exact Hs]; [by rewrite ?refuse_keeps, ?held_phase | done]).
  - destruct (c_policy c) as [key|] eqn:Ep.
    + apply bind_Some in Ha as (s & _ & Ha).
      apply acquired_objects in Ha as [[-> _] [-> | ->]]; [| |done];
        (eapply iso_sys_keep; [..|exact Hs]; [by rewrite ?refuse_keeps, ?held_phase | done]).
    + injection Ha as <- <-. eapply iso_sys_keep; [..|exact Hs]; [by rewrite !held_phase | done].
  - destruct (targets_valid c) eqn:Ev; injection Ha as <- <-;
      [|by eapply iso_sys_keep; [..|exact Hs]].
    destruct Hs as [H1 H2 H3]. simpl in *. rewrite held_phase in H2 by done. split; simpl.
    + eapply iso_step_inv; [|exact H1]. pose proof (targets_valid_ticket c h Ev) as Hv.
      unfold new_ticket in *. destruct (isolation h) as [n i]. simpl in *. by apply iso_enter.
    + by rewrite held_phase.
    + rewrite H3. symmetry. apply Permutation_cons_append.
  - apply bind_Some in Ha as (i & Hi & [= <- <-]). apply admit_inv in Hi as Ei. destruct Ei as [_ ->].
    destruct Hs as [H1 H2 H3]. simpl in *. rewrite held_phase in H2 by done. simpl in *.
    destruct (iso_nodup _ H1) as [_ Hnd]. split.
    + simpl. eapply iso_step_inv; [|exact H1]. destruct (isolation h) as [n i]. simpl in *.
      apply (iso_admit t); [rewrite H3; left | done].
    + cbn [flat_map]. rewrite held_phase by done. simpl. rewrite H2. symmetry. apply Permutation_cons_append.
    + by apply remove_ticket_rest.
  - destruct (resources_objects _ _ _ _ _ Ha) as [[-> _] [-> | ->]].
    + eapply iso_sys_keep; [..|exact Hs]; [by rewrite !held_phase | done].
    + by eapply iso_sys_keep; [..|exact Hs].
  - injection Ha as <- <-. by eapply iso_sys_keep; [..|exact Hs].
  - destruct hs as [|hd rest]; [injection Ha as <- <-; by eapply iso_sys_keep; [..|exact Hs]|].
    destruct (release_hold hd h) as [h1|] eqn:Er; injection Ha as <- <-; [|done].
    eapply (release_hold_iso hd); [..|exact Hs|exact Er]; try done.
    unfold held. simpl. by destruct (hold_ticket hd).
  - done.
  - done.
Qed.

Lemma withdraw_iso c ph h ph' h' D :
  iso_sys (isolation h) ((c, ph) :: D) -> withdraw c ph h = Some (ph', h') ->
  iso_sys (isolation h') ((c, ph') :: D).
Proof.
  intros Hs Hg. unfold withdraw in Hg. destruct (c_timed c); [|done]. simpl in Hg. destruct ph; try done.
  - apply bind_Some in Hg as (t & _ & Hg). destruct (is_granted _ _); [done|]. injection Hg as <- <-.
    by eapply iso_sys_keep; [..|exact Hs].
  - injection Hg as <- <-. by eapply iso_sys_keep; [..|exact Hs].
  - case_bool_decide; [done|]. injection Hg as <- <-. by eapply iso_sys_keep; [..|exact Hs].
  - injection Hg as <- <-. eapply iso_sys_gone; [..|exact Hs]; try done; rewrite ?refuse_keeps;
      by rewrite held_phase.
  - destruct (_ && _); [done|]. injection Hg as <- <-. by eapply iso_sys_keep; [..|exact Hs].
Qed.
