(* ===== verification/AdmissionGate.v ===== *)
(** * The slots of the fair gate on the admission path

    Every slot the gate has given out is held by a call that passed it, or
    waits for a call to notice it (SchedulerAdmission.v). *)
From Stdlib Require Import Strings.String.
From S2P Require Import Prelude.
From S2P Require Import PyJson.
From S2P Require Import Isolation.
From S2P Require Import FairGate.
From S2P Require Import GateTickets.
From S2P Require Import SchedulerPolicy.
From S2P Require Import SchedulerAdmission.
From S2P Require Import AdmissionSlots.
From S2P Require Import AdmissionTickets.
Local Open Scope Z_scope.

Definition gate_ids (x : Call * Phase) : list nat :=
  match x.2 with InGate => [c_id x.1] | _ => [] end.

(** The calls whose ticket was granted and that have not moved on. *)
Definition pending (ids : list nat) (g : Gate) : Z :=
  Z.of_nat (size (list_to_set ids ∩ granted g : gset nat)).

Lemma pending_perm ids ids' g : ids ≡ₚ ids' -> pending ids g = pending ids' g.
Proof. intros E. unfold pending. by rewrite (list_to_set_perm_L _ _ E). Qed.

Lemma pending_nil g : pending [] g = 0.
Proof.
  unfold pending. by replace (list_to_set [] ∩ granted g : gset nat) with (∅ : gset nat) by set_solver.
Qed.

Lemma pending_cons i ids g :
  i ∉ ids -> pending (i :: ids) g = (if decide (i ∈ granted g) then 1 else 0) + pending ids g.
Proof.
  intros Hi. unfold pending. rewrite list_to_set_cons, intersection_union_r_L.
  rewrite size_union by set_solver. case_decide as Hg.
  - replace ({[i]} ∩ granted g : gset nat) with ({[i]} : gset nat) by set_solver.
    rewrite size_singleton. lia.
  - replace ({[i]} ∩ granted g : gset nat) with (∅ : gset nat) by set_solver.
    rewrite size_empty. lia.
Qed.

(** Granting [S] makes at most [S] more calls pending, exactly [S] when all of
    them wait. *)
Lemma pending_grant ids g g' (S : gset nat) :
  granted g' = S ∪ granted g -> S ## granted g ->
  pending ids g' <= pending ids g + Z.of_nat (size S) /\
  ((forall i, i ∈ S -> i ∈ ids) -> pending ids g' = pending ids g + Z.of_nat (size S)).
Proof.
  intros Eg Hd. unfold pending. rewrite Eg, intersection_union_l_L, size_union by set_solver.
  assert ((size (list_to_set ids ∩ S : gset nat) <= size S)%nat) as Hle by (apply subseteq_size; set_solver).
  split; [lia|]. intros Hin.
  replace (list_to_set ids ∩ S : gset nat) with S; [lia|]. apply set_eq. intros x.
  rewrite elem_of_intersection, elem_of_list_to_set. split; [|tauto]. auto.
Qed.

(** ** The invariant *)

Definition waiting_ids (calls : list (Call * Phase)) : list nat := flat_map gate_ids calls.

Definition slack (g : Gate) (calls : list (Call * Phase)) : Z :=
  g_active g - total CGate calls - pending (waiting_ids calls) g.

(** [quiet]: no request has timed out in the gate. *)
Record gate_sys (quiet : bool) (g : Gate) (calls : list (Call * Phase)) : Prop := {
  gs_inv : gate_inv g;
  gs_ids : ids_ok g;
  gs_fresh : forall c, (c, AtGate) ∈ calls -> ~ queued_id g (c_id c) /\ c_id c ∉ granted g;
  gs_known : forall i, queued_id g i \/ i ∈ granted g -> i ∈ map (c_id ∘ fst) calls;
  gs_slack : 0 <= slack g calls;
  gs_quiet : quiet = true -> slack g calls = 0 /\
               (forall i, queued_id g i -> i ∈ waiting_ids calls) /\
               (forall i, i ∈ waiting_ids calls -> queued_id g i \/ i ∈ granted g) }.

Lemma waiting_ids_perm l k : l ≡ₚ k -> waiting_ids l ≡ₚ waiting_ids k.
Proof. intros E. unfold waiting_ids. by rewrite E. Qed.

#[export] Instance gate_sys_perm quiet g : Proper ((≡ₚ) ==> iff) (gate_sys quiet g).
Proof.
  assert (forall l k, l ≡ₚ k -> gate_sys quiet g l -> gate_sys quiet g k) as H.
  { intros l k E [H1 H2 H3 H4 H5 H6]. pose proof (waiting_ids_perm l k E) as Ew.
    assert (slack g k = slack g l) as Es.
    { unfold slack. by rewrite (total_perm CGate l k E), (pending_perm _ _ g Ew). }
    split; try done.
    - intros c. rewrite <- E. apply H3.
    - intros i Hi. rewrite <- E. by apply H4.
    - by rewrite Es.
    - intros Hq. destruct (H6 Hq) as (A & B & C). rewrite Es. split_and!; [done | |];
        intros i Hi; [rewrite <- Ew; by apply B | rewrite <- Ew in Hi; by apply C]. }
  intros l k E. split; [by apply H|]. apply H. by symmetry.
Qed.

Lemma waiting_id_member calls i : i ∈ waiting_ids calls <-> exists c, (c, InGate) ∈ calls /\ c_id c = i.
Proof.
  unfold waiting_ids. rewrite list_elem_of_In, in_flat_map. split.
  - intros ([c ph] & Hin & Hi). rewrite <- list_elem_of_In in Hin. unfold gate_ids in Hi. simpl in Hi.
    destruct ph; simpl in Hi; try tauto. destruct Hi as [Hi|[]]. by exists c.
  - intros (c & Hin & <-). exists (c, InGate). rewrite <- list_elem_of_In. split; [done|]. by left.
Qed.

Lemma other_ids c ph D :
  NoDup (map (c_id ∘ fst) ((c, ph) :: D)) -> c_id c ∉ waiting_ids D /\ forall c' ph', (c', ph') ∈ D -> c_id c' <> c_id c.
Proof.
  simpl. intros [Hn _]%NoDup_cons.
  assert (forall c' ph', (c', ph') ∈ D -> c_id c' <> c_id c) as Hne.
  { intros c' ph' Hin E. apply Hn. rewrite <- E. change (c_id c') with ((c_id ∘ fst) (c', ph')).
    apply list_elem_of_In, in_map. by apply list_elem_of_In. }
  split; [|exact Hne]. intros (c' & Hin & E)%waiting_id_member. by eapply Hne.
Qed.

(** A step that leaves the gate alone: the call neither enters nor leaves it. *)
Lemma gate_sys_keep quiet g c ph ph' D :
  ph' <> AtGate -> ph' <> InGate -> ph <> InGate ->
  load CGate (holds c ph') = load CGate (holds c ph) ->
  gate_sys quiet g ((c, ph) :: D) -> gate_sys quiet g ((c, ph') :: D).
Proof.
  intros H1 H2 H3 Hl [I1 I2 I3 I4 I5 I6].
  assert (forall p, p <> InGate -> waiting_ids ((c, p) :: D) = waiting_ids D) as Ew.
  { intros p Hp. unfold waiting_ids. simpl. unfold gate_ids at 1. simpl. by destruct p. }
  assert (slack g ((c, ph') :: D) = slack g ((c, ph) :: D)) as Es.
  { unfold slack. rewrite !Ew by done. unfold total. rewrite !zsum_cons. unfold load_of. simpl.
    by rewrite Hl. }
  split; try done.
  - intros c' Hin. apply I3. apply elem_of_cons in Hin as [[= -> <-]|Hin]; [done|]. by right.
  - by rewrite Es.
  - rewrite Es, (Ew ph') by done. by rewrite (Ew ph) in I6.
Qed.

Section Step.
Context (quiet : bool) (c : Call) (D : list (Call * Phase)).

Lemma total_first ph : total CGate ((c, ph) :: D) = load CGate (holds c ph) + total CGate D.
Proof. done. Qed.

(** The request enters the gate. *)
Lemma gate_sys_enter t g g' :
  NoDup (map (c_id ∘ fst) ((c, AtGate) :: D)) -> ft_id t = c_id c ->
  gate_sys quiet g ((c, AtGate) :: D) -> acquire_enter t g = Ok g' ->
  gate_sys quiet g' ((c, InGate) :: D).
Proof.
  intros Hnd Et [I1 I2 I3 I4 I5 I6] He. destruct (other_ids _ _ _ Hnd) as [Hnw Hne].
  destruct (I3 c (list_elem_of_here _ _)) as [Hnq Hng].
  destruct (enter_moves t g g' (proj1 I1) I2) as (Hids & S & Eg & Ea & Ec & HS & Hq); [by rewrite Et.. | done |].
  rewrite Et in HS, Hq.
  assert (S ## granted g) as Hd.
  { intros i Hi Hgr. destruct (HS i Hi) as [Hqi| ->]; [|done]. by apply (io_granted _ I2 i). }
  change (waiting_ids ((c, AtGate) :: D)) with (waiting_ids D) in I6.
  assert (waiting_ids ((c, InGate) :: D) = c_id c :: waiting_ids D) as Ew by done.
  destruct (pending_grant (c_id c :: waiting_ids D) g g' S Eg Hd) as [P1 P2].
  pose proof (pending_cons (c_id c) (waiting_ids D) g Hnw) as Pc. rewrite decide_False in Pc by done.
  unfold slack in I5, I6. rewrite total_first in I5, I6.
  change (waiting_ids ((c, AtGate) :: D)) with (waiting_ids D) in I5. simpl in I5, I6.
  split; [by eapply enter_inv | done | | | |].
  - intros c' Hin. apply elem_of_cons in Hin as [[=]|Hin]. pose proof (Hne _ _ Hin).
    destruct (I3 c') as [Q1 Q2]; [by right|]. rewrite Hq, Eg. split; [intros [[?|?] _]; done|].
    intros [Hi|?]%elem_of_union; [|done]. destruct (HS _ Hi); done.
  - intros i Hi. simpl. assert (queued_id g i \/ i ∈ granted g \/ i = c_id c) as [Ho|[Ho| ->]].
    { destruct Hi as [[[?|?] _]%Hq|Hi]; [by left | by right; right |]. rewrite Eg in Hi.
      apply elem_of_union in Hi as [Hi|Hi]; [destruct (HS i Hi); tauto | tauto]. }
    + apply I4. by left.
    + apply I4. by right.
    + left.
  - unfold slack. rewrite total_first, Ew. simpl. lia.
  - intros Hquiet. destruct (I6 Hquiet) as (A & B & C).
    assert (forall i, i ∈ S -> i ∈ c_id c :: waiting_ids D) as Hin.
    { intros i Hi. destruct (HS i Hi) as [Hqi| ->]; [right; by apply B | left]. }
    split_and!.
    + unfold slack. rewrite total_first, Ew. simpl. rewrite (P2 Hin). lia.
    + intros i [[Hi| ->] _]%Hq; rewrite Ew; [right; by apply B | left].
    + intros i Hi. rewrite Ew in Hi. rewrite Hq, Eg.
      destruct (decide (i ∈ S)); [right; set_solver|].
      apply elem_of_cons in Hi as [->|Hi]; [left; split; [by right | done]|].
      destruct (C i Hi) as [?|?]; [left; split; [by left | done] | right; set_solver].
Qed.
(** The request notices that it was granted. *)
Lemma gate_sys_pass t g :
  NoDup (map (c_id ∘ fst) ((c, InGate) :: D)) -> gate_ticket c = Some t -> is_granted t g = true ->
  gate_sys quiet g ((c, InGate) :: D) -> gate_sys quiet g ((c, AtGlobal) :: D).
Proof.
  intros Hnd Ht Hg%bool_decide_eq_true [I1 I2 I3 I4 I5 I6]. destruct (other_ids _ _ _ Hnd) as [Hnw Hne].
  assert (ft_id t = c_id c /\ holds c AtGlobal = [HGate]) as [Ei Eh].
  { unfold gate_ticket in Ht. simpl. unfold gate_holds. destruct (c_context c) as [[o p]|]; [|done].
    by injection Ht as <-. }
  rewrite Ei in Hg. pose proof (pending_cons (c_id c) (waiting_ids D) g Hnw) as Pc.
  rewrite decide_True in Pc by done.
  assert (slack g ((c, AtGlobal) :: D) = slack g ((c, InGate) :: D)) as Es.
  { unfold slack. rewrite !total_first, Eh.
    change (waiting_ids ((c, AtGlobal) :: D)) with (waiting_ids D).
    change (waiting_ids ((c, InGate) :: D)) with (c_id c :: waiting_ids D). rewrite Pc.
    change (load CGate (holds c InGate)) with 0. change (load CGate [HGate]) with 1. lia. }
  split; try done.
  - intros c' Hin. apply elem_of_cons in Hin as [[=]|Hin]. apply I3. by right.
  - by rewrite Es.
  - intros Hq. destruct (I6 Hq) as (A & B & C). rewrite Es. split_and!; [done | |].
    + intros i Hi. pose proof (B i Hi) as [->|Hi']%elem_of_cons; [|done].
      by destruct (io_granted _ I2 _ Hi).
    + intros i Hi. apply C. by right.
Qed.

(** A call outside the gate's queues changes the gate; [S] is granted, and in
    a quiet system everybody in [S] waits. *)
Lemma gate_sys_granting g g' ph ph' (S : gset nat) :
  ph <> InGate -> ph' <> InGate -> ph' <> AtGate ->
  gate_inv g' -> ids_ok g' -> granted g' = S ∪ granted g ->
  g_active g' - load CGate (holds c ph') = g_active g - load CGate (holds c ph) + Z.of_nat (size S) ->
  (forall i, i ∈ S -> queued_id g i) -> (forall i, queued_id g' i <-> queued_id g i /\ i ∉ S) ->
  gate_sys quiet g ((c, ph) :: D) -> gate_sys quiet g' ((c, ph') :: D).
Proof.
  intros N1 N2 N3 Hinv Hids Eg Ea HS Hq [I1 I2 I3 I4 I5 I6].
  assert (forall p, p <> InGate -> waiting_ids ((c, p) :: D) = waiting_ids D) as Ew.
  { intros p Hp. unfold waiting_ids. simpl. unfold gate_ids at 1. simpl. by destruct p. }
  assert (S ## granted g) as Hd by (intros i Hi Hgr; by apply (io_granted _ I2 i); auto).
  destruct (pending_grant (waiting_ids D) g g' S Eg Hd) as [P1 P2].
  unfold slack in I5, I6. rewrite total_first, !(Ew ph) in I5, I6 by done.
  split; try done.
  - intros c' Hin. apply elem_of_cons in Hin as [[= -> E]|Hin]; [by destruct N3|].
    destruct (I3 c') as [Q1 Q2]; [by right|]. rewrite Hq, Eg. split; [tauto|].
    intros [Hi|?]%elem_of_union; [|done]. by apply Q1, HS.
  - intros i Hi. apply (I4 i). destruct Hi as [[? _]%Hq|Hi]; [by left|]. rewrite Eg in Hi.
    apply elem_of_union in Hi as [Hi|?]; [left; by apply HS | by right].
  - unfold slack. rewrite total_first, Ew by done. lia.
  - intros Hquiet. destruct (I6 Hquiet) as (A & B & C). unfold slack.
    rewrite total_first, Ew by done. split_and!.
    + rewrite P2; [lia|]. intros i Hi. by apply B, HS.
    + intros i [Hi _]%Hq. by apply B.
    + intros i Hi. rewrite Hq, Eg. destruct (decide (i ∈ S)); [right; set_solver|].
      destruct (C i Hi); [by left | right; set_solver].
Qed.

Lemma gate_sys_release hd rest o h h' :
  gate_sys quiet (fair_gate h) ((c, Releasing (hd :: rest) o) :: D) -> release_hold hd h = Some h' ->
  gate_sys quiet (fair_gate h') ((c, Releasing rest o) :: D).
Proof.
  intros Hs Hr. destruct hd as [t|key|name amount| |]; simpl in Hr.
  - apply bind_Some in Hr as (i & _ & [= <-]). by eapply gate_sys_keep; [..|exact Hs].
  - apply bind_Some in Hr as (s & _ & Hr). apply bind_Some in Hr as (s' & _ & [= <-]).
    by eapply gate_sys_keep; [..|exact Hs].
  - apply bind_Some in Hr as (s & _ & Hr). apply bind_Some in Hr as (s' & _ & [= <-]).
    by eapply gate_sys_keep; [..|exact Hs].
  - apply bind_Some in Hr as (s' & _ & [= <-]). by eapply gate_sys_keep; [..|exact Hs].
  - destruct (gate_release (fair_gate h)) as [g'|] eqn:E; [|done]. injection Hr as <-.
    pose proof Hs as [I1 I2 _ _ _ _].
    destruct (release_moves _ _ (proj1 I1) I2 E) as (Hids & S & Eg & Ea & Ec & HS & Hq).
    eapply gate_sys_granting; [..|exact Hs]; try done; [by eapply release_step_inv|].
    simpl. rewrite Ea, load_cons. change (weight CGate HGate) with 1. lia.
Qed.

(** The request times out; some other request may lose its ticket. *)
Lemma gate_sys_timeout t g :
  NoDup (map (c_id ∘ fst) ((c, InGate) :: D)) -> gate_ticket c = Some t -> is_granted t g = false ->
  gate_sys quiet g ((c, InGate) :: D) ->
  gate_sys false (acquire_timeout t g) ((c, Releasing [] NotAdmitted) :: D).
Proof.
  intros Hnd Ht Hg%bool_decide_eq_false [I1 I2 I3 I4 I5 _]. destruct (other_ids _ _ _ Hnd) as [Hnw Hne].
  assert (ft_id t = c_id c) as Ei.
  { unfold gate_ticket in Ht. destruct (c_context c) as [[o p]|]; [|done]. by injection Ht as <-. }
  rewrite Ei in Hg. destruct (timeout_moves t g (proj1 I1) I2) as (Hids & S & Eg & Ea & Ec & HS & Hq).
  assert (S ## granted g) as Hd by (intros i Hi Hgr; by apply (io_granted _ I2 i); auto).
  destruct (pending_grant (waiting_ids D) g (acquire_timeout t g) S Eg Hd) as [P1 _].
  pose proof (pending_cons (c_id c) (waiting_ids D) g Hnw) as Pc. rewrite decide_False in Pc by done.
  split; try done.
  - by apply timeout_inv.
  - intros c' Hin. apply elem_of_cons in Hin as [[=]|Hin]. destruct (I3 c') as [Q1 Q2]; [by right|].
    split; [intros [? _]%Hq; done|]. rewrite Eg. intros [Hi|?]%elem_of_union; [|done]. by apply Q1, HS.
  - intros i Hi. apply (I4 i). destruct Hi as [[? _]%Hq|Hi]; [by left|]. rewrite Eg in Hi.
    apply elem_of_union in Hi as [Hi|?]; [left; by apply HS | by right].
  - unfold slack in *. rewrite total_first in *.
    change (waiting_ids ((c, InGate) :: D)) with (c_id c :: waiting_ids D) in I5.
    change (waiting_ids ((c, Releasing [] NotAdmitted) :: D)) with (waiting_ids D).
    change (load CGate (holds c InGate)) with 0 in I5.
    change (load CGate (holds c (Releasing [] NotAdmitted))) with 0. lia.
Qed.

(** ** The steps of a thread *)

Lemma advance_gate ph h ph' h' :
  NoDup (map (c_id ∘ fst) ((c, ph) :: D)) ->
  gate_sys quiet (fair_gate h) ((c, ph) :: D) -> advance c ph h = Some (ph', h') -> ph' <> Broken ->
  gate_sys quiet (fair_gate h') ((c, ph') :: D).
Proof.
  intros Hnd Hs Ha Hb. destruct (load_simplify CGate c) as (L1 & L2 & L3 & L4).
  assert (forall l : list Hold, load CGate (HGlobal :: l) = load CGate l) as Lg by done.
  assert (load CGate (policy_holds c) = 0) as Lp by (unfold policy_holds; by destruct (c_policy c)).
  assert (load CGate (resource_holds c) = 0) as Lr.
  { rewrite resource_load. by apply zsum_zero. }
  change (weight CGate HGlobal) with 0 in *.
  destruct ph as [ | | | | |t|t|t|hs o|o| ]; simpl in Ha.
  - apply bind_Some in Ha as (t & Ht & Ha). assert (ft_id t = c_id c) as Ei.
    { unfold gate_ticket in Ht. destruct (c_context c) as [[o p]|]; [|done]. by injection Ht as <-. }
    destruct (acquire_enter _ _) eqn:E; injection Ha as <- <-;
      [by eapply gate_sys_enter | by eapply gate_sys_keep; [..|exact Hs]].
  - apply bind_Some in Ha as (t & Ht & Ha). destruct (is_granted _ _) eqn:E; [|done]. injection Ha as <- <-.
    by eapply gate_sys_pass.
  - apply acquired_objects in Ha as [[_ ->] [-> | ->]]; [| |done]; by eapply gate_sys_keep; [..|exact Hs].
  - destruct (c_policy c) as [key|] eqn:Ep.
    + apply bind_Some in Ha as (s & _ & Ha).
      apply acquired_objects in Ha as [[_ ->] [-> | ->]]; [| |done];
        (eapply gate_sys_keep; [..|exact Hs]; try done; rewrite L3, L4; lia).
    + injection Ha as <- <-. eapply gate_sys_keep; [..|exact Hs]; try done; rewrite L3, L4; lia.
  - destruct (targets_valid c); injection Ha as <- <-; by eapply gate_sys_keep; [..|exact Hs].
  - apply bind_Some in Ha as (i & _ & [= <- <-]). eapply gate_sys_keep; [..|exact Hs]; done.
  - assert (same_objects h h' /\ (ph' = Running t \/ ph' = refuse c (AtResources t))) as [[_ ->] [-> | ->]]
      by (by apply resources_objects).
    + eapply gate_sys_keep; [..|exact Hs]; try done. rewrite L1, L2. lia.
    + by eapply gate_sys_keep; [..|exact Hs].
  - injection Ha as <- <-. by eapply gate_sys_keep; [..|exact Hs].
  - destruct hs as [|hd rest]; [injection Ha as <- <-; by eapply gate_sys_keep; [..|exact Hs]|].
    destruct (release_hold hd h) as [h1|] eqn:Er; injection Ha as <- <-; [|done].
    by eapply gate_sys_release.
  - done.
  - done.
Qed.

Lemma withdraw_gate ph h ph' h' :
  NoDup (map (c_id ∘ fst) ((c, ph) :: D)) ->
  gate_sys quiet (fair_gate h) ((c, ph) :: D) -> withdraw c ph h = Some (ph', h') ->
  gate_sys (match ph with InGate => false | _ => quiet end) (fair_gate h') ((c, ph') :: D).
Proof.
  intros Hnd Hs Hg. unfold withdraw in Hg. destruct (c_timed c); [|done]. simpl in Hg. destruct ph; try done.
  - apply bind_Some in Hg as (t & Ht & Hg). destruct (is_granted _ _) eqn:E; [done|]. injection Hg as <- <-.
    by eapply gate_sys_timeout.
  - injection Hg as <- <-. by eapply gate_sys_keep; [..|exact Hs].
  - case_bool_decide; [done|]. injection Hg as <- <-. by eapply gate_sys_keep; [..|exact Hs].
  - injection Hg as <- <-. by eapply gate_sys_keep; [..|exact Hs].
  - destruct (_ && _); [done|]. injection Hg as <- <-. by eapply gate_sys_keep; [..|exact Hs].
Qed.
End Step.
