(* ===== verification/AdmissionInvariant.v ===== *)
(** * The invariant of the admission path

    What every interleaving of the threads of SchedulerAdmission.v keeps: each
    counter has lent exactly what the calls hold, the isolation lists and the
    gate account for the calls, and no release can fail. *)
From Stdlib Require Import Strings.String.
From S2P Require Import Prelude.
From S2P Require Import PyJson.
From S2P Require Import Isolation.
From S2P Require Import FairGate.
From S2P Require Import GateTickets.
From S2P Require Import SchedulerPolicy.
From S2P Require Import SchedulerAdmission.
From S2P Require Import AdmissionSlots.
From S2P Require Import AdmissionTickets.
From S2P Require Import AdmissionGate.
Local Open Scope Z_scope.

Definition slots_ok (h : Host) (calls : list (Call * Phase)) : Prop :=
  forall k s, slot_of k h = Some s ->
    0 <= available s /\ available s + total k calls = slot_capacity s.

Record sys_inv (quiet : bool) (s : System) : Prop := {
  sv_ids : map (c_id ∘ fst) (calls s) = seq 0 (length (calls s));
  sv_calls : forall c ph, (c, ph) ∈ calls s -> call_ok (host s) c /\ phase_ok c ph;
  sv_caps : capacities (host s);
  sv_slots : slots_ok (host s) (calls s);
  sv_iso : iso_sys (isolation (host s)) (calls s);
  sv_gate : gate_sys quiet (fair_gate (host s)) (calls s) }.

Lemma new_system_inv quiet in_flight limits :
  1 <= in_flight -> sys_inv quiet (new_system in_flight limits).
Proof.
  intros Hf. split; simpl.
  - done.
  - by intros c ph ?%elem_of_nil.
  - intros k s. destruct k as [|key|name|]; simpl; [by intros [= <-] | by rewrite lookup_empty | |done].
    rewrite lookup_fmap. intros (n & _ & ->)%fmap_Some. simpl. lia.
  - intros k s. destruct k as [|key|name|]; simpl; [| by rewrite lookup_empty | |done].
    + intros [= <-]. simpl. unfold total. simpl. lia.
    + rewrite lookup_fmap. intros (n & _ & ->)%fmap_Some. simpl. unfold total. simpl. lia.
  - split; [apply new_isolation_inv | done | done].
  - split.
    + apply new_gate_inv.
    + apply new_gate_ids.
    + by intros c ?%elem_of_nil.
    + intros i [Hi|Hi]; [|set_solver]. destruct Hi as (o & q & t & Hq & _). simpl in Hq.
      by rewrite lookup_empty in Hq.
    + unfold slack. simpl. rewrite pending_nil. done.
    + intros _. unfold slack. simpl. rewrite pending_nil. split_and!; [done | | set_solver].
      intros i (o & q & t & Hq & _). simpl in Hq. by rewrite lookup_empty in Hq.
Qed.

(** ** A release cannot fail *)

Lemma slot_releases amount s :
  1 <= amount -> available s + amount <= slot_capacity s -> is_Some (slot_release amount s).
Proof.
  intros H1 H2. unfold slot_release. destruct (Z.ltb_spec amount 1); [lia|].
  destruct (Z.ltb_spec (slot_capacity s) (available s + amount)); [lia|]. by eauto.
Qed.

Lemma held_of_counter quiet s c hd rest o k :
  sys_inv quiet s -> (c, Releasing (hd :: rest) o) ∈ calls s -> weight k hd <= total k (calls s).
Proof.
  intros Hinv Hin.
  assert (load_of k (c, Releasing (hd :: rest) o) <= total k (calls s)).
  { apply zsum_member; [|done]. intros [c' ph'] Hin'. destruct (sv_calls _ _ Hinv _ _ Hin').
    by eapply load_nonneg. }
  destruct (sv_calls _ _ Hinv _ _ Hin) as [Hc [_ Hh]]. simpl in Hh. apply Forall_cons in Hh as [_ Hh].
  unfold load_of in H. simpl in H. rewrite load_cons in H.
  assert (0 <= load k rest); [|lia]. apply zsum_nonneg. intros x Hx.
  rewrite Forall_forall in Hh. by eapply weight_nonneg, Hh.
Qed.

Lemma release_succeeds quiet s c hd rest o :
  sys_inv quiet s -> (c, Releasing (hd :: rest) o) ∈ calls s -> is_Some (release_hold hd (host s)).
Proof.
  intros Hinv Hin. destruct (sv_calls _ _ Hinv _ _ Hin) as [Hc [_ Hh]]. simpl in Hh.
  apply Forall_cons in Hh as [Hh _].
  assert (forall k sl, slot_of k (host s) = Some sl -> 1 <= weight k hd ->
            is_Some (slot_release (weight k hd) sl)) as Hrel.
  { intros k sl Es Hw. apply slot_releases; [done|].
    pose proof (held_of_counter _ _ _ _ _ _ k Hinv Hin). destruct (sv_slots _ _ Hinv k sl Es). lia. }
  destruct hd as [t|key|name amount| |]; simpl in *.
  - destruct (sv_iso _ _ Hinv) as [_ Ha _].
    assert (t ∈ active (Isolation.object (isolation (host s)))) as Ht.
    { rewrite Ha. apply list_elem_of_In, in_flat_map. exists (c, Releasing (HIsolation t :: rest) o).
      split; [by apply list_elem_of_In|]. by left. }
    unfold release. assert (existsb (same_ticket t) (active (Isolation.object (isolation (host s)))) = true) as ->.
    { apply existsb_exists. exists t. split; [by apply list_elem_of_In | apply Nat.eqb_refl]. }
    simpl. by eauto.
  - destruct (co_policy _ _ Hc key Hh) as [sl Es]. specialize (Hrel _ _ Es).
    rewrite decide_True in Hrel by done. simpl in Es. rewrite Es. simpl.
    destruct Hrel as [s' ->]; [done|]. simpl. by eauto.
  - destruct (co_claims _ _ Hc _ _ Hh) as (sl & Es & Ha). specialize (Hrel _ _ Es).
    rewrite decide_True in Hrel by done. simpl in Es. rewrite Es. simpl.
    destruct Hrel as [s' ->]; [lia|]. simpl. by eauto.
  - specialize (Hrel CGlobal _ eq_refl). simpl in Hrel. destruct Hrel as [s' ->]; [done|]. simpl. by eauto.
  - pose proof (held_of_counter _ _ _ _ _ _ CGate Hinv Hin) as Hw. simpl in Hw.
    pose proof (gs_slack _ _ _ (sv_gate _ _ Hinv)) as Hs. unfold slack, pending in Hs.
    unfold gate_release. destruct (Z.leb_spec (g_active (fair_gate (host s))) 0); [lia|]. by eauto.
Qed.

(** ** The steps *)

Lemma advance_phase_ok c ph h ph' h' :
  phase_ok c ph -> advance c ph h = Some (ph', h') -> ph' <> Broken -> phase_ok c ph'.
Proof.
  intros [Hp Hh] Ha Hb.
  assert (forall p, ph' = refuse c p -> (forall hs o, p <> Releasing hs o) -> phase_ok c ph') as Hr.
  { intros p -> Hne. split; [done|]. exact (holds_ok c p Hne). }
  assert ((forall hs o, ph' <> Releasing hs o) -> ph' <> AtGate -> (ph' = InGate -> c_context c <> None) ->
          phase_ok c ph') as Hn.
  { intros H1 H2 H3. split; [|by apply holds_ok].
    destruct ph'; try done; by apply H3. }
  destruct ph as [ | | | | |t|t|t|hs o|o| ]; simpl in Ha.
  - apply bind_Some in Ha as (t & _ & Ha). destruct (acquire_enter _ _); injection Ha as <- <-;
      [by apply Hn | by eapply Hr].
  - apply bind_Some in Ha as (t & _ & Ha). destruct (is_granted _ _); [|done]. injection Ha as <- <-. by apply Hn.
  - apply acquired_objects in Ha as [_ [-> | ->]]; [by apply Hn | by eapply Hr | done].
  - destruct (c_policy c) as [key|].
    + apply bind_Some in Ha as (s & _ & Ha).
      apply acquired_objects in Ha as [_ [-> | ->]]; [by apply Hn | by eapply Hr | done].
    + injection Ha as <- <-. by apply Hn.
  - destruct (targets_valid c); injection Ha as <- <-; [by apply Hn | by eapply Hr].
  - apply bind_Some in Ha as (i & _ & [= <- <-]). by apply Hn.
  - destruct (resources_objects _ _ _ _ _ Ha) as [_ [-> | ->]]; [by apply Hn | by eapply Hr].
  - injection Ha as <- <-. split; [done|]. simpl. by apply (holds_ok c (Running t)).
  - destruct hs as [|hd rest]; [injection Ha as <- <-; by apply Hn|].
    destruct (release_hold hd h); injection Ha as <- <-; [|done]. split; [done|].
    by apply Forall_cons in Hh as [_ Hh].
  - done.
  - done.
Qed.

Lemma not_broken quiet s c ph ph' h' :
  sys_inv quiet s -> (c, ph) ∈ calls s -> advance c ph (host s) = Some (ph', h') -> ph' <> Broken.
Proof.
  intros Hinv Hin Ha ->. destruct ph as [ | | | | |t|t|t|hs o|o| ]; simpl in Ha.
  - apply bind_Some in Ha as (t & _ & Ha). by destruct (acquire_enter _ _).
  - apply bind_Some in Ha as (t & _ & Ha). by destruct (is_granted _ _).
  - by apply acquired_objects in Ha as [_ [? | ?]].
  - destruct (c_policy c); [|done]. apply bind_Some in Ha as (sl & _ & Ha).
    by apply acquired_objects in Ha as [_ [? | ?]].
  - by destruct (targets_valid c).
  - by apply bind_Some in Ha as (i & _ & ?).
  - by destruct (resources_objects _ _ _ _ _ Ha) as [_ [? | ?]].
  - done.
  - destruct hs as [|hd rest]; [done|]. destruct (release_succeeds _ _ _ _ _ _ Hinv Hin) as [h1 E].
    by rewrite E in Ha.
  - done.
  - done.
Qed.

(** One thread moves, and the host with it. *)
Lemma thread_inv quiet quiet' s i c ph ph' h' :
  sys_inv quiet s -> calls s !! i = Some (c, ph) -> phase_ok c ph' ->
  slots_move (fun k => load k (holds c ph') - load k (holds c ph)) (host s) h' ->
  (forall D, iso_sys (isolation (host s)) ((c, ph) :: D) -> iso_sys (isolation h') ((c, ph') :: D)) ->
  (forall D, NoDup (map (c_id ∘ fst) ((c, ph) :: D)) -> gate_sys quiet (fair_gate (host s)) ((c, ph) :: D) ->
             gate_sys quiet' (fair_gate h') ((c, ph') :: D)) ->
  sys_inv quiet' (mkSystem h' (<[i := (c, ph')]> (calls s))).
Proof.
  intros Hinv Hi Hp Hm Hiso Hgate. destruct (update_perm _ _ _ (c, ph') Hi) as (D & E & E').
  destruct Hinv as [V1 V2 V3 V4 V5 V6].
  split; simpl.
  - rewrite length_insert, <- V1.
    rewrite <- (list_insert_id (calls s) i (c, ph)) at 2 by done.
    clear. revert i. induction (calls s) as [|x l IH]; intros [|i]; simpl; try done. by rewrite IH.
  - intros c0 ph0 Hin. rewrite E' in Hin. apply elem_of_cons in Hin as [[= -> ->]|Hin].
    + split; [|done]. eapply slots_move_call_ok; [done|]. apply (V2 c ph). rewrite E. left.
    + assert ((c0, ph0) ∈ calls s) as Hin0 by (rewrite E; by right).
      destruct (V2 _ _ Hin0). split; [|done]. by eapply slots_move_call_ok.
  - intros k s1 Es. specialize (Hm k). rewrite Es in Hm.
    destruct (slot_of k (host s)) as [s0|] eqn:E0; [|done]. destruct Hm as (-> & _). by eapply V3.
  - intros k s1 Es. specialize (Hm k). rewrite Es in Hm.
    destruct (slot_of k (host s)) as [s0|] eqn:E0; [|done]. destruct Hm as (Ec & Ea & Hn).
    destruct (V4 k s0 E0) as [W1 W2]. split; [by apply Hn|].
    rewrite (total_perm k _ _ E'). rewrite (total_perm k _ _ E) in W2.
    unfold total in *. rewrite zsum_cons in *.
    change (load_of k (c, ph)) with (load k (holds c ph)) in W2.
    change (load_of k (c, ph')) with (load k (holds c ph')). lia.
  - rewrite E'. apply Hiso. by rewrite <- E.
  - rewrite E'. apply Hgate; [|by rewrite <- E].
    assert (map (c_id ∘ fst) (calls s) ≡ₚ map (c_id ∘ fst) ((c, ph) :: D)) as <- by (by apply fmap_Permutation).
    rewrite V1. apply NoDup_seq.
Qed.

Lemma advance_inv quiet s s' i : sys_inv quiet s -> moves advance i s s' -> sys_inv quiet s'.
Proof.
  intros Hinv (c & ph & ph' & h' & Hi & Ha & ->). assert ((c, ph) ∈ calls s) as Hin
    by (by eapply list_elem_of_lookup_2).
  pose proof (not_broken _ _ _ _ _ _ Hinv Hin Ha) as Hb. destruct (sv_calls _ _ Hinv _ _ Hin) as [Hc Hp].
  eapply thread_inv; try done.
  - by eapply advance_phase_ok.
  - by apply advance_slots; [apply (sv_caps _ _ Hinv) | | |].
  - intros D HD. by eapply advance_iso.
  - intros D Hnd HD. by eapply advance_gate.
Qed.

Lemma withdraw_inv quiet s s' i :
  sys_inv quiet s -> moves withdraw i s s' ->
  sys_inv false s' /\ (~ waits_in_gate i s -> sys_inv quiet s').
Proof.
  intros Hinv (c & ph & ph' & h' & Hi & Ha & ->). assert ((c, ph) ∈ calls s) as Hin
    by (by eapply list_elem_of_lookup_2).
  destruct (sv_calls _ _ Hinv _ _ Hin) as [Hc Hp]. destruct (withdraw_slots _ _ _ _ _ Ha) as [Er Hm].
  assert (phase_ok c ph') as Hp'.
  { subst ph'. split; [done|]. by destruct Hp. }
  assert (sys_inv (match ph with InGate => false | _ => quiet end) (mkSystem h' (<[i := (c, ph')]> (calls s)))) as H.
  { eapply thread_inv; try done.
    - intros D HD. by eapply withdraw_iso.
    - intros D Hnd HD. by eapply withdraw_gate. }
  split.
  - destruct H as [V1 V2 V3 V4 V5 [G1 G2 G3 G4 G5 G6]]. by split.
  - intros Hw. destruct ph; try done. destruct Hw. by exists c.
Qed.

(** ** Arrivals *)

Lemma start_holds c : holds c (start c) = [] /\ held (c, start c) = [] /\ gate_ids (c, start c) = [] /\
  entered (c, start c) = [].
Proof. unfold start, held, entered. destruct (c_context c) eqn:E; simpl; [done|]. unfold gate_holds. by rewrite E. Qed.

Lemma with_policy_slot_of c h k s :
  slot_of k (with_policy_slot c h) = Some s <->
  slot_of k h = Some s \/
  (slot_of k h = None /\ exists key, c_policy c = Some key /\ k = CPolicy key /\ s = mkSlot key.2 key.2).
Proof.
  unfold with_policy_slot. destruct (c_policy c) as [key|].
  - case_bool_decide as Hs.
    + split; [by left|]. intros [?|[Hn (key' & [= <-] & -> & _)]]; [done|]. simpl in Hn. rewrite Hn in Hs.
      by destruct Hs.
    + apply eq_None_not_Some in Hs. destruct k as [|key'|name|]; simpl;
        try (split; [by left | intros [?|(? & ? & _ & ? & _)]; done]).
      destruct (decide (key = key')) as [->|Hne].
      * rewrite lookup_insert_eq. split; [intros [= <-]; right; by eauto|].
        intros [?|(_ & key & [= ->] & _ & ->)]; [congruence | done].
      * rewrite lookup_insert_ne by done. split; [by left|].
        intros [?|(_ & k' & [= ->] & [= ->] & _)]; done.
  - split; [by left|]. intros [?|(_ & ? & ? & _)]; done.
Qed.

Lemma with_policy_slot_objects c h :
  isolation (with_policy_slot c h) = isolation h /\ fair_gate (with_policy_slot c h) = fair_gate h.
Proof. unfold with_policy_slot. destruct (c_policy c); [|done]. by case_bool_decide. Qed.

Lemma with_policy_slot_call_ok c h c' : call_ok h c' -> call_ok (with_policy_slot c h) c'.
Proof.
  intros [H1 H2 H3 H4]. split; try done.
  - intros key Hk. destruct (H1 key Hk) as [s Es]. exists s. apply with_policy_slot_of. by left.
  - intros n a Hin. destruct (H3 n a Hin) as (s & Es & Ha). exists s. split; [|done].
    apply with_policy_slot_of. by left.
Qed.

Lemma filter_keys (p : string * Z -> bool) l : sublist (map fst (List.filter p l)) (map fst l).
Proof. induction l as [|x l IH]; simpl; [done|]. destruct (p x); simpl; by constructor. Qed.

Section Arrivals.
Context (env : string -> option string) (sched : Scheduler).

(** What the two preambles ask for is in order once the slot exists. *)
Lemma requested_ok h id c :
  capacities h -> requested env sched h id c ->
  c_id c = id /\ call_ok (with_policy_slot c h) c /\ forall key, c_policy c = Some key -> 1 <= key.2.
Proof.
  intros Hcap Hreq.
  assert (c_id c = id /\ (forall key, c_policy c = Some key -> 1 <= key.2) /\ NoDup (map fst (c_claims c)) /\
    (forall n a, (n, a) ∈ c_claims c -> exists s, slot_of (CResource n) h = Some s /\ 1 <= a <= slot_capacity s) /\
    (c_context c = None -> c_claims c = [] \/ exists n, c_claims c = [(n, 1)])) as (E1 & E2 & E3 & E4 & E5).
  { destruct Hreq as [x identity timed Hc | x identity timed facts [Hv1 Hv2] Hc].
    - unfold invoke_call in Hc. destruct (policy_for x) as [policy|]; [|done].
      destruct (isolation_targets _ _ _ _ _) as [[[kind targets] identity']|]; [|done].
      destruct (executor_slot _ _ _ _) as [slot|] eqn:Es; [|done]. injection Hc as <-. simpl.
      split_and!; [done | | | |].
      + intros key ->. by eapply executor_slot_limit.
      + destruct (resource_of h _); simpl; [apply NoDup_singleton | apply NoDup_nil; done].
      + intros n a Hin. destruct (resource_of h _) as [m|] eqn:Er; [|by apply elem_of_nil in Hin].
        apply list_elem_of_singleton in Hin as [= -> ->].
        assert (is_Some (slot_of (CResource m) h)) as [s Hs].
        { unfold resource_of in Er. repeat case_bool_decide; simplify_eq; done. }
        exists s. split; [done|]. split; [done|]. by eapply Hcap.
      + intros _. destruct (resource_of h _); [right; by eauto | by left].
    - unfold context_call in Hc.
      destruct (isolation_targets _ _ _ _ _) as [[[kind targets] identity']|]; [|done].
      destruct (List.find _ _) as [[m b]|] eqn:Ef; [done|].
      destruct (context_executor_slot _ _ _ _) as [slot|] eqn:Es; [|done]. injection Hc as <-. simpl.
      split_and!; [done | | | | done].
      + intros key [= ->]. by eapply context_slot_limit.
      + eapply sublist_NoDup; [exact Hv1|]. apply filter_keys.
      + intros n a Hin. apply list_elem_of_In in Hin. pose proof (find_none _ _ Ef (n, a) Hin) as Hw.
        apply filter_In in Hin as [Hin Hz]. apply negb_true_iff, Z.eqb_neq in Hz. simpl in Hz.
        apply list_elem_of_In in Hin. pose proof (Hv2 n a Hin).
        apply negb_false_iff in Hw. unfold within_limit in Hw. simpl in *.
        destruct (resource_slots h !! n) as [s|]; [|done]. apply Z.leb_le in Hw. exists s. split; [done | lia]. }
  split_and!; [done | | done]. split; [| done | | done].
  - intros key Hk. destruct (slot_of (CPolicy key) h) as [s|] eqn:Es.
    + exists s. apply with_policy_slot_of. by left.
    + eexists. apply with_policy_slot_of. right. by eauto.
  - intros n a Hin. destruct (E4 n a Hin) as (s & Es & Ha). exists s. split; [|done].
    apply with_policy_slot_of. by left.
Qed.

Lemma arrives_inv quiet s s' : sys_inv quiet s -> arrives env sched s s' -> sys_inv quiet s'.
Proof.
  intros [V1 V2 V3 V4 V5 V6] (c & Hreq & ->).
  destruct (requested_ok _ _ _ V3 Hreq) as (Eid & Hc & Hlim). destruct (start_holds c) as (Eh & Et & Eg & En).
  destruct (with_policy_slot_objects c (host s)) as [Ei Ef].
  assert (calls s ++ [(c, start c)] ≡ₚ (c, start c) :: calls s) as Ep
    by (symmetry; apply Permutation_cons_append).
  assert (forall k, total k (calls s ++ [(c, start c)]) = total k (calls s)) as Etot.
  { intros k. rewrite (total_perm k _ _ Ep). unfold total. rewrite zsum_cons.
    change (load_of k (c, start c)) with (load k (holds c (start c))). by rewrite Eh. }
  split; simpl.
  - rewrite map_app, length_app, V1. simpl. rewrite seq_app. simpl. by rewrite Eid.
  - intros c0 ph0 Hin. rewrite Ep in Hin. apply elem_of_cons in Hin as [[= -> ->]|Hin].
    + split; [done|]. split; [|by rewrite Eh]. unfold start. by destruct (c_context c).
    + destruct (V2 _ _ Hin). split; [by apply with_policy_slot_call_ok | done].
  - intros k sl [Hs|(_ & key & Hk & -> & ->)]%with_policy_slot_of; [by eapply V3|]. simpl. by apply Hlim.
  - intros k sl [Hs|(Hn & key & Hk & -> & ->)]%with_policy_slot_of; rewrite Etot; [by apply V4|]. simpl.
    pose proof (Hlim key Hk). split; [lia|].
    enough (total (CPolicy key) (calls s) = 0) by lia. apply zsum_zero. intros [c0 ph0] Hin.
    destruct (V2 _ _ Hin) as [Hc0 [_ Hh0]]. apply zsum_zero. intros hd Hhd.
    rewrite Forall_forall in Hh0. specialize (Hh0 hd Hhd).
    destruct hd; simpl in *; try done. rewrite decide_False; [done|]. intros [= <-].
    destruct (co_policy _ _ Hc0 _ Hh0) as [sl Hsl]. simpl in Hsl. congruence.
  - rewrite Ei, Ep. destruct V5 as [W1 W2 W3]. split; [done | |].
    + cbn [flat_map]. by rewrite Et.
    + cbn [flat_map]. by rewrite En.
  - rewrite Ef, Ep. destruct V6 as [G1 G2 G3 G4 G5 G6].
    assert (waiting_ids ((c, start c) :: calls s) = waiting_ids (calls s)) as Ew.
    { unfold waiting_ids. cbn [flat_map]. by rewrite Eg. }
    assert (slack (fair_gate (host s)) ((c, start c) :: calls s) = slack (fair_gate (host s)) (calls s)) as Es.
    { unfold slack. rewrite Ew, <- (total_perm CGate _ _ Ep), Etot. done. }
    split; try done.
    + intros c0 Hin. apply elem_of_cons in Hin as [[= -> _]|Hin]; [|by apply G3].
      assert (c_id c ∉ map (c_id ∘ fst) (calls s)) as Hn.
      { rewrite V1, Eid. intros Hseq%elem_of_seq. lia. }
      split; intros H; apply Hn, G4; [by left | by right].
    + intros i Hi. simpl. right. by apply G4.
    + by rewrite Es.
    + by rewrite Es, Ew.
Qed.

Lemma quiet_step_inv quiet s s' : quiet_step env sched s s' -> sys_inv quiet s -> sys_inv quiet s'.
Proof.
  intros [Ha|[i Hm|i Hm Hw]] Hinv.
  - by eapply arrives_inv.
  - by eapply advance_inv.
  - by eapply withdraw_inv.
Qed.

Lemma sys_step_inv s s' : sys_step env sched s s' -> sys_inv false s -> sys_inv false s'.
Proof. intros [Hq|i Hm Hw] Hinv; [by eapply quiet_step_inv | exact (proj1 (withdraw_inv _ _ _ i Hinv Hm))]. Qed.

Lemma sys_steps_inv s s' : rtc (sys_step env sched) s s' -> sys_inv false s -> sys_inv false s'.
Proof. induction 1; eauto using sys_step_inv. Qed.

Lemma quiet_steps_inv s s' : rtc (quiet_step env sched) s s' -> sys_inv true s -> sys_inv true s'.
Proof. induction 1; eauto using quiet_step_inv. Qed.
End Arrivals.
