(* ===== verification/AdmissionProgress.v ===== *)
(** * Progress on the admission path

    In an invariant state where no request has timed out in the fair gate,
    some thread can move until all calls are finished; the remaining work is a
    number that every move lowers (SchedulerAdmission.v). *)
From Stdlib Require Import Strings.String.
From S2P Require Import Prelude.
From S2P Require Import PyJson.
From S2P Require Import Isolation.
From S2P Require Import FairGate.
From S2P Require Import GateTickets.
From S2P Require Import SchedulerPolicy.
From S2P Require Import SchedulerAdmission.
From S2P Require Import AdmissionSlots.
From S2P Require Import AdmissionTickets.
From S2P Require Import AdmissionGate.
From S2P Require Import AdmissionInvariant.
Local Open Scope Z_scope.

(** ** Remaining work *)

Definition rank (c : Call) (ph : Phase) : nat :=
  let asked := (length (c_claims c) + 5)%nat in
  match ph with
  | AtGate => 8 + asked | InGate => 7 + asked | AtGlobal => 6 + asked | AtExecutor => 5 + asked
  | AtIsolation => 4 + asked | InIsolation _ => 3 + asked | AtResources _ => 2 + asked
  | Running _ => 1 + asked
  | Releasing hs _ => S (length hs)
  | Finished _ | Broken => 0
  end.

Definition work_left (s : System) : nat := sum_list_with (fun x => rank x.1 x.2) (calls s).

Lemma sum_insert {A} (f : A -> nat) l i x y :
  l !! i = Some x -> (sum_list_with f (<[i := y]> l) + f x = sum_list_with f l + f y)%nat.
Proof.
  revert i. induction l as [|z l IH]; intros [|i]; simpl; try done.
  - intros [= ->]. lia.
  - intros Hi. specialize (IH i Hi). lia.
Qed.

Lemma holds_bound c ph : (forall hs o, ph <> Releasing hs o) -> (length (holds c ph) <= length (c_claims c) + 4)%nat.
Proof.
  intros Hne. assert (length (gate_holds c) <= 1 /\ length (policy_holds c) <= 1 /\
    length (resource_holds c) = length (c_claims c))%nat as (Hg & Hp & Hr).
  { unfold gate_holds, policy_holds, resource_holds. rewrite length_rev, length_map.
    destruct (c_context c), (c_policy c); simpl; lia. }
  destruct ph as [ | | | | |t|t|t|hs o|o| ]; simpl; rewrite ?length_app; simpl; rewrite ?length_app; simpl; try lia.
  by destruct (Hne hs o).
Qed.

Lemma refuse_rank c ph :
  (forall hs o, ph <> Releasing hs o) -> (length (c_claims c) + 5 < rank c ph)%nat ->
  (rank c (refuse c ph) < rank c ph)%nat.
Proof. intros H1 H2. pose proof (holds_bound c ph H1). change (rank c (refuse c ph)) with (S (length (holds c ph))). lia. Qed.

Lemma advance_rank c ph h ph' h' : advance c ph h = Some (ph', h') -> (rank c ph' < rank c ph)%nat.
Proof.
  intros Ha. assert (forall p, p = ph -> (forall hs o, p <> Releasing hs o) ->
    (length (c_claims c) + 5 < rank c p)%nat -> (rank c (refuse c p) < rank c p)%nat) as Hr
    by (intros p _; apply refuse_rank).
  destruct ph as [ | | | | |t|t|t|hs o|o| ]; simpl in Ha.
  - apply bind_Some in Ha as (t & _ & Ha). destruct (acquire_enter _ _); injection Ha as <- <-;
      [simpl; lia | apply Hr; simpl; [done.. | lia]].
  - apply bind_Some in Ha as (t & _ & Ha). destruct (is_granted _ _); [|done]. injection Ha as <- <-. simpl. lia.
  - apply acquired_objects in Ha as [_ [-> | ->]]; [simpl; lia | apply Hr; simpl; [done.. | lia] | done].
  - destruct (c_policy c).
    + apply bind_Some in Ha as (s & _ & Ha).
      apply acquired_objects in Ha as [_ [-> | ->]]; [simpl; lia | apply Hr; simpl; [done.. | lia] | done].
    + injection Ha as <- <-. simpl. lia.
  - destruct (targets_valid c); injection Ha as <- <-; [simpl; lia | apply Hr; simpl; [done.. | lia]].
  - apply bind_Some in Ha as (i & _ & [= <- <-]). simpl. lia.
  - destruct (resources_objects _ _ _ _ _ Ha) as [_ [-> | ->]]; [simpl; lia | apply Hr; simpl; [done.. | lia]].
  - injection Ha as <- <-. pose proof (holds_bound c (Running t)) as Hb. cbn [rank]. specialize (Hb ltac:(done)).
    simpl in *. lia.
  - destruct hs as [|hd rest]; [injection Ha as <- <-; simpl; lia|].
    destruct (release_hold hd h); injection Ha as <- <-; simpl; lia.
  - done.
  - done.
Qed.

Lemma withdraw_rank c ph h ph' h' : withdraw c ph h = Some (ph', h') -> (rank c ph' < rank c ph)%nat.
Proof.
  intros Hg. destruct (withdraw_slots _ _ _ _ _ Hg) as [-> _]. apply refuse_rank;
    unfold withdraw in Hg; destruct (c_timed c); try done; by destruct ph; simpl in *; try lia.
Qed.

Lemma moves_work f i s s' :
  (forall c ph h ph' h', f c ph h = Some (ph', h') -> (rank c ph' < rank c ph)%nat) ->
  moves f i s s' -> (work_left s' < work_left s)%nat.
Proof.
  intros Hf (c & ph & ph' & h' & Hi & Ha & ->). unfold work_left. simpl.
  pose proof (sum_insert (fun x => rank x.1 x.2) _ _ _ (c, ph') Hi) as E. simpl in E.
  apply Hf in Ha. lia.
Qed.

Lemma work_decreases s s' : work s s' -> (work_left s' < work_left s)%nat.
Proof.
  intros [i Hm|i Hm _]; eapply moves_work; try exact Hm; intros; [by eapply advance_rank | by eapply withdraw_rank].
Qed.

Lemma work_bounded n s s' : nsteps work n s s' -> (n + work_left s' <= work_left s)%nat.
Proof. induction 1 as [|n x y z Hxy Hyz IH]; [lia|]. apply work_decreases in Hxy. lia. Qed.

(** ** Somebody can move *)

Definition finished (x : Call * Phase) : Prop := exists o, x.2 = Finished o.

Definition can_move (h : Host) (x : Call * Phase) : Prop := is_Some (advance x.1 x.2 h).

Lemma total_zero k calls : (forall c ph, (c, ph) ∈ calls -> load k (holds c ph) = 0) -> total k calls = 0.
Proof. intros H. apply zsum_zero. intros [c ph] Hin. by apply H. Qed.

Section Stuck.
Context (s : System) (Hinv : sys_inv true s).
Context (Hstuck : forall x, x ∈ calls s -> ~ can_move (host s) x).

Lemma free_slot k sl : slot_of k (host s) = Some sl ->
  (forall c ph, (c, ph) ∈ calls s -> load k (holds c ph) = 0) -> available sl = slot_capacity sl.
Proof. intros Es Hz. destruct (sv_slots _ _ Hinv k sl Es) as [_ H]. rewrite (total_zero k _ Hz) in H. lia. Qed.

Lemma acquired_some timed sl st h next failed :
  1 <= slot_capacity sl -> 1 <= available sl ->
  is_Some (acquired (acquire_slot timed sl) st h next failed).
Proof.
  intros Hc Ha. unfold acquired. destruct (acquire_slot timed sl) as [[?|]|] eqn:E; [by eauto | by eauto |].
  apply acquire_slot_blocks in E; lia.
Qed.

(** Nothing is running, released or about to enter. *)
Definition settled (ph : Phase) : Prop :=
  match ph with
  | InGate | AtGlobal | AtExecutor | InIsolation _ | AtResources _ | Finished _ => True
  | _ => False
  end.

Lemma stuck_settled c ph : (c, ph) ∈ calls s -> settled ph.
Proof.
  intros Hin. pose proof (Hstuck _ Hin) as Hm. destruct (sv_calls _ _ Hinv _ _ Hin) as [Hc [Hp _]].
  destruct ph as [ | | | | |t|t|t|hs o|o| ]; try done; destruct Hm; unfold can_move; simpl.
  - unfold gate_ticket. destruct (c_context c) as [[o p]|]; [|done]. simpl. destruct (acquire_enter _ _); by eauto.
  - destruct (targets_valid c); by eauto.
  - by eauto.
  - destruct hs as [|hd rest]; [by eauto|]. destruct (release_hold hd _); by eauto.
Qed.

Lemma parts_load c :
  (forall n, load (CResource n) (gate_holds c) = 0 /\ load (CResource n) (policy_holds c) = 0) /\
  (forall key, load (CPolicy key) (gate_holds c) = 0) /\ load CGlobal (gate_holds c) = 0.
Proof. unfold gate_holds, policy_holds. destruct (c_context c), (c_policy c); done. Qed.

Lemma stuck_no_resources c t : (c, AtResources t) ∈ calls s -> False.
Proof.
  intros Hin. pose proof (Hstuck _ Hin) as Hm. destruct (sv_calls _ _ Hinv _ _ Hin) as [Hc _].
  assert (forall n sl, slot_of (CResource n) (host s) = Some sl -> available sl = slot_capacity sl) as Hfree.
  { intros n sl Es. apply (free_slot _ _ Es). intros c' ph' Hin'. pose proof (stuck_settled _ _ Hin') as Hs.
    destruct (parts_load c') as [Hz _]. destruct (Hz n) as [Z1 Z2].
    destruct ph'; try done; simpl; rewrite ?load_cons, ?load_app, ?load_cons, ?Z1, ?Z2; done. }
  destruct Hm. unfold can_move. simpl. destruct (c_context c) as [o|] eqn:Eo.
  - unfold acquire_resource_claims. destruct (existsb _ _) eqn:El; [|by eauto].
    apply existsb_exists in El as ([n a] & Hn & Hl). apply list_elem_of_In in Hn.
    destruct (co_claims _ _ Hc _ _ Hn) as (sl & Es & Ha). unfold lacking in Hl. simpl in *. rewrite Es in Hl.
    rewrite (Hfree n sl Es) in Hl. apply Z.ltb_lt in Hl. lia.
  - destruct (c_claims c) as [|[n a] l] eqn:El; [by eauto|].
    destruct (co_claims _ _ Hc n a) as (sl & Es & Ha); [rewrite El; left|].
    pose proof (Hfree n sl Es) as Hf. pose proof (sv_caps _ _ Hinv _ _ Es). simpl in Es. rewrite Es. simpl.
    apply acquired_some; lia.
Qed.

Lemma stuck_no_isolation c t : (c, InIsolation t) ∈ calls s -> False.
Proof.
  intros Hin. destruct (sv_iso _ _ Hinv) as [_ Ha Hw].
  assert (flat_map held (calls s) = []) as E.
  { destruct (flat_map held (calls s)) as [|u l] eqn:E; [done|]. exfalso.
    assert (In u (flat_map held (calls s))) as Hu by (rewrite E; by left).
    apply in_flat_map in Hu as ([c' ph'] & Hin' & Hu). apply list_elem_of_In in Hin'.
    pose proof (stuck_settled _ _ Hin') as Hs.
    rewrite held_phase in Hu by (by destruct ph'). destruct ph'; try done. by eapply stuck_no_resources. }
  rewrite E in Ha. apply Permutation_nil_r in Ha.
  destruct (waiting (Isolation.object (isolation (host s)))) as [|u rest] eqn:Ew.
  - assert (In t (flat_map entered (calls s))) as Ht.
    { apply in_flat_map. exists (c, InIsolation t). split; [by apply list_elem_of_In | by left]. }
    apply list_elem_of_In in Ht. rewrite <- Hw in Ht. by apply elem_of_nil in Ht.
  - assert (In u (flat_map entered (calls s))) as Hu.
    { apply list_elem_of_In. rewrite <- Hw. left. }
    apply in_flat_map in Hu as ([c' ph'] & Hin' & Hu). apply list_elem_of_In in Hin'.
    destruct ph'; simpl in Hu; try done. destruct Hu as [->|[]].
    apply (Hstuck _ Hin'). unfold can_move. simpl. unfold admit_ticket, admissible. rewrite Ew, Ha. simpl.
    unfold same_ticket. rewrite Nat.eqb_refl. simpl. by eauto.
Qed.

Lemma stuck_no_executor c : (c, AtExecutor) ∈ calls s -> False.
Proof.
  intros Hin. destruct (sv_calls _ _ Hinv _ _ Hin) as [Hc _]. apply (Hstuck _ Hin). unfold can_move. simpl.
  destruct (c_policy c) as [key|] eqn:Ep; [|by eauto].
  destruct (co_policy _ _ Hc key Ep) as [sl Es]. pose proof (sv_caps _ _ Hinv _ _ Es).
  assert (available sl = slot_capacity sl) as Hf.
  { apply (free_slot _ _ Es). intros c' ph' Hin'. pose proof (stuck_settled _ _ Hin') as Hs.
    destruct (parts_load c') as (_ & Hz & _).
    destruct ph'; try done; simpl; rewrite ?load_cons, ?Hz; try done;
      [by destruct (stuck_no_isolation _ _ Hin') | by destruct (stuck_no_resources _ _ Hin')]. }
  simpl in Es. rewrite Es. simpl. apply acquired_some; lia.
Qed.

Lemma stuck_no_global c : (c, AtGlobal) ∈ calls s -> False.
Proof.
  intros Hin. apply (Hstuck _ Hin). unfold can_move. simpl.
  pose proof (sv_caps _ _ Hinv CGlobal _ eq_refl).
  assert (available (global_slots (host s)) = slot_capacity (global_slots (host s))) as Hf.
  { apply (free_slot CGlobal); [done|]. intros c' ph' Hin'. pose proof (stuck_settled _ _ Hin') as Hs.
    destruct (parts_load c') as (_ & _ & Hz).
    destruct ph'; try done; simpl; [by destruct (stuck_no_executor _ Hin') |
      by destruct (stuck_no_isolation _ _ Hin') | by destruct (stuck_no_resources _ _ Hin')]. }
  apply acquired_some; lia.
Qed.

Lemma stuck_no_gate c : (c, InGate) ∈ calls s -> False.
Proof.
  intros Hin. destruct (sv_gate _ _ Hinv) as [G1 G2 _ _ _ G6]. destruct (G6 eq_refl) as (A & _ & C).
  assert (total CGate (calls s) = 0) as Ht.
  { apply total_zero. intros c' ph' Hin'. pose proof (stuck_settled _ _ Hin') as Hs.
    destruct ph'; try done; [by destruct (stuck_no_global _ Hin') | by destruct (stuck_no_executor _ Hin') |
      by destruct (stuck_no_isolation _ _ Hin') | by destruct (stuck_no_resources _ _ Hin')]. }
  assert (forall c', (c', InGate) ∈ calls s -> c_id c' ∉ granted (fair_gate (host s))) as Hng.
  { intros c' Hin' Hg. destruct (sv_calls _ _ Hinv _ _ Hin') as [_ [Hp _]].
    apply (Hstuck _ Hin'). unfold can_move. simpl. unfold gate_ticket.
    simpl in Hp. destruct (c_context c') as [[o p]|]; [|done]. simpl. unfold is_granted. simpl.
    rewrite bool_decide_true by done. by eauto. }
  assert (pending (waiting_ids (calls s)) (fair_gate (host s)) = 0) as Hp.
  { unfold pending. replace (list_to_set (waiting_ids (calls s)) ∩ granted (fair_gate (host s)) : gset nat)
      with (∅ : gset nat); [done|]. symmetry. apply elem_of_equiv_empty_L. intros i.
    rewrite elem_of_intersection, elem_of_list_to_set. intros [(c' & Hin' & <-)%waiting_id_member Hg].
    by eapply Hng. }
  unfold slack in A. rewrite Ht, Hp in A.
  destruct (C (c_id c)) as [Hq|Hg]; [by apply waiting_id_member; exists c | | by eapply Hng].
  eapply idle_gate; [exact G1 | | exact Hq]. pose proof (go_capacity _ (proj1 G1)). lia.
Qed.

Lemma stuck_finished x : x ∈ calls s -> finished x.
Proof.
  destruct x as [c ph]. intros Hin. pose proof (stuck_settled _ _ Hin) as Hs.
  destruct ph as [ | | | | |t|t|t|hs o|o| ]; try done.
  - by destruct (stuck_no_gate c).
  - by destruct (stuck_no_global c).
  - by destruct (stuck_no_executor c).
  - by destruct (stuck_no_isolation c t).
  - by destruct (stuck_no_resources c t).
  - by exists o.
Qed.
End Stuck.

Lemma progress s : sys_inv true s -> Forall finished (calls s) \/ exists s', work s s'.
Proof.
  intros Hinv. destruct (decide (Exists (fun x => is_Some (advance x.1 x.2 (host s))) (calls s))) as [He|He].
  - right. apply Exists_exists in He as ([c ph] & Hin & [[ph' h'] Ha]).
    apply list_elem_of_lookup in Hin as [i Hi]. exists (mkSystem h' (<[i := (c, ph')]> (calls s))).
    apply (work_advance _ _ i). by exists c, ph, ph', h'.
  - left. apply Forall_forall. intros x. apply stuck_finished; [done|].
    intros y Hy Hm. apply He, Exists_exists. by exists y.
Qed.

(** ** At rest *)

(** Every counter is full, nobody is in the isolation lists or in the gate. *)
Record idle (h : Host) : Prop := {
  id_slots : forall k sl, slot_of k h = Some sl -> available sl = slot_capacity sl;
  id_isolation : Isolation.object (isolation h) = new_isolation;
  id_gate : g_active (fair_gate h) = 0 /\ owners (fair_gate h) = [] }.

Lemma finished_idle s : sys_inv true s -> Forall finished (calls s) -> idle (host s).
Proof.
  intros Hinv Hf. rewrite Forall_forall in Hf.
  assert (forall c ph, (c, ph) ∈ calls s -> exists o, ph = Finished o) as Hfin by (intros c ph; apply (Hf (c, ph))).
  assert (forall k, total k (calls s) = 0) as Ht.
  { intros k. apply total_zero. intros c ph [o ->]%Hfin. done. }
  assert (flat_map held (calls s) = [] /\ flat_map entered (calls s) = [] /\ waiting_ids (calls s) = []) as (E1 & E2 & E3).
  { unfold waiting_ids. clear Hinv Ht Hf. induction (calls s) as [|[c ph] l IH]; [done|].
    destruct (Hfin c ph) as [o ->]; [left|]. simpl. apply IH. intros c' ph' Hin. apply (Hfin c' ph'). by right. }
  split.
  - intros k sl Es. destruct (sv_slots _ _ Hinv k sl Es) as [_ H]. rewrite Ht in H. lia.
  - destruct (sv_iso _ _ Hinv) as [_ Ha Hw]. rewrite E1 in Ha. rewrite E2 in Hw.
    apply Permutation_nil_r in Ha. apply Permutation_nil_r in Hw.
    destruct (Isolation.object (isolation (host s))) as [a w]. simpl in *. by subst.
  - destruct (sv_gate _ _ Hinv) as [G1 _ _ _ _ G6]. destruct (G6 eq_refl) as (A & _ & _).
    unfold slack in A. rewrite Ht, E3, pending_nil in A.
    assert (g_active (fair_gate (host s)) = 0) as E by lia. split; [done|].
    destruct G1 as (Hok & [Hb|Hb] & _); [|done]. destruct Hok. lia.
Qed.
