(* ===== verification/AdmissionProperties.v ===== *)
(** * Properties of the admission path

    Safety under every interleaving, and termination, of the threads that call
    [invoke] on one executor scheduler (SchedulerAdmission.v). *)
From Stdlib Require Import Strings.String.
From S2P Require Import Prelude.
From S2P Require Import PyJson.
From S2P Require Import Isolation.
From S2P Require Import FairGate.
From S2P Require Import GateTickets.
From S2P Require Import SchedulerPolicy.
From S2P Require Import SchedulerAdmission.
From S2P Require Import AdmissionSlots.
From S2P Require Import AdmissionTickets.
From S2P Require Import AdmissionGate.
From S2P Require Import AdmissionInvariant.
From S2P Require Import AdmissionProgress.
Local Open Scope Z_scope.

(** ** The configuration never changes *)

Definition configured (in_flight : Z) (limits : gmap string Z) (h : Host) : Prop :=
  slot_capacity (global_slots h) = in_flight /\
  forall name l, limits !! name = Some l ->
    exists sl, resource_slots h !! name = Some sl /\ slot_capacity sl = Z.max 1 l.

Lemma slots_move_configured d in_flight limits h h' :
  slots_move d h h' -> configured in_flight limits h -> configured in_flight limits h'.
Proof.
  intros Hm [H1 H2]. split.
  - specialize (Hm CGlobal). simpl in Hm. by destruct Hm as (-> & _).
  - intros name l Hl. destruct (H2 name l Hl) as (sl & Es & Hc). specialize (Hm (CResource name)).
    simpl in Hm. rewrite Es in Hm. destruct (resource_slots h' !! name) as [sl'|]; [|done].
    exists sl'. destruct Hm as (-> & _). done.
Qed.

Lemma arrival_configured in_flight limits c h :
  configured in_flight limits h -> configured in_flight limits (with_policy_slot c h).
Proof. unfold with_policy_slot. destruct (c_policy c); [|done]. by case_bool_decide. Qed.

Lemma step_configured env sched in_flight limits s s' :
  sys_inv false s -> sys_step env sched s s' ->
  configured in_flight limits (host s) -> configured in_flight limits (host s').
Proof.
  intros Hinv Hs.
  assert (forall i, moves advance i s s' \/ moves withdraw i s s' ->
    configured in_flight limits (host s) -> configured in_flight limits (host s')) as Hmv.
  { intros i [(c & ph & ph' & h' & Hi & Ha & ->)|(c & ph & ph' & h' & Hi & Ha & ->)];
      assert ((c, ph) ∈ calls s) as Hin by (by eapply list_elem_of_lookup_2).
    - destruct (sv_calls _ _ Hinv _ _ Hin). eapply slots_move_configured, advance_slots; try done;
        [apply (sv_caps _ _ Hinv) | by eapply not_broken].
    - eapply slots_move_configured, withdraw_slots. exact Ha. }
  destruct Hs as [[(c & _ & ->)|[i Hm|i Hm _]]|i Hm _].
  - apply arrival_configured.
  - apply (Hmv i). by left.
  - apply (Hmv i). by right.
  - apply (Hmv i). by right.
Qed.

Lemma new_configured in_flight limits : configured in_flight limits (host (new_system in_flight limits)).
Proof.
  split; [done|]. intros name l Hl. exists (new_slot l). split; [|done]. simpl.
  by rewrite lookup_fmap, Hl.
Qed.

Lemma admission_reachable_inv env sched in_flight limits s :
  1 <= in_flight -> rtc (sys_step env sched) (new_system in_flight limits) s ->
  sys_inv false s /\ configured in_flight limits (host s).
Proof.
  intros Hf Hs. remember (new_system in_flight limits) as s0 eqn:E.
  assert (sys_inv false s0 /\ configured in_flight limits (host s0)) as H
    by (subst; split; [by apply new_system_inv | apply new_configured]). clear E.
  induction Hs as [x|x y z Hxy Hyz IH]; [done|]. apply IH. destruct H as [H1 H2].
  split; [by eapply sys_step_inv | by eapply step_configured].
Qed.

(** ** What runs *)

Definition running (x : Call * Phase) : bool := match x.2 with Running _ => true | _ => false end.

(** The amount of a resource a call asked for. *)
Definition claimed (name : string) (c : Call) : Z :=
  zsum (fun claim => if decide (claim.1 = name) then claim.2 else 0) (c_claims c).

Lemma running_load c t :
  load CGlobal (holds c (Running t)) = 1 /\
  forall name, load (CResource name) (holds c (Running t)) = claimed name c.
Proof.
  destruct (load_simplify CGlobal c) as (E & _). destruct (parts_load c) as (Hz & _ & Hg).
  assert (forall k l, (forall n, k <> CResource n) -> zsum (fun x : string * Z => weight k (HResource x.1 x.2)) l = 0) as Hr.
  { intros k l Hk. apply zsum_zero. intros [n a] _. simpl. rewrite decide_False; [done | by apply Hk]. }
  split.
  - rewrite E, resource_load, Hr, Hg by done. unfold policy_holds. by destruct (c_policy c).
  - intros name. destruct (load_simplify (CResource name) c) as (-> & _). rewrite resource_load.
    destruct (Hz name) as [-> ->]. change (weight (CResource name) HGlobal) with 0. unfold claimed.
    assert (forall l, zsum (fun x : string * Z => weight (CResource name) (HResource x.1 x.2)) l =
      zsum (fun claim => if decide (claim.1 = name) then claim.2 else 0) l) as Hc; [|rewrite Hc; lia].
    induction l as [|[n a] l IH]; simpl; [done|]. f_equal; [|exact IH].
    destruct (decide (n = name)) as [->|Hne]; [by rewrite decide_True | rewrite decide_False; [done | congruence]].
Qed.

Lemma running_total k (f : Call -> Z) calls :
  (forall x, x ∈ calls -> 0 <= load_of k x) ->
  (forall c t, load k (holds c (Running t)) = f c) ->
  zsum (fun x => f x.1) (List.filter running calls) <= total k calls.
Proof.
  intros Hn Hf. induction calls as [|[c ph] l IH]; [done|]. unfold total in *. rewrite zsum_cons.
  assert (zsum (fun x => f x.1) (List.filter running l) <= zsum (load_of k) l) as Hl
    by (apply IH; intros x Hx; apply Hn; by right).
  specialize (Hn (c, ph) (list_elem_of_here _ _)). destruct ph; simpl in *; try lia.
  unfold load_of at 1. simpl. pose proof (Hf c t) as E. simpl in E. rewrite E. unfold zsum in *. simpl. lia.
Qed.

Lemma two_members {A} (l : list A) i j x y :
  l !! i = Some x -> l !! j = Some y -> i <> j -> exists D, l ≡ₚ x :: y :: D.
Proof.
  intros Hi Hj Hne. assert (y ∈ delete i l) as (k1 & k2 & E)%list_elem_of_split.
  { destruct (decide (j < i)%nat).
    - apply (list_elem_of_lookup_2 _ j). by rewrite list_lookup_delete_lt.
    - apply (list_elem_of_lookup_2 _ (pred j)). rewrite list_lookup_delete_ge by lia.
      by replace (S (pred j)) with j by lia. }
  exists (k1 ++ k2). rewrite (delete_Permutation _ _ _ Hi), E. by rewrite <- Permutation_middle.
Qed.

(** C17: the admission path never gives out more than there is.  Whatever threads
    arrive, wait, run, fail or time out and however they interleave: every
    counter's free units and the units its calls hold add up to its capacity;
    the running calls are at most [max_in_flight] and together claim at most
    the limit of each resource; two running calls never have conflicting
    isolation tickets; the calls past the fair gate are within its capacity;
    and no release raises. *)
Theorem admission_conserves_capacity (env : string -> option string) (sched : Scheduler)
    (in_flight : Z) (limits : gmap string Z) (s : System) :
  1 <= in_flight -> rtc (sys_step env sched) (new_system in_flight limits) s ->
  (forall k sl, slot_of k (host s) = Some sl ->
     0 <= available sl /\ available sl + total k (calls s) = slot_capacity sl) /\
  Z.of_nat (length (List.filter running (calls s))) <= in_flight /\
  (forall name l, limits !! name = Some l ->
     zsum (fun x => claimed name x.1) (List.filter running (calls s)) <= Z.max 1 l) /\
  (forall i j c d t u, i <> j -> calls s !! i = Some (c, Running t) -> calls s !! j = Some (d, Running u) ->
     conflicts t u = false) /\
  total CGate (calls s) <= g_active (fair_gate (host s)) <= capacity (fair_gate (host s)) /\
  (forall c, (c, Broken) ∉ calls s).
Proof.
  intros Hf Hs. destruct (admission_reachable_inv _ _ _ _ _ Hf Hs) as [Hinv [Hg Hl]].
  assert (forall k x, x ∈ calls s -> 0 <= load_of k x) as Hn.
  { intros k [c ph] Hin. destruct (sv_calls _ _ Hinv _ _ Hin). by eapply load_nonneg. }
  split_and!.
  - apply Hinv.
  - destruct (sv_slots _ _ Hinv CGlobal _ eq_refl) as [Ha Ht].
    pose proof (running_total CGlobal (fun _ => 1) (calls s) (Hn _) (fun c t => proj1 (running_load c t))) as Hr.
    assert (forall l : list (Call * Phase), zsum (fun _ => 1) l = Z.of_nat (length l)) as Hlen
      by (induction l as [|x l IH]; simpl; unfold zsum in *; lia).
    rewrite Hlen in Hr. lia.
  - intros name l Hlim. destruct (Hl name l Hlim) as (sl & Es & Hc).
    destruct (sv_slots _ _ Hinv (CResource name) sl Es) as [Ha Ht].
    pose proof (running_total (CResource name) (claimed name) (calls s) (Hn _)
      (fun c t => proj2 (running_load c t) name)) as Hr. lia.
  - intros i j c d t u Hne Hi Hj. destruct (two_members _ _ _ _ _ Hi Hj Hne) as [D E].
    destruct (sv_iso _ _ Hinv) as [Hw Ha _]. rewrite E in Ha. cbn [flat_map] in Ha.
    rewrite !held_phase in Ha by done. simpl in Ha. destruct (iso_nodup _ Hw) as [Hnd _].
    apply (ii_exclusive _ Hw).
    + rewrite Ha. left.
    + rewrite Ha. right. left.
    + intros Eid. assert (map t_id (active (Isolation.object (isolation (host s)))) ≡ₚ
        t_id t :: t_id u :: map t_id (flat_map held D)) as Em by (apply (fmap_Permutation t_id) in Ha; exact Ha).
      rewrite Em in Hnd. apply NoDup_cons in Hnd as [Hn' _]. apply Hn'. rewrite Eid. left.
  - destruct (sv_gate _ _ Hinv) as [[Hok _] _ _ _ Hsl _]. pose proof (go_active _ Hok).
    unfold slack, pending in Hsl. lia.
  - destruct (sv_gate _ _ Hinv) as [[Hok _] _ _ _ _ _]. apply (go_active _ Hok).
  - intros c Hin. by destruct (sv_calls _ _ Hinv _ _ Hin) as [_ [[] _]].
Qed.

(** C18: admission terminates, without deadlock.  In any state the threads reach
    without a timeout in the fair gate, whatever they claim: the threads can
    make no more than [work_left] moves, progress and deadlines together, in
    any order; as long as some call is not finished one of them can move; and
    when all are finished every counter is full again, no ticket is left in
    isolation and the gate has given out no slot. *)
Theorem admission_terminates (env : string -> option string) (sched : Scheduler)
    (in_flight : Z) (limits : gmap string Z) (s : System) :
  1 <= in_flight -> rtc (quiet_step env sched) (new_system in_flight limits) s ->
  (forall n s', nsteps work n s s' -> (n <= work_left s)%nat) /\
  (forall s', rtc work s s' ->
     (exists s'', work s' s'') \/ (Forall finished (calls s') /\ idle (host s'))).
Proof.
  intros Hf Hs. assert (sys_inv true s) as Hinv
    by (eapply quiet_steps_inv; [exact Hs | by apply new_system_inv]).
  split.
  - intros n s' Hn. apply work_bounded in Hn. lia.
  - intros s' Hw. assert (sys_inv true s') as Hinv'.
    { eapply (quiet_steps_inv env sched); [|exact Hinv]. clear - Hw.
      induction Hw as [x|x y z Hxy _ IH]; [apply rtc_refl|].
      eapply rtc_l; [by apply quiet_work | exact IH]. }
    destruct (progress _ Hinv') as [Hfin|Hm]; [right; split; [done | by apply finished_idle] | by left].
Qed.

(** ** Witnesses *)

Definition demo_env : string -> option string := fun _ => None.

Definition demo_limits : gmap string Z := {[ "default" := 2 ]}.

Definition demo_worker : Executor := mkExecutor "read_files" None.

Definition demo_facts : Facts := mkFacts "alice" "normal" [] false [].

(** The call of a durable worker, on a scheduler of two slots. *)
Definition demo_call : Call :=
  mkCall 0 (Some ("alice", "normal")) "read_files" "none" None (Some ("read_files", 1)) [] false.

Definition demo_system : System :=
  mkSystem (with_policy_slot demo_call (new_host 2 demo_limits)) [(demo_call, AtGate)].

Definition demo_config : Scheduler := new_scheduler demo_env 8 None None None None None [].

Lemma demo_arrives : arrives demo_env demo_config (new_system 2 demo_limits) demo_system.
Proof.
  exists demo_call. split; [|reflexivity].
  apply (req_context _ _ _ _ _ demo_worker None false demo_facts); [|vm_compute; reflexivity].
  split; [by apply NoDup_nil|]. by intros n a ?%elem_of_nil.
Qed.

Lemma admission_conserves_capacity_witness :
  Z.of_nat (length (List.filter running (calls demo_system))) <= 2.
Proof.
  apply (admission_conserves_capacity demo_env demo_config 2 demo_limits demo_system); [lia|].
  apply rtc_once, sys_quiet, quiet_arrives, demo_arrives.
Defined.

Lemma admission_terminates_witness :
  (exists s', work demo_system s') \/ (Forall finished (calls demo_system) /\ idle (host demo_system)).
Proof.
  apply (admission_terminates demo_env demo_config 2 demo_limits demo_system); [lia | | apply rtc_refl].
  apply rtc_once, quiet_arrives, demo_arrives.
Defined.
