(* ===== verification/ScheduleTriggers.v ===== *)
(** * Triggers of the recurring task scheduler

    src/runtime/scheduler_v2/schedule_parser.py: the grammar of a trigger and
    the computation of its next fire time.

    An epoch is a [float] of seconds.  The doubles between 2^30 and 2^31 are
    the multiples of 2^-22, so until January 2038 an epoch is an integer of
    such ticks and the addition of whole seconds to it is exact; [Z] keeps that
    grid beyond.  [\d] is read as an ASCII digit. *)
From Stdlib Require Import Strings.Ascii Strings.String.
From S2P Require Import Prelude.
From S2P Require Import PyJson.
From S2P Require Import PyStrings.
Local Open Scope Z_scope.

Definition SECOND : Z := 4194304.

Definition seconds (n : Z) : Z := n * SECOND.

(** ** What is not in the sources *)

(** The data of [ZoneInfo(tz_name)]: the offset in seconds at an instant
    (whole seconds since 1970 UTC), and the one [utcoffset] gives a wall clock
    (whole seconds since 1970 on that clock) under [fold=0]. *)
Class Zone := {
  utc_offset : Z -> Z;
  wall_offset : Z -> Z }.

(** [datetime.fromisoformat(text)] as an epoch, a text without offset read as
    UTC: its grammar depends on the Python version.  [croniter], when it is
    installed: the next time of an expression after an epoch. *)
Class Libraries := {
  fromisoformat : string -> option Z;
  croniter : option (string -> Z -> option Z) }.

(** ** The grammar *)

Inductive TriggerSpec : Type :=
| Daily (hh mm : Z) | Every (secs : Z) | At (epoch : Z) | Cron (expr : string).

Inductive trigger_error : Type :=
| TriggerValueError (what : string)
| CroniterError
| CroniterMissing.

(** [$] also matches before a final newline. *)
Definition NEWLINE : ascii := Ascii.ascii_of_nat 10.
Definition at_end (s : string) : bool :=
  match s with
  | EmptyString => true
  | String c EmptyString => Ascii.eqb c NEWLINE
  | _ => false
  end.

Definition digit (c : ascii) : option Z :=
  let b := byte_of c in if is_digit b then Some (b - 48) else None.

Definition two_digits (s : string) : option (Z * string) :=
  match s with
  | String c (String d rest) => a ← digit c; b ← digit d; Some (10 * a + b, rest)
  | _ => None
  end.

(** What follows a literal prefix. *)
Fixpoint after_literal (p s : string) : option string :=
  match p, s with
  | EmptyString, _ => Some s
  | String c p', String d s' => if Ascii.eqb c d then after_literal p' s' else None
  | _, _ => None
  end.

(** [^daily@([01]\d|2[0-3]):([0-5]\d)$] *)
Definition match_daily (s : string) : option (Z * Z) :=
  s ← after_literal "daily@" s;
  '(hh, s) ← two_digits s;
  s ← after_literal ":" s;
  '(mm, s) ← two_digits s;
  if (hh <=? 23) && (mm <=? 59) && at_end s then Some (hh, mm) else None.

(** [\d+], greedy. *)
Fixpoint many_digits (s : string) (acc : Z) : Z * string :=
  match s with
  | String c rest => match digit c with Some d => many_digits rest (10 * acc + d) | None => (acc, s) end
  | EmptyString => (acc, s)
  end.

Definition unit_seconds (c : ascii) : option Z :=
  if Ascii.eqb c "s" then Some 1
  else if Ascii.eqb c "m" then Some 60
  else if Ascii.eqb c "h" then Some 3600 else None.

(** [^every_(\d+)([smh])$]: the number and the seconds of its unit. *)
Definition match_every (s : string) : option (Z * Z) :=
  s ← after_literal "every_" s;
  match s with
  | String c _ =>
      _ ← digit c;
      let '(n, rest) := many_digits s 0 in
      match rest with
      | String u rest' => k ← unit_seconds u; if at_end rest' then Some (n, k) else None
      | EmptyString => None
      end
  | EmptyString => None
  end.

(** [(.+)$]: a line, with or without its newline. *)
Fixpoint one_line (s : string) : option string :=
  match s with
  | EmptyString => Some EmptyString
  | String c rest =>
      if Ascii.eqb c NEWLINE then (if bool_decide (rest = EmptyString) then Some EmptyString else None)
      else String c <$> one_line rest
  end.

Definition match_rest (p s : string) : option string :=
  s ← after_literal p s;
  body ← one_line s;
  if str_eqb body EmptyString then None else Some body.

(** [len(text.split())]: the runs of characters that are not white space.
    Each turn of the loop drops a character, so the length is enough fuel. *)
Fixpoint count_fields (fuel : nat) (s : string) (inside : bool) : Z :=
  match fuel with
  | O => 0
  | S n =>
      match s with
      | EmptyString => 0
      | String _ rest =>
          match leading_space s with
          | Some w => count_fields n (drop_bytes (String.length w) s) false
          | None => (if inside then 0 else 1) + count_fields n rest true
          end
      end
  end.

Definition fields (s : string) : Z := count_fields (String.length s) s false.

Section Parser.
Context `{Libraries}.

Definition parse_trigger (trigger : string) : result trigger_error TriggerSpec :=
  if str_eqb trigger EmptyString then Err (TriggerValueError "empty trigger")
  else
    match match_daily trigger with
    | Some (hh, mm) => Ok (Daily hh mm)
    | None =>
        match match_every trigger with
        | Some (n, k) => if n <=? 0 then Err (TriggerValueError "every_ must be positive") else Ok (Every (k * n))
        | None =>
            match match_rest "at:" trigger with
            | Some raw =>
                match fromisoformat raw with
                | Some epoch => Ok (At epoch)
                | None => Err (TriggerValueError "at: malformed ISO8601")
                end
            | None =>
                match match_rest "cron:" trigger with
                | Some raw =>
                    let expr := strip raw in
                    if fields expr =? 5 then Ok (Cron expr)
                    else Err (TriggerValueError "cron expression must have 5 fields")
                | None => Err (TriggerValueError "unknown trigger form")
                end
            end
        end
    end.

(** ** Next fire time *)

Context `{Zone}.

(** [datetime.fromtimestamp] keeps microseconds, rounding half to even. *)
Definition to_microseconds (epoch : Z) : Z :=
  let scaled := epoch * 1000000 in
  let low := scaled / SECOND in
  let rest := scaled mod SECOND in
  if (2 * rest <? SECOND) || ((2 * rest =? SECOND) && Z.even low) then low else low + 1.

Definition DAY : Z := 86400.

(** The local date of an epoch, as a day number. *)
Definition local_day (epoch : Z) : Z :=
  let s := to_microseconds epoch / 1000000 in (s + utc_offset s) / DAY.

(** [_build(..).timestamp()]. *)
Definition wall_epoch (day hh mm : Z) : Z :=
  let wall := day * DAY + hh * 3600 + mm * 60 in seconds (wall - wall_offset wall).

Definition next_daily (after_epoch hh mm : Z) : Z :=
  let day := local_day after_epoch in
  let cand := wall_epoch day hh mm in
  if cand <=? after_epoch then wall_epoch (day + 1) hh mm else cand.

Definition next_every (after_epoch secs : Z) : Z := after_epoch + seconds secs.

Definition next_cron (after_epoch : Z) (expr : string) : result trigger_error Z :=
  match croniter with
  | None => Err CroniterMissing
  | Some next => match next expr after_epoch with Some t => Ok t | None => Err CroniterError end
  end.

Definition next_fire_at (trigger : string) (after_epoch : Z) : result trigger_error Z :=
  match parse_trigger trigger with
  | Err e => Err e
  | Ok (Daily hh mm) => Ok (next_daily after_epoch hh mm)
  | Ok (Every secs) => Ok (next_every after_epoch secs)
  | Ok (At epoch) => Ok epoch
  | Ok (Cron expr) => next_cron after_epoch expr
  end.

(** [_weekday_token] of daemon.py; day 0 is a Thursday. *)
Definition weekday_token (epoch : Z) : string :=
  nth (Z.to_nat ((local_day epoch + 3) mod 7)) ["mon"; "tue"; "wed"; "thu"; "fri"; "sat"; "sun"] EmptyString.
End Parser.

(** ** Lemmas *)

Lemma to_microseconds_near epoch :
  2 * to_microseconds epoch * SECOND <= 2 * (epoch * 1000000) + SECOND /\
  2 * (epoch * 1000000) - SECOND <= 2 * to_microseconds epoch * SECOND.
Proof.
  unfold to_microseconds. pose proof (Z.div_mod (epoch * 1000000) SECOND ltac:(done)) as E.
  pose proof (Z.mod_pos_bound (epoch * 1000000) SECOND ltac:(done)).
  set (low := epoch * 1000000 / SECOND) in *. set (rest := (epoch * 1000000) mod SECOND) in *.
  destruct (_ || _) eqn:Ec.
  - apply orb_true_iff in Ec as [Ec|[Ec _]%andb_true_iff]; [apply Z.ltb_lt in Ec | apply Z.eqb_eq in Ec]; lia.
  - apply orb_false_iff in Ec as [Ec _]. apply Z.ltb_ge in Ec. lia.
Qed.

Lemma many_digits_nonneg s : forall acc, 0 <= acc -> 0 <= (many_digits s acc).1.
Proof.
  induction s as [|c s IH]; intros acc Ha; simpl; [done|]. unfold digit.
  destruct (is_digit (byte_of c)) eqn:Ed; simpl; [|done]. apply IH.
  unfold is_digit in Ed. apply andb_true_iff in Ed as [Ed%Z.leb_le _]. lia.
Qed.

Lemma parse_every_positive `{Libraries} trigger secs : parse_trigger trigger = Ok (Every secs) -> 1 <= secs.
Proof.
  unfold parse_trigger. destruct (str_eqb _ _); [done|]. destruct (match_daily _) as [[hh mm]|]; [done|].
  destruct (match_every trigger) as [[n k]|] eqn:Em.
  - destruct (Z.leb_spec n 0); [done|]. intros [= <-]. enough (1 <= k) by nia.
    unfold match_every in Em. apply bind_Some in Em as (s & _ & Em). destruct s as [|c s]; [done|].
    apply bind_Some in Em as (d & _ & Em). destruct (many_digits _ _) as [m rest].
    destruct rest as [|u rest]; [done|]. apply bind_Some in Em as (k' & Ek & Em).
    destruct (at_end rest); [|done]. injection Em as <- <-. unfold unit_seconds in Ek.
    repeat case_match; simplify_eq; lia.
  - destruct (match_rest "at:" trigger) as [raw|]; [by destruct (fromisoformat raw)|].
    destruct (match_rest "cron:" trigger); [|done]. by destruct (_ =? 5).
Qed.
