(* ===== verification/ScheduleStore.v ===== *)
(** * The store of the recurring task scheduler

    src/runtime/scheduler_v2/storage.py and models.py: the tables
    [schedule_entries] and [runs] and every operation of [SchedulerStorage].
    Each statement commits by itself, or several under one lock and
    transaction: an operation is a function of the database.  [stamp] is the
    text of [_utc_iso()]. *)
From Stdlib Require Import Strings.Ascii Strings.String.
From S2P Require Import Prelude.
From S2P Require Import PyJson.
From S2P Require Import DurableTables.
From S2P Require Import PyStrings.
From S2P Require Import ScheduleTriggers.
Local Open Scope Z_scope.

(** ** Rows *)

(** A row and the [ScheduleEntry] read from it, but for the id.  The payload
    column holds JSON; [None] is a text [json.loads] refuses. *)
Record Entry : Type := mkEntry {
  e_name : string;
  e_trigger : string;
  e_next_fire_at : Z;
  e_recurring : bool;
  e_callback_key : string;
  e_payload : option json;
  e_weekdays : string;
  e_expires_at : string;
  e_remaining_runs : Z;
  e_enabled : bool;
  e_timeout_s : option Z;
  e_is_async : bool;
  e_max_concurrent : Z;
  e_grace_window_s : option Z;
  e_origin : string;
  e_label : string;
  e_source_command : string;
  e_created_at : string;
  e_updated_at : string;
  e_last_run_at : option string;
  e_last_status : option string;
  e_last_duration_ms : option Z;
  e_last_error : option string;
  e_total_runs : Z;
  e_total_failures : Z;
  e_consecutive_failures : Z;
  e_description : string }.

#[export] Instance eta_Entry : Settable Entry := fun e =>
  mkEntry (e_name e) (e_trigger e) (e_next_fire_at e) (e_recurring e) (e_callback_key e) (e_payload e)
    (e_weekdays e) (e_expires_at e) (e_remaining_runs e) (e_enabled e) (e_timeout_s e) (e_is_async e)
    (e_max_concurrent e) (e_grace_window_s e) (e_origin e) (e_label e) (e_source_command e)
    (e_created_at e) (e_updated_at e) (e_last_run_at e) (e_last_status e) (e_last_duration_ms e)
    (e_last_error e) (e_total_runs e) (e_total_failures e) (e_consecutive_failures e) (e_description e).

Record RunRow : Type := mkRunRow {
  run_entry_id : option Z;
  run_entry_name : string;
  run_started_at : string;
  run_finished_at : option string;
  run_status : string;
  run_duration_ms : option Z;
  run_output : string }.

#[export] Instance eta_RunRow : Settable RunRow := fun r =>
  mkRunRow (run_entry_id r) (run_entry_name r) (run_started_at r) (run_finished_at r) (run_status r)
    (run_duration_ms r) (run_output r).

Record Schedule : Type := mkSchedule { entries : gmap Z Entry; runs : gmap Z RunRow }.

#[export] Instance eta_Schedule : Settable Schedule := fun s => mkSchedule (entries s) (runs s).

Definition new_schedule : Schedule := mkSchedule ∅ ∅.

(** [INTEGER PRIMARY KEY] without [AUTOINCREMENT]: the next rowid is one more
    than the largest in the table. *)
Definition next_rowid {R} (table : gmap Z R) : Z := map_fold (fun k _ n => Z.max k n) 0 table + 1.

(** [SELECT .. WHERE name=?]; the column is unique. *)
Definition named (name : string) (s : Schedule) : list (Z * Entry) :=
  select_rows (entries s) (fun _ e => str_eqb (e_name e) name).

Definition find_by_name (name : string) (s : Schedule) : option (Z * Entry) := head (named name s).

Definition update_entry (id : Z) (f : Entry -> Entry) (s : Schedule) : Schedule :=
  s <| entries := alter f id (entries s) |>.

(** ** Entries *)

(** [upsert]: every column of the row, the identifier apart. *)
Definition upsert (stamp : string) (entry : Entry) (s : Schedule) : Z * Schedule :=
  let entry := entry <| e_created_at := if str_eqb (e_created_at entry) EmptyString then stamp
                                        else e_created_at entry |>
                     <| e_updated_at := stamp |> in
  let id := match find_by_name (e_name entry) s with
            | Some (id, _) => id
            | None => next_rowid (entries s)
            end in
  (id, s <| entries := <[id := entry]> (entries s) |>).

Definition delete_entry (name : string) (s : Schedule) : bool * Schedule :=
  match find_by_name name s with
  | Some (id, _) => (true, s <| entries := delete id (entries s) |>)
  | None => (false, s)
  end.

(** [DELETE FROM runs/schedule_entries WHERE .. IN (names)], with the counts. *)
Definition delete_named (names : list string) (s : Schedule) : (Z * Z) * Schedule :=
  let of_run (_ : Z) (r : RunRow) := bool_decide (run_entry_name r ∈ names) in
  let of_entry (_ : Z) (e : Entry) := bool_decide (e_name e ∈ names) in
  ((count_rows (entries s) of_entry, count_rows (runs s) of_run),
   mkSchedule (filter (fun kv => negb (of_entry kv.1 kv.2)) (entries s))
              (filter (fun kv => negb (of_run kv.1 kv.2)) (runs s))).

Definition purge_names (names : list string) (s : Schedule) : (Z * Z) * Schedule :=
  let normalized := List.filter (fun n => negb (str_eqb n EmptyString)) names in
  match normalized with [] => ((0, 0), s) | _ => delete_named normalized s end.

(** [x LIKE prefix || '%']: ASCII case is ignored, [_] is any character and
    [%] any text; without [%] in the prefix the match is position by position. *)
Definition continuation (c : ascii) : bool := (128 <=? byte_of c) && (byte_of c <? 192).

Fixpoint drop_continuation (s : string) : string :=
  match s with
  | String c rest => if continuation c then drop_continuation rest else s
  | EmptyString => EmptyString
  end.

Fixpoint like_prefix (fuel : nat) (p s : string) : bool :=
  match fuel with
  | O => false
  | S n =>
      match p with
      | EmptyString => true
      | String a p' =>
          if Ascii.eqb a "%" then
            like_prefix n p' s || match s with String _ s' => like_prefix n p s' | EmptyString => false end
          else match s with
               | String c s' =>
                   if Ascii.eqb a "_" then like_prefix n p' (drop_continuation s')
                   else Ascii.eqb (lower_char a) (lower_char c) && like_prefix n p' s'
               | EmptyString => false
               end
      end
  end.

(** Every turn drops a character of one of the texts. *)
Definition like (p s : string) : bool := like_prefix (S (String.length p + String.length s)) p s.

Inductive schedule_error : Type := AttributeError | IntegrityError.

(** [str(payload.get("owner_user_id") or "") == owner]; a payload that is
    not a dict has no [get]. *)
Definition owned_payload (owner : string) (payload : option json) : result schedule_error bool :=
  match payload with
  | None => Ok (str_eqb EmptyString owner)
  | Some (JObj kvs) =>
      let v := obj_get "owner_user_id" kvs in
      Ok (str_eqb (if truthy v then py_str (default JNull v) else EmptyString) owner)
  | Some _ => Err AttributeError
  end.

(** The names of the user entries of the owner; [startswith] comes first. *)
Fixpoint owned_names (owner prefix : string) (rows : list (Z * Entry)) : result schedule_error (list string) :=
  match rows with
  | [] => Ok []
  | (_, e) :: rest =>
      match (if startswith (e_name e) prefix then Ok true else owned_payload owner (e_payload e)) with
      | Err x => Err x
      | Ok mine =>
          match owned_names owner prefix rest with
          | Err x => Err x
          | Ok names => Ok (if mine then e_name e :: names else names)
          end
      end
  end.

Definition purge_schedule (owner_user_id name_prefix : string) (hinted : list string) (s : Schedule)
  : result schedule_error ((Z * Z) * Schedule) :=
  let owner := strip owner_user_id in
  if str_eqb owner EmptyString || str_eqb name_prefix EmptyString then Ok ((0, 0), s)
  else
    match owned_names owner name_prefix (select_rows (entries s) (fun _ e => str_eqb (e_origin e) "user")) with
    | Err x => Err x
    | Ok mine =>
        let hinted := List.filter (fun n => negb (str_eqb n EmptyString)) hinted in
        let logged := map (fun kr => run_entry_name kr.2)
                        (select_rows (runs s) (fun _ r => like name_prefix (run_entry_name r))) in
        match hinted ++ mine ++ logged with
        | [] => Ok ((0, 0), s)
        | names => Ok (delete_named names s)
        end
    end.

(** [migrate_owner_name]; a name already taken breaks the unique index. *)
Definition migrate_owner_name (stamp old_name new_name : string) (payload : option json) (s : Schedule)
  : result schedule_error (bool * Schedule) :=
  if str_eqb old_name EmptyString || str_eqb new_name EmptyString then Ok (false, s)
  else
    match find_by_name old_name s with
    | None => Ok (false, s)
    | Some (id, _) =>
        match find_by_name new_name s with
        | Some (other, _) =>
            if negb (other =? id) then Err IntegrityError
            else Ok (true, update_entry id (fun e => e <| e_payload := payload |> <| e_updated_at := stamp |>) s)
        | None =>
            let s := update_entry id (fun e => e <| e_name := new_name |> <| e_payload := payload |>
                                                 <| e_updated_at := stamp |>) s in
            Ok (true, s <| runs := (fun r => if str_eqb (run_entry_name r) old_name
                                             then r <| run_entry_name := new_name |> else r) <$> runs s |>)
        end
    end.

(** [ORDER BY next_fire_at]. *)
Definition by_fire (x y : Z * Entry) : bool := e_next_fire_at x.2 <=? e_next_fire_at y.2.

Definition list_all (s : Schedule) : list (Z * Entry) := order_by by_fire (select_rows (entries s) (fun _ _ => true)).

Definition due (now : Z) (e : Entry) : bool := e_enabled e && (e_next_fire_at e <=? now).

Definition fetch_due (now : Z) (n : Z) (s : Schedule) : list (Z * Entry) :=
  limit n (order_by by_fire (select_rows (entries s) (fun _ e => due now e))).

Definition next_fire_at_min (s : Schedule) : option Z :=
  match select_rows (entries s) (fun _ e => e_enabled e) with
  | [] => None
  | (_, e) :: rest => Some (fold_left (fun m kr => Z.min m (e_next_fire_at kr.2)) rest (e_next_fire_at e))
  end.

Definition update_next_fire (stamp : string) (id next : Z) (s : Schedule) : Schedule :=
  update_entry id (fun e => e <| e_next_fire_at := next |> <| e_updated_at := stamp |>) s.

Definition initialize_remaining_runs (stamp : string) (id value : Z) (s : Schedule) : bool * Schedule :=
  if value <=? 0 then (false, s)
  else
    match entries s !! id with
    | Some e =>
        if e_remaining_runs e =? 0
        then (true, update_entry id (fun e => e <| e_remaining_runs := value |> <| e_updated_at := stamp |>) s)
        else (false, s)
    | None => (false, s)
    end.

Definition disable (stamp : string) (id : Z) (s : Schedule) : Schedule :=
  update_entry id (fun e => e <| e_enabled := false |> <| e_updated_at := stamp |>) s.

(** [enable] recomputes the fire time; any exception of the parser leaves it. *)
Definition enable `{Libraries, Zone} (stamp : string) (now id : Z) (s : Schedule) : Schedule :=
  match entries s !! id with
  | None => s
  | Some row =>
      let next := if str_eqb (e_trigger row) EmptyString then None
                  else match next_fire_at (e_trigger row) now with Ok t => Some t | Err _ => None end in
      update_entry id (fun e => e <| e_enabled := true |> <| e_consecutive_failures := 0 |>
                                  <| e_next_fire_at := default (e_next_fire_at e) next |>
                                  <| e_updated_at := stamp |>) s
  end.

(** [record_outcome]: one UPDATE. *)
Definition hard_failure (status : string) : bool := str_eqb status "error" || str_eqb status "timeout".

Definition record_outcome (stamp : string) (id : Z) (status : string) (duration_ms : Z) (error : option string)
    (next : option Z) (decrement_remaining disabled : bool) (s : Schedule) : Schedule :=
  update_entry id (fun e =>
    e <| e_last_run_at := Some stamp |> <| e_last_status := Some status |>
      <| e_last_duration_ms := Some duration_ms |> <| e_last_error := error |>
      <| e_total_runs := e_total_runs e + 1 |> <| e_updated_at := stamp |>
      <| e_total_failures := if hard_failure status || str_eqb status "partial"
                             then e_total_failures e + 1 else e_total_failures e |>
      <| e_consecutive_failures := if hard_failure status then e_consecutive_failures e + 1 else 0 |>
      <| e_remaining_runs := if decrement_remaining then Z.max 0 (e_remaining_runs e - 1)
                             else e_remaining_runs e |>
      <| e_next_fire_at := default (e_next_fire_at e) next |>
      <| e_enabled := if disabled then false else e_enabled e |>) s.

(** ** Runs *)

Definition begin_run (stamp : string) (entry_id : option Z) (entry_name : string) (s : Schedule) : Z * Schedule :=
  let id := next_rowid (runs s) in
  (id, s <| runs := <[id := mkRunRow entry_id entry_name stamp None "running" None EmptyString]> (runs s) |>).

Definition end_run (stamp : string) (run_id : Z) (status : string) (duration_ms : Z) (output : string)
    (s : Schedule) : Schedule :=
  s <| runs := alter (fun r => r <| run_finished_at := Some stamp |> <| run_status := status |>
                                 <| run_duration_ms := Some duration_ms |> <| run_output := output |>)
                 run_id (runs s) |>.

Definition mark_crashed_runs (stamp : string) (s : Schedule) : Schedule :=
  s <| runs := (fun r => if str_eqb (run_status r) "running"
                         then r <| run_status := "crashed" |> <| run_finished_at := Some stamp |> else r) <$> runs s |>.
