(* ===== verification/ScheduleDaemon.v ===== *)
(** * The loop of the recurring task scheduler

    src/runtime/scheduler_v2/daemon.py: recovery at start, the batch of due
    entries, [_fire] before and after its callback, and the run counts that
    bar overlaps, with the writes of other processes in between (client.py).
    A piece of [_fire] between two [await]s is one step; one reading of the
    clock serves a piece. *)
From Stdlib Require Import Strings.Ascii Strings.String.
From S2P Require Import Prelude.
From S2P Require Import PyJson.
From S2P Require Import PyStrings.
From S2P Require Import ScheduleTriggers.
From S2P Require Import ScheduleStore.
Local Open Scope Z_scope.

Definition RETRY_BASE_S : Z := 15 * 60.
Definition RETRY_MAX_S : Z := 24 * 60 * 60.

(** What the daemon is configured with: the threshold of consecutive failures
    and the keys of the registered callbacks. *)
Class Settings := { circuit_break_after : Z; registered : string -> bool }.

Definition retry_cooldown_s `{Settings} (consecutive_failures : Z) : Z :=
  let steps := Z.max 0 (consecutive_failures - circuit_break_after) in
  Z.min RETRY_MAX_S (RETRY_BASE_S * Z.shiftl 1 (Z.min steps 16)).

(** ** State *)

(** A [_fire] whose callback runs: the snapshot of its entry. *)
Record Flight : Type := mkFlight { fl_id : Z; fl_entry : Entry; fl_run : Z }.

Record Daemon : Type := mkDaemon {
  d_store : Schedule;
  d_running : gmap Z Z;
  d_batch : list (Z * Entry);
  d_flights : list Flight }.

#[export] Instance eta_Daemon : Settable Daemon := fun d =>
  mkDaemon (d_store d) (d_running d) (d_batch d) (d_flights d).

Definition in_flight (id : Z) (d : Daemon) : Z := default 0 (d_running d !! id).

Definition leave (id : Z) (running : gmap Z Z) : gmap Z Z :=
  let cur := default 0 (running !! id) in
  if cur <=? 1 then delete id running else <[id := cur - 1]> running.

(** ** Before the callback *)

Definition allowed_days (weekdays : string) : list string :=
  List.filter (fun w => negb (str_eqb w EmptyString)) (map (fun w => lower (strip w)) (split_at "," weekdays)).

(** [int((payload or {}).get("times") or 0)], with 0 for an exception it
    catches; a truthy payload that is no dict has no [get]. *)
Definition declared_times (payload : option json) : option Z :=
  match payload with
  | Some (JObj kvs) =>
      let v := obj_get "times" kvs in
      Some (if truthy v then
              match v with
              | Some (JInt n) => n
              | Some (JBool _) => 1
              | Some (JStr s) => default 0 (py_int s)
              | _ => 0
              end
            else 0)
  | payload => if truthy payload then None else Some 0
  end.

Section Loop.
Context `{Libraries, Zone, Settings}.

(** What the first part of [_fire] comes to. *)
Inductive begun : Type :=
| Skipped (d : Daemon)
| Raised (d : Daemon)
| Started (d : Daemon).

(** [compute_next_fire] and [update_next_fire]. *)
Definition push_forward (stamp : string) (now id : Z) (e : Entry) (d : Daemon) : begun :=
  match next_fire_at (e_trigger e) now with
  | Ok next => Skipped (d <| d_store := update_next_fire stamp id next (d_store d) |>)
  | Err _ => Raised d
  end.

Definition expired (now : Z) (e : Entry) : bool :=
  negb (str_eqb (e_expires_at e) EmptyString) &&
  match fromisoformat (e_expires_at e) with Some t => t <=? now | None => false end.

(** The countdown of an entry made before its [times] were stored. *)
Definition adopt_times (stamp : string) (id times : Z) (e : Entry) (s : Schedule) : Entry * Schedule :=
  if 0 <? times then
    let inferred := Z.max 1 (times - e_total_runs e) in
    let '(changed, s) := initialize_remaining_runs stamp id inferred s in
    (if changed then e <| e_remaining_runs := inferred |> else e, s)
  else (e, s).

Definition start_run (stamp : string) (id : Z) (e : Entry) (d : Daemon) : begun :=
  let '(run, s) := begin_run stamp (Some id) (e_name e) (d_store d) in
  Started (d <| d_store := s |> <| d_flights := d_flights d ++ [mkFlight id e run] |>).

Definition fire_begin (stamp : string) (now id : Z) (e : Entry) (d : Daemon) : begun :=
  if negb (str_eqb (e_weekdays e) EmptyString)
     && negb (bool_decide (weekday_token now ∈ allowed_days (e_weekdays e)))
  then
    if e_recurring e then push_forward stamp now id e d
    else Skipped (d <| d_store := disable stamp id (d_store d) |>)
  else if expired now e then Skipped (d <| d_store := disable stamp id (d_store d) |>)
  else if Z.max 1 (e_max_concurrent e) <=? in_flight id d then
    if e_recurring e then push_forward stamp now id e d else Skipped d
  else
    let d := d <| d_running := <[id := in_flight id d + 1]> (d_running d) |> in
    if e_recurring e && (e_remaining_runs e =? 0) then
      match declared_times (e_payload e) with
      | None => Raised d
      | Some times =>
          let '(e, s) := adopt_times stamp id times e (d_store d) in
          start_run stamp id e (d <| d_store := s |>)
      end
    else start_run stamp id e d.

(** ** After the callback *)

(** What the callback did. *)
Inductive callback_result : Type :=
| Unregistered
| ReturnedNone
| ReturnedText (text : string)
| ReturnedNotOk (error : string)
| ReturnedOutcome (status output : string) (error : option string)
| TimedOut
| RaisedError (text : string).

(** The first characters of a text. *)
Fixpoint py_take (n : nat) (s : string) : string :=
  match s with
  | EmptyString => EmptyString
  | String c rest =>
      if continuation c then String c (py_take n rest)
      else match n with O => EmptyString | S m => String c (py_take m rest) end
  end.

Definition STATUSES : list string := ["success"; "partial"; "error"; "timeout"].

(** Status, error and output of the run. *)
Definition outcome_of (e : Entry) (r : callback_result) : string * option string * string :=
  match r with
  | Unregistered => ("error", Some ("unknown callback_key: '" +:+ e_callback_key e +:+ "'"), EmptyString)
  | ReturnedNone => ("success", None, EmptyString)
  | ReturnedText text => ("success", None, py_take 4096 text)
  | ReturnedNotOk error => ("error", Some (py_take 1000 error), EmptyString)
  | ReturnedOutcome status output error =>
      if bool_decide (status ∈ STATUSES) then
        (status, match py_take 1000 (default EmptyString error) with EmptyString => None | t => Some t end,
         py_take 4096 output)
      else ("error", Some ("invalid callback status: '" +:+ status +:+ "'"), py_take 4096 output)
  | TimedOut => ("timeout", Some ("timed out after " +:+ match e_timeout_s e with Some t => int_text t | None => "None" end +:+ "s"), EmptyString)
  | RaisedError text => ("error", Some text, EmptyString)
  end.

(** A registered callback runs, no other does. *)
Definition callback_may (e : Entry) (r : callback_result) : Prop :=
  match r with
  | Unregistered => registered (e_callback_key e) = false
  | _ => registered (e_callback_key e) = true
  end.

Record Plan : Type := mkPlan {
  p_next : option Z; p_decrement : bool; p_disable : bool; p_circuit_broken : bool }.

(** The decision of the [finally] clause. *)
Definition plan_next (now : Z) (e : Entry) (status : string) : Plan :=
  if e_recurring e then
    let next := match next_fire_at (e_trigger e) now with Ok t => Some t | Err _ => None end in
    let decrement := 0 <? e_remaining_runs e in
    let disabled := decrement && (e_remaining_runs e - 1 <=? 0) in
    let failures := e_consecutive_failures e + 1 in
    if hard_failure status && (0 <? circuit_break_after) && negb disabled && (circuit_break_after <=? failures)
    then mkPlan (Some (Z.max (default 0 next) (now + seconds (retry_cooldown_s failures)))) decrement disabled
           (failures =? circuit_break_after)
    else mkPlan next decrement disabled false
  else mkPlan None false true false.

Definition fire_end (stamp : string) (now duration_ms : Z) (r : callback_result) (f : Flight) (d : Daemon) : Daemon :=
  let '(status, error, output) := outcome_of (fl_entry f) r in
  let plan := plan_next now (fl_entry f) status in
  let s := end_run stamp (fl_run f) status duration_ms output (d_store d) in
  let s := record_outcome stamp (fl_id f) status duration_ms error (p_next plan) (p_decrement plan)
             (p_disable plan) s in
  d <| d_store := s |> <| d_running := leave (fl_id f) (d_running d) |>.

(** ** Recovery *)

Definition recover_one (stamp : string) (now : Z) (s : Schedule) (row : Z * Entry) : Schedule :=
  let '(id, e) := row in
  let age := now - e_next_fire_at e in
  let in_grace := match e_grace_window_s e with None => true | Some g => age <=? seconds g end in
  if negb (e_enabled e) || (age <=? 0) || in_grace then s
  else if e_recurring e then
    match next_fire_at (e_trigger e) now with Ok next => update_next_fire stamp id next s | Err _ => s end
  else disable stamp id s.

Definition recover_missed (stamp : string) (now : Z) (s : Schedule) : Schedule :=
  fold_left (recover_one stamp now) (list_all s) s.

(** ** Steps *)

(** The writes of client.py and of [SchedulerDaemon.schedule] and [remove]. *)
Inductive client_op : Type :=
| OpUpsert (stamp : string) (entry : Entry)
| OpDelete (name : string)
| OpPurgeNames (names : list string)
| OpPurgeOwner (owner prefix : string) (hinted : list string)
| OpMigrate (stamp old_name new_name : string) (payload : option json)
| OpEnable (stamp : string) (now id : Z)
| OpDisable (stamp : string) (id : Z)
| OpFireNow (stamp : string) (now id : Z).

Definition client (op : client_op) (s : Schedule) : Schedule :=
  match op with
  | OpUpsert stamp entry => (upsert stamp entry s).2
  | OpDelete name => (delete_entry name s).2
  | OpPurgeNames names => (purge_names names s).2
  | OpPurgeOwner owner prefix hinted =>
      match purge_schedule owner prefix hinted s with Ok (_, s') => s' | Err _ => s end
  | OpMigrate stamp old_name new_name payload =>
      match migrate_owner_name stamp old_name new_name payload s with Ok (_, s') => s' | Err _ => s end
  | OpEnable stamp now id => enable stamp now id s
  | OpDisable stamp id => disable stamp id s
  | OpFireNow stamp now id => update_next_fire stamp id now s
  end.

Definition daemon_of (b : begun) : Daemon :=
  match b with Skipped d | Raised d | Started d => d end.

(** [gather] starts the due entries and the loop waits for all of them; a
    process that dies loses batch and flights. *)
Inductive loop_step : Daemon -> Daemon -> Prop :=
| step_tick now d :
    d_batch d = [] -> d_flights d = [] ->
    loop_step d (d <| d_batch := fetch_due now 100 (d_store d) |>)
| step_begin stamp now id e l1 l2 d :
    d_batch d = l1 ++ (id, e) :: l2 ->
    loop_step d (daemon_of (fire_begin stamp now id e (d <| d_batch := l1 ++ l2 |>)))
| step_end stamp now duration r f l1 l2 d :
    d_flights d = l1 ++ f :: l2 -> callback_may (fl_entry f) r ->
    loop_step d (fire_end stamp now duration r f (d <| d_flights := l1 ++ l2 |>))
| step_restart stamp now d :
    loop_step d (mkDaemon (recover_missed stamp now (mark_crashed_runs stamp (d_store d))) ∅ [] []).

Inductive daemon_step (d : Daemon) : Daemon -> Prop :=
| own_step d' : loop_step d d' -> daemon_step d d'
| client_step op : daemon_step d (d <| d_store := client op (d_store d) |>).
End Loop.
