(* ===== verification/ScheduleCountdown.v ===== *)
(** * Runs that are counted

    The countdown of a recurring entry with [remaining_runs], kept through
    every interleaving of the loop (ScheduleDaemon.v) with writes that do not
    arm the entry again. *)
From Stdlib Require Import Strings.Ascii Strings.String.
From S2P Require Import Prelude.
From S2P Require Import PyJson.
From S2P Require Import DurableTables.
From S2P Require Import PyStrings.
From S2P Require Import ScheduleTriggers.
From S2P Require Import ScheduleStore.
From S2P Require Import ScheduleDaemon.
Local Open Scope Z_scope.

(** A write that leaves the countdown of an entry alone; it may disable the
    entry, not enable it. *)
Definition leaves (id : Z) (s s' : Schedule) : Prop :=
  forall e, entries s !! id = Some e ->
    exists e', entries s' !! id = Some e' /\ e_recurring e' = e_recurring e /\
      e_remaining_runs e' = e_remaining_runs e /\ e_total_runs e' = e_total_runs e /\
      (e_enabled e' = true -> e_enabled e = true).

#[export] Instance leaves_refl id : Reflexive (leaves id).
Proof. intros s e He. by exists e. Qed.

#[export] Instance leaves_trans id : Transitive (leaves id).
Proof.
  intros s1 s2 s3 H1 H2 e He. destruct (H1 e He) as (e2 & He2 & A & B & C & D).
  destruct (H2 e2 He2) as (e3 & He3 & A' & B' & C' & D'). exists e3. split_and!; try done; [congruence.. | auto].
Qed.

Lemma update_leaves id id' f s :
  (forall e, e_recurring (f e) = e_recurring e /\ e_remaining_runs (f e) = e_remaining_runs e /\
     e_total_runs (f e) = e_total_runs e /\ (e_enabled (f e) = true -> e_enabled e = true)) ->
  leaves id s (update_entry id' f s).
Proof.
  intros Hf e He. unfold update_entry. simpl. destruct (decide (id' = id)) as [->|Hne].
  - rewrite lookup_alter_eq, He. exists (f e). destruct (Hf e) as (A & B & C & D). by split_and!.
  - rewrite lookup_alter_ne by done. by exists e.
Qed.

Lemma other_leaves id id' f s : id' <> id -> leaves id s (update_entry id' f s).
Proof. intros Hne e He. unfold update_entry. simpl. rewrite lookup_alter_ne by done. by exists e. Qed.

Lemma next_fire_leaves id stamp id' t s : leaves id s (update_next_fire stamp id' t s).
Proof. apply update_leaves. by intros e. Qed.

Lemma disable_leaves id stamp id' s : leaves id s (disable stamp id' s).
Proof. apply update_leaves. by intros e. Qed.

Lemma runs_leaves id s r : leaves id s (s <| runs := r |>).
Proof. intros e He. by exists e. Qed.

Lemma initialize_leaves id stamp id' n s :
  id' <> id -> leaves id s (initialize_remaining_runs stamp id' n s).2.
Proof.
  intros Hne. unfold initialize_remaining_runs. destruct (_ <=? _); [reflexivity|].
  destruct (entries s !! id') as [e|]; [|reflexivity]. destruct (_ =? _); [|reflexivity]. by apply other_leaves.
Qed.

Lemma update_entry_lookup id f s e :
  entries s !! id = Some e -> entries (update_entry id f s) !! id = Some (f e).
Proof. intros He. unfold update_entry. simpl. by rewrite lookup_alter_eq, He. Qed.

(** The row after an outcome. *)
Lemma record_outcome_row stamp id status duration error next dec dis s e :
  entries s !! id = Some e ->
  exists e', entries (record_outcome stamp id status duration error next dec dis s) !! id = Some e' /\
    e_recurring e' = e_recurring e /\ e_total_runs e' = e_total_runs e + 1 /\
    e_remaining_runs e' = (if dec then Z.max 0 (e_remaining_runs e - 1) else e_remaining_runs e) /\
    e_enabled e' = (if dis then false else e_enabled e) /\
    e_next_fire_at e' = default (e_next_fire_at e) next /\
    e_consecutive_failures e' = (if hard_failure status then e_consecutive_failures e + 1 else 0).
Proof.
  intros He. unfold record_outcome. eexists. split; [by apply update_entry_lookup|].
  exact (conj eq_refl (conj eq_refl (conj eq_refl (conj eq_refl (conj eq_refl eq_refl))))).
Qed.

Section Countdown.
Context `{Libs : Libraries, Clock : Zone, Conf : Settings}.

Lemma recover_leaves id stamp now s : leaves id s (recover_missed stamp now s).
Proof.
  unfold recover_missed. generalize (list_all s). intros l. revert s.
  induction l as [|[i e] l IH]; intros s; simpl; [reflexivity|]. etrans; [|apply IH].
  unfold recover_one. destruct (_ || _); [reflexivity|]. destruct (e_recurring e); [|apply disable_leaves].
  destruct (next_fire_at _ _); [apply next_fire_leaves | reflexivity].
Qed.

(** ** The snapshots of an entry *)

Definition of_id {A} (key : A -> Z) (id : Z) (l : list A) : list A := List.filter (fun x => key x =? id) l.

Definition snapshots (id : Z) (d : Daemon) : list Entry :=
  map snd (of_id fst id (d_batch d)) ++ map fl_entry (of_id fl_id id (d_flights d)).

Lemma of_id_split {A} (key : A -> Z) id l1 x l2 :
  of_id key id (l1 ++ x :: l2) = of_id key id l1 ++ (if key x =? id then [x] else []) ++ of_id key id l2.
Proof. unfold of_id. rewrite List.filter_app. simpl. by destruct (key x =? id). Qed.

Lemma of_id_app {A} (key : A -> Z) id l1 l2 : of_id key id (l1 ++ l2) = of_id key id l1 ++ of_id key id l2.
Proof. apply List.filter_app. Qed.

(** The entry has [budget] runs in all, [e_remaining_runs] of them left; it is
    read at most once at a time. *)
Record counted (id budget : Z) (d : Daemon) : Prop := {
  cd_row : exists e, entries (d_store d) !! id = Some e /\ e_recurring e = true /\
             e_total_runs e + e_remaining_runs e = budget /\ 0 <= e_remaining_runs e /\
             (e_remaining_runs e = 0 -> e_enabled e = false) /\
             forall x, x ∈ snapshots id d -> e_recurring x = true /\
               e_remaining_runs x = e_remaining_runs e /\ 0 < e_remaining_runs e;
  cd_once : (length (snapshots id d) <= 1)%nat }.

Lemma counted_store id budget d s' :
  leaves id (d_store d) s' -> counted id budget d -> counted id budget (d <| d_store := s' |>).
Proof.
  intros Hl [(e & He & Hr & Hb & Hn & Hd & Hs) Ho]. destruct (Hl e He) as (e' & He' & A & B & C & D).
  split; [|done]. exists e'. simpl. split_and!; try congruence; try lia.
  - rewrite B. intros Hz. destruct (e_enabled e') eqn:E; [|done]. rewrite (Hd Hz) in D. by destruct (D eq_refl).
  - intros x Hx. destruct (Hs x Hx) as (S1 & S2 & S3). split_and!; [done | congruence | lia].
Qed.

Lemma counted_running id budget d r : counted id budget d -> counted id budget (d <| d_running := r |>).
Proof. intros [H1 H2]. by split. Qed.

(** Fewer snapshots. *)
Lemma counted_fewer id budget d d' :
  d_store d' = d_store d -> sublist (snapshots id d') (snapshots id d) -> counted id budget d -> counted id budget d'.
Proof.
  intros Es Hsub [(e & He & Hr & Hb & Hn & Hd & Hs) Ho]. split.
  - exists e. rewrite Es. split_and!; try done. intros x Hx. apply Hs. by eapply elem_of_sublist.
  - apply sublist_length in Hsub. lia.
Qed.

(** ** The pieces of the loop *)

Lemma fetch_due_once now n s id :
  (length (of_id fst id (fetch_due now n s)) <= 1)%nat /\
  forall x, (id, x) ∈ fetch_due now n s -> entries s !! id = Some x /\ e_enabled x = true.
Proof.
  assert (forall x, (id, x) ∈ fetch_due now n s -> entries s !! id = Some x /\ e_enabled x = true) as Hin.
  { intros x Hx. unfold fetch_due, limit in Hx.
    assert ((id, x) ∈ order_by by_fire (select_rows (entries s) (fun _ e => due now e))) as Hx'
      by (eapply elem_of_sublist; [exact Hx | apply sublist_take]).
    apply elem_of_order_by, elem_of_select_rows in Hx' as [Hk Hd]. split; [done|].
    unfold due in Hd. by apply andb_true_iff in Hd as [Hd _]. }
  split; [|exact Hin].
  assert (NoDup (fetch_due now n s)) as Hnd.
  { unfold fetch_due, limit, order_by. eapply sublist_NoDup; [|apply sublist_take].
    rewrite merge_sort_Permutation. unfold select_rows. apply NoDup_ListNoDup, List.NoDup_filter, NoDup_ListNoDup.
    apply NoDup_map_to_list. }
  destruct (of_id fst id (fetch_due now n s)) as [|[i x] [|[j y] l]] eqn:E; simpl; [lia | lia|]. exfalso.
  assert (forall z, z ∈ of_id fst id (fetch_due now n s) -> z.1 = id /\ z ∈ fetch_due now n s) as Hz.
  { intros z Hz. apply list_elem_of_In, filter_In in Hz as [Hz Hk]. apply Z.eqb_eq in Hk.
    split; [done | by apply list_elem_of_In]. }
  assert (NoDup (of_id fst id (fetch_due now n s))) as Hnd'
    by (by apply NoDup_ListNoDup, List.NoDup_filter, NoDup_ListNoDup).
  rewrite E in Hz, Hnd'. destruct (Hz (i, x)) as [Ei Hx]; [left|]. destruct (Hz (j, y)) as [Ej Hy]; [right; left|].
  simpl in Ei, Ej. subst i j. destruct (Hin x Hx) as [Kx _]. destruct (Hin y Hy) as [Ky _].
  assert (x = y) as -> by congruence. apply NoDup_cons in Hnd' as [Hn _]. apply Hn. left.
Qed.

Lemma tick_counted id budget now d :
  d_batch d = [] -> d_flights d = [] -> counted id budget d ->
  counted id budget (d <| d_batch := fetch_due now 100 (d_store d) |>).
Proof.
  intros Hb Hf [(e & He & Hr & Hbu & Hn & Hd & Hs) Ho].
  destruct (fetch_due_once now 100 (d_store d) id) as [H1 H2]. split.
  - exists e. simpl. split_and!; try done. unfold snapshots. simpl. rewrite Hf. simpl. rewrite app_nil_r.
    intros x (  [i y] & <- & Hy)%list_elem_of_In%in_map_iff.
    apply filter_In in Hy as [Hy Hk]. simpl in *. apply Z.eqb_eq in Hk. subst i. apply list_elem_of_In in Hy.
    destruct (H2 y Hy) as [Ey Hen]. assert (y = e) as -> by congruence. split_and!; [done | done |].
    destruct (Z.eq_dec (e_remaining_runs e) 0) as [Hz|]; [|lia]. rewrite (Hd Hz) in Hen. done.
  - unfold snapshots. simpl. rewrite Hf. simpl. rewrite app_nil_r, length_map. done.
Qed.

(** A flight takes off. *)
Lemma counted_start id budget d s' i y r :
  counted id budget d -> leaves id (d_store d) s' ->
  (i = id -> snapshots id d = [] /\ e_recurring y = true /\
     forall e, entries (d_store d) !! id = Some e -> e_remaining_runs y = e_remaining_runs e /\ 0 < e_remaining_runs e) ->
  counted id budget (d <| d_store := s' |> <| d_flights := d_flights d ++ [mkFlight i y r] |>).
Proof.
  intros Hc Hl Hy.
  assert (snapshots id (d <| d_store := s' |> <| d_flights := d_flights d ++ [mkFlight i y r] |>)
          = snapshots id d ++ (if i =? id then [y] else [])) as Es.
  { unfold snapshots. cbn [d_batch d_flights set_field]. unfold set_field. cbn.
    rewrite (of_id_app fl_id), map_app, app_assoc. f_equal. unfold of_id. simpl. by destruct (i =? id). }
  pose proof Hc as [(e & He & Hr & Hb & Hn & Hd & Hs) Ho].
  destruct (counted_store _ _ _ _ Hl Hc) as [(e' & He' & Hr' & Hb' & Hn' & Hd' & Hs') _].
  destruct (Hl e He) as (e2 & He2 & _ & Hrem & _). simpl in He'. assert (e2 = e') as -> by congruence.
  destruct (Z.eqb_spec i id) as [Ei|Ei].
  - destruct (Hy Ei) as (En & Hry & Hyy). destruct (Hyy e He) as [Y1 Y2]. rewrite En in Es. split.
    + exists e'. split_and!; try done. rewrite Es. simpl. intros z ->%list_elem_of_singleton.
      split_and!; [done | congruence | lia].
    + rewrite Es. simpl. lia.
  - rewrite app_nil_r in Es. split; [|by rewrite Es]. exists e'. split_and!; try done. rewrite Es.
    intros z Hz. by apply Hs'.
Qed.

(** The first part of [_fire]. *)
Lemma begin_counted id budget stamp now i x l1 l2 d :
  d_batch d = l1 ++ (i, x) :: l2 -> counted id budget d ->
  counted id budget (daemon_of (fire_begin stamp now i x (d <| d_batch := l1 ++ l2 |>))).
Proof.
  intros Hb Hc. set (d1 := d <| d_batch := l1 ++ l2 |>).
  assert (counted id budget d1) as Hc1.
  { eapply counted_fewer; [..|exact Hc]; [done|]. unfold snapshots, d1. simpl. rewrite Hb.
    apply sublist_app; [|done]. apply (fmap_sublist (@snd Z Entry)).
    rewrite of_id_split, of_id_app. apply sublist_app; [done|]. simpl.
    destruct (i =? id); [by constructor | done]. }
  assert (forall s', leaves id (d_store d1) s' -> counted id budget (d1 <| d_store := s' |>)) as Hst
    by (intros s' Hl; by apply counted_store).
  assert (forall dd, counted id budget dd -> counted id budget (daemon_of (push_forward stamp now i x dd))) as Hpush.
  { intros dd Hdd. unfold push_forward. destruct (next_fire_at _ _); simpl; [|done].
    apply counted_store; [apply next_fire_leaves | done]. }
  unfold fire_begin. destruct (negb _ && _).
  { destruct (e_recurring x); [by apply Hpush|]. apply Hst, disable_leaves. }
  destruct (expired now x); [apply Hst, disable_leaves|].
  destruct (_ <=? _); [destruct (e_recurring x); [by apply Hpush | done]|].
  set (d2 := d1 <| d_running := <[i := in_flight i d1 + 1]> (d_running d1) |>).
  assert (counted id budget d2) as Hc2 by (by apply counted_running).
  assert (i = id -> snapshots id d2 = [] /\ e_recurring x = true /\
    forall e, entries (d_store d2) !! id = Some e -> e_remaining_runs x = e_remaining_runs e /\ 0 < e_remaining_runs e) as Hx.
  { intros ->. destruct Hc as [(e & He & Hr & Hbu & Hn & Hd & Hs) Ho].
    assert (snapshots id d = map snd (of_id fst id l1) ++ x :: map snd (of_id fst id l2) ++
              map fl_entry (of_id fl_id id (d_flights d))) as Es.
    { unfold snapshots. rewrite Hb, of_id_split. simpl. rewrite Z.eqb_refl, !map_app. simpl. by rewrite <- app_assoc. }
    rewrite Es, length_app in Ho. simpl in Ho. rewrite length_app in Ho.
    destruct (Hs x) as (S1 & S2 & S3); [rewrite Es; set_solver|].
    split_and!; [|done | intros e1 He1; assert (e1 = e) as -> by (simpl in He1; congruence); done].
    unfold snapshots. change (d_batch d2) with (l1 ++ l2). change (d_flights d2) with (d_flights d).
    rewrite of_id_app, map_app.
    destruct (map snd (of_id fst id l1)), (map snd (of_id fst id l2)), (map fl_entry (of_id fl_id id (d_flights d)));
      simpl in Ho; try lia; done. }
  assert (forall s' y, leaves id (d_store d2) s' -> (i = id -> y = x) ->
    counted id budget (daemon_of (start_run stamp i y (d2 <| d_store := s' |>)))) as Hstart.
  { intros s' y Hl Hy. unfold start_run. cbn [begin_run daemon_of].
    apply (counted_start id budget d2); [done | |].
    - etrans; [exact Hl | apply runs_leaves].
    - intros E. rewrite (Hy E). by apply Hx. }
  assert (d2 <| d_store := d_store d2 |> = d2) as E2 by (by destruct d).
  destruct (e_recurring x && _) eqn:Er; [|rewrite <- E2 at 1; by apply Hstart].
  destruct (declared_times (e_payload x)) as [times|]; [|done].
  assert (i <> id) as Hne.
  { intros E. destruct (Hx E) as (_ & _ & Hrem). apply andb_true_iff in Er as [_ Ez%Z.eqb_eq].
    destruct (cd_row _ _ _ Hc2) as (e & He & _). destruct (Hrem e He). lia. }
  unfold adopt_times. destruct (0 <? times); [|by apply Hstart].
  pose proof (initialize_leaves id stamp i (Z.max 1 (times - e_total_runs x)) (d_store d2) Hne) as Hi.
  destruct (initialize_remaining_runs _ _ _ _) as [changed s']. by apply Hstart.
Qed.

(** The second part: the run is counted. *)
Lemma end_counted id budget stamp now duration r f l1 l2 d :
  d_flights d = l1 ++ f :: l2 -> counted id budget d ->
  counted id budget (fire_end stamp now duration r f (d <| d_flights := l1 ++ l2 |>)).
Proof.
  intros Hf Hc. unfold fire_end. destruct (outcome_of (fl_entry f) r) as [[status error] output].
  set (plan := plan_next now (fl_entry f) status). apply counted_running.
  set (d1 := d <| d_flights := l1 ++ l2 |>).
  assert (counted id budget d1) as Hc1.
  { eapply counted_fewer; [..|exact Hc]; [done|]. unfold snapshots, d1. simpl. rewrite Hf.
    apply sublist_app; [done|]. apply (fmap_sublist fl_entry). rewrite of_id_split, of_id_app.
    apply sublist_app; [done|]. simpl. destruct (fl_id f =? id); [by constructor | done]. }
  set (s1 := end_run stamp (fl_run f) status duration output (d_store d1)).
  assert (counted id budget (d1 <| d_store := s1 |>)) as Hc2 by (apply counted_store; [apply runs_leaves | done]).
  destruct (Z.eq_dec (fl_id f) id) as [Ei|Ei].
  - pose proof Hc as [(e & He & Hr & Hbu & Hn & Hd & Hs) Ho].
    assert (snapshots id d = map snd (of_id fst id (d_batch d)) ++ map fl_entry (of_id fl_id id l1) ++
              fl_entry f :: map fl_entry (of_id fl_id id l2)) as Es.
    { unfold snapshots. rewrite Hf, of_id_split. rewrite Ei, Z.eqb_refl. by rewrite !map_app. }
    destruct (Hs (fl_entry f)) as (S1 & S2 & S3); [rewrite Es; set_solver|].
    assert (snapshots id d1 = []) as En.
    { rewrite Es, !length_app in Ho. simpl in Ho. unfold snapshots.
      change (d_batch d1) with (d_batch d). change (d_flights d1) with (l1 ++ l2). rewrite of_id_app, map_app.
      destruct (map snd (of_id fst id (d_batch d))), (map fl_entry (of_id fl_id id l1)),
        (map fl_entry (of_id fl_id id l2)); simpl in Ho; try lia; done. }
    assert (p_decrement plan = true /\ p_disable plan = (e_remaining_runs e - 1 <=? 0)) as [P1 P2].
    { unfold plan, plan_next. rewrite S1, S2. assert (0 <? e_remaining_runs e = true) as -> by (by apply Z.ltb_lt).
      destruct (_ && _ && _ && _); done. }
    split; [|change (length (snapshots id d1) <= 1)%nat; rewrite En; simpl; lia].
    assert (entries s1 !! id = Some e) as He1 by done.
    destruct (record_outcome_row stamp id status duration error (p_next plan) (p_decrement plan)
      (p_disable plan) s1 e He1) as (e' & He' & R1 & R2 & R3 & R4 & _). rewrite P1 in R3. rewrite P2 in R4.
    exists e'. rewrite Ei. split_and!; [exact He' | congruence | lia | lia | |].
    + intros Hz. rewrite R4. destruct (Z.leb_spec (e_remaining_runs e - 1) 0); [done | lia].
    + intros x Hx. change (x ∈ snapshots id d1) in Hx. rewrite En in Hx. by apply elem_of_nil in Hx.
  - set (s2 := record_outcome _ _ _ _ _ _ _ _ _). assert (leaves id s1 s2) as Hl by (by apply other_leaves).
    refine (counted_store id budget _ s2 _ Hc2). exact Hl.
Qed.

Lemma loop_counted id budget d d' : loop_step d d' -> counted id budget d -> counted id budget d'.
Proof.
  destruct 1 as [now d Hb Hf | stamp now i e l1 l2 d Hb | stamp now duration r f l1 l2 d Hf _ | stamp now d]; intros Hc.
  - by apply tick_counted.
  - by eapply begin_counted.
  - by apply end_counted.
  - assert (counted id budget (d <| d_store := recover_missed stamp now (mark_crashed_runs stamp (d_store d)) |>)) as Hc'.
    { apply counted_store; [|done]. etrans; [|apply recover_leaves]. apply runs_leaves. }
    eapply counted_fewer; [..|exact Hc']; [done|]. unfold snapshots. simpl. apply sublist_nil_l.
Qed.

(** A step of the daemon, or a write of a client that does not arm the entry
    again. *)
Definition unarmed_step (id : Z) (d d' : Daemon) : Prop :=
  loop_step d d' \/ exists op, leaves id (d_store d) (client op (d_store d)) /\
                              d' = d <| d_store := client op (d_store d) |>.

Lemma unarmed_counted id budget d d' : rtc (unarmed_step id) d d' -> counted id budget d -> counted id budget d'.
Proof.
  induction 1 as [|x y z [Hl|(op & Hl & ->)] _ IH]; [done | |]; intros Hc; apply IH.
  - by eapply loop_counted.
  - by apply counted_store.
Qed.
End Countdown.
