(* ===== verification/ScheduleProperties.v ===== *)
(** * Properties of the recurring task scheduler

    Fire times, the countdown of runs, the delay after failures, and two
    behaviours the code does not mean to have (ScheduleDaemon.v). *)
From Stdlib Require Import Strings.Ascii Strings.String.
From S2P Require Import Prelude.
From S2P Require Import PyJson.
From S2P Require Import DurableTables.
From S2P Require Import PyStrings.
From S2P Require Import ScheduleTriggers.
From S2P Require Import ScheduleStore.
From S2P Require Import ScheduleDaemon.
From S2P Require Import ScheduleCountdown.
Local Open Scope Z_scope.

(** ** Fire times *)

Section Future.
Context `{Libraries, Zone}.

(** No instant of one local date follows a wall clock of a later date. *)
Definition dates_never_return : Prop :=
  forall s wall, (s + utc_offset s) / DAY < wall / DAY -> s < wall - wall_offset wall.

Definition croniter_is_later : Prop :=
  forall next expr after t, croniter = Some next -> next expr after = Some t -> after < t.

Lemma next_daily_future after hh mm :
  dates_never_return -> 0 <= hh <= 23 -> 0 <= mm <= 59 -> after < next_daily after hh mm.
Proof.
  intros Hd Hh Hm. unfold next_daily. destruct (Z.leb_spec (wall_epoch (local_day after) hh mm) after); [|done].
  unfold wall_epoch, local_day, seconds.
  set (us := to_microseconds after). set (s := us / 1000000). set (day := (s + utc_offset s) / DAY).
  set (wall := (day + 1) * DAY + hh * 3600 + mm * 60).
  assert (wall / DAY = day + 1) as Ew.
  { unfold wall, DAY. replace ((day + 1) * 86400 + hh * 3600 + mm * 60)
      with ((hh * 3600 + mm * 60) + (day + 1) * 86400) by lia.
    rewrite Z.div_add by done. rewrite (Z.div_small (hh * 3600 + mm * 60)) by lia. lia. }
  assert (s < wall - wall_offset wall) as Hs by (apply Hd; fold day; lia).
  destruct (to_microseconds_near after) as [_ Hnear]. fold us in Hnear.
  pose proof (Z.div_mod us 1000000 ltac:(done)) as E. fold s in E.
  pose proof (Z.mod_pos_bound us 1000000 ltac:(done)).
  assert (us + 1 <= 1000000 * (wall - wall_offset wall)) by lia.
  unfold SECOND in *. lia.
Qed.

Lemma match_daily_range trigger hh mm :
  match_daily trigger = Some (hh, mm) -> 0 <= hh <= 23 /\ 0 <= mm <= 59.
Proof.
  assert (forall s n rest, two_digits s = Some (n, rest) -> 0 <= n) as Hn.
  { intros [|c [|d s]] n rest; simpl; try done. intros (a & Ha & (b & Hb & [= <- <-])%bind_Some)%bind_Some.
    unfold digit, is_digit in Ha, Hb.
    destruct (48 <=? byte_of c) eqn:E1; [|done]. destruct (48 <=? byte_of d) eqn:E2; [|done].
    apply Z.leb_le in E1, E2. repeat case_match; simplify_eq; lia. }
  unfold match_daily. intros (s & _ & ([a s1] & Ha & (s2 & _ & ([b s3] & Hb & Hc)%bind_Some)%bind_Some)%bind_Some)%bind_Some.
  destruct (Z.leb_spec a 23), (Z.leb_spec b 59); try done. simpl in Hc. destruct (at_end s3); [|done].
  injection Hc as <- <-. apply Hn in Ha, Hb. lia.
Qed.

(** Recurring triggers fire in the future.  When no local date returns once
    the next has begun, and [croniter] answers with later times, a trigger
    that is not an absolute time has its next fire strictly after the instant
    asked about, in every time zone and for every rounding of the instant. *)
Theorem next_fire_is_future (trigger : string) (after t : Z) :
  dates_never_return -> croniter_is_later ->
  next_fire_at trigger after = Ok t ->
  after < t \/ exists epoch, parse_trigger trigger = Ok (At epoch) /\ t = epoch.
Proof.
  intros Hd Hc. unfold next_fire_at. destruct (parse_trigger trigger) as [spec|] eqn:Ep; [|done].
  destruct spec as [hh mm|secs|epoch|expr].
  - intros [= <-]. left. assert (0 <= hh <= 23 /\ 0 <= mm <= 59) as [Hh Hm].
    { unfold parse_trigger in Ep. destruct (str_eqb _ _); [done|].
      destruct (match_daily trigger) as [[a b]|] eqn:Em.
      - injection Ep as -> ->. by eapply match_daily_range.
      - exfalso. repeat case_match; simplify_eq. }
    by apply next_daily_future.
  - intros [= <-]. left. apply parse_every_positive in Ep. unfold next_every, seconds, SECOND. lia.
  - intros [= <-]. right. by exists epoch.
  - unfold next_cron. destruct croniter as [next|] eqn:En; [|done]. destruct (next expr after) as [u|] eqn:Eu; [|done].
    intros [= <-]. left. by eapply Hc.
Qed.
End Future.

Definition utc : Zone := {| utc_offset := fun _ => 0; wall_offset := fun _ => 0 |}.
Definition no_libraries : Libraries := {| fromisoformat := fun _ => None; croniter := None |}.

Lemma next_fire_is_future_witness :
  exists t, @next_fire_at no_libraries utc "daily@02:30" (seconds 1800000000) = Ok t /\ seconds 1800000000 < t.
Proof.
  destruct (@next_fire_at no_libraries utc "daily@02:30" (seconds 1800000000)) as [t|] eqn:E;
    [|vm_compute in E; discriminate].
  exists t. split; [reflexivity|].
  destruct (@next_fire_is_future no_libraries utc "daily@02:30" (seconds 1800000000) t) as [Ht|(epoch & Hp & _)].
  - intros s wall. cbn. rewrite Z.add_0_r, Z.sub_0_r. intros Hlt. unfold DAY in Hlt.
    destruct (Z.lt_ge_cases s wall) as [Hs|Hs]; [exact Hs|]. exfalso.
    apply (Z.div_le_mono _ _ 86400) in Hs; lia.
  - intros next expr after u Hn. discriminate Hn.
  - exact E.
  - exact Ht.
  - vm_compute in Hp. discriminate Hp.
Defined.

(** Newfoundland until 2011: at 00:01 on 7 November 2010 the clocks went back
    an hour, to 23:01 of the day before. *)
Definition st_johns : Zone := {|
  utc_offset := fun s => if s <? 1289097060 then -9000 else -12600;
  wall_offset := fun wall => if wall <? 1289088060 then -9000 else -12600 |}.

(** A daily trigger can fire in the past.  Where the clocks go back over
    midnight the next fire of [daily@00:00], asked half an hour before the
    second midnight, is the first one: half an hour ago, so the entry is due
    again at once. *)
Lemma daily_may_fire_in_the_past :
  @next_fire_at no_libraries st_johns "daily@00:00" (seconds 1289098800) = Ok (seconds 1289097000) /\
  seconds 1289097000 < seconds 1289098800.
Proof. split; vm_compute; reflexivity. Qed.

(** ** The countdown *)

(** C34: a counted task runs exactly as often as it was told to.  From a state where
    a recurring entry with [remaining_runs] left is not being fired, through
    every interleaving of the loop (its batches, crashes and restarts included)
    with writes of clients that do not arm the entry again: the runs recorded
    and the runs left add up to the same number, the entry is disabled when
    none is left, and it is never read for two fires at once. *)
Theorem countdown_is_exact `{Libraries, Zone, Settings} (id : Z) (d d' : Daemon) (e : Entry) :
  entries (d_store d) !! id = Some e -> e_recurring e = true -> 0 < e_remaining_runs e ->
  snapshots id d = [] -> rtc (unarmed_step id) d d' ->
  (length (snapshots id d') <= 1)%nat /\
  exists e', entries (d_store d') !! id = Some e' /\
    e_total_runs e' + e_remaining_runs e' = e_total_runs e + e_remaining_runs e /\
    0 <= e_remaining_runs e' /\ (e_remaining_runs e' = 0 -> e_enabled e' = false).
Proof.
  intros He Hr Hn Hs Hsteps.
  assert (counted id (e_total_runs e + e_remaining_runs e) d) as Hc.
  { split; [|rewrite Hs; simpl; lia]. exists e. rewrite Hs.
    split_and!; try done; try lia. intros x Hx. by apply elem_of_nil in Hx. }
  destruct (unarmed_counted _ _ _ _ Hsteps Hc) as [(e' & He' & _ & Hb & Hn' & Hd & _) Ho].
  split; [done|]. by exists e'.
Qed.

(** ** After a failure *)

Lemma cooldown_bounds `{Settings} n :
  RETRY_BASE_S <= retry_cooldown_s n <= RETRY_MAX_S /\
  (forall m, n <= m -> retry_cooldown_s n <= retry_cooldown_s m).
Proof.
  assert (forall a b, 0 <= a <= b -> 1 <= Z.shiftl 1 a <= Z.shiftl 1 b) as Hsh.
  { intros a b Hab. rewrite !Z.shiftl_1_l. split; [|apply Z.pow_le_mono_r; lia].
    pose proof (Z.pow_pos_nonneg 2 a ltac:(done) ltac:(lia)). lia. }
  unfold retry_cooldown_s, RETRY_BASE_S, RETRY_MAX_S. split.
  - destruct (Hsh (Z.min (Z.max 0 (n - circuit_break_after)) 16) 16) as [Hlo _]; lia.
  - intros m Hm. destruct (Hsh (Z.min (Z.max 0 (n - circuit_break_after)) 16)
      (Z.min (Z.max 0 (m - circuit_break_after)) 16)) as [Hlo Hhi]; lia.
Qed.

(** Failures delay a recurring task and never end it.  Whatever its callback
    did, a finished fire leaves the entry enabled unless it was the last of
    its countdown; the streak grows by one on an error or a timeout and any
    other outcome resets it; from the threshold on, the next fire is at least
    the cooldown away, which lies between fifteen minutes and a day and does
    not shrink as the streak grows. *)
Theorem failures_only_delay `{Libraries, Zone, Settings} (stamp : string) (now duration : Z)
    (r : callback_result) (f : Flight) (d : Daemon) (e : Entry) :
  entries (d_store d) !! fl_id f = Some e -> e_recurring (fl_entry f) = true ->
  let status := (outcome_of (fl_entry f) r).1.1 in
  let failures := e_consecutive_failures (fl_entry f) + 1 in
  exists e', entries (d_store (fire_end stamp now duration r f d)) !! fl_id f = Some e' /\
    e_total_runs e' = e_total_runs e + 1 /\
    (e_remaining_runs (fl_entry f) <> 1 -> e_enabled e' = e_enabled e) /\
    e_consecutive_failures e' = (if hard_failure status then e_consecutive_failures e + 1 else 0) /\
    (hard_failure status = true -> 0 < circuit_break_after <= failures -> e_remaining_runs (fl_entry f) <> 1 ->
       now + seconds (retry_cooldown_s failures) <= e_next_fire_at e') /\
    RETRY_BASE_S <= retry_cooldown_s failures <= RETRY_MAX_S /\
    (forall m, failures <= m -> retry_cooldown_s failures <= retry_cooldown_s m).
Proof.
  intros He Hr status failures. unfold fire_end. fold status.
  destruct (outcome_of (fl_entry f) r) as [[st error] output] eqn:Eo. simpl in status. subst status.
  set (plan := plan_next now (fl_entry f) st).
  destruct (record_outcome_row stamp (fl_id f) st duration error (p_next plan) (p_decrement plan)
    (p_disable plan) (end_run stamp (fl_run f) st duration output (d_store d)) e He)
    as (e' & He' & _ & R2 & _ & R4 & R5 & R6).
  exists e'. split; [exact He'|]. split; [done|].
  assert (e_remaining_runs (fl_entry f) <> 1 -> p_disable plan = false) as Hdis.
  { intros Hne. unfold plan, plan_next. rewrite Hr.
    assert ((0 <? e_remaining_runs (fl_entry f)) && (e_remaining_runs (fl_entry f) - 1 <=? 0) = false) as ->.
    { destruct (Z.ltb_spec 0 (e_remaining_runs (fl_entry f))); [|done].
      destruct (Z.leb_spec (e_remaining_runs (fl_entry f) - 1) 0); [lia | done]. }
    by destruct (_ && _ && _ && _). }
  split_and!; [intros Hne; rewrite R4, Hdis by done; done | done | | apply cooldown_bounds..].
  intros Hh [Hk Hf] Hne. rewrite R5. specialize (Hdis Hne). unfold plan, plan_next in Hdis |- *.
  rewrite Hr, Hh in Hdis |- *. destruct (Z.ltb_spec 0 circuit_break_after); [|lia].
  destruct (_ && (e_remaining_runs (fl_entry f) - 1 <=? 0)) eqn:Ed.
  - simpl in Hdis. done.
  - simpl. fold failures. destruct (Z.leb_spec circuit_break_after failures); [|lia]. simpl. lia.
Qed.

(** ** Witnesses *)

Definition demo_settings : Settings := {| circuit_break_after := 3; registered := fun _ => true |}.

Definition demo_entry (name trigger : string) (next : Z) (recurring : bool) (remaining : Z) : Entry :=
  mkEntry name trigger next recurring "notify" (Some (JObj [])) EmptyString EmptyString remaining true
    None false 1 None "user" EmptyString EmptyString EmptyString EmptyString None None None None 0 0 0 EmptyString.

Definition counted_entry : Entry := demo_entry "user_ab_water" "every_30m" (seconds 1800000000) true 2.

Definition counted_daemon : Daemon := mkDaemon (upsert "now" counted_entry new_schedule).2 ∅ [] [].

Definition demo_batch : list (Z * Entry) := fetch_due (seconds 1800000000) 100 (d_store counted_daemon).

Lemma countdown_is_exact_witness :
  exists e', entries (d_store (counted_daemon <| d_batch := demo_batch |>)) !! 1 = Some e' /\
    e_total_runs e' + e_remaining_runs e' = 2.
Proof.
  destruct (@countdown_is_exact no_libraries utc demo_settings 1 counted_daemon
    (counted_daemon <| d_batch := demo_batch |>)
    (counted_entry <| e_created_at := "now" |> <| e_updated_at := "now" |>))
    as (_ & e' & He' & Hsum & _).
  - vm_compute. reflexivity.
  - reflexivity.
  - reflexivity.
  - reflexivity.
  - apply rtc_once. left. apply step_tick; reflexivity.
  - exists e'. split; [exact He' | exact Hsum].
Defined.

Definition failing_flight : Flight := mkFlight 1 (counted_entry <| e_consecutive_failures := 4 |>) 1.

Lemma failures_only_delay_witness :
  exists e', entries (d_store (@fire_end no_libraries utc demo_settings "now" (seconds 1800000000) 5 TimedOut
    failing_flight counted_daemon)) !! 1 = Some e' /\
    seconds 1800000000 + seconds 3600 <= e_next_fire_at e'.
Proof.
  destruct (@failures_only_delay no_libraries utc demo_settings "now" (seconds 1800000000) 5 TimedOut
    failing_flight counted_daemon (counted_entry <| e_created_at := "now" |> <| e_updated_at := "now" |>))
    as (e' & He' & _ & _ & _ & Hnext & _).
  - vm_compute. reflexivity.
  - reflexivity.
  - exists e'. split; [exact He'|]. apply Hnext; [reflexivity | split; vm_compute; [reflexivity | discriminate] |].
    vm_compute. discriminate.
Defined.

(** ** An identifier used twice *)

Definition old_timer : Entry := demo_entry "timer_tea_1800000000" "at:2027-01-15T08:00:00+00:00" (seconds 1800000000) false 0.
Definition new_timer : Entry := demo_entry "timer_oven_1800003600" "at:2027-01-15T09:00:00+00:00" (seconds 1800003600) false 0.

(** C38: a timer can be lost.  While the callback of a timer runs its owner cancels
    it and sets another one: the table has no [AUTOINCREMENT], so the new row
    gets the identifier of the deleted one, and the end of the first run is
    recorded on it.  The new timer is left disabled, an hour before its time,
    with a run to its name it never had. *)
Theorem cancelled_timer_takes_the_next_one `{Libraries, Zone, Settings} :
  registered "notify" = true ->
  let d0 := mkDaemon (upsert "t0" old_timer new_schedule).2 ∅ [] [] in
  exists d e, rtc daemon_step d0 d /\
    named "timer_oven_1800003600" (d_store d) = [(1, e)] /\
    e_enabled e = false /\ e_last_status e = Some "success" /\ e_total_runs e = 1 /\
    e_next_fire_at e = seconds 1800003600 /\
    select_rows (runs (d_store d)) (fun _ r => str_eqb (run_entry_name r) "timer_oven_1800003600") = [] /\
    d_batch d = [] /\ d_flights d = [].
Proof.
  intros Hreg d0.
  eexists _, _. split.
  - eapply rtc_l; [apply own_step, (step_tick (seconds 1800000000)); reflexivity|].
    eapply rtc_l; [apply own_step, (step_begin "t1" (seconds 1800000000) 1
      (old_timer <| e_created_at := "t0" |> <| e_updated_at := "t0" |>) [] []); vm_compute; reflexivity|].
    eapply rtc_l; [apply (client_step _ (OpDelete "timer_tea_1800000000"))|].
    eapply rtc_l; [apply (client_step _ (OpUpsert "t2" new_timer))|].
    eapply rtc_l; [apply own_step, (step_end "t3" (seconds 1800000009) 9000 ReturnedNone
      (mkFlight 1 (old_timer <| e_created_at := "t0" |> <| e_updated_at := "t0" |>) 1) [] []);
      [vm_compute; reflexivity | exact Hreg]|].
    apply rtc_refl.
  - vm_compute. split_and!; reflexivity.
Qed.

Lemma cancelled_timer_takes_the_next_one_witness :
  exists d e, rtc (@daemon_step no_libraries utc demo_settings)
      (mkDaemon (upsert "t0" old_timer new_schedule).2 ∅ [] []) d /\
    named "timer_oven_1800003600" (d_store d) = [(1, e)] /\ e_enabled e = false.
Proof.
  destruct (@cancelled_timer_takes_the_next_one no_libraries utc demo_settings) as (d & e & Hs & Hn & He & _).
  - reflexivity.
  - exists d, e. split; [exact Hs|]. split; [exact Hn | exact He].
Defined.
